(** * Brie B2B payments: payment state machine and webhook reconciler

    A shallow embedding of the payment service (services/paymentService.ts),
    the payment and webhook routes (routes/payments.ts, routes/webhooks.ts)
    and the validation helpers (utils/validation.ts, utils/idempotency.ts),
    followed by the properties of the specification.

    Conventions of the embedding.
    - The relational store behind Prisma is a record of tables; a table is
      the list of its rows in insertion order.
    - Amounts are JavaScript numbers, IEEE 754 doubles: a number is held
      as the rational it denotes, and every product the code forms is
      rounded to the nearest double ([Double.mul]).  A [Decimal] column
      gives back through [toNumber()] the number that was written to it.
    - A string is the sequence of its code units, all below 256.
    - Timestamps are milliseconds as [Z]; the store and the process share one
      clock that never runs backwards.
    - Row identifiers come from a counter kept with the store.
    - Code that may throw lives in a state-and-exception monad in which a
      throw keeps every write made before it (the code opens no database
      transaction). *)

From Stdlib Require Import ZArith QArith Qabs Qround List String Ascii Bool.
From Stdlib Require Import Lia Lqa Arith DecimalString DecimalPos Sorted.
Import ListNotations.

Set Implicit Arguments.

Local Open Scope string_scope.
Local Open Scope list_scope.
Local Open Scope nat_scope.

(** Template strings and [+] on strings. *)
Notation "a +++ b" := (String.append a b)
  (at level 60, right associativity).

(* ================================================================== *)
(** * Enumerations of the schema (re-exported by types/index.ts)        *)
(* ================================================================== *)

Module PaymentStatus.
Inductive t := PENDING | PROCESSING | COMPLETED | FAILED.
Definition eqb (a b : t) : bool :=
    match a, b with
    | PENDING, PENDING | PROCESSING, PROCESSING
    | COMPLETED, COMPLETED | FAILED, FAILED => true
    | _, _ => false
    end.
End PaymentStatus.

Module TransactionType.
Inductive t :=
    PAYMENT_IN | EXCHANGE_SGD_TO_USDC | EXCHANGE_USDC_TO_USD | PAYOUT.
Definition eqb (a b : t) : bool :=
    match a, b with
    | PAYMENT_IN, PAYMENT_IN
    | EXCHANGE_SGD_TO_USDC, EXCHANGE_SGD_TO_USDC
    | EXCHANGE_USDC_TO_USD, EXCHANGE_USDC_TO_USD
    | PAYOUT, PAYOUT => true
    | _, _ => false
    end.
End TransactionType.

Module TransactionStatus.
Inductive t := PENDING | CONFIRMED | FAILED.
End TransactionStatus.

(** Modelled from the spec: the vendor status enum is declared in the Prisma
    schema, which is not among the sources; the specification lists it as
    ACTIVE/INACTIVE/... and the code only ever tests for ACTIVE. *)
Module VendorStatus.
Inductive t := ACTIVE | INACTIVE | OTHER (name : string).
Definition is_active (s : t) : bool :=
    match s with ACTIVE => true | _ => false end.
End VendorStatus.

(* ================================================================== *)
(** * JavaScript numbers                                                *)
(* ================================================================== *)

(** IEEE 754 binary64 with the default rounding, on finite values.  A
    double is an integer of at most 53 bits times a power of two that is
    not below [2^-1074]; [round q] is the double nearest to [q], the one
    with the even last bit when two are equally near.  Values of magnitude
    [2^1024] and more, where JavaScript has [Infinity], are beyond what a
    stored amount can reach (an amount is at most 1,000,000 when it is
    accepted, and the code multiplies by factors of at most 1) and are not
    told apart here. *)
Module Double.

Definition pow2 (e : Z) : Q :=
  if (0 <=? e)%Z then inject_Z (2 ^ e) else (/ inject_Z (2 ^ (- e)))%Q.

(** The integer nearest to [q], the even one of two equally near. *)
Definition nearestEven (q : Q) : Z :=
  let f := Qfloor q in
  match (q - inject_Z f ?= 1 # 2)%Q with
  | Lt => f
  | Gt => (f + 1)%Z
  | Eq => if Z.even f then f else (f + 1)%Z
  end.

(** The position of the leading bit of [q], for [q] other than 0: the [b]
    with [2^b <= |q| < 2^(b+1)]. *)
Definition binade (q : Q) : Z :=
  let guess := (Z.log2 (Z.abs (Qnum q)) - Z.log2 (Zpos (Qden q)))%Z in
  if Qle_bool (pow2 guess) (Qabs q) then guess else (guess - 1)%Z.

(** The exponent of the last place of the double nearest to [q]: 53
    significant bits, and no place below [2^-1074]. *)
Definition lastPlace (q : Q) : Z := Z.max (binade q - 52) (-1074).

Definition round (q : Q) : Q :=
  let q := Qred q in
  if Qeq_bool q 0 then 0%Q
  else
    let e := lastPlace q in
    (inject_Z (nearestEven (q / pow2 e)) * pow2 e)%Q.

(** [a * b] on numbers. *)
Definition mul (a b : Q) : Q := round (a * b).

End Double.

Arguments Double.round q : simpl never.
Arguments Double.mul a b : simpl never.

(* ================================================================== *)
(** * Rows                                                              *)
(* ================================================================== *)

Definition Id := nat.
Definition Timestamp := Z.

Module BankAccount.
Record t := mk {
    accountNumber : string;
    routingNumber : string;
    bankName : string;
    accountHolder : string;
    circleAccountId : option string
  }.
End BankAccount.

Module Vendor.
Record t := mk {
    id : Id;
    name : string;
    email : string;
    status : VendorStatus.t;
    bankAccount : option BankAccount.t
  }.
End Vendor.

Module Payment.
Record t := mk {
    id : Id;
    idempotencyKey : string;
    vendorId : Id;
    amountSgd : Q;
    amountUsd : option Q;
    exchangeRate : option Q;
    status : PaymentStatus.t;
    customerReference : option string;
    description : option string;
    circlePaymentId : option string;
    expectedSettlementTime : option Timestamp;
    actualSettlementTime : option Timestamp;
    createdAt : Timestamp;
    updatedAt : Timestamp
  }.

Definition set_status (s : PaymentStatus.t) (p : t) : t :=
    mk p.(id) p.(idempotencyKey) p.(vendorId) p.(amountSgd) p.(amountUsd)
       p.(exchangeRate) s p.(customerReference) p.(description)
       p.(circlePaymentId) p.(expectedSettlementTime)
       p.(actualSettlementTime) p.(createdAt) p.(updatedAt).

Definition set_amountUsd (a : Q) (p : t) : t :=
    mk p.(id) p.(idempotencyKey) p.(vendorId) p.(amountSgd) (Some a)
       p.(exchangeRate) p.(status) p.(customerReference) p.(description)
       p.(circlePaymentId) p.(expectedSettlementTime)
       p.(actualSettlementTime) p.(createdAt) p.(updatedAt).

Definition set_circlePaymentId (c : string) (p : t) : t :=
    mk p.(id) p.(idempotencyKey) p.(vendorId) p.(amountSgd) p.(amountUsd)
       p.(exchangeRate) p.(status) p.(customerReference) p.(description)
       (Some c) p.(expectedSettlementTime)
       p.(actualSettlementTime) p.(createdAt) p.(updatedAt).

Definition set_actualSettlementTime (d : Timestamp) (p : t) : t :=
    mk p.(id) p.(idempotencyKey) p.(vendorId) p.(amountSgd) p.(amountUsd)
       p.(exchangeRate) p.(status) p.(customerReference) p.(description)
       p.(circlePaymentId) p.(expectedSettlementTime)
       (Some d) p.(createdAt) p.(updatedAt).

  (** The store stamps [updatedAt] on every update of a row. *)
Definition touch (d : Timestamp) (p : t) : t :=
    mk p.(id) p.(idempotencyKey) p.(vendorId) p.(amountSgd) p.(amountUsd)
       p.(exchangeRate) p.(status) p.(customerReference) p.(description)
       p.(circlePaymentId) p.(expectedSettlementTime)
       p.(actualSettlementTime) p.(createdAt) d.
End Payment.

Module Transaction.
Record t := mk {
    id : Id;
    paymentId : Id;
    type : TransactionType.t;
    status : TransactionStatus.t;
    amount : Q;
    currency : string;
    fees : option Q;
    feeCurrency : option string;
    circleTransactionId : option string;
    blockchainTxHash : option string;
    createdAt : Timestamp
  }.

Definition set_status (s : TransactionStatus.t) (x : t) : t :=
    mk x.(id) x.(paymentId) x.(type) s x.(amount) x.(currency) x.(fees)
       x.(feeCurrency) x.(circleTransactionId) x.(blockchainTxHash)
       x.(createdAt).

  (** [data: { blockchainTxHash: h }] where [h] may be [undefined], in which
      case Prisma leaves the column alone. *)
Definition set_blockchainTxHash (h : option string) (x : t) : t :=
    mk x.(id) x.(paymentId) x.(type) x.(status) x.(amount) x.(currency)
       x.(fees) x.(feeCurrency) x.(circleTransactionId)
       (match h with Some _ => h | None => x.(blockchainTxHash) end)
       x.(createdAt).

  (** [data: { blockchainTxHash: null }]: the column is emptied. *)
Definition clear_blockchainTxHash (x : t) : t :=
    mk x.(id) x.(paymentId) x.(type) x.(status) x.(amount) x.(currency)
       x.(fees) x.(feeCurrency) x.(circleTransactionId) None x.(createdAt).
End Transaction.

(* ================================================================== *)
(** * JSON values                                                       *)
(* ================================================================== *)

(** What [express.json()] hands to a route as [req.body]: a value
    [JSON.parse] returns.  A number is held as the text [JSON.stringify]
    prints for it; an object is the list of its members in the order
    [JSON.stringify] enumerates them. *)
Module Json.
#[warnings="-register-all"] Inductive t :=
| Null
| Boolean (b : bool)
| Number (text : string)
| Text (s : string)
| Array (items : list t)
| Object (members : list (string * t)).

Fixpoint lookup (key : string) (members : list (string * t)) : option t :=
    match members with
    | [] => None
    | (k, v) :: rest => if String.eqb k key then Some v else lookup key rest
    end.

  (** [value.key] on a value other than [null], for the keys the webhook
      route reads ([Type], [Id], [Data], [id], [transactionHash]): the member
      of an object, and [undefined] -- here [None] -- on an object without
      it and on a number, a boolean, a string or an array, none of which has
      a property of these names. *)
Definition get (key : string) (v : t) : option t :=
    match v with
    | Object members => lookup key members
    | _ => None
    end.
End Json.

(** The webhook body as Circle sends it, [CircleWebhookPayload] of
    types/index.ts, with the fields the handlers read from [Data]: [Type],
    [Id] and [Data.id] are strings, [Data.transactionHash] is a string or
    absent.  The route itself takes any JSON value for a body; what it does
    with one is [Untyped.webhooks_post_circle] below. *)
Module EventData.
Record t := mk {
    id : string;
    transactionHash : option string
  }.

Definition toJson (d : t) : Json.t :=
    Json.Object
      (("id", Json.Text d.(id))
       :: match d.(transactionHash) with
          | Some h => [("transactionHash", Json.Text h)]
          | None => []
          end).
End EventData.

Module CircleWebhookPayload.
Record t := mk {
    Type_ : string;
    Id_ : string;
    Data : EventData.t
  }.

Definition toJson (b : t) : Json.t :=
    Json.Object
      [ ("Type", Json.Text b.(Type_)); ("Id", Json.Text b.(Id_));
        ("Data", EventData.toJson b.(Data)) ].
End CircleWebhookPayload.

(** A payload of the declared shape is used as the JSON value it is. *)
Coercion CircleWebhookPayload.toJson : CircleWebhookPayload.t >-> Json.t.

Module WebhookEvent.
Record t := mk {
    id : Id;
    circleEventId : string;
    eventType : string;
    payload : Json.t;
    processed : bool;
    processedAt : option Timestamp;
    relatedPaymentId : option Id;
    relatedTransactionId : option Id
  }.

Definition set_payload (b : Json.t) (e : t) : t :=
    mk e.(id) e.(circleEventId) e.(eventType) b e.(processed)
       e.(processedAt) e.(relatedPaymentId) e.(relatedTransactionId).

Definition set_processed (d : Timestamp) (e : t) : t :=
    mk e.(id) e.(circleEventId) e.(eventType) e.(payload) true
       (Some d) e.(relatedPaymentId) e.(relatedTransactionId).

Definition set_relatedPaymentId (p : Id) (e : t) : t :=
    mk e.(id) e.(circleEventId) e.(eventType) e.(payload) e.(processed)
       e.(processedAt) (Some p) e.(relatedTransactionId).

Definition set_relatedTransactionId (x : Id) (e : t) : t :=
    mk e.(id) e.(circleEventId) e.(eventType) e.(payload) e.(processed)
       e.(processedAt) e.(relatedPaymentId) (Some x).
End WebhookEvent.

(* ================================================================== *)
(** * The store and the monad of the service code                       *)
(* ================================================================== *)

Record World := mkWorld {
  vendors : list Vendor.t;
  payments : list Payment.t;
  transactions : list Transaction.t;
  webhookEvents : list WebhookEvent.t;
  clock : Timestamp;
  nextId : Id;
  detached : list Id
}.

Definition with_payments (ps : list Payment.t) (w : World) : World :=
  mkWorld w.(vendors) ps w.(transactions) w.(webhookEvents)
          w.(clock) w.(nextId) w.(detached).

Definition with_transactions (xs : list Transaction.t) (w : World) : World :=
  mkWorld w.(vendors) w.(payments) xs w.(webhookEvents)
          w.(clock) w.(nextId) w.(detached).

Definition with_webhookEvents (es : list WebhookEvent.t) (w : World) : World :=
  mkWorld w.(vendors) w.(payments) w.(transactions) es
          w.(clock) w.(nextId) w.(detached).

Definition with_vendors (vs : list Vendor.t) (w : World) : World :=
  mkWorld vs w.(payments) w.(transactions) w.(webhookEvents)
          w.(clock) w.(nextId) w.(detached).

Definition with_clock (c : Timestamp) (w : World) : World :=
  mkWorld w.(vendors) w.(payments) w.(transactions) w.(webhookEvents)
          c w.(nextId) w.(detached).

Definition with_nextId (n : Id) (w : World) : World :=
  mkWorld w.(vendors) w.(payments) w.(transactions) w.(webhookEvents)
          w.(clock) n w.(detached).

Definition with_detached (l : list Id) (w : World) : World :=
  mkWorld w.(vendors) w.(payments) w.(transactions) w.(webhookEvents)
          w.(clock) w.(nextId) l.

(** A JavaScript [Error] is represented by its message. *)
Definition Error := string.

Inductive Outcome (A : Type) : Type :=
| Return (a : A)
| Throw (e : Error).
Arguments Return {A} a.
Arguments Throw {A} e.

Definition M (A : Type) : Type := World -> Outcome A * World.

Definition ret {A} (a : A) : M A := fun w => (Return a, w).

Definition throw {A} (e : Error) : M A := fun w => (Throw e, w).

Definition bind {A B} (c : M A) (k : A -> M B) : M B :=
  fun w =>
    match c w with
    | (Return a, w1) => k a w1
    | (Throw e, w1) => (Throw e, w1)
    end.

(** [try { c } catch (error) { h error }]: the handler runs in the state the
    failing computation left behind. *)
Definition try_catch {A} (c : M A) (h : Error -> M A) : M A :=
  fun w =>
    match c w with
    | (Return a, w1) => (Return a, w1)
    | (Throw e, w1) => h e w1
    end.

Definition gets {A} (f : World -> A) : M A := fun w => (Return (f w), w).

Definition modify (f : World -> World) : M unit := fun w => (Return tt, f w).

Declare Scope monad_scope.
Delimit Scope monad_scope with monad.
Notation "x <- c ;; k" := (bind c (fun x => k))
  (at level 61, c at next level, right associativity) : monad_scope.
Notation "c ;; k" := (bind c (fun _ => k))
  (at level 61, right associativity) : monad_scope.
Open Scope monad_scope.

(** [new Date()] and [Date.now()]. *)
Definition now : M Timestamp := gets clock.

(** [await new Promise(resolve => setTimeout(resolve, ms))]. *)
Definition sleep (ms : Z) : M unit :=
  modify (fun w => with_clock (w.(clock) + ms)%Z w).

Definition freshId : M Id :=
  fun w => (Return w.(nextId), with_nextId (S w.(nextId)) w).

(** Decimal rendering of a number inside a template string. *)
Definition showZ (z : Z) : string := NilZero.string_of_int (Z.to_int z).

(* ================================================================== *)
(** * The Prisma calls the code makes                                   *)
(* ================================================================== *)

Module prisma.

Definition update_where {A} (sel : A -> bool) (f : A -> A) (l : list A)
    : list A :=
    map (fun x => if sel x then f x else x) l.

Module payment.
Definition by_id (i : Id) (p : Payment.t) : bool :=
      Nat.eqb p.(Payment.id) i.
Definition by_key (k : string) (p : Payment.t) : bool :=
      String.eqb p.(Payment.idempotencyKey) k.
Definition by_circlePaymentId (c : string) (p : Payment.t) : bool :=
      match p.(Payment.circlePaymentId) with
      | Some c' => String.eqb c' c
      | None => false
      end.

    (** [findUnique] and [findFirst] resolve to [null] when no row matches. *)
Definition find (sel : Payment.t -> bool) : M (option Payment.t) :=
      gets (fun w => List.find sel w.(payments)).

    (** [create]: the store assigns the id and both timestamps; the unique
        constraint on [idempotencyKey] rejects a second row with the key. *)
Definition create (idempotencyKey : string) (vendorId : Id)
        (amountSgd amountUsd exchangeRate : Q)
        (customerReference description : option string)
        (expectedSettlementTime : Timestamp) : M Payment.t :=
      existing <- find (by_key idempotencyKey) ;;
      match existing with
      | Some _ =>
          throw "Unique constraint failed on the fields: (`idempotencyKey`)"
      | None =>
          i <- freshId ;;
          d <- now ;;
          let row :=
            Payment.mk i idempotencyKey vendorId amountSgd (Some amountUsd)
              (Some exchangeRate) PaymentStatus.PENDING customerReference
              description None (Some expectedSettlementTime) None d d in
          modify (fun w => with_payments (w.(payments) ++ [row]) w) ;;
          ret row
      end.

    (** [update({ where: { id }, data })] rejects when the row is absent. *)
Definition update (i : Id) (f : Payment.t -> Payment.t) : M unit :=
      existing <- find (by_id i) ;;
      match existing with
      | None => throw "Record to update not found."
      | Some _ =>
          d <- now ;;
          modify (fun w =>
            with_payments
              (update_where (by_id i) (fun p => Payment.touch d (f p))
                            w.(payments)) w)
      end.
End payment.

Module transaction.
Definition by_id (i : Id) (x : Transaction.t) : bool :=
      Nat.eqb x.(Transaction.id) i.
Definition by_paymentId (i : Id) (x : Transaction.t) : bool :=
      Nat.eqb x.(Transaction.paymentId) i.
Definition by_type (ty : TransactionType.t) (x : Transaction.t) : bool :=
      TransactionType.eqb x.(Transaction.type) ty.
Definition by_circleTransactionId (c : string) (x : Transaction.t)
      : bool :=
      match x.(Transaction.circleTransactionId) with
      | Some c' => String.eqb c' c
      | None => false
      end.

Definition find (sel : Transaction.t -> bool) : M (option Transaction.t) :=
      gets (fun w => List.find sel w.(transactions)).

Definition findMany (sel : Transaction.t -> bool)
      : M (list Transaction.t) :=
      gets (fun w => List.filter sel w.(transactions)).

Definition create (paymentId : Id) (type : TransactionType.t)
        (status : TransactionStatus.t) (amount : Q) (currency : string)
        (circleTransactionId : string) (fees : option Q)
        (feeCurrency : option string) : M Transaction.t :=
      i <- freshId ;;
      d <- now ;;
      let row :=
        Transaction.mk i paymentId type status amount currency fees
          feeCurrency (Some circleTransactionId) None d in
      modify (fun w => with_transactions (w.(transactions) ++ [row]) w) ;;
      ret row.

Definition update (i : Id) (f : Transaction.t -> Transaction.t)
      : M unit :=
      existing <- find (by_id i) ;;
      match existing with
      | None => throw "Record to update not found."
      | Some _ =>
          modify (fun w =>
            with_transactions (update_where (by_id i) f w.(transactions)) w)
      end.

Definition updateMany (sel : Transaction.t -> bool)
        (f : Transaction.t -> Transaction.t) : M unit :=
      modify (fun w =>
        with_transactions (update_where sel f w.(transactions)) w).
End transaction.

Module vendor.
Definition find (sel : Vendor.t -> bool) : M (option Vendor.t) :=
      gets (fun w => List.find sel w.(vendors)).
Definition by_id (i : Id) (v : Vendor.t) : bool :=
      Nat.eqb v.(Vendor.id) i.
End vendor.

Module webhookEvent.
Definition by_id (i : Id) (e : WebhookEvent.t) : bool :=
      Nat.eqb e.(WebhookEvent.id) i.
Definition by_circleEventId (c : string) (e : WebhookEvent.t) : bool :=
      String.eqb e.(WebhookEvent.circleEventId) c.

Definition find (sel : WebhookEvent.t -> bool)
      : M (option WebhookEvent.t) :=
      gets (fun w => List.find sel w.(webhookEvents)).

    (** [upsert({ where: { circleEventId }, update: { payload }, create })]. *)
Definition upsert (circleEventId eventType : string)
        (payload : Json.t) : M WebhookEvent.t :=
      existing <- find (by_circleEventId circleEventId) ;;
      match existing with
      | Some e =>
          modify (fun w =>
            with_webhookEvents
              (update_where (by_circleEventId circleEventId)
                            (WebhookEvent.set_payload payload)
                            w.(webhookEvents)) w) ;;
          ret (WebhookEvent.set_payload payload e)
      | None =>
          i <- freshId ;;
          let row :=
            WebhookEvent.mk i circleEventId eventType payload false
                            None None None in
          modify (fun w =>
            with_webhookEvents (w.(webhookEvents) ++ [row]) w) ;;
          ret row
      end.

Definition update (i : Id) (f : WebhookEvent.t -> WebhookEvent.t)
      : M unit :=
      existing <- find (by_id i) ;;
      match existing with
      | None => throw "Record to update not found."
      | Some _ =>
          modify (fun w =>
            with_webhookEvents
              (update_where (by_id i) f w.(webhookEvents)) w)
      end.
End webhookEvent.

End prisma.

(* ================================================================== *)
(** * services/paymentService.ts                                        *)
(* ================================================================== *)

Module CreatePaymentRequest.
Record t := mk {
  vendorId : Id;
  amountSgd : Q;
  customerReference : option string;
  description : option string
}.
End CreatePaymentRequest.

Module CreatePaymentResponse.
Record t := mk {
  paymentId : Id;
  status : PaymentStatus.t;
  amountSgd : Q;
  estimatedAmountUsd : option Q;
  expectedSettlementTime : option Timestamp;
  idempotencyKey : string
}.
End CreatePaymentResponse.

Module TransactionSummary.
Record t := mk {
  id : Id;
  type : TransactionType.t;
  status : TransactionStatus.t;
  amount : Q;
  currency : string;
  fees : option Q;
  blockchainTxHash : option string;
  createdAt : Timestamp
}.
End TransactionSummary.

Module PaymentStatusResponse.
Record t := mk {
  paymentId : Id;
  status : PaymentStatus.t;
  amountSgd : Q;
  amountUsd : option Q;
  exchangeRate : option Q;
  vendor : Id * string * string;
  transactions : list TransactionSummary.t;
  createdAt : Timestamp;
  updatedAt : Timestamp;
  expectedSettlementTime : option Timestamp;
  actualSettlementTime : option Timestamp
}.
End PaymentStatusResponse.

(** What the mocked provider calls draw from [Math.random()]. *)
Record Entropy := mkEntropy {
  intentSuffix : string;
  proofHash : string
}.

(** The store calls of the processing flow.  A run of the flow is given a
    plan saying which of them reject, and with which message.  The first
    fourteen are the awaited calls of the try block of [processPaymentFlow],
    in the order the flow reaches them; [CatchSetFailed] is the awaited
    update of its catch block, [HandlerSetFailed] the update the [.catch]
    handler of [initiatePayment] starts and does not await. *)
Inductive CallSite :=
| SetProcessing
| IntentFindPayment | IntentStoreCircleId | IntentCreateTransaction
| ConfirmUpdateMany
| SgdUsdcFindPayment | SgdUsdcCreateTransaction
| UsdcUsdFindPayment | UsdcUsdCreateTransaction | UsdcUsdUpdatePayment
| PayoutFindPayment | PayoutCreateTransaction | PayoutUpdatePayment
| SetCompleted
| CatchSetFailed
| HandlerSetFailed.

Definition Faults := CallSite -> option Error.

Definition noFaults : Faults := fun _ => None.

Definition call {A} (F : Faults) (site : CallSite) (op : M A) : M A :=
  fun w =>
    match F site with
    | Some e => (Throw e, w)
    | None => op w
    end.

Module PaymentService.

(** [0.74], [1.0], [0.74]: the literals as the doubles they denote. *)
Definition mockRates : list (string * Q) :=
  [ ("SGD-USDC", Double.round (74 # 100)); ("USDC-USD", 1%Q);
    ("SGD-USD", Double.round (74 # 100)) ].

Fixpoint lookup (key : string) (table : list (string * Q)) : option Q :=
  match table with
  | [] => None
  | (k, v) :: rest => if String.eqb k key then Some v else lookup key rest
  end.

(** [mockRates[key] || 1.0]: a missing or zero entry yields 1. *)
Definition getExchangeRate (fromCurrency toCurrency : string) : Q :=
  let key := fromCurrency +++ "-" +++ toCurrency in
  match lookup key mockRates with
  | Some r => if Qeq_bool r 0 then 1%Q else r
  | None => 1%Q
  end.

(** [0.001] and [0.002], the fee literals of the exchanges and of the
    payout. *)
Definition feeRate : Q := Double.round (1 # 1000).
Definition payoutFeeRate : Q := Double.round (2 # 1000).

Definition updatePaymentStatus (paymentId : Id) (status : PaymentStatus.t)
  : M unit :=
  prisma.payment.update paymentId (Payment.set_status status).

Definition wrap (prefix : string) (e : Error) : Error := prefix +++ e.

Definition createCirclePaymentIntent (F : Faults) (rnd : Entropy)
    (paymentId : Id) : M string :=
  payment <- call F IntentFindPayment
               (prisma.payment.find (prisma.payment.by_id paymentId)) ;;
  match payment with
  | None => throw "Payment not found"
  | Some payment =>
      try_catch
        (d <- now ;;
         let id := "pi_" +++ showZ d +++ "_" +++ rnd.(intentSuffix) in
         call F IntentStoreCircleId
           (prisma.payment.update paymentId (Payment.set_circlePaymentId id)) ;;
         call F IntentCreateTransaction
           (prisma.transaction.create paymentId TransactionType.PAYMENT_IN
              TransactionStatus.PENDING payment.(Payment.amountSgd) "SGD"
              id None None) ;;
         ret id)
        (fun error =>
           throw (wrap "Failed to create Circle payment intent: " error))
  end.

Definition simulatePaymentConfirmation (F : Faults) (rnd : Entropy)
    (paymentId : Id) (circlePaymentId : string) : M unit :=
  sleep 2000 ;;
  call F ConfirmUpdateMany
    (prisma.transaction.updateMany
       (fun x => prisma.transaction.by_paymentId paymentId x
                 && prisma.transaction.by_type TransactionType.PAYMENT_IN x
                 && prisma.transaction.by_circleTransactionId
                      circlePaymentId x)
       (fun x => Transaction.set_blockchainTxHash
                   (Some ("0x" +++ rnd.(proofHash)))
                   (Transaction.set_status TransactionStatus.CONFIRMED x))).

Definition exchangeSgdToUsdc (F : Faults) (paymentId : Id) : M unit :=
  payment <- call F SgdUsdcFindPayment
               (prisma.payment.find (prisma.payment.by_id paymentId)) ;;
  match payment with
  | None => throw "Payment not found"
  | Some payment =>
      let rate := getExchangeRate "SGD" "USDC" in
      let usdcAmount := Double.mul payment.(Payment.amountSgd) rate in
      d <- now ;;
      call F SgdUsdcCreateTransaction
        (prisma.transaction.create paymentId
           TransactionType.EXCHANGE_SGD_TO_USDC TransactionStatus.CONFIRMED
           usdcAmount "USDC" ("exchange-sgd-usdc-" +++ showZ d)
           (Some (Double.mul usdcAmount feeRate)) (Some "USDC")) ;;
      ret tt
  end.

(** [findUnique({ where: { id }, include: { transactions: { where } } })]:
    the payment together with its transactions of one type. *)
Definition findWithTransactions (paymentId : Id) (ty : TransactionType.t)
  : M (option (Payment.t * list Transaction.t)) :=
  payment <- prisma.payment.find (prisma.payment.by_id paymentId) ;;
  match payment with
  | None => ret None
  | Some payment =>
      txs <- prisma.transaction.findMany
               (fun x => prisma.transaction.by_paymentId paymentId x
                         && prisma.transaction.by_type ty x) ;;
      ret (Some (payment, txs))
  end.

Definition exchangeUsdcToUsd (F : Faults) (paymentId : Id) : M unit :=
  payment <- call F UsdcUsdFindPayment
               (findWithTransactions paymentId
                  TransactionType.EXCHANGE_SGD_TO_USDC) ;;
  match payment with
  | None => throw "Payment not found"
  | Some (_, []) => throw "USDC transaction not found"
  | Some (_, usdcTransaction :: _) =>
      let rate := getExchangeRate "USDC" "USD" in
      let usdAmount :=
        Double.mul usdcTransaction.(Transaction.amount) rate in
      d <- now ;;
      call F UsdcUsdCreateTransaction
        (prisma.transaction.create paymentId
           TransactionType.EXCHANGE_USDC_TO_USD TransactionStatus.CONFIRMED
           usdAmount "USD" ("exchange-usdc-usd-" +++ showZ d)
           (Some (Double.mul usdAmount feeRate)) (Some "USD")) ;;
      call F UsdcUsdUpdatePayment
        (prisma.payment.update paymentId (Payment.set_amountUsd usdAmount))
  end.

Definition payoutToVendor (F : Faults) (paymentId : Id) : M unit :=
  payment <- call F PayoutFindPayment
               (findWithTransactions paymentId
                  TransactionType.EXCHANGE_USDC_TO_USD) ;;
  match payment with
  | None => throw "Payment not found"
  | Some (payment, txs) =>
      vendor <- prisma.vendor.find
                  (prisma.vendor.by_id payment.(Payment.vendorId)) ;;
      match vendor with
      | None => throw "Cannot read properties of null (reading 'bankAccount')"
      | Some vendor =>
          match vendor.(Vendor.bankAccount) with
          | None => throw "Vendor bank account not found"
          | Some _ =>
              match txs with
              | [] => throw "USD transaction not found"
              | usdTransaction :: _ =>
                  try_catch
                    (d <- now ;;
                     let simulatedPayoutId := "payout-" +++ showZ d in
                     call F PayoutCreateTransaction
                       (prisma.transaction.create paymentId
                          TransactionType.PAYOUT TransactionStatus.CONFIRMED
                          usdTransaction.(Transaction.amount) "USD"
                          simulatedPayoutId
                          (Some (Double.mul
                                   usdTransaction.(Transaction.amount)
                                   payoutFeeRate))
                          (Some "USD")) ;;
                     d' <- now ;;
                     call F PayoutUpdatePayment
                       (prisma.payment.update paymentId
                          (Payment.set_actualSettlementTime d')))
                    (fun error => throw (wrap "Payout failed: " error))
              end
          end
      end
  end.

Definition processPaymentFlow (F : Faults) (rnd : Entropy) (paymentId : Id)
  : M unit :=
  try_catch
    (call F SetProcessing
       (updatePaymentStatus paymentId PaymentStatus.PROCESSING) ;;
     sgdPaymentIntent <- createCirclePaymentIntent F rnd paymentId ;;
     simulatePaymentConfirmation F rnd paymentId sgdPaymentIntent ;;
     exchangeSgdToUsdc F paymentId ;;
     exchangeUsdcToUsd F paymentId ;;
     payoutToVendor F paymentId ;;
     call F SetCompleted
       (updatePaymentStatus paymentId PaymentStatus.COMPLETED))
    (fun error =>
       call F CatchSetFailed
         (updatePaymentStatus paymentId PaymentStatus.FAILED) ;;
       throw error).

(** [this.processPaymentFlow(payment.id).catch(...)] is not awaited: the flow
    is handed to the event loop and [initiatePayment] goes on to return. *)
Definition spawn (paymentId : Id) : M unit :=
  modify (fun w => with_detached (w.(detached) ++ [paymentId]) w).

Definition respond (payment : Payment.t) : CreatePaymentResponse.t :=
  CreatePaymentResponse.mk
    payment.(Payment.id) payment.(Payment.status)
    payment.(Payment.amountSgd) payment.(Payment.amountUsd)
    payment.(Payment.expectedSettlementTime)
    payment.(Payment.idempotencyKey).

(** [providedIdempotencyKey || generateIdempotencyKey()]: an absent or empty
    key is replaced by [uuid], the value the generator returns on this call. *)
Definition effectiveKey (providedIdempotencyKey : option string)
    (uuid : string) : string :=
  match providedIdempotencyKey with
  | Some k => if String.eqb k "" then uuid else k
  | None => uuid
  end.

Definition initiatePayment (uuid : string) (request : CreatePaymentRequest.t)
    (providedIdempotencyKey : option string) : M CreatePaymentResponse.t :=
  let idempotencyKey := effectiveKey providedIdempotencyKey uuid in
  try_catch
    (existingPayment <- prisma.payment.find
                          (prisma.payment.by_key idempotencyKey) ;;
     match existingPayment with
     | Some existingPayment => ret (respond existingPayment)
     | None =>
         vendor <- prisma.vendor.find
                     (fun v =>
                        prisma.vendor.by_id
                          request.(CreatePaymentRequest.vendorId) v
                        && VendorStatus.is_active v.(Vendor.status)) ;;
         match vendor with
         | None => throw "Vendor not found or inactive"
         | Some vendor =>
             match vendor.(Vendor.bankAccount) with
             | None => throw "Vendor bank account not configured"
             | Some _ =>
                 let sgdToUsdcRate := getExchangeRate "SGD" "USDC" in
                 let usdcToUsdRate := getExchangeRate "USDC" "USD" in
                 let combinedRate :=
                   Double.mul sgdToUsdcRate usdcToUsdRate in
                 let estimatedAmountUsd :=
                   Double.mul request.(CreatePaymentRequest.amountSgd)
                              combinedRate in
                 d <- now ;;
                 let expectedSettlementTime := (d + 30 * 60 * 1000)%Z in
                 payment <- prisma.payment.create idempotencyKey
                              request.(CreatePaymentRequest.vendorId)
                              request.(CreatePaymentRequest.amountSgd)
                              estimatedAmountUsd combinedRate
                              request.(CreatePaymentRequest.customerReference)
                              request.(CreatePaymentRequest.description)
                              expectedSettlementTime ;;
                 spawn payment.(Payment.id) ;;
                 ret (respond payment)
             end
         end
     end)
    (fun error => throw (wrap "Payment initiation failed: " error)).

(** The detached flow with the [.catch] handler [initiatePayment] attaches:
    the error is logged, an update of the payment to FAILED is started once
    more, and nothing is rethrown.  The update is not awaited: when it
    rejects, the store is left as it was and the handler has returned all
    the same. *)
Definition detachedFlow (F : Faults) (rnd : Entropy) (paymentId : Id)
  : M unit :=
  try_catch (processPaymentFlow F rnd paymentId)
    (fun _ => fun w =>
       (Return tt,
        snd (call F HandlerSetFailed
               (updatePaymentStatus paymentId PaymentStatus.FAILED) w))).

(** [orderBy: { createdAt: 'asc' }], rows of equal time kept in table
    order. *)
Fixpoint insertByCreatedAt (x : Transaction.t) (l : list Transaction.t)
  : list Transaction.t :=
  match l with
  | [] => [x]
  | y :: rest =>
      if (x.(Transaction.createdAt) <=? y.(Transaction.createdAt))%Z
      then x :: y :: rest
      else y :: insertByCreatedAt x rest
  end.

Definition orderByCreatedAt (l : list Transaction.t) : list Transaction.t :=
  fold_right insertByCreatedAt [] l.

Definition summary (tx : Transaction.t) : TransactionSummary.t :=
  TransactionSummary.mk
    tx.(Transaction.id) tx.(Transaction.type) tx.(Transaction.status)
    tx.(Transaction.amount) tx.(Transaction.currency) tx.(Transaction.fees)
    tx.(Transaction.blockchainTxHash) tx.(Transaction.createdAt).

Definition getPaymentStatus (paymentId : Id) : M PaymentStatusResponse.t :=
  payment <- prisma.payment.find (prisma.payment.by_id paymentId) ;;
  match payment with
  | None => throw "Payment not found"
  | Some payment =>
      vendor <- prisma.vendor.find
                  (prisma.vendor.by_id payment.(Payment.vendorId)) ;;
      txs <- prisma.transaction.findMany
               (prisma.transaction.by_paymentId paymentId) ;;
      match vendor with
      | None => throw "Cannot read properties of null (reading 'id')"
      | Some vendor =>
          ret (PaymentStatusResponse.mk
                 payment.(Payment.id) payment.(Payment.status)
                 payment.(Payment.amountSgd) payment.(Payment.amountUsd)
                 payment.(Payment.exchangeRate)
                 (vendor.(Vendor.id), vendor.(Vendor.name),
                  vendor.(Vendor.email))
                 (map summary (orderByCreatedAt txs))
                 payment.(Payment.createdAt) payment.(Payment.updatedAt)
                 payment.(Payment.expectedSettlementTime)
                 payment.(Payment.actualSettlementTime))
      end
  end.

End PaymentService.

(* ================================================================== *)
(** * utils/validation.ts, utils/idempotency.ts                         *)
(* ================================================================== *)

(** A value found in a parsed JSON body.  Numbers are exact rationals;
    arrays and objects are not told apart. *)
Inductive JsValue :=
| JsUndefined
| JsNull
| JsBool (b : bool)
| JsNumber (q : Q)
| JsString (s : string)
| JsObject.

Definition truthy (v : JsValue) : bool :=
  match v with
  | JsUndefined | JsNull => false
  | JsBool b => b
  | JsNumber q => negb (Qeq_bool q 0)
  | JsString s => negb (String.eqb s "")
  | JsObject => true
  end.

(** [amount > 0 && Number.isFinite(amount) && amount <= 1000000];
    [Number.isFinite] is false on everything that is not a number. *)
Definition validateAmount (amount : JsValue) : bool :=
  match amount with
  | JsNumber q => negb (Qle_bool q 0) && true && Qle_bool q 1000000
  | _ => false
  end.

(** [parseFloat] of a number is that number; the route reaches it only after
    [validateAmount] has rejected every other value. *)
Definition parseFloat (v : JsValue) : Q :=
  match v with
  | JsNumber q => q
  | _ => 0%Q
  end.

Definition isHexDigit (c : ascii) : bool :=
  let n := nat_of_ascii c in
  (48 <=? n) && (n <=? 57) || (97 <=? n) && (n <=? 102)
  || (65 <=? n) && (n <=? 70).

(** The pieces the two UUID patterns are made of. *)
Inductive Piece :=
| Hex (count : nat)
| Dash
| OneOf (chars : string).

Fixpoint takeHex (n : nat) (s : string) : option string :=
  match n with
  | O => Some s
  | S n' =>
      match s with
      | String c rest => if isHexDigit c then takeHex n' rest else None
      | EmptyString => None
      end
  end.

Fixpoint member (c : ascii) (chars : string) : bool :=
  match chars with
  | EmptyString => false
  | String d rest => Ascii.eqb c d || member c rest
  end.

(** Anchored match, [/^...$/]. *)
Fixpoint matches (pattern : list Piece) (s : string) : bool :=
  match pattern with
  | [] => String.eqb s ""
  | Hex n :: more =>
      match takeHex n s with
      | Some rest => matches more rest
      | None => false
      end
  | Dash :: more =>
      match s with
      | String c rest => Ascii.eqb c "-" && matches more rest
      | EmptyString => false
      end
  | OneOf chars :: more =>
      match s with
      | String c rest => member c chars && matches more rest
      | EmptyString => false
      end
  end.

(** [/^[0-9a-f]{8}-[0-9a-f]{4}-4[0-9a-f]{3}-[89ab][0-9a-f]{3}-[0-9a-f]{12}$/i] *)
Definition uuidRegex : list Piece :=
  [ Hex 8; Dash; Hex 4; Dash; OneOf "4"; Hex 3; Dash; OneOf "89abAB"; Hex 3;
    Dash; Hex 12 ].

Definition validateIdempotencyKey (key : string) : bool :=
  matches uuidRegex key.

(* ================================================================== *)
(** * routes/payments.ts                                                *)
(* ================================================================== *)

Inductive Body :=
| ErrorBody (error : string)
| FailureBody (error : string)
| PaymentBody (data : CreatePaymentResponse.t)
| StatusBody (status : string).

Record Response := mkResponse {
  statusCode : nat;
  json : Body
}.

Module PaymentsRequest.
Record t := mk {
  vendorId : option Id;
  amountSgd : JsValue;
  customerReference : option string;
  description : option string;
  idempotencyKeyHeader : option string
}.
End PaymentsRequest.

(** [providedIdempotencyKey && ...]: an absent or empty header is falsy. *)
Definition provided (header : option string) : bool :=
  match header with
  | Some k => negb (String.eqb k "")
  | None => false
  end.

Definition headerValue (header : option string) : string :=
  match header with Some k => k | None => "" end.

(** [router.post('/')]. *)
Definition payments_post (uuid : string) (req : PaymentsRequest.t)
  : World -> Response * World :=
  fun w =>
    match req.(PaymentsRequest.vendorId) with
    | None => (mkResponse 400 (ErrorBody "vendorId is required"), w)
    | Some vendorId =>
        let amountSgd := req.(PaymentsRequest.amountSgd) in
        let providedIdempotencyKey :=
          req.(PaymentsRequest.idempotencyKeyHeader) in
        if negb (truthy amountSgd) || negb (validateAmount amountSgd) then
          (mkResponse 400
             (ErrorBody
                "Valid amountSgd is required (must be > 0 and <= 1,000,000)"),
           w)
        else if provided providedIdempotencyKey
                && negb (validateIdempotencyKey
                           (headerValue providedIdempotencyKey)) then
          (mkResponse 400
             (ErrorBody "Invalid idempotency key format (must be UUID)"), w)
        else
          match PaymentService.initiatePayment uuid
                  (CreatePaymentRequest.mk vendorId (parseFloat amountSgd)
                     req.(PaymentsRequest.customerReference)
                     req.(PaymentsRequest.description))
                  providedIdempotencyKey w with
          | (Return payment, w') => (mkResponse 201 (PaymentBody payment), w')
          | (Throw error, w') => (mkResponse 400 (FailureBody error), w')
          end
    end.

(* ================================================================== *)
(** * Node's [crypto] and [Buffer], as far as the webhook route uses them *)
(* ================================================================== *)

Module crypto.

Definition Buffer := list Z.

(** [Buffer.from(s)], [hmac.update(s)]: the UTF-8 encoding of the string,
    one byte for a code unit below 128 and two for the others. *)
Definition utf8 (s : string) : Buffer :=
  flat_map
    (fun c =>
       let n := Z.of_nat (nat_of_ascii c) in
       if (n <? 128)%Z then [n]
       else [(192 + n / 64)%Z; (128 + n mod 64)%Z])
    (list_ascii_of_string s).

Definition wrap32 (x : Z) : Z := (x mod 2 ^ 32)%Z.
Definition add32 (x y : Z) : Z := wrap32 (x + y).
Definition rotr (n x : Z) : Z :=
  Z.lor (Z.shiftr x n) (wrap32 (Z.shiftl x (32 - n))).
Definition not32 (x : Z) : Z := Z.lxor x 0xffffffff.

Definition Ch (x y z : Z) : Z := Z.lxor (Z.land x y) (Z.land (not32 x) z).
Definition Maj (x y z : Z) : Z :=
  Z.lxor (Z.land x y) (Z.lxor (Z.land x z) (Z.land y z)).
Definition bigSigma0 (x : Z) : Z :=
  Z.lxor (rotr 2 x) (Z.lxor (rotr 13 x) (rotr 22 x)).
Definition bigSigma1 (x : Z) : Z :=
  Z.lxor (rotr 6 x) (Z.lxor (rotr 11 x) (rotr 25 x)).
Definition smallSigma0 (x : Z) : Z :=
  Z.lxor (rotr 7 x) (Z.lxor (rotr 18 x) (Z.shiftr x 3)).
Definition smallSigma1 (x : Z) : Z :=
  Z.lxor (rotr 17 x) (Z.lxor (rotr 19 x) (Z.shiftr x 10)).

(** The constants of FIPS 180-4, from their definition: the first 32 bits of
    the fractional parts of the cube roots (round constants) and square roots
    (initial state) of the first primes. *)
Definition isPrime (n : Z) : bool :=
  forallb (fun d => negb (n mod d =? 0)%Z)
          (map Z.of_nat (seq 2 (Z.to_nat n - 2))).

Definition primes : list Z :=
  filter isPrime (map Z.of_nat (seq 2 310)).

(** The integer cube root, built bit by bit from the top. *)
Definition cubeRoot (n : Z) : Z :=
  fold_left
    (fun r bit =>
       let r' := (r + 2 ^ Z.of_nat bit)%Z in
       if (r' * r' * r' <=? n)%Z then r' else r)
    (rev (seq 0 40)) 0%Z.

Definition K256 : list Z :=
  Eval vm_compute in
    map (fun p => wrap32 (cubeRoot (p * 2 ^ 96))) primes.

Definition H256 : list Z :=
  Eval vm_compute in
    map (fun p => wrap32 (Z.sqrt (p * 2 ^ 64))) (firstn 8 primes).

(** The [n] low bytes of a number, most significant first. *)
Fixpoint bytesBE (n : nat) (x : Z) : Buffer :=
  match n with
  | O => []
  | S n' => bytesBE n' (Z.shiftr x 8) ++ [(x mod 256)%Z]
  end.

Definition pad (msg : Buffer) : Buffer :=
  let len := Z.of_nat (List.length msg) in
  let zeros := Z.to_nat ((55 - len) mod 64) in
  msg ++ [0x80%Z] ++ repeat 0%Z zeros ++ bytesBE 8 (8 * len).

Fixpoint words (n : nat) (bs : Buffer) : list Z :=
  match n, bs with
  | S n', a :: b :: c :: d :: rest =>
      (a * 2 ^ 24 + b * 2 ^ 16 + c * 2 ^ 8 + d)%Z :: words n' rest
  | _, _ => []
  end.

(** The message schedule; [recent] holds the last sixteen words, newest
    first. *)
Fixpoint extend (n : nat) (recent : list Z) : list Z :=
  match n with
  | O => []
  | S n' =>
      let w :=
        add32 (add32 (smallSigma1 (nth 1 recent 0%Z)) (nth 6 recent 0%Z))
              (add32 (smallSigma0 (nth 14 recent 0%Z)) (nth 15 recent 0%Z)) in
      w :: extend n' (w :: firstn 15 recent)
  end.

Definition schedule (block : list Z) : list Z :=
  block ++ extend 48 (rev block).

Definition round (st : list Z) (kw : Z * Z) : list Z :=
  match st with
  | [a; b; c; d; e; f; g; h] =>
      let t1 :=
        add32 (add32 (add32 h (bigSigma1 e)) (add32 (Ch e f g) (fst kw)))
              (snd kw) in
      let t2 := add32 (bigSigma0 a) (Maj a b c) in
      [add32 t1 t2; a; b; c; add32 d t1; e; f; g]
  | _ => st
  end.

Definition compress (h : list Z) (block : list Z) : list Z :=
  let st := fold_left round (combine K256 (schedule block)) h in
  map (fun p => add32 (fst p) (snd p)) (combine h st).

Fixpoint blocks (n : nat) (ws : list Z) : list (list Z) :=
  match n with
  | O => []
  | S n' =>
      match ws with
      | [] => []
      | _ => firstn 16 ws :: blocks n' (skipn 16 ws)
      end
  end.

Definition sha256 (msg : Buffer) : Buffer :=
  let padded := pad msg in
  let ws := words (List.length padded) padded in
  let h := fold_left compress (blocks (List.length ws) ws) H256 in
  flat_map (bytesBE 4) h.

Definition xorPad (p : Z) (key : Buffer) : Buffer :=
  map (fun b => Z.lxor b p) key.

(** [crypto.createHmac('sha256', key).update(msg).digest()]. *)
Definition hmacSha256 (key msg : Buffer) : Buffer :=
  let k := if (64 <? List.length key) then sha256 key else key in
  let k := k ++ repeat 0%Z (64 - List.length k) in
  sha256 (xorPad 0x5c k ++ sha256 (xorPad 0x36 k ++ msg)).

Definition hexDigit (n : Z) : ascii :=
  nth (Z.to_nat n) (list_ascii_of_string "0123456789abcdef") "0"%char.

(** [buffer.toString('hex')], [digest('hex')]. *)
Definition toHex (b : Buffer) : string :=
  string_of_list_ascii
    (flat_map (fun x => [hexDigit (x / 16); hexDigit (x mod 16)]) b).

Definition unhex (c : ascii) : option Z :=
  let n := nat_of_ascii c in
  if (48 <=? n) && (n <=? 57) then Some (Z.of_nat (n - 48))
  else if (97 <=? n) && (n <=? 102) then Some (Z.of_nat (n - 87))
  else if (65 <=? n) && (n <=? 70) then Some (Z.of_nat (n - 55))
  else None.

(** [Buffer.from(s, 'hex')]: pairs of hex digits are decoded until the first
    pair that is not one; a trailing single character is dropped. *)
Fixpoint fromHex (s : string) : Buffer :=
  match s with
  | String a (String b rest) =>
      match unhex a, unhex b with
      | Some x, Some y => (16 * x + y)%Z :: fromHex rest
      | _, _ => []
      end
  | _ => []
  end.

Fixpoint equalBytes (a b : Buffer) : bool :=
  match a, b with
  | [], [] => true
  | x :: a', y :: b' => Z.eqb x y && equalBytes a' b'
  | _, _ => false
  end.

(** [crypto.timingSafeEqual(a, b)] throws a [RangeError] on buffers of
    different length. *)
Definition timingSafeEqual (a b : Buffer) : Outcome bool :=
  if List.length a =? List.length b then Return (equalBytes a b)
  else Throw "Input buffers must have the same byte length".

End crypto.

(* ================================================================== *)
(** * routes/webhooks.ts                                                *)
(* ================================================================== *)

Module JSON.

Definition hex4 (n : nat) : string :=
  "00" +++ crypto.toHex [Z.of_nat n].

(** [QuoteJSONString] on one character. *)
Definition escape (c : ascii) : string :=
  let n := nat_of_ascii c in
  if n =? 34 then "\" +++ String c ""
  else if n =? 92 then "\\"
  else if n =? 8 then "\b"
  else if n =? 9 then "\t"
  else if n =? 10 then "\n"
  else if n =? 12 then "\f"
  else if n =? 13 then "\r"
  else if n <? 32 then "\u" +++ hex4 n
  else String c "".

Fixpoint escapeAll (s : string) : string :=
  match s with
  | EmptyString => ""
  | String c rest => escape c +++ escapeAll rest
  end.

Definition quote (s : string) : string :=
  String (ascii_of_nat 34) (escapeAll s) +++ String (ascii_of_nat 34) "".

Definition member (key value : string) : string :=
  quote key +++ ":" +++ value.

(** [JSON.stringify(value)] on a value [JSON.parse] returned. *)
Fixpoint stringify (value : Json.t) : string :=
  match value with
  | Json.Null => "null"
  | Json.Boolean b => if b then "true" else "false"
  | Json.Number text => text
  | Json.Text s => quote s
  | Json.Array items =>
      "[" +++ String.concat "," (map stringify items) +++ "]"
  | Json.Object members =>
      "{"
      +++ String.concat ","
            (map (fun m => member (fst m) (stringify (snd m))) members)
      +++ "}"
  end.

End JSON.

Module WebhookRequest.
Record t := mk {
  xSignature : option string;
  rawBody : string;
  body : CircleWebhookPayload.t
}.
End WebhookRequest.

Definition liftOutcome {A} (o : Outcome A) : M A := fun w => (o, w).

(** [verifyWebhookSignature(payload, signature, secret)].  The signature is
    [undefined] when the header is absent, and [Buffer.from(undefined, 'hex')]
    throws a [TypeError]. *)
Definition verifyWebhookSignature (payload : string)
    (signature : option string) (secret : string) : Outcome bool :=
  if String.eqb secret "" then Return true
  else
    let expectedSignature :=
      crypto.toHex (crypto.hmacSha256 (crypto.utf8 secret)
                                      (crypto.utf8 payload)) in
    match signature with
    | None =>
        Throw "The first argument must be of type string or an instance of Buffer"
    | Some signature =>
        crypto.timingSafeEqual (crypto.fromHex signature)
                               (crypto.fromHex expectedSignature)
    end.

Definition handlePaymentIntentSucceeded (eventData : EventData.t)
    (webhookEventId : Id) : M unit :=
  let circlePaymentId := eventData.(EventData.id) in
  payment <- prisma.payment.find
               (prisma.payment.by_circlePaymentId circlePaymentId) ;;
  match payment with
  | None => ret tt
  | Some payment =>
      prisma.transaction.updateMany
        (fun x => prisma.transaction.by_paymentId payment.(Payment.id) x
                  && prisma.transaction.by_circleTransactionId
                       circlePaymentId x)
        (fun x => Transaction.set_blockchainTxHash
                    eventData.(EventData.transactionHash)
                    (Transaction.set_status TransactionStatus.CONFIRMED x)) ;;
      prisma.webhookEvent.update webhookEventId
        (WebhookEvent.set_relatedPaymentId payment.(Payment.id))
  end.

Definition handlePaymentIntentFailed (eventData : EventData.t)
    (webhookEventId : Id) : M unit :=
  let circlePaymentId := eventData.(EventData.id) in
  payment <- prisma.payment.find
               (prisma.payment.by_circlePaymentId circlePaymentId) ;;
  match payment with
  | None => ret tt
  | Some payment =>
      prisma.transaction.updateMany
        (fun x => prisma.transaction.by_paymentId payment.(Payment.id) x
                  && prisma.transaction.by_circleTransactionId
                       circlePaymentId x)
        (Transaction.set_status TransactionStatus.FAILED) ;;
      prisma.payment.update payment.(Payment.id)
        (Payment.set_status PaymentStatus.FAILED) ;;
      prisma.webhookEvent.update webhookEventId
        (WebhookEvent.set_relatedPaymentId payment.(Payment.id))
  end.

Definition handleTransferCompleted (eventData : EventData.t)
    (webhookEventId : Id) : M unit :=
  let circleTransferId := eventData.(EventData.id) in
  transaction <- prisma.transaction.find
                   (prisma.transaction.by_circleTransactionId
                      circleTransferId) ;;
  match transaction with
  | None => ret tt
  | Some transaction =>
      prisma.transaction.update transaction.(Transaction.id)
        (fun x => Transaction.set_blockchainTxHash
                    eventData.(EventData.transactionHash)
                    (Transaction.set_status TransactionStatus.CONFIRMED x)) ;;
      prisma.webhookEvent.update webhookEventId
        (WebhookEvent.set_relatedTransactionId transaction.(Transaction.id))
  end.

Definition handleTransferFailed (eventData : EventData.t)
    (webhookEventId : Id) : M unit :=
  let circleTransferId := eventData.(EventData.id) in
  transaction <- prisma.transaction.find
                   (prisma.transaction.by_circleTransactionId
                      circleTransferId) ;;
  match transaction with
  | None => ret tt
  | Some transaction =>
      prisma.transaction.update transaction.(Transaction.id)
        (Transaction.set_status TransactionStatus.FAILED) ;;
      (if TransactionType.eqb transaction.(Transaction.type)
                              TransactionType.PAYOUT
       then prisma.payment.update transaction.(Transaction.paymentId)
              (Payment.set_status PaymentStatus.FAILED)
       else ret tt) ;;
      prisma.webhookEvent.update webhookEventId
        (WebhookEvent.set_relatedTransactionId transaction.(Transaction.id))
  end.

Definition handlePayoutCompleted (eventData : EventData.t)
    (webhookEventId : Id) : M unit :=
  let circlePayoutId := eventData.(EventData.id) in
  transaction <- prisma.transaction.find
                   (prisma.transaction.by_circleTransactionId
                      circlePayoutId) ;;
  match transaction with
  | None => ret tt
  | Some transaction =>
      prisma.transaction.update transaction.(Transaction.id)
        (Transaction.set_status TransactionStatus.CONFIRMED) ;;
      d <- now ;;
      prisma.payment.update transaction.(Transaction.paymentId)
        (fun p => Payment.set_actualSettlementTime d
                    (Payment.set_status PaymentStatus.COMPLETED p)) ;;
      prisma.webhookEvent.update webhookEventId
        (WebhookEvent.set_relatedTransactionId transaction.(Transaction.id))
  end.

Definition handlePayoutFailed (eventData : EventData.t)
    (webhookEventId : Id) : M unit :=
  let circlePayoutId := eventData.(EventData.id) in
  transaction <- prisma.transaction.find
                   (prisma.transaction.by_circleTransactionId
                      circlePayoutId) ;;
  match transaction with
  | None => ret tt
  | Some transaction =>
      prisma.transaction.update transaction.(Transaction.id)
        (Transaction.set_status TransactionStatus.FAILED) ;;
      prisma.payment.update transaction.(Transaction.paymentId)
        (Payment.set_status PaymentStatus.FAILED) ;;
      prisma.webhookEvent.update webhookEventId
        (WebhookEvent.set_relatedTransactionId transaction.(Transaction.id))
  end.

(** The [switch] on the event type; its [catch] logs and rethrows. *)
Definition processWebhookEvent (eventType : string) (eventData : EventData.t)
    (webhookEventId : Id) : M unit :=
  try_catch
    (if String.eqb eventType "payment_intent.succeeded" then
       handlePaymentIntentSucceeded eventData webhookEventId
     else if String.eqb eventType "payment_intent.failed" then
       handlePaymentIntentFailed eventData webhookEventId
     else if String.eqb eventType "transfer.completed" then
       handleTransferCompleted eventData webhookEventId
     else if String.eqb eventType "transfer.failed" then
       handleTransferFailed eventData webhookEventId
     else if String.eqb eventType "payout.completed" then
       handlePayoutCompleted eventData webhookEventId
     else if String.eqb eventType "payout.failed" then
       handlePayoutFailed eventData webhookEventId
     else ret tt)
    (fun error => throw error).

(** [circleConfig.webhookSecret && !verifyWebhookSignature(...)]. *)
Definition signatureRejected (webhookSecret : option string)
    (payload : string) (signature : option string) : M bool :=
  match webhookSecret with
  | None => ret false
  | Some secret =>
      if String.eqb secret "" then ret false
      else
        verified <- liftOutcome
                      (verifyWebhookSignature payload signature secret) ;;
        ret (negb verified)
  end.

Definition alreadyProcessed (existingEvent : option WebhookEvent.t) : bool :=
  match existingEvent with
  | Some e => e.(WebhookEvent.processed)
  | None => false
  end.

(** [router.post('/circle')]. *)
Definition webhooks_post_circle (webhookSecret : option string)
    (req : WebhookRequest.t) : World -> Response * World :=
  fun w =>
    let attempt : M Response :=
      let signature := req.(WebhookRequest.xSignature) in
      let payload := JSON.stringify req.(WebhookRequest.body) in
      rejected <- signatureRejected webhookSecret payload signature ;;
      if rejected then ret (mkResponse 401 (ErrorBody "Invalid signature"))
      else
        let webhookData := req.(WebhookRequest.body) in
        let eventType := webhookData.(CircleWebhookPayload.Type_) in
        let eventId := webhookData.(CircleWebhookPayload.Id_) in
        let eventData := webhookData.(CircleWebhookPayload.Data) in
        existingEvent <- prisma.webhookEvent.find
                           (prisma.webhookEvent.by_circleEventId eventId) ;;
        if alreadyProcessed existingEvent then
          ret (mkResponse 200 (StatusBody "already_processed"))
        else
          webhookEvent <- prisma.webhookEvent.upsert eventId eventType
                            webhookData ;;
          processWebhookEvent eventType eventData
            webhookEvent.(WebhookEvent.id) ;;
          d <- now ;;
          prisma.webhookEvent.update webhookEvent.(WebhookEvent.id)
            (WebhookEvent.set_processed d) ;;
          ret (mkResponse 200 (StatusBody "processed"))
    in
    match attempt w with
    | (Return response, w') => (response, w')
    | (Throw _, w') =>
        (mkResponse 500 (ErrorBody "Webhook processing failed"), w')
    end.

(* ================================================================== *)
(** * routes/webhooks.ts on any JSON body                               *)
(* ================================================================== *)

(** TypeScript types are erased: the route and its handlers run on whatever
    [express.json()] parsed.  This module is the code on any JSON value;
    the definitions above are what it does on a body of the declared
    shape ([typed_route_is_untyped] below). *)
Module Untyped.

Module Request.
Record t := mk {
  xSignature : option string;
  rawBody : string;
  body : Json.t
}.
End Request.

(** [base.key], where [base] may be [undefined] ([None]): a [TypeError]
    when [base] is [undefined] or [null]. *)
Definition read (key : string) (base : option Json.t) : M (option Json.t) :=
  match base with
  | None =>
      throw ("Cannot read properties of undefined (reading '" +++ key
             +++ "')")
  | Some Json.Null =>
      throw ("Cannot read properties of null (reading '" +++ key +++ "')")
  | Some value => ret (Json.get key value)
  end.

(** Modelled from the spec: the Prisma client is not among the sources.
    Where a nullable string column is named in [where] or [data], the
    client takes [undefined], [null] and a string as written out below,
    rejects a number, a boolean and an array, and reads an object as a
    filter (in [where]) or as an update operation (in [data]).  How it
    reads objects is left open: a [Client] says it -- [None] when the
    client rejects the object -- and every property stated of this module
    holds for every client. *)
Record Client := mkClient {
  filter : list (string * Json.t) -> option (option string -> bool);
  operation : list (string * Json.t) -> option (option string)
}.

(** A client that rejects every object. *)
Definition plainClient : Client := mkClient (fun _ => None) (fun _ => None).

(** A condition on a nullable string column. *)
Inductive Where :=
| Unconditional
| IsNull
| Equals (s : string)
| Filter (sel : option string -> bool).

(** [where: { column: value }]: [undefined] leaves the condition out,
    [null] asks for an empty column, a string for that content. *)
Definition whereOf (client : Client) (value : option Json.t)
  : option Where :=
  match value with
  | None => Some Unconditional
  | Some Json.Null => Some IsNull
  | Some (Json.Text s) => Some (Equals s)
  | Some (Json.Object members) => option_map Filter (filter client members)
  | Some _ => None
  end.

Definition holds (condition : Where) (column : option string) : bool :=
  match condition with
  | Unconditional => true
  | IsNull => match column with None => true | Some _ => false end
  | Equals s =>
      match column with Some c => String.eqb c s | None => false end
  | Filter sel => sel column
  end.

(** What a call writes to a nullable string column. *)
Inductive Data :=
| Unchanged
| Becomes (content : option string).

(** [data: { column: value }]: [undefined] leaves the column alone, [null]
    empties it, a string is stored. *)
Definition dataOf (client : Client) (value : option Json.t) : option Data :=
  match value with
  | None => Some Unchanged
  | Some Json.Null => Some (Becomes None)
  | Some (Json.Text s) => Some (Becomes (Some s))
  | Some (Json.Object members) =>
      option_map Becomes (operation client members)
  | Some _ => None
  end.

Definition write_blockchainTxHash (data : Data) (x : Transaction.t)
  : Transaction.t :=
  match data with
  | Unchanged => Transaction.set_blockchainTxHash None x
  | Becomes (Some h) => Transaction.set_blockchainTxHash (Some h) x
  | Becomes None => Transaction.clear_blockchainTxHash x
  end.

(** Where a required string is expected -- the unique [circleEventId] of a
    [findUnique], the [eventType] of a [create] -- only a string will do. *)
Definition stringOf (value : option Json.t) : option string :=
  match value with
  | Some (Json.Text s) => Some s
  | _ => None
  end.

(** The client validates the arguments of a call before it runs it. *)
Definition validated {A} (argument : option A) : M A :=
  match argument with
  | Some a => ret a
  | None => throw "Invalid `prisma` invocation: Argument validation failed"
  end.

Definition handlePaymentIntentSucceeded (client : Client)
    (eventData : option Json.t) (webhookEventId : Id) : M unit :=
  circlePaymentId <- read "id" eventData ;;
  condition <- validated (whereOf client circlePaymentId) ;;
  payment <- prisma.payment.find
               (fun p => holds condition p.(Payment.circlePaymentId)) ;;
  match payment with
  | None => ret tt
  | Some payment =>
      transactionHash <- read "transactionHash" eventData ;;
      data <- validated (dataOf client transactionHash) ;;
      prisma.transaction.updateMany
        (fun x => prisma.transaction.by_paymentId payment.(Payment.id) x
                  && holds condition x.(Transaction.circleTransactionId))
        (fun x => write_blockchainTxHash data
                    (Transaction.set_status TransactionStatus.CONFIRMED x)) ;;
      prisma.webhookEvent.update webhookEventId
        (WebhookEvent.set_relatedPaymentId payment.(Payment.id))
  end.

Definition handlePaymentIntentFailed (client : Client)
    (eventData : option Json.t) (webhookEventId : Id) : M unit :=
  circlePaymentId <- read "id" eventData ;;
  condition <- validated (whereOf client circlePaymentId) ;;
  payment <- prisma.payment.find
               (fun p => holds condition p.(Payment.circlePaymentId)) ;;
  match payment with
  | None => ret tt
  | Some payment =>
      prisma.transaction.updateMany
        (fun x => prisma.transaction.by_paymentId payment.(Payment.id) x
                  && holds condition x.(Transaction.circleTransactionId))
        (Transaction.set_status TransactionStatus.FAILED) ;;
      prisma.payment.update payment.(Payment.id)
        (Payment.set_status PaymentStatus.FAILED) ;;
      prisma.webhookEvent.update webhookEventId
        (WebhookEvent.set_relatedPaymentId payment.(Payment.id))
  end.

Definition handleTransferCompleted (client : Client)
    (eventData : option Json.t) (webhookEventId : Id) : M unit :=
  circleTransferId <- read "id" eventData ;;
  condition <- validated (whereOf client circleTransferId) ;;
  transaction <- prisma.transaction.find
                   (fun x => holds condition
                               x.(Transaction.circleTransactionId)) ;;
  match transaction with
  | None => ret tt
  | Some transaction =>
      transactionHash <- read "transactionHash" eventData ;;
      data <- validated (dataOf client transactionHash) ;;
      prisma.transaction.update transaction.(Transaction.id)
        (fun x => write_blockchainTxHash data
                    (Transaction.set_status TransactionStatus.CONFIRMED x)) ;;
      prisma.webhookEvent.update webhookEventId
        (WebhookEvent.set_relatedTransactionId transaction.(Transaction.id))
  end.

Definition handleTransferFailed (client : Client)
    (eventData : option Json.t) (webhookEventId : Id) : M unit :=
  circleTransferId <- read "id" eventData ;;
  condition <- validated (whereOf client circleTransferId) ;;
  transaction <- prisma.transaction.find
                   (fun x => holds condition
                               x.(Transaction.circleTransactionId)) ;;
  match transaction with
  | None => ret tt
  | Some transaction =>
      prisma.transaction.update transaction.(Transaction.id)
        (Transaction.set_status TransactionStatus.FAILED) ;;
      (if TransactionType.eqb transaction.(Transaction.type)
                              TransactionType.PAYOUT
       then prisma.payment.update transaction.(Transaction.paymentId)
              (Payment.set_status PaymentStatus.FAILED)
       else ret tt) ;;
      prisma.webhookEvent.update webhookEventId
        (WebhookEvent.set_relatedTransactionId transaction.(Transaction.id))
  end.

Definition handlePayoutCompleted (client : Client)
    (eventData : option Json.t) (webhookEventId : Id) : M unit :=
  circlePayoutId <- read "id" eventData ;;
  condition <- validated (whereOf client circlePayoutId) ;;
  transaction <- prisma.transaction.find
                   (fun x => holds condition
                               x.(Transaction.circleTransactionId)) ;;
  match transaction with
  | None => ret tt
  | Some transaction =>
      prisma.transaction.update transaction.(Transaction.id)
        (Transaction.set_status TransactionStatus.CONFIRMED) ;;
      d <- now ;;
      prisma.payment.update transaction.(Transaction.paymentId)
        (fun p => Payment.set_actualSettlementTime d
                    (Payment.set_status PaymentStatus.COMPLETED p)) ;;
      prisma.webhookEvent.update webhookEventId
        (WebhookEvent.set_relatedTransactionId transaction.(Transaction.id))
  end.

Definition handlePayoutFailed (client : Client)
    (eventData : option Json.t) (webhookEventId : Id) : M unit :=
  circlePayoutId <- read "id" eventData ;;
  condition <- validated (whereOf client circlePayoutId) ;;
  transaction <- prisma.transaction.find
                   (fun x => holds condition
                               x.(Transaction.circleTransactionId)) ;;
  match transaction with
  | None => ret tt
  | Some transaction =>
      prisma.transaction.update transaction.(Transaction.id)
        (Transaction.set_status TransactionStatus.FAILED) ;;
      prisma.payment.update transaction.(Transaction.paymentId)
        (Payment.set_status PaymentStatus.FAILED) ;;
      prisma.webhookEvent.update webhookEventId
        (WebhookEvent.set_relatedTransactionId transaction.(Transaction.id))
  end.

(** The [switch] on the event type; its [catch] logs and rethrows. *)
Definition processWebhookEvent (client : Client) (eventType : string)
    (eventData : option Json.t) (webhookEventId : Id) : M unit :=
  try_catch
    (if String.eqb eventType "payment_intent.succeeded" then
       handlePaymentIntentSucceeded client eventData webhookEventId
     else if String.eqb eventType "payment_intent.failed" then
       handlePaymentIntentFailed client eventData webhookEventId
     else if String.eqb eventType "transfer.completed" then
       handleTransferCompleted client eventData webhookEventId
     else if String.eqb eventType "transfer.failed" then
       handleTransferFailed client eventData webhookEventId
     else if String.eqb eventType "payout.completed" then
       handlePayoutCompleted client eventData webhookEventId
     else if String.eqb eventType "payout.failed" then
       handlePayoutFailed client eventData webhookEventId
     else ret tt)
    (fun error => throw error).

(** [router.post('/circle')].  The event id goes to [findUnique] and the
    event type to the [create] of the [upsert], which take strings only. *)
Definition webhooks_post_circle (client : Client)
    (webhookSecret : option string) (req : Request.t)
  : World -> Response * World :=
  fun w =>
    let attempt : M Response :=
      let signature := req.(Request.xSignature) in
      let payload := JSON.stringify req.(Request.body) in
      rejected <- signatureRejected webhookSecret payload signature ;;
      if rejected then ret (mkResponse 401 (ErrorBody "Invalid signature"))
      else
        let webhookData := req.(Request.body) in
        eventType <- read "Type" (Some webhookData) ;;
        eventId <- read "Id" (Some webhookData) ;;
        eventData <- read "Data" (Some webhookData) ;;
        eventId <- validated (stringOf eventId) ;;
        existingEvent <- prisma.webhookEvent.find
                           (prisma.webhookEvent.by_circleEventId eventId) ;;
        if alreadyProcessed existingEvent then
          ret (mkResponse 200 (StatusBody "already_processed"))
        else
          eventType <- validated (stringOf eventType) ;;
          webhookEvent <- prisma.webhookEvent.upsert eventId eventType
                            webhookData ;;
          processWebhookEvent client eventType eventData
            webhookEvent.(WebhookEvent.id) ;;
          d <- now ;;
          prisma.webhookEvent.update webhookEvent.(WebhookEvent.id)
            (WebhookEvent.set_processed d) ;;
          ret (mkResponse 200 (StatusBody "processed"))
    in
    match attempt w with
    | (Return response, w') => (response, w')
    | (Throw _, w') =>
        (mkResponse 500 (ErrorBody "Webhook processing failed"), w')
    end.

(** A request of the declared shape, as the route receives it. *)
Definition ofTyped (req : WebhookRequest.t) : Request.t :=
  Request.mk req.(WebhookRequest.xSignature) req.(WebhookRequest.rawBody)
             req.(WebhookRequest.body).

End Untyped.

(* ================================================================== *)
(** * The running system                                                *)
(* ================================================================== *)

(** What can happen to the world: a vendor appears or changes status (the
    vendor routes), a payment is initiated, a detached flow runs, a webhook
    arrives -- of the declared shape ([OpWebhook]) or with any JSON body
    ([OpIngest]) --, time passes. *)
Inductive Op :=
| OpCreateVendor (name email : string) (bankAccount : BankAccount.t)
| OpVendorStatus (vendorId : Id) (status : VendorStatus.t)
| OpInitiate (uuid : string) (req : PaymentsRequest.t)
| OpFlow (F : Faults) (rnd : Entropy) (paymentId : Id)
| OpWebhook (webhookSecret : option string) (req : WebhookRequest.t)
| OpIngest (client : Untyped.Client) (webhookSecret : option string)
           (req : Untyped.Request.t)
| OpTick (ms : N).

Definition createVendor (name email : string) (bankAccount : BankAccount.t)
  : M unit :=
  i <- freshId ;;
  modify (fun w =>
    with_vendors
      (w.(vendors)
       ++ [Vendor.mk i name email VendorStatus.ACTIVE (Some bankAccount)]) w).

Definition set_vendor_status (s : VendorStatus.t) (v : Vendor.t) : Vendor.t :=
  Vendor.mk v.(Vendor.id) v.(Vendor.name) v.(Vendor.email) s
            v.(Vendor.bankAccount).

Definition updateVendorStatus (vendorId : Id) (status : VendorStatus.t)
  : M unit :=
  modify (fun w =>
    with_vendors
      (prisma.update_where (prisma.vendor.by_id vendorId)
                           (set_vendor_status status) w.(vendors)) w).

Fixpoint remove_first (i : Id) (l : list Id) : list Id :=
  match l with
  | [] => []
  | j :: rest => if Nat.eqb j i then rest else j :: remove_first i rest
  end.

Definition exec (op : Op) (w : World) : World :=
  match op with
  | OpCreateVendor name email bankAccount =>
      snd (createVendor name email bankAccount w)
  | OpVendorStatus vendorId status =>
      snd (updateVendorStatus vendorId status w)
  | OpInitiate uuid req => snd (payments_post uuid req w)
  | OpFlow F rnd paymentId =>
      if existsb (Nat.eqb paymentId) w.(detached) then
        snd (PaymentService.detachedFlow F rnd paymentId
               (with_detached (remove_first paymentId w.(detached)) w))
      else w
  | OpWebhook webhookSecret req =>
      snd (webhooks_post_circle webhookSecret req w)
  | OpIngest client webhookSecret req =>
      snd (Untyped.webhooks_post_circle client webhookSecret req w)
  | OpTick ms => with_clock (w.(clock) + Z.of_N ms)%Z w
  end.

Definition run (ops : list Op) (w : World) : World :=
  fold_left (fun w op => exec op w) ops w.

Definition emptyWorld : World := mkWorld [] [] [] [] 0%Z 0 [].

Definition reachable (w : World) : Prop :=
  exists (start : Timestamp) (ops : list Op),
    w = run ops (with_clock start emptyWorld).

(* ================================================================== *)
(** * Vocabulary of the specification                                   *)
(* ================================================================== *)

(** "UUID-shaped": five groups of 8, 4, 4, 4 and 12 hex digits. *)
Definition uuidShape : list Piece :=
  [ Hex 8; Dash; Hex 4; Dash; Hex 4; Dash; Hex 4; Dash; Hex 12 ].

Definition uuidShaped (key : string) : bool := matches uuidShape key.

Definition amountError : Body :=
  ErrorBody "Valid amountSgd is required (must be > 0 and <= 1,000,000)".

(** The world of the examples: one active vendor with a bank account. *)
Definition exampleBank : BankAccount.t :=
  BankAccount.mk "1234567890" "021000021" "Test Bank" "Test Vendor Co" None.

Definition exampleStart : Timestamp := 1700000000000%Z.

Definition exampleWorld : World :=
  run [OpCreateVendor "Test Vendor Co" "test@vendor.com" exampleBank]
      (with_clock exampleStart emptyWorld).

Definition exampleKey : string := "550e8400-e29b-41d4-a716-446655440000".

Definition exampleRequest (amount : Q) (header : option string)
  : PaymentsRequest.t :=
  PaymentsRequest.mk (Some 0) (JsNumber amount) (Some "INV-2024-001") None
                     header.

(** The specification's [VendorUnavailable]: the two rejections
    [initiatePayment] raises about the vendor. *)
Definition VendorUnavailable (e : Error) : Prop :=
  e = "Payment initiation failed: Vendor not found or inactive"
  \/ e = "Payment initiation failed: Vendor bank account not configured".

(** No row of the vendor table with this id is both ACTIVE and equipped with
    a bank account. *)
Definition vendorUnusable (vendorId : Id) (w : World) : Prop :=
  forall v, In v w.(vendors) -> v.(Vendor.id) = vendorId ->
            v.(Vendor.status) <> VendorStatus.ACTIVE
            \/ v.(Vendor.bankAccount) = None.

Definition keyIsFresh (key : string) (w : World) : Prop :=
  List.find (prisma.payment.by_key key) w.(payments) = None.

Definition inactiveVendorWorld : World :=
  run [OpVendorStatus 0 VendorStatus.INACTIVE] exampleWorld.

(** The signature gate lets the request through. *)
Definition signaturePasses (webhookSecret : option string)
    (req : WebhookRequest.t) : Prop :=
  forall w,
    signatureRejected webhookSecret
      (JSON.stringify req.(WebhookRequest.body))
      req.(WebhookRequest.xSignature) w
    = (Return false, w).

(** The event id of the request has no row yet, or one not yet processed. *)
Definition notYetProcessed (req : WebhookRequest.t) (w : World) : Prop :=
  alreadyProcessed
    (List.find
       (prisma.webhookEvent.by_circleEventId
          req.(WebhookRequest.body).(CircleWebhookPayload.Id_))
       w.(webhookEvents)) = false.

Definition eventCorrelationId (req : WebhookRequest.t) : string :=
  req.(WebhookRequest.body).(CircleWebhookPayload.Data).(EventData.id).

Definition eventTypeOf (req : WebhookRequest.t) : string :=
  req.(WebhookRequest.body).(CircleWebhookPayload.Type_).

(** The transaction [findFirst({ where: { circleTransactionId } })] returns. *)
Definition matchedTransaction (req : WebhookRequest.t) (w : World)
  : option Transaction.t :=
  List.find (prisma.transaction.by_circleTransactionId
               (eventCorrelationId req)) w.(transactions).

Definition paymentById (paymentId : Id) (w : World) : option Payment.t :=
  List.find (prisma.payment.by_id paymentId) w.(payments).

Definition transactionById (i : Id) (w : World) : option Transaction.t :=
  List.find (prisma.transaction.by_id i) w.(transactions).

Definition processedResponse : Response :=
  mkResponse 200 (StatusBody "processed").

Definition failureResponse : Response :=
  mkResponse 500 (ErrorBody "Webhook processing failed").

(** How the route ends once the event row is stored as [ev] in [w1]. *)
Definition finishEvent (req : WebhookRequest.t) (ev : WebhookEvent.t)
    (w1 : World) : Response * World :=
  match processWebhookEvent (eventTypeOf req)
          req.(WebhookRequest.body).(CircleWebhookPayload.Data)
          ev.(WebhookEvent.id) w1 with
  | (Return _, w2) =>
      match prisma.webhookEvent.update ev.(WebhookEvent.id)
              (WebhookEvent.set_processed w2.(clock)) w2 with
      | (Return _, w3) => (processedResponse, w3)
      | (Throw _, w3) => (failureResponse, w3)
      end
  | (Throw _, w2) => (failureResponse, w2)
  end.

Definition exampleEntropy : Entropy := mkEntropy "k3j9x0a1b" "9f2c44e1".

Definition initiatedWorld : World :=
  run [OpInitiate exampleKey (exampleRequest 1000 (Some exampleKey))]
      exampleWorld.

(** The example payment, carried to completion by its flow. *)
Definition completedWorld : World :=
  run [OpFlow noFaults exampleEntropy 1] initiatedWorld.

(** The example payment when the last update of the flow is rejected: four
    transactions are recorded and the payment is FAILED. *)
Definition lastStepFaults : Faults :=
  fun site =>
    match site with
    | SetCompleted => Some "Can't reach database server"
    | _ => None
    end.

Definition failedWorld : World :=
  run [OpFlow lastStepFaults exampleEntropy 1; OpTick 60000] initiatedWorld.

Definition webhook (eventType eventId correlationId : string)
  : WebhookRequest.t :=
  let body :=
    CircleWebhookPayload.mk eventType eventId
                            (EventData.mk correlationId None) in
  WebhookRequest.mk None (JSON.stringify body) body.

(* ================================================================== *)
(** * Properties kept by the code                                       *)
(* ================================================================== *)

(** [c] keeps [I]: from a world in [I], whether [c] returns or throws, it
    leaves a world in [I]. *)
Definition keeps (I : World -> Prop) {A} (c : M A) : Prop :=
  forall w, I w -> I (snd (c w)).

(** Two versions of a transaction row that differ at most in status and
    proof hash. *)
Definition sameTransaction (x y : Transaction.t) : Prop :=
  y.(Transaction.id) = x.(Transaction.id)
  /\ y.(Transaction.paymentId) = x.(Transaction.paymentId)
  /\ y.(Transaction.type) = x.(Transaction.type)
  /\ y.(Transaction.amount) = x.(Transaction.amount)
  /\ y.(Transaction.currency) = x.(Transaction.currency)
  /\ y.(Transaction.fees) = x.(Transaction.fees)
  /\ y.(Transaction.feeCurrency) = x.(Transaction.feeCurrency)
  /\ y.(Transaction.circleTransactionId) = x.(Transaction.circleTransactionId)
  /\ y.(Transaction.createdAt) = x.(Transaction.createdAt).

(** Updates that change nothing but status and proof hash of a
    transaction. *)
Definition txCosmetic (f : Transaction.t -> Transaction.t) : Prop :=
  forall x, sameTransaction x (f x).

(** Updates that leave alone what identifies a payment and what it was
    created with. *)
Definition paymentIdentity (f : Payment.t -> Payment.t) : Prop :=
  forall p,
    (f p).(Payment.id) = p.(Payment.id)
    /\ (f p).(Payment.idempotencyKey) = p.(Payment.idempotencyKey)
    /\ (f p).(Payment.vendorId) = p.(Payment.vendorId)
    /\ (f p).(Payment.amountSgd) = p.(Payment.amountSgd)
    /\ (f p).(Payment.exchangeRate) = p.(Payment.exchangeRate)
    /\ (f p).(Payment.expectedSettlementTime)
       = p.(Payment.expectedSettlementTime)
    /\ (f p).(Payment.createdAt) = p.(Payment.createdAt).

(** Identity-preserving updates that also leave the USD amount alone. *)
Definition paymentCosmetic (f : Payment.t -> Payment.t) : Prop :=
  paymentIdentity f
  /\ forall p, (f p).(Payment.amountUsd) = p.(Payment.amountUsd).

Definition eventCosmetic (f : WebhookEvent.t -> WebhookEvent.t) : Prop :=
  forall e,
    (f e).(WebhookEvent.id) = e.(WebhookEvent.id)
    /\ (f e).(WebhookEvent.circleEventId) = e.(WebhookEvent.circleEventId)
    /\ (f e).(WebhookEvent.processed) = e.(WebhookEvent.processed).

(** What a property must survive to be kept by the webhook handlers. *)
Record HandlerClosed (I : World -> Prop) : Prop := {
  hc_payment_update :
    forall i f, paymentCosmetic f -> keeps I (prisma.payment.update i f);
  hc_transaction_update :
    forall i f, txCosmetic f -> keeps I (prisma.transaction.update i f);
  hc_transaction_updateMany :
    forall sel f, txCosmetic f ->
                  keeps I (prisma.transaction.updateMany sel f);
  hc_event_update :
    forall i f, eventCosmetic f -> keeps I (prisma.webhookEvent.update i f)
}.

Definition alreadyProcessedResponse : Response :=
  mkResponse 200 (StatusBody "already_processed").

(** The row stored for the event id of the request is marked processed. *)
Definition markedProcessed (req : WebhookRequest.t) (w : World) : Prop :=
  exists e,
    List.find
      (prisma.webhookEvent.by_circleEventId
         req.(WebhookRequest.body).(CircleWebhookPayload.Id_))
      w.(webhookEvents) = Some e
    /\ e.(WebhookEvent.processed) = true.

(** The first row with event id [eventId] is the row with id [i]. *)
Definition eventRowIs (eventId : string) (i : Id) (w : World) : Prop :=
  exists e,
    List.find (prisma.webhookEvent.by_circleEventId eventId)
              w.(webhookEvents) = Some e
    /\ e.(WebhookEvent.id) = i.

Definition unauthorizedResponse : Response :=
  mkResponse 401 (ErrorBody "Invalid signature").





Definition exampleSecret : string := "whsec_test_1".

Definition exampleBody : CircleWebhookPayload.t :=
  CircleWebhookPayload.mk "transfer.completed" "evt_3"
    (EventData.mk "exchange-sgd-usdc-1700000002000" None).


Definition signedWith (signature : option string) : WebhookRequest.t :=
  WebhookRequest.mk signature (JSON.stringify exampleBody) exampleBody.

(** What a property must survive to be kept by the processing flow. *)
Record FlowClosed (I : World -> Prop) : Prop := {
  fc_payment_update :
    forall i f, paymentIdentity f -> keeps I (prisma.payment.update i f);
  fc_transaction_create :
    forall paymentId type status amount currency circleId fees feeCurrency,
      keeps I (prisma.transaction.create paymentId type status amount
                 currency circleId fees feeCurrency);
  fc_transaction_updateMany :
    forall sel f, txCosmetic f ->
                  keeps I (prisma.transaction.updateMany sel f);
  fc_sleep : forall ms, (0 <= ms)%Z -> keeps I (sleep ms)
}.

(** The try block of [processPaymentFlow]. *)
Definition flowSteps (F : Faults) (rnd : Entropy) (paymentId : Id) : M unit :=
  call F SetProcessing
    (PaymentService.updatePaymentStatus paymentId PaymentStatus.PROCESSING) ;;
  sgdPaymentIntent <- PaymentService.createCirclePaymentIntent F rnd
                        paymentId ;;
  PaymentService.simulatePaymentConfirmation F rnd paymentId
    sgdPaymentIntent ;;
  PaymentService.exchangeSgdToUsdc F paymentId ;;
  PaymentService.exchangeUsdcToUsd F paymentId ;;
  PaymentService.payoutToVendor F paymentId ;;
  call F SetCompleted
    (PaymentService.updatePaymentStatus paymentId PaymentStatus.COMPLETED).

Definition createdAts (l : list Transaction.t) : list Timestamp :=
  map Transaction.createdAt l.

(** From [w] to [w'] the transaction table kept every row, up to status and
    proof hash, and gained rows of payment [paymentId] with types [types], in
    this order, stamped with non-decreasing times between the two clocks. *)
Definition grown (paymentId : Id) (types : list TransactionType.t)
    (w w' : World) : Prop :=
  exists old extra,
    transactions w' = old ++ extra
    /\ Forall2 sameTransaction (transactions w) old
    /\ map Transaction.type extra = types
    /\ Forall (fun x => x.(Transaction.paymentId) = paymentId
                        /\ (clock w <= x.(Transaction.createdAt)
                            <= clock w')%Z) extra
    /\ StronglySorted Z.le (createdAts extra)
    /\ (clock w <= clock w')%Z.

(** [c] records transactions of types [types] for the payment when it
    returns, and an initial part of them when it throws. *)
Definition records (paymentId : Id) (types : list TransactionType.t)
    {A} (c : M A) : Prop :=
  forall w,
    match c w with
    | (Return _, w') => grown paymentId types w w'
    | (Throw _, w') =>
        exists done rest,
          types = done ++ rest /\ grown paymentId done w w'
    end.

Definition pipelineTypes : list TransactionType.t :=
  [ TransactionType.PAYMENT_IN; TransactionType.EXCHANGE_SGD_TO_USDC;
    TransactionType.EXCHANGE_USDC_TO_USD; TransactionType.PAYOUT ].

Definition paymentExists (paymentId : Id) (w : World) : Prop :=
  exists p, paymentById paymentId w = Some p.

Definition statusOf (paymentId : Id) (w : World) : option PaymentStatus.t :=
  option_map Payment.status (paymentById paymentId w).


(** The store stops answering while the flow waits for the confirmation:
    every call from [ConfirmUpdateMany] on is rejected, the two updates to
    FAILED included. *)
Definition outageFaults : Faults :=
  fun site =>
    match site with
    | SetProcessing | IntentFindPayment | IntentStoreCircleId
    | IntentCreateTransaction => None
    | _ => Some "Can't reach database server"
    end.

(* ================================================================== *)
(** * Where a run of the flow stops                                     *)
(* ================================================================== *)














(* ================================================================== *)
(** * The invariant of the running system                               *)
(* ================================================================== *)

Definition sgdToUsdc : Q := PaymentService.getExchangeRate "SGD" "USDC".
Definition usdcToUsd : Q := PaymentService.getExchangeRate "USDC" "USD".

Definition paymentIds (w : World) : list Id := map Payment.id w.(payments).

Definition transactionOwners (w : World) : list Id :=
  map Transaction.paymentId w.(transactions).

Definition vendorIds (w : World) : list Id := map Vendor.id w.(vendors).

(** The source amount of the payment with id [i]. *)
Definition sgdOf (i : Id) (w : World) : option Q :=
  option_map Payment.amountSgd (paymentById i w).

(** The USD amount of a payment is its SGD amount times both rates, in
    the numbers of the code: as [initiatePayment] estimates it (the rates
    multiplied first) or as the second exchange of the flow writes it (the
    amount carried through the first exchange). *)
Definition usdIsConverted (p : Payment.t) : Prop :=
  exists u,
    p.(Payment.amountUsd) = Some u
    /\ (u = Double.mul p.(Payment.amountSgd)
                       (Double.mul sgdToUsdc usdcToUsd)
        \/ u = Double.mul (Double.mul p.(Payment.amountSgd) sgdToUsdc)
                          usdcToUsd).

(** The amount of a first-exchange transaction is the SGD amount of its
    payment times the first rate. *)
Definition usdcIsConverted (w : World) (x : Transaction.t) : Prop :=
  x.(Transaction.type) = TransactionType.EXCHANGE_SGD_TO_USDC ->
  exists a,
    sgdOf x.(Transaction.paymentId) w = Some a
    /\ x.(Transaction.amount) = Double.mul a sgdToUsdc.

Record Invariant (w : World) : Prop := {
  inv_payment_ids : Forall (fun i => i < w.(nextId)) (paymentIds w);
  inv_payment_unique : NoDup (paymentIds w);
  inv_owners : Forall (fun i => i < w.(nextId)) (transactionOwners w);
  inv_detached :
    Forall (fun i => In i (paymentIds w) /\ ~ In i (transactionOwners w))
           w.(detached);
  inv_detached_unique : NoDup w.(detached);
  inv_vendors :
    Forall (fun p => In p.(Payment.vendorId) (vendorIds w)) w.(payments);
  inv_usd : Forall usdIsConverted w.(payments);
  inv_usdc : Forall (usdcIsConverted w) w.(transactions)
}.

(** The invariant while the flow of [paymentId] is running: the payment
    exists and is no longer waiting to be started. *)
Definition InFlight (paymentId : Id) (w : World) : Prop :=
  Invariant w
  /\ In paymentId (paymentIds w)
  /\ ~ In paymentId w.(detached).

(** Two versions of a payment row that agree on id, vendor and amounts. *)
Definition samePayment (p p' : Payment.t) : Prop :=
  p'.(Payment.id) = p.(Payment.id)
  /\ p'.(Payment.vendorId) = p.(Payment.vendorId)
  /\ p'.(Payment.amountSgd) = p.(Payment.amountSgd)
  /\ p'.(Payment.amountUsd) = p.(Payment.amountUsd).

(** The row [initiatePayment] creates, and the world it leaves behind when
    it creates one. *)
Definition newPayment (key : string) (request : CreatePaymentRequest.t)
    (w : World) : Payment.t :=
  Payment.mk w.(nextId) key
    request.(CreatePaymentRequest.vendorId)
    request.(CreatePaymentRequest.amountSgd)
    (Some (Double.mul request.(CreatePaymentRequest.amountSgd)
                      (Double.mul sgdToUsdc usdcToUsd)))
    (Some (Double.mul sgdToUsdc usdcToUsd))
    PaymentStatus.PENDING
    request.(CreatePaymentRequest.customerReference)
    request.(CreatePaymentRequest.description)
    None (Some (w.(clock) + 30 * 60 * 1000)%Z) None
    w.(clock) w.(clock).

Definition initiated (key : string) (request : CreatePaymentRequest.t)
    (w : World) : World :=
  with_detached (w.(detached) ++ [w.(nextId)])
    (with_payments (w.(payments) ++ [newPayment key request w])
       (with_nextId (S w.(nextId)) w)).

(** The vendor the request names, if it is ACTIVE. *)
Definition activeVendor (request : CreatePaymentRequest.t) (w : World)
  : option Vendor.t :=
  List.find
    (fun v =>
       prisma.vendor.by_id request.(CreatePaymentRequest.vendorId) v
       && VendorStatus.is_active v.(Vendor.status))
    w.(vendors).





(** The transactions of a payment, in table order. *)
Definition ownedBy (paymentId : Id) (w : World) : list Transaction.t :=
  filter (prisma.transaction.by_paymentId paymentId) w.(transactions).

(** The flow of the payment is over: the payment exists, no flow is waiting
    for it, and its transactions are [rows] up to status and proof hash. *)
Definition settled (paymentId : Id) (rows : list Transaction.t) (w : World)
  : Prop :=
  Invariant w
  /\ In paymentId (paymentIds w)
  /\ ~ In paymentId w.(detached)
  /\ Forall2 sameTransaction rows (ownedBy paymentId w).

(** Payment ids and waiting flows are as given. *)
Definition staticIds (ids waiting : list Id) (w : World) : Prop :=
  paymentIds w = ids /\ w.(detached) = waiting.

(** The payment found under an idempotency key. *)
Definition paymentByKey (key : string) (w : World) : option Payment.t :=
  List.find (prisma.payment.by_key key) w.(payments).

(** The store holds, under the key of response [r], the payment [r]
    describes: same id, SGD amount, expected settlement time and key. *)
Definition remembers (r : CreatePaymentResponse.t) (w : World) : Prop :=
  exists p,
    paymentByKey r.(CreatePaymentResponse.idempotencyKey) w = Some p
    /\ p.(Payment.id) = r.(CreatePaymentResponse.paymentId)
    /\ p.(Payment.amountSgd) = r.(CreatePaymentResponse.amountSgd)
    /\ p.(Payment.expectedSettlementTime)
       = r.(CreatePaymentResponse.expectedSettlementTime)
    /\ p.(Payment.idempotencyKey) = r.(CreatePaymentResponse.idempotencyKey).

(* ================================================================== *)
(** * utils/validation.ts: the patterns                                 *)
(* ================================================================== *)

(** Strings are sequences of code units below 256.  Of the characters that
    [\s] and [String.prototype.trim] take for white space, these are the
    ones in that range: tab, line feed, vertical tab, form feed, carriage
    return, space and no-break space. *)
Definition isWhiteSpace (c : ascii) : bool :=
  let n := nat_of_ascii c in
  (9 <=? n) && (n <=? 13) || (n =? 32) || (n =? 160).

(** [\d] *)
Definition isDigit (c : ascii) : bool :=
  let n := nat_of_ascii c in
  (48 <=? n) && (n <=? 57).

Module RegExp.

(** A character class with its quantifier, [class{least,most}]; without
    [most] the repetition is unbounded. *)
Record Atom := mk {
  class : ascii -> bool;
  least : nat;
  most : option nat
}.

Definition one (c : ascii) : Atom := mk (Ascii.eqb c) 1 (Some 1).
Definition oneOrMore (class : ascii -> bool) : Atom := mk class 1 None.
Definition between (class : ascii -> bool) (least most : nat) : Atom :=
  mk class least (Some most).

(** What is left of the upper bound after one more repetition, if one more
    is allowed. *)
Definition spend (most : option nat) : option (option nat) :=
  match most with
  | None => Some None
  | Some O => None
  | Some (S m) => Some (Some m)
  end.

(** The quantified class followed by the rest of the pattern [k]: the
    longest run is tried first, shorter ones on backtracking. *)
Fixpoint repeat (class : ascii -> bool) (least : nat) (most : option nat)
    (k : string -> bool) (s : string) {struct s} : bool :=
  let stop := (least =? 0) && k s in
  match s with
  | EmptyString => stop
  | String c rest =>
      match spend most with
      | Some most' =>
          class c && repeat class (pred least) most' k rest || stop
      | None => stop
      end
  end.

(** [/^pattern$/.test(s)] *)
Fixpoint test (pattern : list Atom) (s : string) : bool :=
  match pattern with
  | [] => String.eqb s ""
  | a :: more => repeat a.(class) a.(least) a.(most) (test more) s
  end.

End RegExp.

(** [[^\s@]] *)
Definition notSpaceOrAt (c : ascii) : bool :=
  negb (isWhiteSpace c || Ascii.eqb c "@").

(** [/^[^\s@]+@[^\s@]+\.[^\s@]+$/] *)
Definition emailRegex : list RegExp.Atom :=
  [ RegExp.oneOrMore notSpaceOrAt; RegExp.one "@";
    RegExp.oneOrMore notSpaceOrAt; RegExp.one ".";
    RegExp.oneOrMore notSpaceOrAt ].

Definition validateEmail (email : string) : bool :=
  RegExp.test emailRegex email.

(** [/^\d{8,17}$/] and [/^\d{9}$/] *)
Definition accountRegex : list RegExp.Atom := [ RegExp.between isDigit 8 17 ].
Definition routingRegex : list RegExp.Atom := [ RegExp.between isDigit 9 9 ].

Definition validateBankAccount (accountNumber routingNumber : string)
  : bool :=
  RegExp.test accountRegex accountNumber
  && RegExp.test routingRegex routingNumber.

Fixpoint trimStart (s : string) : string :=
  match s with
  | EmptyString => ""
  | String c rest => if isWhiteSpace c then trimStart rest else s
  end.

Fixpoint trimEnd (s : string) : string :=
  match s with
  | EmptyString => ""
  | String c rest =>
      match trimEnd rest with
      | EmptyString => if isWhiteSpace c then "" else String c ""
      | kept => String c kept
      end
  end.

(** [String.prototype.trim] *)
Definition trim (s : string) : string := trimEnd (trimStart s).

(** [s.replace(/[class]/g, '')] *)
Fixpoint removeAll (class : ascii -> bool) (s : string) : string :=
  match s with
  | EmptyString => ""
  | String c rest =>
      if class c then removeAll class rest
      else String c (removeAll class rest)
  end.

(** [[<>]] *)
Definition isAngleBracket (c : ascii) : bool :=
  Ascii.eqb c "<" || Ascii.eqb c ">".

(** [input.trim().replace(/[<>]/g, '')] *)
Definition sanitizeString (input : string) : string :=
  removeAll isAngleBracket (trim input).

(** Vocabulary: every character of the string is in the class. *)
Fixpoint allOf (class : ascii -> bool) (s : string) : bool :=
  match s with
  | EmptyString => true
  | String c rest => class c && allOf class rest
  end.

(** Vocabulary: the first and the last character of a string. *)
Definition firstChar (s : string) : option ascii := String.get 0 s.
Definition lastChar (s : string) : option ascii :=
  String.get (pred (String.length s)) s.

(** Vocabulary: the string neither begins nor ends with white space. *)
Definition trimmed (s : string) : Prop :=
  (forall c, firstChar s = Some c -> isWhiteSpace c = false)
  /\ (forall c, lastChar s = Some c -> isWhiteSpace c = false).

(** Vocabulary: [n] repetitions do not exceed the upper bound. *)
Definition within (most : option nat) (n : nat) : Prop :=
  match most with
  | Some m => n <= m
  | None => True
  end.

(** [String.prototype.toLowerCase] on code units below 256: the letters
    [A]-[Z] and the accented capitals of Latin-1 (all of 192-222 but the
    multiplication sign) move up by 32. *)
Definition lowerChar (c : ascii) : ascii :=
  let n := nat_of_ascii c in
  if (65 <=? n) && (n <=? 90)
     || (192 <=? n) && (n <=? 222) && negb (n =? 215)
  then ascii_of_nat (n + 32)
  else c.

Fixpoint toLowerCase (s : string) : string :=
  match s with
  | EmptyString => ""
  | String c rest => String (lowerChar c) (toLowerCase rest)
  end.

(** Vocabulary: two versions of a payment row that agree on everything the
    row is created with, apart from its USD amount: id, idempotency key,
    vendor, SGD amount, rate, references, expected settlement time and
    creation time. *)
Definition sameIdentity (p p' : Payment.t) : Prop :=
  p'.(Payment.id) = p.(Payment.id)
  /\ p'.(Payment.idempotencyKey) = p.(Payment.idempotencyKey)
  /\ p'.(Payment.vendorId) = p.(Payment.vendorId)
  /\ p'.(Payment.amountSgd) = p.(Payment.amountSgd)
  /\ p'.(Payment.exchangeRate) = p.(Payment.exchangeRate)
  /\ p'.(Payment.expectedSettlementTime) = p.(Payment.expectedSettlementTime)
  /\ p'.(Payment.createdAt) = p.(Payment.createdAt).

(** Vocabulary: the payment table of [w] holds later versions of the rows
    [rows], one for one and in the same order. *)
Definition evolved (rows : list Payment.t) (w : World) : Prop :=
  Forall2 sameIdentity rows w.(payments).

(** The idempotency keys in the payment table, in table order. *)
Definition keysOf (w : World) : list string :=
  map Payment.idempotencyKey w.(payments).

(** Vocabulary: [w] differs from [w0] at most in the webhook events, in
    the ids and time the store hands out next, and, row for row, in the
    columns of payments and transactions that are neither identity nor
    amount. *)
Definition sameLedger (w0 w : World) : Prop :=
  Forall2 samePayment w0.(payments) w.(payments)
  /\ evolved w0.(payments) w
  /\ Forall2 sameTransaction w0.(transactions) w.(transactions)
  /\ w.(vendors) = w0.(vendors)
  /\ w.(detached) = w0.(detached)
  /\ w.(clock) = w0.(clock).

(** Vocabulary: the part of [sameLedger] that concerns payments, vendors,
    waiting flows and the clock. *)
Definition sameAccounts (w0 w : World) : Prop :=
  Forall2 samePayment w0.(payments) w.(payments)
  /\ w.(vendors) = w0.(vendors)
  /\ w.(detached) = w0.(detached)
  /\ w.(clock) = w0.(clock).

(** The provider's event ids in the webhook event table, in table order. *)
Definition eventIdsOf (w : World) : list string :=
  map WebhookEvent.circleEventId w.(webhookEvents).

(** Vocabulary: no two rows of the webhook event table carry the same
    provider event id. *)
Definition uniqueEvents (w : World) : Prop := NoDup (eventIdsOf w).

(** Vocabulary: what the flow writes into a transaction of each type --
    the currency, and the fee as a share of the amount. *)
Definition scheduled (type : TransactionType.t) (amount : Q)
    (currency : string) (fees : option Q) (feeCurrency : option string)
  : Prop :=
  match type with
  | TransactionType.PAYMENT_IN =>
      currency = "SGD" /\ fees = None /\ feeCurrency = None
  | TransactionType.EXCHANGE_SGD_TO_USDC =>
      currency = "USDC"
      /\ fees = Some (Double.mul amount PaymentService.feeRate)
      /\ feeCurrency = Some "USDC"
  | TransactionType.EXCHANGE_USDC_TO_USD =>
      currency = "USD"
      /\ fees = Some (Double.mul amount PaymentService.feeRate)
      /\ feeCurrency = Some "USD"
  | TransactionType.PAYOUT =>
      currency = "USD"
      /\ fees = Some (Double.mul amount PaymentService.payoutFeeRate)
      /\ feeCurrency = Some "USD"
  end.

Definition onSchedule (x : Transaction.t) : Prop :=
  scheduled x.(Transaction.type) x.(Transaction.amount)
            x.(Transaction.currency) x.(Transaction.fees)
            x.(Transaction.feeCurrency).

(** What a property must survive to be kept by the flow of one payment:
    updates of that payment, and the transactions the flow creates for
    it. *)
Record FlowClosedFor (paymentId : Id) (I : World -> Prop) : Prop := {
  ff_payment_update :
    forall f, paymentIdentity f ->
              keeps I (prisma.payment.update paymentId f);
  ff_transaction_create :
    forall type status amount currency circleId fees feeCurrency,
      scheduled type amount currency fees feeCurrency ->
      keeps I (prisma.transaction.create paymentId type status amount
                 currency circleId fees feeCurrency);
  ff_transaction_updateMany :
    forall sel f, txCosmetic f ->
                  keeps I (prisma.transaction.updateMany sel f);
  ff_sleep : forall ms, (0 <= ms)%Z -> keeps I (sleep ms)
}.

(** Vocabulary: every transaction belongs to a payment of the table. *)
Definition ownersExist (w : World) : Prop :=
  incl (transactionOwners w) (paymentIds w).

(** Vocabulary: every transaction of the table is on schedule. *)
Definition allOnSchedule (w : World) : Prop :=
  Forall onSchedule w.(transactions).

(** Vocabulary: from every store that satisfies [P], the computation [c]
    returns normally, with a result and a store that satisfy [Q]. *)
Definition returns (P : World -> Prop) {A} (c : M A)
    (Q : A -> World -> Prop) : Prop :=
  forall w, P w -> exists a w', c w = (Return a, w') /\ Q a w'.

Definition transactionIds (w : World) : list Id :=
  map Transaction.id w.(transactions).

Definition eventRowIds (w : World) : list Id :=
  map WebhookEvent.id w.(webhookEvents).

(** Vocabulary: every transaction has its payment, and the rows with the
    listed ids are in their tables. *)
Definition ready (events owners rows : list Id) (w : World) : Prop :=
  ownersExist w
  /\ incl events (eventRowIds w)
  /\ incl owners (paymentIds w)
  /\ incl rows (transactionIds w).

(** The event types [processWebhookEvent] has a case for. *)
Definition handledTypes : list string :=
  [ "payment_intent.succeeded"; "payment_intent.failed";
    "transfer.completed"; "transfer.failed";
    "payout.completed"; "payout.failed" ].

(** The payment [findFirst({ where: { circlePaymentId } })] returns. *)
Definition matchedPayment (req : WebhookRequest.t) (w : World)
  : option Payment.t :=
  List.find (prisma.payment.by_circlePaymentId (eventCorrelationId req))
            w.(payments).

(** Vocabulary: the event is of a type without a case, or its correlation
    id is that of no payment and no transaction. *)
Definition matchesNothing (req : WebhookRequest.t) (w : World) : Prop :=
  ~ In (eventTypeOf req) handledTypes
  \/ (matchedTransaction req w = None /\ matchedPayment req w = None).

(** Vocabulary: every vendor row has a bank account. *)
Definition allBanked (w : World) : Prop :=
  Forall (fun v => v.(Vendor.bankAccount) <> None) w.(vendors).

(** Vocabulary: the vendor of every payment is in the vendor table, with a
    bank account. *)
Definition banked (w : World) : Prop :=
  Forall (fun p =>
            exists v bank,
              List.find (prisma.vendor.by_id p.(Payment.vendorId))
                        w.(vendors) = Some v
              /\ v.(Vendor.bankAccount) = Some bank)
         w.(payments).

(** Vocabulary: the table holds a transaction of this type for the
    payment. *)
Definition recorded (paymentId : Id) (type : TransactionType.t) (w : World)
  : Prop :=
  exists x,
    In x w.(transactions)
    /\ x.(Transaction.paymentId) = paymentId
    /\ x.(Transaction.type) = type.

(** Vocabulary: what the later steps of the flow of a payment rely on --
    the payment is there, vendors have their bank accounts, and the
    transactions of the listed types have been recorded. *)
Definition underway (paymentId : Id) (types : list TransactionType.t)
    (w : World) : Prop :=
  In paymentId (paymentIds w)
  /\ banked w
  /\ Forall (fun type => recorded paymentId type w) types.

(** Vocabulary: the vendor table is [rows]. *)
Definition vendorsAre (rows : list Vendor.t) (w : World) : Prop :=
  w.(vendors) = rows.

(** The example payment, initiated while its vendor was ACTIVE; the vendor
    is set INACTIVE before the flow starts. *)
Definition deactivatedWorld : World :=
  run [OpVendorStatus 0 VendorStatus.INACTIVE] initiatedWorld.

(** The [where] of the [updateMany] in the two payment-intent handlers:
    the transactions of the payment that carry the provider's id. *)
Definition intentTransactions (paymentId : Id) (circlePaymentId : string)
    (x : Transaction.t) : bool :=
  prisma.transaction.by_paymentId paymentId x
  && prisma.transaction.by_circleTransactionId circlePaymentId x.

(** The example payment when the confirmation step of its flow is
    rejected: the payment is FAILED and its PAYMENT_IN transaction is still
    PENDING. *)
Definition confirmFaults : Faults :=
  fun site =>
    match site with
    | ConfirmUpdateMany => Some "Can't reach database server"
    | _ => None
    end.

Definition intentWorld : World :=
  run [OpFlow confirmFaults exampleEntropy 1] initiatedWorld.

(* ================================================================== *)
(** * routes/payments.ts: [router.get('/:paymentId')]                   *)
(* ================================================================== *)

Inductive StatusReply :=
| StatusData (data : PaymentStatusResponse.t)
| StatusFailure (error : string).

(** [router.get('/:paymentId')].  The path parameter of a matched route is
    never empty, so the [!paymentId] branch is not reached. *)
Definition payments_get (paymentId : Id)
  : World -> (nat * StatusReply) * World :=
  fun w =>
    match PaymentService.getPaymentStatus paymentId w with
    | (Return payment, w') => ((200, StatusData payment), w')
    | (Throw error, w') =>
        if String.eqb error "Payment not found"
        then ((404, StatusFailure "Payment not found"), w')
        else ((500, StatusFailure "Failed to retrieve payment status"), w')
    end.

(* ================================================================== *)
(** * The vendor tables, as services/vendorService.ts uses them          *)
(* ================================================================== *)

Module BankAccountRow.
Record t := mk {
  id : Id;
  accountNumber : string;
  routingNumber : string;
  bankName : string;
  accountHolder : string;
  country : string;
  currency : string
}.
End BankAccountRow.

Module VendorRow.
Record t := mk {
  id : Id;
  name : string;
  email : string;
  phone : option string;
  address : option string;
  status : VendorStatus.t;
  bankAccount : option BankAccountRow.t;
  createdAt : Timestamp;
  updatedAt : Timestamp
}.

(** [data: { status }]; the store stamps [updatedAt]. *)
Definition set_status (s : VendorStatus.t) (d : Timestamp) (v : t) : t :=
  mk v.(id) v.(name) v.(email) v.(phone) v.(address) s v.(bankAccount)
     v.(createdAt) d.
End VendorRow.

(** The part of the store the vendor service works on: the vendor rows with
    their bank accounts, the payments it reads, the clock and the ids the
    store hands out. *)
Module Directory.
Record t := mk {
  vendors : list VendorRow.t;
  payments : list Payment.t;
  clock : Timestamp;
  nextId : Id
}.

Definition with_vendors (vs : list VendorRow.t) (d : t) : t :=
  mk vs d.(payments) d.(clock) d.(nextId).
Definition with_nextId (n : Id) (d : t) : t :=
  mk d.(vendors) d.(payments) d.(clock) n.
Definition with_clock (c : Timestamp) (d : t) : t :=
  mk d.(vendors) d.(payments) c d.(nextId).
Definition with_payments (ps : list Payment.t) (d : t) : t :=
  mk d.(vendors) ps d.(clock) d.(nextId).
End Directory.

(** The monad of the vendor service: state and exceptions over the
    directory. *)
Module Dir.
Definition V (A : Type) : Type := Directory.t -> Outcome A * Directory.t.

Definition ret {A} (a : A) : V A := fun d => (Return a, d).
Definition throw {A} (e : Error) : V A := fun d => (Throw e, d).
Definition bind {A B} (c : V A) (k : A -> V B) : V B :=
  fun d =>
    match c d with
    | (Return a, d') => k a d'
    | (Throw e, d') => (Throw e, d')
    end.
Definition try_catch {A} (c : V A) (h : Error -> V A) : V A :=
  fun d =>
    match c d with
    | (Return a, d') => (Return a, d')
    | (Throw e, d') => h e d'
    end.
Definition gets {A} (f : Directory.t -> A) : V A :=
  fun d => (Return (f d), d).
Definition modify (f : Directory.t -> Directory.t) : V unit :=
  fun d => (Return tt, f d).
Definition now : V Timestamp := gets Directory.clock.
Definition freshId : V Id :=
  fun d => (Return d.(Directory.nextId),
            Directory.with_nextId (S d.(Directory.nextId)) d).
End Dir.

Notation "x <~ c ;; k" := (Dir.bind c (fun x => k))
  (at level 61, c at next level, right associativity).

Module BankDetails.
Record t := mk {
  accountNumber : string;
  routingNumber : string;
  bankName : string;
  accountHolder : string
}.
End BankDetails.

(** [CreateVendorRequest] of types/index.ts. *)
Module CreateVendorRequest.
Record t := mk {
  name : string;
  email : string;
  phone : option string;
  address : option string;
  bankAccount : BankDetails.t
}.
End CreateVendorRequest.

(** The calls of the Prisma client the vendor service makes. *)
Module vendorStore.

Definition by_id (i : Id) (v : VendorRow.t) : bool :=
  Nat.eqb v.(VendorRow.id) i.
Definition by_email (email : string) (v : VendorRow.t) : bool :=
  String.eqb v.(VendorRow.email) email.

Definition findUnique (sel : VendorRow.t -> bool)
  : Dir.V (option VendorRow.t) :=
  Dir.gets (fun d => List.find sel d.(Directory.vendors)).

(** [create] with the nested [bankAccount: { create }]: the store assigns
    the ids and both timestamps.  Modelled from the spec: the vendor email
    is unique in the store ([findUnique({ where: { email } })] relies on
    it), so a second row with the same email is rejected; the text of the
    rejection stands for the client's own. *)
Definition create (name email : string) (phone address : option string)
    (bank : BankDetails.t) (bankName accountHolder : string)
  : Dir.V VendorRow.t :=
  existing <~ findUnique (by_email email) ;;
  match existing with
  | Some _ => Dir.throw "Unique constraint failed on the fields: (`email`)"
  | None =>
      i <~ Dir.freshId ;;
      j <~ Dir.freshId ;;
      d <~ Dir.now ;;
      let row :=
        VendorRow.mk i name email phone address VendorStatus.ACTIVE
          (Some (BankAccountRow.mk j bank.(BankDetails.accountNumber)
                   bank.(BankDetails.routingNumber) bankName accountHolder
                   "US" "USD"))
          d d in
      _ <~ Dir.modify (fun s =>
        Directory.with_vendors (s.(Directory.vendors) ++ [row]) s) ;;
      Dir.ret row
  end.

(** [update({ where: { id }, data: { status } })]; it returns the row as
    updated and rejects when there is none. *)
Definition update (i : Id) (status : VendorStatus.t)
  : Dir.V VendorRow.t :=
  existing <~ findUnique (by_id i) ;;
  match existing with
  | None => Dir.throw "Record to update not found."
  | Some v =>
      d <~ Dir.now ;;
      _ <~ Dir.modify (fun s =>
        Directory.with_vendors
          (prisma.update_where (by_id i) (VendorRow.set_status status d)
                               s.(Directory.vendors)) s) ;;
      Dir.ret (VendorRow.set_status status d v)
  end.

End vendorStore.

(** [orderBy: { createdAt: 'desc' }], rows of equal time kept in table
    order. *)
Fixpoint insertDesc {A} (createdAt : A -> Timestamp) (x : A) (l : list A)
  : list A :=
  match l with
  | [] => [x]
  | y :: rest =>
      if (createdAt y <=? createdAt x)%Z then x :: y :: rest
      else y :: insertDesc createdAt x rest
  end.

Definition orderByDesc {A} (createdAt : A -> Timestamp) (l : list A)
  : list A :=
  fold_right (insertDesc createdAt) [] l.

(** [s.slice(-n)]: the last [n] characters, or all of a shorter string. *)
Definition sliceLast (n : nat) (s : string) : string :=
  String.substring (String.length s - n) n s.

(* ================================================================== *)
(** * services/vendorService.ts                                         *)
(* ================================================================== *)

(** What the service hands back.  The bank account goes out with its
    number masked. *)
Module MaskedAccount.
Record t := mk {
  id : Id;
  accountNumber : string;
  routingNumber : string;
  bankName : string;
  accountHolder : string
}.
End MaskedAccount.

Module VendorCreated.
Record t := mk {
  id : Id;
  name : string;
  email : string;
  phone : option string;
  address : option string;
  status : VendorStatus.t;
  bankAccount : option MaskedAccount.t;
  createdAt : Timestamp
}.
End VendorCreated.

Module PaymentDigest.
Record t := mk {
  id : Id;
  status : PaymentStatus.t;
  amountSgd : Q;
  amountUsd : option Q;
  createdAt : Timestamp
}.
End PaymentDigest.

Module VendorDetails.
Record t := mk {
  id : Id;
  name : string;
  email : string;
  phone : option string;
  address : option string;
  status : VendorStatus.t;
  bankAccount : option MaskedAccount.t;
  recentPayments : list PaymentDigest.t;
  createdAt : Timestamp;
  updatedAt : Timestamp
}.
End VendorDetails.

Module VendorListing.
Record t := mk {
  id : Id;
  name : string;
  email : string;
  status : VendorStatus.t;
  bankAccount : option (string * string);   (* bankName, accountHolder *)
  paymentCount : nat;
  createdAt : Timestamp
}.
End VendorListing.

Module Pagination.
Record t := mk {
  page : nat;
  limit : nat;
  total : nat;
  totalPages : nat
}.
End Pagination.

Module VendorPage.
Record t := mk {
  vendors : list VendorListing.t;
  pagination : Pagination.t
}.
End VendorPage.

Module VendorStatusChanged.
Record t := mk {
  id : Id;
  name : string;
  email : string;
  status : VendorStatus.t;
  updatedAt : Timestamp
}.
End VendorStatusChanged.

(** [x ? sanitizeString(x) : null]: an absent or empty string gives null. *)
Definition sanitizeOptional (x : option string) : option string :=
  match x with
  | None => None
  | Some EmptyString => None
  | Some s => Some (sanitizeString s)
  end.

(** The account as the service shows it: four stars, then
    [accountNumber.slice(-4)]. *)
Definition maskAccount (b : BankAccountRow.t) : MaskedAccount.t :=
  MaskedAccount.mk b.(BankAccountRow.id)
    ("****" +++ sliceLast 4 b.(BankAccountRow.accountNumber))
    b.(BankAccountRow.routingNumber)
    b.(BankAccountRow.bankName)
    b.(BankAccountRow.accountHolder).

Definition digest (p : Payment.t) : PaymentDigest.t :=
  PaymentDigest.mk p.(Payment.id) p.(Payment.status) p.(Payment.amountSgd)
    p.(Payment.amountUsd) p.(Payment.createdAt).


Module VendorService.

Definition createVendor (request : CreateVendorRequest.t)
  : Dir.V VendorCreated.t :=
  let bank := request.(CreateVendorRequest.bankAccount) in
  Dir.try_catch
    (if negb (validateEmail request.(CreateVendorRequest.email))
     then Dir.throw "Invalid email format"
     else if negb (validateBankAccount bank.(BankDetails.accountNumber)
                                       bank.(BankDetails.routingNumber))
     then Dir.throw "Invalid bank account details"
     else
       existingVendor <~ vendorStore.findUnique
         (vendorStore.by_email request.(CreateVendorRequest.email)) ;;
       match existingVendor with
       | Some _ => Dir.throw "Vendor with this email already exists"
       | None =>
           vendor <~ vendorStore.create
             (sanitizeString request.(CreateVendorRequest.name))
             (toLowerCase request.(CreateVendorRequest.email))
             (sanitizeOptional request.(CreateVendorRequest.phone))
             (sanitizeOptional request.(CreateVendorRequest.address))
             bank
             (sanitizeString bank.(BankDetails.bankName))
             (sanitizeString bank.(BankDetails.accountHolder)) ;;
           Dir.ret (VendorCreated.mk
                      vendor.(VendorRow.id) vendor.(VendorRow.name)
                      vendor.(VendorRow.email) vendor.(VendorRow.phone)
                      vendor.(VendorRow.address) vendor.(VendorRow.status)
                      (option_map maskAccount vendor.(VendorRow.bankAccount))
                      vendor.(VendorRow.createdAt))
       end)
    (fun message => Dir.throw ("Vendor creation failed: " +++ message)).

(** The payments the lookup includes: those of the vendor, newest first,
    ten at most. *)
Definition includedPayments (vendorId : Id) (d : Directory.t)
  : list Payment.t :=
  firstn 10
    (orderByDesc Payment.createdAt
       (filter (fun p => Nat.eqb p.(Payment.vendorId) vendorId)
               d.(Directory.payments))).

Definition getVendor (vendorId : Id) : Dir.V VendorDetails.t :=
  vendor <~ vendorStore.findUnique (vendorStore.by_id vendorId) ;;
  match vendor with
  | None => Dir.throw "Vendor not found"
  | Some vendor =>
      payments <~ Dir.gets (includedPayments vendorId) ;;
      Dir.ret (VendorDetails.mk
                 vendor.(VendorRow.id) vendor.(VendorRow.name)
                 vendor.(VendorRow.email) vendor.(VendorRow.phone)
                 vendor.(VendorRow.address) vendor.(VendorRow.status)
                 (option_map maskAccount vendor.(VendorRow.bankAccount))
                 (map digest payments)
                 vendor.(VendorRow.createdAt) vendor.(VendorRow.updatedAt))
  end.


(** [findMany({ skip, take, orderBy: { createdAt: 'desc' } })]. *)
Definition findMany (skip take : nat) (d : Directory.t)
  : list VendorRow.t :=
  firstn take (skipn skip (orderByDesc VendorRow.createdAt
                                       d.(Directory.vendors))).


Definition updateVendorStatus (vendorId : Id) (status : VendorStatus.t)
  : Dir.V VendorStatusChanged.t :=
  vendor <~ vendorStore.findUnique (vendorStore.by_id vendorId) ;;
  match vendor with
  | None => Dir.throw "Vendor not found"
  | Some _ =>
      updatedVendor <~ vendorStore.update vendorId status ;;
      Dir.ret (VendorStatusChanged.mk
                 updatedVendor.(VendorRow.id) updatedVendor.(VendorRow.name)
                 updatedVendor.(VendorRow.email)
                 updatedVendor.(VendorRow.status)
                 updatedVendor.(VendorRow.updatedAt))
  end.

End VendorService.

(* ================================================================== *)
(** * routes/vendors.ts                                                 *)
(* ================================================================== *)

(** The members of the request body the route reads; a member is absent or
    a string. *)
Module VendorBody.
Record bank := mkBank {
  accountNumber : option string;
  routingNumber : option string;
  bankName : option string;
  accountHolder : option string
}.
Record t := mk {
  name : option string;
  email : option string;
  phone : option string;
  address : option string;
  bankAccount : option bank
}.
End VendorBody.

(** [!x] on a member that is absent or a string. *)
Definition missing (x : option string) : bool :=
  match x with
  | None | Some EmptyString => true
  | Some _ => false
  end.

Definition orEmpty (x : option string) : string :=
  match x with Some s => s | None => "" end.

Inductive Reply (A : Type) :=
| ReplyData (data : A)
| ReplyError (error : string).
Arguments ReplyData {A} data.
Arguments ReplyError {A} error.

Definition vendors_post (body : VendorBody.t)
  : Directory.t -> (nat * Reply VendorCreated.t) * Directory.t :=
  fun d =>
    match body.(VendorBody.bankAccount) with
    | None =>
        ((400, ReplyError "name, email, and bankAccount are required"), d)
    | Some bankAccount =>
        if missing body.(VendorBody.name) || missing body.(VendorBody.email)
        then ((400, ReplyError "name, email, and bankAccount are required"),
              d)
        else if missing bankAccount.(VendorBody.accountNumber)
                || missing bankAccount.(VendorBody.routingNumber)
                || missing bankAccount.(VendorBody.bankName)
                || missing bankAccount.(VendorBody.accountHolder)
        then ((400, ReplyError "Bank account must include accountNumber, routingNumber, bankName, and accountHolder"), d)
        else
          match VendorService.createVendor
                  (CreateVendorRequest.mk
                     (orEmpty body.(VendorBody.name))
                     (orEmpty body.(VendorBody.email))
                     body.(VendorBody.phone) body.(VendorBody.address)
                     (BankDetails.mk
                        (orEmpty bankAccount.(VendorBody.accountNumber))
                        (orEmpty bankAccount.(VendorBody.routingNumber))
                        (orEmpty bankAccount.(VendorBody.bankName))
                        (orEmpty bankAccount.(VendorBody.accountHolder)))) d
          with
          | (Return vendor, d') => ((201, ReplyData vendor), d')
          | (Throw message, d') => ((400, ReplyError message), d')
          end
    end.

Definition vendors_get (vendorId : Id)
  : Directory.t -> (nat * Reply VendorDetails.t) * Directory.t :=
  fun d =>
    match VendorService.getVendor vendorId d with
    | (Return vendor, d') => ((200, ReplyData vendor), d')
    | (Throw message, d') =>
        if String.eqb message "Vendor not found"
        then ((404, ReplyError "Vendor not found"), d')
        else ((500, ReplyError "Failed to retrieve vendor"), d')
    end.






(** The route checks the status against the values of the enum before it
    calls the service; here the status has been read as one of them. *)
Definition vendors_patch_status (vendorId : Id) (status : VendorStatus.t)
  : Directory.t -> (nat * Reply VendorStatusChanged.t) * Directory.t :=
  fun d =>
    match VendorService.updateVendorStatus vendorId status d with
    | (Return vendor, d') => ((200, ReplyData vendor), d')
    | (Throw message, d') =>
        if String.eqb message "Vendor not found"
        then ((404, ReplyError "Vendor not found"), d')
        else ((500, ReplyError "Failed to update vendor status"), d')
    end.

(** What can happen to the directory: the vendor routes that write, the
    payment service writing its own table, and time passing. *)
Inductive DirOp :=
| DirCreate (body : VendorBody.t)
| DirSetStatus (vendorId : Id) (status : VendorStatus.t)
| DirLedger (payments : list Payment.t)
| DirTick (ms : Z).

Definition dirExec (op : DirOp) (d : Directory.t) : Directory.t :=
  match op with
  | DirCreate body => snd (vendors_post body d)
  | DirSetStatus vendorId status =>
      snd (vendors_patch_status vendorId status d)
  | DirLedger payments => Directory.with_payments payments d
  | DirTick ms => Directory.with_clock (d.(Directory.clock) + Z.max 0 ms)%Z d
  end.

Definition dirRun (ops : list DirOp) (d : Directory.t) : Directory.t :=
  fold_left (fun d op => dirExec op d) ops d.

(** The directories the routes can build, starting at any time with no
    vendor yet. *)
Definition dirReachable (d : Directory.t) : Prop :=
  exists clock ops, d = dirRun ops (Directory.mk [] [] clock 0).

(** Vocabulary: a vendor row as [createVendor] writes it: a valid email in
    lower case, a name without angle brackets, and a US bank account in USD
    whose numbers pass [validateBankAccount]. *)
Definition asWritten (v : VendorRow.t) : Prop :=
  toLowerCase v.(VendorRow.email) = v.(VendorRow.email)
  /\ validateEmail v.(VendorRow.email) = true
  /\ allOf (fun c => negb (isAngleBracket c)) v.(VendorRow.name) = true
  /\ exists b,
       v.(VendorRow.bankAccount) = Some b
       /\ validateBankAccount b.(BankAccountRow.accountNumber)
                              b.(BankAccountRow.routingNumber) = true
       /\ b.(BankAccountRow.country) = "US"
       /\ b.(BankAccountRow.currency) = "USD".

(** Vocabulary: every id in use is below the next one the store hands
    out. *)
Definition dirFresh (d : Directory.t) : Prop :=
  forall v, In v d.(Directory.vendors) ->
    v.(VendorRow.id) < d.(Directory.nextId).

(** Vocabulary: the vendor rows of two directories agree on every stored
    column but the status and the time of the last update. *)
Definition sameVendor (v v' : VendorRow.t) : Prop :=
  v'.(VendorRow.id) = v.(VendorRow.id)
  /\ v'.(VendorRow.name) = v.(VendorRow.name)
  /\ v'.(VendorRow.email) = v.(VendorRow.email)
  /\ v'.(VendorRow.phone) = v.(VendorRow.phone)
  /\ v'.(VendorRow.address) = v.(VendorRow.address)
  /\ v'.(VendorRow.bankAccount) = v.(VendorRow.bankAccount)
  /\ v'.(VendorRow.createdAt) = v.(VendorRow.createdAt).

(** Vocabulary: the directory as the routes keep it: ids and emails that
    tell the vendors apart, rows as [createVendor] writes them, ids below
    the next fresh one. *)
Definition wellKept (d : Directory.t) : Prop :=
  NoDup (map VendorRow.id d.(Directory.vendors))
  /\ NoDup (map VendorRow.email d.(Directory.vendors))
  /\ Forall asWritten d.(Directory.vendors)
  /\ dirFresh d.

(** A directory to run the vendor routes on: Acme registers, registers
    again under the same address in other letter case, a second vendor
    registers, and Acme is set inactive. *)
Definition acmeBody (email : string) : VendorBody.t :=
  VendorBody.mk (Some "  <b>Acme</b> Pte ") (Some email) None
    (Some "1 Main Street")
    (Some (VendorBody.mkBank (Some "000123456789") (Some "021000021")
             (Some "First Bank") (Some "Acme Pte"))).

Definition borealBody : VendorBody.t :=
  VendorBody.mk (Some "Boreal LLC") (Some "ap@boreal.example") (Some "")
    None
    (Some (VendorBody.mkBank (Some "99887766") (Some "011000015")
             (Some "Second <Bank>") (Some "Boreal LLC"))).

Definition sampleDirectory : Directory.t :=
  dirRun [ DirCreate (acmeBody "Billing@Acme.example");
           DirTick 5;
           DirCreate (acmeBody "billing@ACME.example");
           DirCreate borealBody;
           DirTick 5;
           DirSetStatus 0 VendorStatus.INACTIVE ]
         (Directory.mk [] [] 1000%Z 0).

(** Vocabulary: a list runs from the newest entry to the oldest. *)
Definition newestFirst {A} (createdAt : A -> Timestamp) (l : list A) : Prop :=
  StronglySorted (fun a b => (createdAt b <= createdAt a)%Z) l.



Unset Implicit Arguments.

(** Close a goal [lhs = rhs] by evaluating [lhs] on the virtual machine;
    [rhs] may still hold unknowns, which the value then fills in. *)
Ltac compute_lhs :=
  lazymatch goal with
  | |- ?lhs = ?rhs =>
      let v := eval vm_compute in lhs in
      unify rhs v; vm_cast_no_check (eq_refl v)
  end.

(* ================================================================== *)
(** * Request validation                                                *)
(* ================================================================== *)

Section Patterns.

Lemma matches_tail (x : Piece) (p q : list Piece) :
  (forall s, matches p s = true -> matches q s = true) ->
  forall s, matches (x :: p) s = true -> matches (x :: q) s = true.
Proof.
  intros Hpq s. destruct x as [n | | chars]; simpl.
  - destruct (takeHex n s); auto.
  - destruct s as [| c rest]; auto.
    rewrite !andb_true_iff. intuition.
  - destruct s as [| c rest]; auto.
    rewrite !andb_true_iff. intuition.
Qed.

Lemma takeHex_succ (n : nat) (s : string) :
  takeHex (S n) s =
  match s with
  | String c rest => if isHexDigit c then takeHex n rest else None
  | EmptyString => None
  end.
Proof. reflexivity. Qed.

(** A character class of hex digits followed by [n] hex digits is a run of
    [n + 1] hex digits. *)
Lemma matches_class_hex (chars : string) (n : nat) (more : list Piece) :
  (forall c, member c chars = true -> isHexDigit c = true) ->
  forall s, matches (OneOf chars :: Hex n :: more) s = true ->
            matches (Hex (S n) :: more) s = true.
Proof.
  intros Hhex s H.
  change (match takeHex (S n) s with
          | Some rest => matches more rest
          | None => false
          end = true).
  rewrite takeHex_succ.
  destruct s as [| c rest]; [discriminate |].
  change ((member c chars && matches (Hex n :: more) rest) = true) in H.
  apply andb_true_iff in H. destruct H as [Hc Hrest].
  rewrite (Hhex c Hc). exact Hrest.
Qed.

Lemma member_4_hex (c : ascii) :
  member c "4" = true -> isHexDigit c = true.
Proof.
  cbn [member]. rewrite orb_false_r. intros H.
  apply Ascii.eqb_eq in H. subst c. reflexivity.
Qed.

Lemma member_variant_hex (c : ascii) :
  member c "89abAB" = true -> isHexDigit c = true.
Proof.
  cbn [member]. rewrite orb_false_r, !orb_true_iff.
  intros H.
  repeat (destruct H as [H | H];
          [apply Ascii.eqb_eq in H; subst c; reflexivity |]).
  apply Ascii.eqb_eq in H; subst c; reflexivity.
Qed.

(** Every key the route's pattern accepts is UUID-shaped. *)
Lemma validateIdempotencyKey_shaped (key : string) :
  validateIdempotencyKey key = true -> uuidShaped key = true.
Proof.
  unfold validateIdempotencyKey, uuidShaped, uuidRegex, uuidShape.
  revert key.
  do 4 apply matches_tail.
  intros s H. apply (matches_class_hex "4" 3 _ member_4_hex) in H.
  revert s H.
  do 2 apply matches_tail.
  intros s H.
  apply (matches_class_hex "89abAB" 3 _ member_variant_hex) in H.
  exact H.
Qed.

End Patterns.

Lemma validateAmount_range (q : Q) :
  truthy (JsNumber q) && validateAmount (JsNumber q) = true
  <-> (0 < q /\ q <= 1000000)%Q.
Proof.
  unfold truthy, validateAmount.
  rewrite !andb_true_iff, !negb_true_iff, Qle_bool_iff.
  split.
  - intros [_ [[Hpos _] Hle]]. split; [| exact Hle].
    apply Qnot_le_lt. intros Hq. apply Qle_bool_iff in Hq. congruence.
  - intros [Hpos Hle]. repeat split; auto.
    + destruct (Qeq_bool q 0) eqn:E; auto.
      apply Qeq_bool_iff in E. rewrite E in Hpos.
      exfalso. exact (Qlt_irrefl 0 Hpos).
    + destruct (Qle_bool q 0) eqn:E; auto.
      apply Qle_bool_iff in E. exfalso.
      exact (Qlt_irrefl q (Qle_lt_trans _ _ _ E Hpos)).
Qed.

(** The boundary amounts of the specification. *)
Example amount_boundaries :
  validateAmount (JsNumber 1000000) = true
  /\ truthy (JsNumber 0) = false
  /\ validateAmount (JsNumber 0) = false
  /\ validateAmount (JsNumber (100000001 # 100)) = false
  /\ validateAmount (JsString "500") = false.
Proof. repeat split. Qed.

(** C9, as stated, fails at an empty [Idempotency-Key] header: the empty
    string is not UUID-shaped, yet the request is served with 201 and a
    generated key. *)
Lemma C9_empty_key_is_accepted :
  let req := exampleRequest 1000 (Some "") in
  req.(PaymentsRequest.idempotencyKeyHeader) = Some ""
  /\ uuidShaped "" = false
  /\ statusCode (fst (payments_post exampleKey req exampleWorld)) = 201.
Proof. vm_compute. repeat split. Qed.

(** C9 (amended).  With a vendor id present, a numeric amount is turned down
    by the amount check exactly when it is outside [0 < amount <= 1,000,000];
    and every non-empty idempotency key that is not UUID-shaped is answered
    with 400.  (An empty header counts as absent.) *)
Theorem C9_validation_boundaries :
  (forall uuid vendorId q cr d header w,
      fst (payments_post uuid
             (PaymentsRequest.mk (Some vendorId) (JsNumber q) cr d header) w)
      = mkResponse 400 amountError
      <-> ~ (0 < q /\ q <= 1000000)%Q)
  /\ (forall uuid req w key,
         req.(PaymentsRequest.idempotencyKeyHeader) = Some key ->
         key <> "" ->
         uuidShaped key = false ->
         statusCode (fst (payments_post uuid req w)) = 400).
Proof.
  split.
  - intros uuid vendorId q cr d header w.
    rewrite <- validateAmount_range.
    unfold payments_post. cbn [PaymentsRequest.vendorId
      PaymentsRequest.amountSgd PaymentsRequest.idempotencyKeyHeader
      PaymentsRequest.customerReference PaymentsRequest.description].
    destruct (truthy (JsNumber q)) eqn:Ht;
      destruct (validateAmount (JsNumber q)) eqn:Hv;
      cbn [negb orb andb fst];
      try (split; [intros _; discriminate | reflexivity]).
    split; [| intros H; exfalso; apply H; reflexivity].
    intros H. exfalso.
    destruct (provided header
              && negb (validateIdempotencyKey (headerValue header))).
    + cbn [fst] in H. discriminate H.
    + destruct (PaymentService.initiatePayment _ _ _ _) as [[r | e] w'];
        cbn [fst] in H; discriminate H.
  - intros uuid req w key Hkey Hne Hshape.
    unfold payments_post. rewrite Hkey.
    destruct (PaymentsRequest.vendorId req); [| reflexivity].
    destruct (negb (truthy _) || negb (validateAmount _)); [reflexivity |].
    assert (Hprov : provided (Some key) = true).
    { unfold provided. destruct (String.eqb key "") eqn:E; auto.
      apply String.eqb_eq in E. contradiction. }
    assert (Hval : validateIdempotencyKey key = false).
    { destruct (validateIdempotencyKey key) eqn:E; auto.
      apply validateIdempotencyKey_shaped in E. congruence. }
    rewrite Hprov. cbn [headerValue]. rewrite Hval. reflexivity.
Qed.

Lemma C9_validation_boundaries_witness :
  statusCode
    (fst (payments_post exampleKey
            (exampleRequest 1000 (Some "not-a-uuid")) exampleWorld)) = 400.
Proof.
  apply (proj2 C9_validation_boundaries exampleKey
           (exampleRequest 1000 (Some "not-a-uuid")) exampleWorld
           "not-a-uuid").
  - reflexivity.
  - discriminate.
  - reflexivity.
Defined.

(* ================================================================== *)
(** * Initiation                                                        *)
(* ================================================================== *)

Lemma is_active_true (s : VendorStatus.t) :
  VendorStatus.is_active s = true -> s = VendorStatus.ACTIVE.
Proof. destruct s; simpl; congruence. Qed.

(** C7.  With a fresh idempotency key, a request naming a vendor that is
    missing, not ACTIVE, or without a bank account is rejected by
    [initiatePayment] itself with one of the two vendor errors, and the world
    is left as it was: no payment row, no flow started. *)
Theorem C7_vendor_unavailable :
  forall uuid request header w,
    keyIsFresh (PaymentService.effectiveKey header uuid) w ->
    vendorUnusable request.(CreatePaymentRequest.vendorId) w ->
    exists e,
      PaymentService.initiatePayment uuid request header w = (Throw e, w)
      /\ VendorUnavailable e.
Proof.
  intros uuid request header w Hfresh Hvendor.
  unfold PaymentService.initiatePayment, try_catch, bind,
    prisma.payment.find, prisma.vendor.find, gets.
  unfold keyIsFresh in Hfresh. rewrite Hfresh.
  destruct (List.find _ (vendors w)) as [v |] eqn:Hfind.
  - apply find_some in Hfind. destruct Hfind as [Hin Hsel].
    apply andb_true_iff in Hsel. destruct Hsel as [Hid Hact].
    apply Nat.eqb_eq in Hid. apply is_active_true in Hact.
    destruct (Hvendor v Hin Hid) as [Hst | Hbank]; [contradiction |].
    rewrite Hbank. eexists. split; [reflexivity |].
    right. reflexivity.
  - eexists. split; [reflexivity |]. left. reflexivity.
Qed.

Lemma C7_vendor_unavailable_witness :
  exists e,
    PaymentService.initiatePayment exampleKey
      (CreatePaymentRequest.mk 0 1000 None None) (Some exampleKey)
      inactiveVendorWorld
    = (Throw e, inactiveVendorWorld)
    /\ VendorUnavailable e.
Proof.
  apply C7_vendor_unavailable.
  - reflexivity.
  - intros v Hin Hid. simpl in Hin. destruct Hin as [Hv | []].
    subst v. left. discriminate.
Defined.

(** The same request at the route: 400, and no payment row. *)
Example inactive_vendor_at_the_route :
  let out := payments_post exampleKey (exampleRequest 1000 (Some exampleKey))
                           inactiveVendorWorld in
  statusCode (fst out) = 400 /\ payments (snd out) = [].
Proof. vm_compute. split; reflexivity. Qed.

(* ================================================================== *)
(** * Facts about tables                                                *)
(* ================================================================== *)

Section Tables.

Context {A : Type}.

Lemma find_In_some (sel : A -> bool) (l : list A) (x : A) :
  In x l -> sel x = true -> exists y, List.find sel l = Some y.
Proof.
  induction l as [| a l IH]; intros Hin Hsel; [contradiction |].
  simpl. destruct (sel a) eqn:Ha; [eauto |].
  destruct Hin as [-> | Hin]; [congruence | auto].
Qed.

Lemma find_update_where (key sel : A -> bool) (f : A -> A) (l : list A) :
  (forall x, key (f x) = key x) ->
  List.find key (prisma.update_where sel f l)
  = option_map (fun x => if sel x then f x else x) (List.find key l).
Proof.
  intros Hkey. induction l as [| a l IH]; [reflexivity |].
  simpl. destruct (sel a) eqn:Hs; rewrite ?Hkey;
    destruct (key a); simpl; rewrite ?Hs; auto.
Qed.

Lemma find_app_some (sel : A -> bool) (l l' : list A) (x : A) :
  List.find sel l = Some x -> List.find sel (l ++ l') = Some x.
Proof.
  induction l as [| a l IH]; simpl; [discriminate |].
  destruct (sel a); auto.
Qed.

Lemma find_app_none (sel : A -> bool) (l l' : list A) :
  List.find sel l = None -> List.find sel (l ++ l') = List.find sel l'.
Proof.
  induction l as [| a l IH]; simpl; [reflexivity |].
  destruct (sel a); [discriminate | auto].
Qed.

Lemma update_where_length (sel : A -> bool) (f : A -> A) (l : list A) :
  List.length (prisma.update_where sel f l) = List.length l.
Proof. apply length_map. Qed.

Lemma update_where_none (sel : A -> bool) (f : A -> A) (l : list A) :
  (forall x, In x l -> sel x = false) -> prisma.update_where sel f l = l.
Proof.
  induction l as [| a l IH]; intros H; [reflexivity |].
  simpl. rewrite (H a (or_introl eq_refl)).
  f_equal. apply IH. intros x Hx. apply H. right. exact Hx.
Qed.

End Tables.

(** What the primitives do when the row they address exists. *)

Lemma payment_update_effect (i : Id) (f : Payment.t -> Payment.t) (w : World)
    (p : Payment.t) :
  paymentById i w = Some p ->
  prisma.payment.update i f w
  = (Return tt,
     with_payments
       (prisma.update_where (prisma.payment.by_id i)
          (fun p => Payment.touch w.(clock) (f p)) w.(payments)) w).
Proof.
  unfold paymentById, prisma.payment.update, bind, prisma.payment.find,
    gets, now, modify.
  intros ->. reflexivity.
Qed.

Lemma payment_update_missing (i : Id) (f : Payment.t -> Payment.t)
    (w : World) :
  paymentById i w = None ->
  prisma.payment.update i f w = (Throw "Record to update not found.", w).
Proof.
  unfold paymentById, prisma.payment.update, bind, prisma.payment.find, gets.
  intros ->. reflexivity.
Qed.

Lemma transaction_update_effect (i : Id)
    (f : Transaction.t -> Transaction.t) (w : World) (x : Transaction.t) :
  transactionById i w = Some x ->
  prisma.transaction.update i f w
  = (Return tt,
     with_transactions
       (prisma.update_where (prisma.transaction.by_id i) f w.(transactions))
       w).
Proof.
  unfold transactionById, prisma.transaction.update, bind,
    prisma.transaction.find, gets, modify.
  intros ->. reflexivity.
Qed.

Lemma webhookEvent_update_effect (i : Id)
    (f : WebhookEvent.t -> WebhookEvent.t) (w : World) (e : WebhookEvent.t) :
  List.find (prisma.webhookEvent.by_id i) w.(webhookEvents) = Some e ->
  prisma.webhookEvent.update i f w
  = (Return tt,
     with_webhookEvents
       (prisma.update_where (prisma.webhookEvent.by_id i) f
          w.(webhookEvents)) w).
Proof.
  unfold prisma.webhookEvent.update, bind, prisma.webhookEvent.find, gets,
    modify.
  intros ->. reflexivity.
Qed.

(** A transaction found by its correlation id is found by its own id. *)
Lemma found_transaction_has_id (sel : Transaction.t -> bool) (w : World)
    (x : Transaction.t) :
  List.find sel w.(transactions) = Some x ->
  exists y, transactionById x.(Transaction.id) w = Some y.
Proof.
  intros H. apply find_some in H. destruct H as [Hin _].
  apply (find_In_some _ _ _ Hin). apply Nat.eqb_refl.
Qed.

(** The upsert returns a row that is in the table afterwards and touches no
    other table. *)
Lemma upsert_effect (eventId eventType : string)
    (body : Json.t) (w : World) :
  alreadyProcessed
    (List.find (prisma.webhookEvent.by_circleEventId eventId)
               w.(webhookEvents)) = false ->
  exists ev w1,
    prisma.webhookEvent.upsert eventId eventType body w = (Return ev, w1)
    /\ payments w1 = payments w
    /\ transactions w1 = transactions w
    /\ vendors w1 = vendors w
    /\ clock w1 = clock w
    /\ detached w1 = detached w
    /\ (exists e, List.find (prisma.webhookEvent.by_id ev.(WebhookEvent.id))
                            w1.(webhookEvents) = Some e)
    /\ (exists e1,
           List.find (prisma.webhookEvent.by_circleEventId eventId)
                     w1.(webhookEvents) = Some e1
           /\ e1.(WebhookEvent.id) = ev.(WebhookEvent.id)).
Proof.
  intros _.
  unfold prisma.webhookEvent.upsert, bind, prisma.webhookEvent.find, gets,
    modify, freshId, ret.
  destruct (List.find _ (webhookEvents w)) as [e |] eqn:Hfind.
  - eexists. eexists. split; [reflexivity |].
    do 5 (split; [reflexivity |]).
    cbn [webhookEvents with_webhookEvents WebhookEvent.id
         WebhookEvent.set_payload].
    split.
    + apply find_some in Hfind. destruct Hfind as [Hin Hsel].
      apply find_In_some with
        (x := if prisma.webhookEvent.by_circleEventId eventId e
              then WebhookEvent.set_payload body e else e).
      * unfold prisma.update_where. apply in_map_iff. exists e. auto.
      * rewrite Hsel. apply Nat.eqb_refl.
    + rewrite find_update_where by (intros []; reflexivity).
      rewrite Hfind. cbn [option_map].
      apply find_some in Hfind. destruct Hfind as [_ Hsel]. rewrite Hsel.
      eexists. split; reflexivity.
  - eexists. eexists. split; [reflexivity |].
    do 5 (split; [reflexivity |]).
    cbn [webhookEvents with_webhookEvents with_nextId WebhookEvent.id].
    split.
    + apply find_In_some with
        (x := WebhookEvent.mk (nextId w) eventId eventType body false
                              None None None).
      * apply in_or_app. right. left. reflexivity.
      * apply Nat.eqb_refl.
    + rewrite (find_app_none _ _ _ Hfind). cbn [List.find].
      unfold prisma.webhookEvent.by_circleEventId at 1.
      cbn [WebhookEvent.circleEventId]. rewrite String.eqb_refl.
      eexists. split; reflexivity.
Qed.

(* ================================================================== *)
(** * The webhook route                                                 *)
(* ================================================================== *)

Lemma try_catch_rethrow {A} (c : M A) (w : World) :
  try_catch c (fun error => throw error) w = c w.
Proof.
  unfold try_catch, throw. destruct (c w) as [[a | e] w']; reflexivity.
Qed.

(** An authentic, not yet processed event is stored and dispatched. *)
Lemma route_dispatches (webhookSecret : option string)
    (req : WebhookRequest.t) (w : World) :
  signaturePasses webhookSecret req ->
  notYetProcessed req w ->
  exists ev w1,
    webhooks_post_circle webhookSecret req w = finishEvent req ev w1
    /\ payments w1 = payments w
    /\ transactions w1 = transactions w
    /\ vendors w1 = vendors w
    /\ clock w1 = clock w
    /\ detached w1 = detached w
    /\ (exists e, List.find (prisma.webhookEvent.by_id ev.(WebhookEvent.id))
                            w1.(webhookEvents) = Some e)
    /\ (exists e1,
           List.find
             (prisma.webhookEvent.by_circleEventId
                req.(WebhookRequest.body).(CircleWebhookPayload.Id_))
             w1.(webhookEvents) = Some e1
           /\ e1.(WebhookEvent.id) = ev.(WebhookEvent.id)).
Proof.
  intros Hsig Hnew.
  destruct (upsert_effect
              req.(WebhookRequest.body).(CircleWebhookPayload.Id_)
              req.(WebhookRequest.body).(CircleWebhookPayload.Type_)
              req.(WebhookRequest.body) w Hnew)
    as (ev & w1 & Hup & Hframe).
  exists ev, w1. split; [| exact Hframe].
  unfold webhooks_post_circle, finishEvent, eventTypeOf.
  unfold bind at 1. rewrite (Hsig w).
  unfold bind at 1. unfold prisma.webhookEvent.find at 1. unfold gets at 1.
  unfold notYetProcessed in Hnew. rewrite Hnew.
  unfold bind at 1. rewrite Hup.
  unfold bind at 1.
  destruct (processWebhookEvent _ _ _ w1) as [[[] | e] w2]; [| reflexivity].
  unfold bind at 1. unfold now at 1. unfold gets at 1.
  unfold bind at 1.
  destruct (prisma.webhookEvent.update _ _ w2) as [[[] | e] w3];
    reflexivity.
Qed.

Lemma dispatch_transfer_failed (ty : string) (d : EventData.t) (i : Id)
    (w : World) :
  ty = "transfer.failed" ->
  processWebhookEvent ty d i w = handleTransferFailed d i w.
Proof.
  intros ->. unfold processWebhookEvent. rewrite try_catch_rethrow.
  reflexivity.
Qed.

Lemma dispatch_payout_completed (ty : string) (d : EventData.t) (i : Id)
    (w : World) :
  ty = "payout.completed" ->
  processWebhookEvent ty d i w = handlePayoutCompleted d i w.
Proof.
  intros ->. unfold processWebhookEvent. rewrite try_catch_rethrow.
  reflexivity.
Qed.

(** [handleTransferFailed] on a matching transaction whose payment exists. *)
Lemma handleTransferFailed_effect (d : EventData.t) (evId : Id) (w : World)
    (tx : Transaction.t) (p : Payment.t) (e : WebhookEvent.t) :
  List.find (prisma.transaction.by_circleTransactionId d.(EventData.id))
            w.(transactions) = Some tx ->
  paymentById tx.(Transaction.paymentId) w = Some p ->
  List.find (prisma.webhookEvent.by_id evId) w.(webhookEvents) = Some e ->
  exists w2,
    handleTransferFailed d evId w = (Return tt, w2)
    /\ transactions w2
       = prisma.update_where
           (prisma.transaction.by_id tx.(Transaction.id))
           (Transaction.set_status TransactionStatus.FAILED)
           w.(transactions)
    /\ payments w2
       = (if TransactionType.eqb tx.(Transaction.type) TransactionType.PAYOUT
          then prisma.update_where
                 (prisma.payment.by_id tx.(Transaction.paymentId))
                 (fun p => Payment.touch w.(clock)
                             (Payment.set_status PaymentStatus.FAILED p))
                 w.(payments)
          else w.(payments))
    /\ clock w2 = clock w
    /\ (exists e', List.find (prisma.webhookEvent.by_id evId)
                             w2.(webhookEvents) = Some e').
Proof.
  intros Htx Hp He.
  destruct (found_transaction_has_id _ _ _ Htx) as [y Hy].
  unfold handleTransferFailed.
  unfold bind at 1. unfold prisma.transaction.find at 1. unfold gets at 1.
  rewrite Htx.
  unfold bind at 1. erewrite transaction_update_effect by exact Hy.
  unfold bind at 1.
  destruct (TransactionType.eqb (Transaction.type tx) TransactionType.PAYOUT).
  - erewrite payment_update_effect by exact Hp.
    erewrite webhookEvent_update_effect by exact He.
    eexists. split; [reflexivity |].
    cbn [transactions payments clock webhookEvents with_webhookEvents
         with_payments with_transactions].
    repeat split.
    rewrite find_update_where by (intros []; reflexivity).
    rewrite He. simpl. eauto.
  - unfold ret at 1.
    erewrite webhookEvent_update_effect by exact He.
    eexists. split; [reflexivity |].
    cbn [transactions payments clock webhookEvents with_webhookEvents
         with_payments with_transactions].
    repeat split.
    rewrite find_update_where by (intros []; reflexivity).
    rewrite He. simpl. eauto.
Qed.

(** C8.  An authentic, unprocessed [transfer.failed] event whose correlation
    id matches a transaction is answered with 200; afterwards that
    transaction is FAILED, the owning payment is FAILED when the transaction
    is the PAYOUT, and otherwise the payment table is untouched. *)
Theorem C8_transfer_failed :
  forall webhookSecret req w tx p,
    signaturePasses webhookSecret req ->
    notYetProcessed req w ->
    eventTypeOf req = "transfer.failed" ->
    matchedTransaction req w = Some tx ->
    paymentById tx.(Transaction.paymentId) w = Some p ->
    let out := webhooks_post_circle webhookSecret req w in
    fst out = processedResponse
    /\ (exists tx',
           transactionById tx.(Transaction.id) (snd out) = Some tx'
           /\ tx'.(Transaction.status) = TransactionStatus.FAILED)
    /\ (tx.(Transaction.type) = TransactionType.PAYOUT ->
        exists p',
          paymentById tx.(Transaction.paymentId) (snd out) = Some p'
          /\ p'.(Payment.status) = PaymentStatus.FAILED)
    /\ (tx.(Transaction.type) <> TransactionType.PAYOUT ->
        payments (snd out) = payments w).
Proof.
  intros webhookSecret req w tx p Hsig Hnew Hty Htx Hp out.
  destruct (route_dispatches webhookSecret req w Hsig Hnew)
    as (ev & w1 & Hroute & Hpay & Htxs & _ & Hclock & _ & [e He] & _).
  unfold matchedTransaction, eventCorrelationId in Htx.
  rewrite <- Htxs in Htx.
  assert (Hp1 : paymentById (Transaction.paymentId tx) w1 = Some p)
    by (unfold paymentById in *; rewrite Hpay; exact Hp).
  destruct (handleTransferFailed_effect _ _ _ _ _ _ Htx Hp1 He)
    as (w2 & Hrun & Htx2 & Hpay2 & Hclock2 & [e2 He2]).
  unfold finishEvent in Hroute.
  rewrite (dispatch_transfer_failed _ _ _ _ Hty), Hrun in Hroute.
  erewrite webhookEvent_update_effect in Hroute by exact He2.
  subst out. rewrite Hroute.
  cbn [fst snd]. unfold transactionById, paymentById.
  cbn [transactions payments with_webhookEvents].
  rewrite Htx2, Hpay2, Htxs, Hpay, Hclock.
  split; [reflexivity |]. split; [| split].
  - rewrite find_update_where by (intros []; reflexivity).
    destruct (found_transaction_has_id _ _ _ Htx) as [y Hy].
    unfold transactionById in Hy. rewrite Htxs in Hy. rewrite Hy.
    apply find_some in Hy. destruct Hy as [_ Hy].
    cbn [option_map]. rewrite Hy.
    eexists. split; reflexivity.
  - intros Hpayout. rewrite Hpayout. cbn [TransactionType.eqb].
    rewrite find_update_where by (intros []; reflexivity).
    unfold paymentById in Hp. rewrite Hp.
    apply find_some in Hp. destruct Hp as [_ Hp].
    cbn [option_map]. rewrite Hp.
    eexists. split; reflexivity.
  - intros Hother.
    destruct (Transaction.type tx); try reflexivity. congruence.
Qed.

Lemma no_secret_passes (req : WebhookRequest.t) : signaturePasses None req.
Proof. intros w. reflexivity. Qed.

Lemma C8_transfer_failed_witness :
  let req := webhook "transfer.failed" "evt_1" "payout-1700000002000" in
  exists tx,
    matchedTransaction req completedWorld = Some tx
    /\ tx.(Transaction.type) = TransactionType.PAYOUT
    /\ fst (webhooks_post_circle None req completedWorld) = processedResponse
    /\ exists p',
         paymentById tx.(Transaction.paymentId)
                     (snd (webhooks_post_circle None req completedWorld))
         = Some p'
         /\ p'.(Payment.status) = PaymentStatus.FAILED.
Proof.
  intros req.
  assert (Hfacts : exists tx p,
             matchedTransaction req completedWorld = Some tx
             /\ paymentById tx.(Transaction.paymentId) completedWorld = Some p
             /\ tx.(Transaction.type) = TransactionType.PAYOUT).
  { eexists. eexists. split; [compute_lhs |]. split; [compute_lhs |].
    reflexivity. }
  destruct Hfacts as (tx & p & Htx & Hp & Hty).
  assert (Hnew : notYetProcessed req completedWorld)
    by (unfold notYetProcessed; compute_lhs).
  pose proof (C8_transfer_failed None req completedWorld tx p
                (no_secret_passes req) Hnew eq_refl Htx Hp) as H.
  cbv zeta in H. destruct H as (H1 & _ & H3 & _).
  exists tx. split; [exact Htx |]. split; [exact Hty |].
  split; [exact H1 | exact (H3 Hty)].
Defined.

(** [handlePayoutCompleted] on a matching transaction whose payment exists. *)
Lemma handlePayoutCompleted_effect (d : EventData.t) (evId : Id) (w : World)
    (tx : Transaction.t) (p : Payment.t) (e : WebhookEvent.t) :
  List.find (prisma.transaction.by_circleTransactionId d.(EventData.id))
            w.(transactions) = Some tx ->
  paymentById tx.(Transaction.paymentId) w = Some p ->
  List.find (prisma.webhookEvent.by_id evId) w.(webhookEvents) = Some e ->
  exists w2,
    handlePayoutCompleted d evId w = (Return tt, w2)
    /\ transactions w2
       = prisma.update_where
           (prisma.transaction.by_id tx.(Transaction.id))
           (Transaction.set_status TransactionStatus.CONFIRMED)
           w.(transactions)
    /\ payments w2
       = prisma.update_where
           (prisma.payment.by_id tx.(Transaction.paymentId))
           (fun p => Payment.touch w.(clock)
                       (Payment.set_actualSettlementTime w.(clock)
                          (Payment.set_status PaymentStatus.COMPLETED p)))
           w.(payments)
    /\ clock w2 = clock w
    /\ (exists e', List.find (prisma.webhookEvent.by_id evId)
                             w2.(webhookEvents) = Some e').
Proof.
  intros Htx Hp He.
  destruct (found_transaction_has_id _ _ _ Htx) as [y Hy].
  unfold handlePayoutCompleted.
  unfold bind at 1. unfold prisma.transaction.find at 1. unfold gets at 1.
  rewrite Htx.
  unfold bind at 1. erewrite transaction_update_effect by exact Hy.
  unfold bind at 1. unfold now at 1. unfold gets at 1.
  unfold bind at 1.
  erewrite payment_update_effect by exact Hp.
  erewrite webhookEvent_update_effect by exact He.
  eexists. split; [reflexivity |].
  cbn [transactions payments clock webhookEvents with_webhookEvents
       with_payments with_transactions].
  repeat split.
  rewrite find_update_where by (intros []; reflexivity).
  rewrite He. simpl. eauto.
Qed.

(** C10.  An authentic, unprocessed [payout.completed] event whose
    correlation id matches a transaction sets that transaction CONFIRMED and
    the owning payment COMPLETED with the current time as its settlement
    time, whatever the payment's status was. *)
Theorem C10_payout_completed_overrides :
  forall webhookSecret req w tx p,
    signaturePasses webhookSecret req ->
    notYetProcessed req w ->
    eventTypeOf req = "payout.completed" ->
    matchedTransaction req w = Some tx ->
    paymentById tx.(Transaction.paymentId) w = Some p ->
    let out := webhooks_post_circle webhookSecret req w in
    fst out = processedResponse
    /\ (exists tx',
           transactionById tx.(Transaction.id) (snd out) = Some tx'
           /\ tx'.(Transaction.status) = TransactionStatus.CONFIRMED)
    /\ (exists p',
           paymentById tx.(Transaction.paymentId) (snd out) = Some p'
           /\ p'.(Payment.status) = PaymentStatus.COMPLETED
           /\ p'.(Payment.actualSettlementTime) = Some w.(clock)).
Proof.
  intros webhookSecret req w tx p Hsig Hnew Hty Htx Hp out.
  destruct (route_dispatches webhookSecret req w Hsig Hnew)
    as (ev & w1 & Hroute & Hpay & Htxs & _ & Hclock & _ & [e He] & _).
  unfold matchedTransaction, eventCorrelationId in Htx.
  rewrite <- Htxs in Htx.
  assert (Hp1 : paymentById (Transaction.paymentId tx) w1 = Some p)
    by (unfold paymentById in *; rewrite Hpay; exact Hp).
  destruct (handlePayoutCompleted_effect _ _ _ _ _ _ Htx Hp1 He)
    as (w2 & Hrun & Htx2 & Hpay2 & Hclock2 & [e2 He2]).
  unfold finishEvent in Hroute.
  rewrite (dispatch_payout_completed _ _ _ _ Hty), Hrun in Hroute.
  erewrite webhookEvent_update_effect in Hroute by exact He2.
  subst out. rewrite Hroute.
  cbn [fst snd]. unfold transactionById, paymentById.
  cbn [transactions payments with_webhookEvents].
  rewrite Htx2, Hpay2, Htxs, Hpay, Hclock.
  split; [reflexivity |]. split.
  - rewrite find_update_where by (intros []; reflexivity).
    destruct (found_transaction_has_id _ _ _ Htx) as [y Hy].
    unfold transactionById in Hy. rewrite Htxs in Hy. rewrite Hy.
    apply find_some in Hy. destruct Hy as [_ Hy].
    cbn [option_map]. rewrite Hy.
    eexists. split; reflexivity.
  - rewrite find_update_where by (intros []; reflexivity).
    unfold paymentById in Hp. rewrite Hp.
    apply find_some in Hp. destruct Hp as [_ Hp].
    cbn [option_map]. rewrite Hp.
    eexists. repeat split.
Qed.

(** The witness is the case the claim singles out: the payment is FAILED,
    with a settlement time stamped a minute earlier. *)
Lemma C10_payout_completed_overrides_witness :
  let req := webhook "payout.completed" "evt_2" "payout-1700000002000" in
  exists tx p p',
    matchedTransaction req failedWorld = Some tx
    /\ paymentById tx.(Transaction.paymentId) failedWorld = Some p
    /\ p.(Payment.status) = PaymentStatus.FAILED
    /\ p.(Payment.actualSettlementTime) = Some 1700000002000%Z
    /\ paymentById tx.(Transaction.paymentId)
                   (snd (webhooks_post_circle None req failedWorld))
       = Some p'
    /\ p'.(Payment.status) = PaymentStatus.COMPLETED
    /\ p'.(Payment.actualSettlementTime) = Some failedWorld.(clock)
    /\ failedWorld.(clock) = 1700000062000%Z.
Proof.
  intros req.
  assert (Hfacts : exists tx p,
             matchedTransaction req failedWorld = Some tx
             /\ paymentById tx.(Transaction.paymentId) failedWorld = Some p
             /\ p.(Payment.status) = PaymentStatus.FAILED
             /\ p.(Payment.actualSettlementTime) = Some 1700000002000%Z).
  { eexists. eexists. split; [compute_lhs |]. split; [compute_lhs |].
    split; reflexivity. }
  destruct Hfacts as (tx & p & Htx & Hp & Hst & Hat).
  assert (Hnew : notYetProcessed req failedWorld)
    by (unfold notYetProcessed; compute_lhs).
  pose proof (C10_payout_completed_overrides None req failedWorld tx p
                (no_secret_passes req) Hnew eq_refl Htx Hp) as H.
  cbv zeta in H. destruct H as (_ & _ & p' & Hp' & Hst' & Hat').
  exists tx, p, p'. repeat (split; [assumption |]).
  compute_lhs.
Defined.

(* ================================================================== *)
(** * Rules for [keeps]                                                 *)
(* ================================================================== *)

Section KeepsRules.

Variable I : World -> Prop.

Lemma keeps_ret {A} (a : A) : keeps I (ret a).
Proof. intros w H. exact H. Qed.

Lemma keeps_throw {A} (e : Error) : keeps I (@throw A e).
Proof. intros w H. exact H. Qed.

Lemma keeps_gets {A} (f : World -> A) : keeps I (gets f).
Proof. intros w H. exact H. Qed.

Lemma keeps_liftOutcome {A} (o : Outcome A) : keeps I (liftOutcome o).
Proof. intros w H. exact H. Qed.

Lemma keeps_modify (f : World -> World) :
  (forall w, I w -> I (f w)) -> keeps I (modify f).
Proof. intros Hf w H. apply Hf. exact H. Qed.

Lemma keeps_bind {A B} (c : M A) (k : A -> M B) :
  keeps I c -> (forall a, keeps I (k a)) -> keeps I (bind c k).
Proof.
  intros Hc Hk w H. unfold bind.
  specialize (Hc w H). destruct (c w) as [[a | e] w1]; cbn [snd] in *.
  - apply Hk. exact Hc.
  - exact Hc.
Qed.

Lemma keeps_try_catch {A} (c : M A) (h : Error -> M A) :
  keeps I c -> (forall e, keeps I (h e)) -> keeps I (try_catch c h).
Proof.
  intros Hc Hh w H. unfold try_catch.
  specialize (Hc w H). destruct (c w) as [[a | e] w1]; cbn [snd] in *.
  - exact Hc.
  - apply Hh. exact Hc.
Qed.

Lemma keeps_call {A} (F : Faults) (site : CallSite) (op : M A) :
  keeps I op -> keeps I (call F site op).
Proof.
  intros Hop w H. unfold call. destruct (F site); [exact H |].
  apply Hop. exact H.
Qed.

End KeepsRules.

(** Decompose a [keeps] goal along the structure of the code. *)
Ltac keeps_step :=
  lazymatch goal with
  | |- keeps _ (bind _ _) => apply keeps_bind; [| intros ?]
  | |- keeps _ (try_catch _ _) => apply keeps_try_catch; [| intros ?]
  | |- keeps _ (call _ _ _) => apply keeps_call
  | |- keeps _ (ret _) => apply keeps_ret
  | |- keeps _ (throw _) => apply keeps_throw
  | |- keeps _ (gets _) => apply keeps_gets
  | |- keeps _ now => apply keeps_gets
  | |- keeps _ (liftOutcome _) => apply keeps_liftOutcome
  | |- keeps _ (prisma.payment.find _) => apply keeps_gets
  | |- keeps _ (prisma.transaction.find _) => apply keeps_gets
  | |- keeps _ (prisma.transaction.findMany _) => apply keeps_gets
  | |- keeps _ (prisma.vendor.find _) => apply keeps_gets
  | |- keeps _ (prisma.webhookEvent.find _) => apply keeps_gets
  | |- keeps _ (match ?x with _ => _ end) => destruct x
  end.

Lemma set_status_txCosmetic (s : TransactionStatus.t) :
  txCosmetic (Transaction.set_status s).
Proof. intros x. repeat split. Qed.

Lemma confirm_txCosmetic (h : option string) (s : TransactionStatus.t) :
  txCosmetic (fun x => Transaction.set_blockchainTxHash h
                         (Transaction.set_status s x)).
Proof. intros x. repeat split. Qed.

Lemma write_txCosmetic (data : Untyped.Data) (s : TransactionStatus.t) :
  txCosmetic (fun x => Untyped.write_blockchainTxHash data
                         (Transaction.set_status s x)).
Proof. intros x. destruct data as [| [h |]]; repeat split. Qed.

Lemma set_status_paymentCosmetic (s : PaymentStatus.t) :
  paymentCosmetic (Payment.set_status s).
Proof. split; intros p; repeat split. Qed.

Lemma complete_paymentCosmetic (d : Timestamp) (s : PaymentStatus.t) :
  paymentCosmetic (fun p => Payment.set_actualSettlementTime d
                              (Payment.set_status s p)).
Proof. split; intros p; repeat split. Qed.

Lemma set_circlePaymentId_paymentCosmetic (c : string) :
  paymentCosmetic (Payment.set_circlePaymentId c).
Proof. split; intros p; repeat split. Qed.

Lemma set_actualSettlementTime_paymentCosmetic (d : Timestamp) :
  paymentCosmetic (Payment.set_actualSettlementTime d).
Proof. split; intros p; repeat split. Qed.

Lemma set_relatedPaymentId_eventCosmetic (i : Id) :
  eventCosmetic (WebhookEvent.set_relatedPaymentId i).
Proof. intros e. repeat split. Qed.

Lemma set_relatedTransactionId_eventCosmetic (i : Id) :
  eventCosmetic (WebhookEvent.set_relatedTransactionId i).
Proof. intros e. repeat split. Qed.

Create HintDb cosmetic.
#[export] Hint Resolve set_status_txCosmetic confirm_txCosmetic
  write_txCosmetic set_status_paymentCosmetic complete_paymentCosmetic
  set_circlePaymentId_paymentCosmetic
  set_actualSettlementTime_paymentCosmetic
  set_relatedPaymentId_eventCosmetic
  set_relatedTransactionId_eventCosmetic : cosmetic.

Section Handlers.

Variable I : World -> Prop.
Hypothesis closed : HandlerClosed I.

Ltac handler_step :=
  first
    [ keeps_step
    | apply (hc_payment_update closed); auto with cosmetic
    | apply (hc_transaction_update closed); auto with cosmetic
    | apply (hc_transaction_updateMany closed); auto with cosmetic
    | apply (hc_event_update closed); auto with cosmetic ].

Lemma processWebhookEvent_keeps (eventType : string) (d : EventData.t)
    (i : Id) :
  keeps I (processWebhookEvent eventType d i).
Proof.
  unfold processWebhookEvent, handlePaymentIntentSucceeded,
    handlePaymentIntentFailed, handleTransferCompleted, handleTransferFailed,
    handlePayoutCompleted, handlePayoutFailed.
  repeat handler_step.
Qed.

Lemma untyped_processWebhookEvent_keeps (client : Untyped.Client)
    (eventType : string) (d : option Json.t) (i : Id) :
  keeps I (Untyped.processWebhookEvent client eventType d i).
Proof.
  unfold Untyped.processWebhookEvent, Untyped.handlePaymentIntentSucceeded,
    Untyped.handlePaymentIntentFailed, Untyped.handleTransferCompleted,
    Untyped.handleTransferFailed, Untyped.handlePayoutCompleted,
    Untyped.handlePayoutFailed, Untyped.read, Untyped.validated.
  repeat handler_step.
Qed.

End Handlers.

(* ================================================================== *)
(** * Deduplication of webhook events                                   *)
(* ================================================================== *)

(** Which tables a primitive leaves alone. *)

Lemma payment_update_frame (i : Id) (f : Payment.t -> Payment.t)
    (w : World) :
  let w' := snd (prisma.payment.update i f w) in
  transactions w' = transactions w
  /\ webhookEvents w' = webhookEvents w
  /\ vendors w' = vendors w
  /\ clock w' = clock w
  /\ nextId w' = nextId w
  /\ detached w' = detached w.
Proof.
  unfold prisma.payment.update, bind, prisma.payment.find, gets, now,
    modify, throw.
  destruct (List.find _ (payments w)); repeat split.
Qed.

Lemma transaction_update_frame (i : Id)
    (f : Transaction.t -> Transaction.t) (w : World) :
  let w' := snd (prisma.transaction.update i f w) in
  payments w' = payments w
  /\ webhookEvents w' = webhookEvents w
  /\ vendors w' = vendors w
  /\ clock w' = clock w
  /\ nextId w' = nextId w
  /\ detached w' = detached w.
Proof.
  unfold prisma.transaction.update, bind, prisma.transaction.find, gets,
    modify, throw.
  destruct (List.find _ (transactions w)); repeat split.
Qed.

Lemma signatureRejected_pure (webhookSecret : option string)
    (payload : string) (signature : option string) :
  exists o, forall w,
    signatureRejected webhookSecret payload signature w = (o, w).
Proof.
  unfold signatureRejected, bind, liftOutcome, ret.
  destruct webhookSecret as [secret |]; [| eexists; reflexivity].
  destruct (String.eqb secret ""); [eexists; reflexivity |].
  destruct (verifyWebhookSignature payload signature secret);
    eexists; reflexivity.
Qed.

Lemma eventRowIs_closed (eventId : string) (i : Id) :
  HandlerClosed (eventRowIs eventId i).
Proof.
  split.
  - intros j f _ w H. unfold eventRowIs in *.
    destruct (payment_update_frame j f w) as (_ & -> & _). exact H.
  - intros j f _ w H. unfold eventRowIs in *.
    destruct (transaction_update_frame j f w) as (_ & -> & _). exact H.
  - intros sel f _ w H. exact H.
  - intros j f Hf w [e [He Hid]]. unfold eventRowIs.
    unfold prisma.webhookEvent.update, bind, prisma.webhookEvent.find, gets,
      modify, throw.
    destruct (List.find (prisma.webhookEvent.by_id j) (webhookEvents w));
      cbn [snd webhookEvents with_webhookEvents]; [| eauto].
    rewrite find_update_where.
    + rewrite He. cbn [option_map].
      destruct (prisma.webhookEvent.by_id j e); eexists; split;
        try reflexivity; try exact Hid.
      rewrite <- Hid. apply Hf.
    + intros x. unfold prisma.webhookEvent.by_circleEventId.
      destruct (Hf x) as (_ & -> & _). reflexivity.
Qed.

(** A processed event row stops the route before any write. *)
Lemma route_on_processed (webhookSecret : option string)
    (req : WebhookRequest.t) (w : World) (o : Outcome bool) :
  (forall w',
      signatureRejected webhookSecret
        (JSON.stringify req.(WebhookRequest.body))
        req.(WebhookRequest.xSignature) w' = (o, w')) ->
  markedProcessed req w ->
  webhooks_post_circle webhookSecret req w
  = (match o with
     | Return true => unauthorizedResponse
     | Return false => alreadyProcessedResponse
     | Throw _ => failureResponse
     end, w).
Proof.
  intros Ho [e [He Hproc]].
  unfold webhooks_post_circle.
  unfold bind at 1. rewrite (Ho w).
  destruct o as [[|] | err]; try reflexivity.
  unfold bind at 1. unfold prisma.webhookEvent.find at 1.
  unfold gets at 1. rewrite He. cbn [alreadyProcessed]. rewrite Hproc.
  reflexivity.
Qed.

(** It is answered [already_processed] as soon as the signature gate lets
    the request through. *)
Lemma processed_event_is_skipped (webhookSecret : option string)
    (req : WebhookRequest.t) (w : World) :
  markedProcessed req w ->
  snd (webhooks_post_circle webhookSecret req w) = w
  /\ (signaturePasses webhookSecret req ->
      fst (webhooks_post_circle webhookSecret req w)
      = alreadyProcessedResponse).
Proof.
  intros Hmarked.
  destruct (signatureRejected_pure webhookSecret
              (JSON.stringify req.(WebhookRequest.body))
              req.(WebhookRequest.xSignature)) as [o Ho].
  rewrite (route_on_processed webhookSecret req w o Ho Hmarked).
  split; [reflexivity |].
  intros Hpass. specialize (Hpass w). rewrite Ho in Hpass.
  injection Hpass as ->. reflexivity.
Qed.

(** An ingest answered with [processed] came through the signature gate, met
    an unprocessed event id, and leaves the row of that id processed. *)
Lemma processed_answer_marks_row (webhookSecret : option string)
    (req : WebhookRequest.t) (w : World) :
  fst (webhooks_post_circle webhookSecret req w) = processedResponse ->
  signaturePasses webhookSecret req
  /\ markedProcessed req (snd (webhooks_post_circle webhookSecret req w)).
Proof.
  intros Hans.
  destruct (signatureRejected_pure webhookSecret
              (JSON.stringify req.(WebhookRequest.body))
              req.(WebhookRequest.xSignature)) as [o Ho].
  assert (Hsig : signaturePasses webhookSecret req).
  { unfold signaturePasses. intros w'. rewrite Ho.
    unfold webhooks_post_circle in Hans.
    unfold bind at 1 in Hans. rewrite (Ho w) in Hans.
    destruct o as [[|] | err]; try reflexivity; discriminate Hans. }
  split; [exact Hsig |].
  assert (Hnew : notYetProcessed req w).
  { unfold notYetProcessed.
    destruct (alreadyProcessed _) eqn:Hdone; [| reflexivity].
    exfalso.
    assert (Hm : markedProcessed req w).
    { unfold alreadyProcessed in Hdone.
      destruct (List.find _ (webhookEvents w)) as [e |] eqn:He;
        [| discriminate].
      exists e. split; [exact He | exact Hdone]. }
    destruct (processed_event_is_skipped webhookSecret req w Hm)
      as [_ Hresp].
    rewrite (Hresp Hsig) in Hans. discriminate Hans. }
  destruct (route_dispatches webhookSecret req w Hsig Hnew)
    as (ev & w1 & Hroute & _ & _ & _ & _ & _ & _ & Hrow).
  rewrite Hroute in Hans |- *.
  unfold finishEvent in *.
  pose proof (processWebhookEvent_keeps _
                (eventRowIs_closed _ ev.(WebhookEvent.id))
                (eventTypeOf req)
                req.(WebhookRequest.body).(CircleWebhookPayload.Data)
                ev.(WebhookEvent.id) w1 Hrow) as Hkept.
  destruct (processWebhookEvent _ _ _ w1) as [[[] | err] w2];
    [| discriminate Hans].
  cbn [snd] in Hkept. destruct Hkept as [e2 [He2 Hid2]].
  unfold prisma.webhookEvent.update, bind, prisma.webhookEvent.find, gets,
    modify, throw in *.
  destruct (List.find (prisma.webhookEvent.by_id _) (webhookEvents w2));
    [| discriminate Hans].
  cbn [snd]. unfold markedProcessed.
  cbn [webhookEvents with_webhookEvents].
  rewrite find_update_where by (intros []; reflexivity).
  rewrite He2. cbn [option_map].
  unfold prisma.webhookEvent.by_id at 1. rewrite Hid2, Nat.eqb_refl.
  eexists. split; reflexivity.
Qed.

(** C4.  Once the row of an event id is marked processed, an ingest of that
    event id writes nothing, and it is answered 200 [already_processed] when
    it comes through the signature gate; in particular, replaying a request
    that was answered [processed] is answered [already_processed] and leaves
    every table as it is. *)
Theorem C4_webhook_dedup :
  (forall webhookSecret req w,
      markedProcessed req w ->
      snd (webhooks_post_circle webhookSecret req w) = w
      /\ (signaturePasses webhookSecret req ->
          fst (webhooks_post_circle webhookSecret req w)
          = alreadyProcessedResponse))
  /\ (forall webhookSecret req w,
         fst (webhooks_post_circle webhookSecret req w) = processedResponse ->
         let w' := snd (webhooks_post_circle webhookSecret req w) in
         webhooks_post_circle webhookSecret req w'
         = (alreadyProcessedResponse, w')).
Proof.
  split.
  - exact processed_event_is_skipped.
  - intros webhookSecret req w Hans w'.
    destruct (processed_answer_marks_row webhookSecret req w Hans)
      as [Hsig Hmarked].
    destruct (processed_event_is_skipped webhookSecret req w' Hmarked)
      as [Hsame Hresp].
    rewrite (surjective_pairing (webhooks_post_circle webhookSecret req w')).
    rewrite Hsame, (Hresp Hsig). reflexivity.
Qed.

Lemma C4_webhook_dedup_witness :
  let req := webhook "payout.completed" "evt_2" "payout-1700000002000" in
  let w' := snd (webhooks_post_circle None req failedWorld) in
  webhooks_post_circle None req w' = (alreadyProcessedResponse, w').
Proof.
  intros req.
  assert (Hans : fst (webhooks_post_circle None req failedWorld)
                 = processedResponse) by compute_lhs.
  exact (proj2 C4_webhook_dedup None req failedWorld Hans).
Defined.

(* ================================================================== *)
(** * The signature gate                                                *)
(* ================================================================== *)

Section Digest.

Import crypto.

(** The digest of the standard's first test message, and an HMAC test case
    of RFC 4231. *)
Example sha256_abc :
  toHex (sha256 (utf8 "abc"))
  = "ba7816bf8f01cfea414140de5dae2223b00361a396177a9cb410ff61f20015ad".
Proof. vm_compute. reflexivity. Qed.

Example hmacSha256_rfc4231 :
  toHex (hmacSha256 (utf8 "Jefe") (utf8 "what do ya want for nothing?"))
  = "5bdcc146bf60754e6a042426089575c75a003f089d2739839dec58b964ec3843".
Proof. vm_compute. reflexivity. Qed.

Example round_constants :
  List.length K256 = 64 /\ nth 0 K256 0%Z = 0x428a2f98%Z
  /\ nth 63 K256 0%Z = 0xc67178f2%Z /\ nth 7 H256 0%Z = 0x5be0cd19%Z.
Proof. vm_compute. repeat split. Qed.
















End Digest.



(** A header that does not decode to 32 bytes, or no header at all, makes
    the comparison throw: the answer is 500, not 401. *)
Example malformed_signature_is_a_server_error :
  webhooks_post_circle (Some exampleSecret) (signedWith (Some "ab"))
                       completedWorld
  = (failureResponse, completedWorld)
  /\ webhooks_post_circle (Some exampleSecret) (signedWith None)
                          completedWorld
     = (failureResponse, completedWorld).
Proof. vm_compute. split; reflexivity. Qed.



(* ================================================================== *)
(** * What the processing flow records                                  *)
(* ================================================================== *)

Lemma sameTransaction_refl (x : Transaction.t) : sameTransaction x x.
Proof. repeat split. Qed.

Lemma sameTransaction_trans (x y z : Transaction.t) :
  sameTransaction x y -> sameTransaction y z -> sameTransaction x z.
Proof.
  unfold sameTransaction. intros H1 H2.
  destruct H1 as (? & ? & ? & ? & ? & ? & ? & ? & ?).
  destruct H2 as (? & ? & ? & ? & ? & ? & ? & ? & ?).
  repeat split; congruence.
Qed.

Lemma same_table_refl (l : list Transaction.t) : Forall2 sameTransaction l l.
Proof. induction l; constructor; auto using sameTransaction_refl. Qed.

Lemma same_table_trans (l1 l2 l3 : list Transaction.t) :
  Forall2 sameTransaction l1 l2 -> Forall2 sameTransaction l2 l3 ->
  Forall2 sameTransaction l1 l3.
Proof.
  intros H. revert l3. induction H; intros l3 H3; inversion H3; subst;
    constructor; eauto using sameTransaction_trans.
Qed.

Lemma same_table_update (sel : Transaction.t -> bool)
    (f : Transaction.t -> Transaction.t) (l : list Transaction.t) :
  txCosmetic f -> Forall2 sameTransaction l (prisma.update_where sel f l).
Proof.
  intros Hf. induction l as [| x l IH]; [constructor |].
  cbn [prisma.update_where map]. constructor; [| exact IH].
  destruct (sel x); [apply Hf | apply sameTransaction_refl].
Qed.

Lemma same_table_types (l l' : list Transaction.t) :
  Forall2 sameTransaction l l' ->
  map Transaction.type l' = map Transaction.type l
  /\ createdAts l' = createdAts l
  /\ map Transaction.paymentId l' = map Transaction.paymentId l.
Proof.
  induction 1 as [| x y l l' Hxy _ IH]; [repeat split |].
  destruct IH as (IH1 & IH2 & IH3).
  destruct Hxy as (_ & Hp & Ht & _ & _ & _ & _ & _ & Hc).
  unfold createdAts in *. cbn [map].
  rewrite IH1, IH2, IH3, Hp, Ht, Hc. repeat split.
Qed.

Lemma same_table_Forall (P : Id -> Timestamp -> Prop)
    (l l' : list Transaction.t) :
  Forall2 sameTransaction l l' ->
  Forall (fun x => P x.(Transaction.paymentId) x.(Transaction.createdAt)) l ->
  Forall (fun x => P x.(Transaction.paymentId) x.(Transaction.createdAt)) l'.
Proof.
  induction 1 as [| x y l l' Hxy _ IH]; intros H; [constructor |].
  inversion H; subst. constructor; [| auto].
  destruct Hxy as (_ & -> & _ & _ & _ & _ & _ & _ & ->). assumption.
Qed.

Lemma sorted_app (l1 l2 : list Z) :
  StronglySorted Z.le l1 -> StronglySorted Z.le l2 ->
  (forall x y, In x l1 -> In y l2 -> (x <= y)%Z) ->
  StronglySorted Z.le (l1 ++ l2).
Proof.
  induction 1 as [| a l1 Hs IH Ha]; intros H2 Hcross; [exact H2 |].
  cbn [app]. constructor.
  - apply IH; [exact H2 |]. intros x y Hx Hy. apply Hcross; [right |]; auto.
  - apply Forall_app. split; [exact Ha |].
    apply Forall_forall. intros y Hy. apply Hcross; [left |]; auto.
Qed.

Lemma grown_idle (paymentId : Id) (w w' : World) :
  transactions w' = transactions w -> (clock w <= clock w')%Z ->
  grown paymentId [] w w'.
Proof.
  intros Htx Hclock. exists (transactions w), [].
  rewrite app_nil_r. repeat split; auto using same_table_refl.
  constructor.
Qed.

Lemma grown_trans (paymentId : Id) (t1 t2 : list TransactionType.t)
    (w w1 w2 : World) :
  grown paymentId t1 w w1 -> grown paymentId t2 w1 w2 ->
  grown paymentId (t1 ++ t2) w w2.
Proof.
  intros (old1 & ex1 & H1 & F1 & T1 & B1 & S1 & C1)
         (old2 & ex2 & H2 & F2 & T2 & B2 & S2 & C2).
  rewrite H1 in F2. apply Forall2_app_inv_l in F2.
  destruct F2 as (o2a & o2b & Fa & Fb & ->).
  destruct (same_table_types _ _ Fb) as (Tb & Cb & _).
  exists o2a, (o2b ++ ex2).
  split; [rewrite H2; symmetry; apply app_assoc |].
  split; [eapply same_table_trans; eassumption |].
  split; [rewrite map_app, Tb, T1, T2; reflexivity |].
  assert (Bb : Forall (fun x => x.(Transaction.paymentId) = paymentId
                               /\ (clock w <= x.(Transaction.createdAt)
                                   <= clock w1)%Z) o2b).
  { apply (same_table_Forall
             (fun p d => p = paymentId /\ (clock w <= d <= clock w1)%Z)
             _ _ Fb B1). }
  split; [| split; [| lia]].
  - apply Forall_app. split.
    + eapply Forall_impl; [| exact Bb]. cbv beta. intros x [? ?].
      split; [assumption | lia].
    + eapply Forall_impl; [| exact B2]. cbv beta. intros x [? ?].
      split; [assumption | lia].
  - unfold createdAts in *. rewrite map_app. apply sorted_app.
    + rewrite Cb. exact S1.
    + exact S2.
    + intros x y Hx Hy.
      apply in_map_iff in Hx. destruct Hx as (tx & <- & Hx).
      apply in_map_iff in Hy. destruct Hy as (ty & <- & Hy).
      rewrite Forall_forall in Bb, B2.
      specialize (Bb tx Hx). specialize (B2 ty Hy). cbv beta in *. lia.
Qed.

Section RecordsRules.

Variable paymentId : Id.

Lemma records_idle {A} (c : M A) :
  (forall w, transactions (snd (c w)) = transactions w
             /\ (clock w <= clock (snd (c w)))%Z) ->
  records paymentId [] c.
Proof.
  intros H w. specialize (H w). destruct (c w) as [[a | e] w'];
    cbn [snd] in H; destruct H as [Htx Hclock].
  - apply grown_idle; assumption.
  - exists [], []. split; [reflexivity |]. apply grown_idle; assumption.
Qed.

Lemma records_ret {A} (a : A) : records paymentId [] (ret a).
Proof. apply records_idle. intros w. cbn. split; [reflexivity | lia]. Qed.

Lemma records_gets {A} (f : World -> A) : records paymentId [] (gets f).
Proof. apply records_idle. intros w. cbn. split; [reflexivity | lia]. Qed.

Lemma records_throw {A} (types : list TransactionType.t) (e : Error) :
  records paymentId types (@throw A e).
Proof.
  intros w. cbn. exists [], types. split; [reflexivity |].
  apply grown_idle; [reflexivity | lia].
Qed.

Lemma records_bind {A B} (t1 t2 : list TransactionType.t)
    (c : M A) (k : A -> M B) :
  records paymentId t1 c -> (forall a, records paymentId t2 (k a)) ->
  records paymentId (t1 ++ t2) (bind c k).
Proof.
  intros Hc Hk w. unfold bind. specialize (Hc w).
  destruct (c w) as [[a | e] w1].
  - specialize (Hk a w1). destruct (k a w1) as [[b | e] w2].
    + eapply grown_trans; eassumption.
    + destruct Hk as (done & rest & -> & Hg).
      exists (t1 ++ done), rest. split; [apply app_assoc |].
      eapply grown_trans; eassumption.
  - destruct Hc as (done & rest & -> & Hg).
    exists done, (rest ++ t2). split; [symmetry; apply app_assoc | exact Hg].
Qed.

Lemma records_call {A} (types : list TransactionType.t) (F : Faults)
    (site : CallSite) (op : M A) :
  records paymentId types op -> records paymentId types (call F site op).
Proof.
  intros Hop w. unfold call. destruct (F site) as [e |]; [| apply Hop].
  exists [], types. split; [reflexivity |].
  apply grown_idle; [reflexivity | lia].
Qed.

(** A handler that only rethrows, possibly with another message. *)
Lemma records_try_wrap {A} (types : list TransactionType.t) (c : M A)
    (g : Error -> Error) :
  records paymentId types c ->
  records paymentId types (try_catch c (fun error => throw (g error))).
Proof.
  intros Hc w. unfold try_catch, throw. specialize (Hc w).
  destruct (c w) as [[a | e] w1]; exact Hc.
Qed.

Lemma records_payment_update (i : Id) (f : Payment.t -> Payment.t) :
  records paymentId [] (prisma.payment.update i f).
Proof.
  apply records_idle. intros w.
  destruct (payment_update_frame i f w) as (-> & _ & _ & -> & _).
  split; [reflexivity | lia].
Qed.

Lemma records_sleep (ms : Z) : (0 <= ms)%Z -> records paymentId [] (sleep ms).
Proof.
  intros Hms. apply records_idle. intros w. cbn. split; [reflexivity | lia].
Qed.

Lemma records_updateMany (sel : Transaction.t -> bool)
    (f : Transaction.t -> Transaction.t) :
  txCosmetic f ->
  records paymentId [] (prisma.transaction.updateMany sel f).
Proof.
  intros Hf w. cbn.
  exists (prisma.update_where sel f (transactions w)), [].
  rewrite app_nil_r. repeat split; try (cbn; lia).
  - apply same_table_update. exact Hf.
  - constructor.
  - constructor.
Qed.

Lemma records_create (type : TransactionType.t)
    (status : TransactionStatus.t) (amount : Q) (currency circleId : string)
    (fees : option Q) (feeCurrency : option string) :
  records paymentId [type]
    (prisma.transaction.create paymentId type status amount currency
       circleId fees feeCurrency).
Proof.
  intros w. cbn.
  eexists (transactions w), [_].
  split; [reflexivity |].
  split; [apply same_table_refl |].
  split; [reflexivity |].
  split.
  { constructor; [| constructor]. cbn. split; [reflexivity | lia]. }
  split; [repeat constructor | cbn; lia].
Qed.

End RecordsRules.

Ltac records_step :=
  lazymatch goal with
  | |- records _ (?ty :: ?rest)
         (bind (call _ _ (prisma.transaction.create _ _ _ _ _ _ _ _)) _) =>
      apply (records_bind _ [ty] rest);
      [apply records_call; apply records_create | intros ?]
  | |- records _ ?tys (bind _ _) =>
      apply (records_bind _ [] tys); [| intros ?]
  | |- records _ _ (call _ _ _) => apply records_call
  | |- records _ _ (try_catch _ _) => apply records_try_wrap
  | |- records _ _ (throw _) => apply records_throw
  | |- records _ [] (ret _) => apply records_ret
  | |- records _ [] (gets _) => apply records_gets
  | |- records _ [] now => apply records_gets
  | |- records _ [] (prisma.payment.find _) => apply records_gets
  | |- records _ [] (prisma.vendor.find _) => apply records_gets
  | |- records _ [] (prisma.payment.update _ _) =>
      apply records_payment_update
  | |- records _ [] (prisma.transaction.updateMany _ _) =>
      apply records_updateMany; auto with cosmetic
  | |- records _ [] (sleep _) => apply records_sleep; lia
  | |- records _ _ (match ?x with _ => _ end) => destruct x
  end.

Section FlowRecords.

Variables (F : Faults) (rnd : Entropy) (paymentId : Id).

Lemma findWithTransactions_records (ty : TransactionType.t) :
  records paymentId [] (PaymentService.findWithTransactions paymentId ty).
Proof.
  apply records_idle. intros w.
  unfold PaymentService.findWithTransactions, bind, prisma.payment.find,
    prisma.transaction.findMany, gets, ret.
  destruct (List.find _ (payments w)); cbn [snd]; split;
    try reflexivity; lia.
Qed.

Lemma createCirclePaymentIntent_records :
  records paymentId [TransactionType.PAYMENT_IN]
    (PaymentService.createCirclePaymentIntent F rnd paymentId).
Proof.
  unfold PaymentService.createCirclePaymentIntent. repeat records_step.
Qed.

Lemma simulatePaymentConfirmation_records (circlePaymentId : string) :
  records paymentId []
    (PaymentService.simulatePaymentConfirmation F rnd paymentId
       circlePaymentId).
Proof.
  unfold PaymentService.simulatePaymentConfirmation. repeat records_step.
Qed.

Lemma exchangeSgdToUsdc_records :
  records paymentId [TransactionType.EXCHANGE_SGD_TO_USDC]
    (PaymentService.exchangeSgdToUsdc F paymentId).
Proof.
  unfold PaymentService.exchangeSgdToUsdc. repeat records_step.
Qed.

Lemma exchangeUsdcToUsd_records :
  records paymentId [TransactionType.EXCHANGE_USDC_TO_USD]
    (PaymentService.exchangeUsdcToUsd F paymentId).
Proof.
  unfold PaymentService.exchangeUsdcToUsd.
  apply (records_bind _ [] [TransactionType.EXCHANGE_USDC_TO_USD]).
  - apply records_call. apply findWithTransactions_records.
  - intros found. repeat records_step.
Qed.

Lemma payoutToVendor_records :
  records paymentId [TransactionType.PAYOUT]
    (PaymentService.payoutToVendor F paymentId).
Proof.
  unfold PaymentService.payoutToVendor.
  apply (records_bind _ [] [TransactionType.PAYOUT]).
  - apply records_call. apply findWithTransactions_records.
  - intros found. repeat records_step.
Qed.

(** The steps of the flow record the four transactions in order; a throw
    leaves an initial part of them. *)
Lemma flowSteps_records :
  records paymentId pipelineTypes (flowSteps F rnd paymentId).
Proof.
  unfold flowSteps, pipelineTypes, PaymentService.updatePaymentStatus.
  apply (records_bind _ [] _); [repeat records_step | intros _].
  apply (records_bind _ [TransactionType.PAYMENT_IN] _);
    [apply createCirclePaymentIntent_records | intros intent].
  apply (records_bind _ [] _);
    [apply simulatePaymentConfirmation_records | intros _].
  apply (records_bind _ [TransactionType.EXCHANGE_SGD_TO_USDC] _);
    [apply exchangeSgdToUsdc_records | intros _].
  apply (records_bind _ [TransactionType.EXCHANGE_USDC_TO_USD] _);
    [apply exchangeUsdcToUsd_records | intros _].
  apply (records_bind _ [TransactionType.PAYOUT] []);
    [apply payoutToVendor_records | intros _].
  repeat records_step.
Qed.

End FlowRecords.

(* ================================================================== *)
(** * Properties kept by the processing flow                            *)
(* ================================================================== *)

Lemma paymentCosmetic_identity (f : Payment.t -> Payment.t) :
  paymentCosmetic f -> paymentIdentity f.
Proof. intros [H _]. exact H. Qed.

Lemma set_amountUsd_identity (a : Q) : paymentIdentity (Payment.set_amountUsd a).
Proof. intros p. repeat split. Qed.

Lemma set_status_identity (s : PaymentStatus.t) :
  paymentIdentity (Payment.set_status s).
Proof. intros p. repeat split. Qed.

Lemma set_circlePaymentId_identity (c : string) :
  paymentIdentity (Payment.set_circlePaymentId c).
Proof. intros p. repeat split. Qed.

Lemma set_actualSettlementTime_identity (d : Timestamp) :
  paymentIdentity (Payment.set_actualSettlementTime d).
Proof. intros p. repeat split. Qed.

#[export] Hint Resolve set_amountUsd_identity set_status_identity
  set_circlePaymentId_identity set_actualSettlementTime_identity : cosmetic.

Section FlowKeeps.

Variable I : World -> Prop.
Hypothesis closed : FlowClosed I.

Variables (F : Faults) (rnd : Entropy) (paymentId : Id).

Ltac flow_step :=
  first
    [ keeps_step
    | apply (fc_payment_update closed); auto with cosmetic
    | apply (fc_transaction_create closed)
    | apply (fc_transaction_updateMany closed); auto with cosmetic
    | apply (fc_sleep closed); lia ].

Lemma findWithTransactions_keeps (ty : TransactionType.t) :
  keeps I (PaymentService.findWithTransactions paymentId ty).
Proof.
  unfold PaymentService.findWithTransactions. repeat flow_step.
Qed.

Lemma flowSteps_keeps : keeps I (flowSteps F rnd paymentId).
Proof.
  unfold flowSteps, PaymentService.updatePaymentStatus,
    PaymentService.createCirclePaymentIntent,
    PaymentService.simulatePaymentConfirmation,
    PaymentService.exchangeSgdToUsdc, PaymentService.exchangeUsdcToUsd,
    PaymentService.payoutToVendor.
  repeat first [ apply findWithTransactions_keeps | flow_step ].
Qed.

Lemma processPaymentFlow_keeps :
  keeps I (PaymentService.processPaymentFlow F rnd paymentId).
Proof.
  change (keeps I
            (try_catch (flowSteps F rnd paymentId)
               (fun error =>
                  call F CatchSetFailed
                    (PaymentService.updatePaymentStatus paymentId
                       PaymentStatus.FAILED) ;;
                  throw error))).
  unfold PaymentService.updatePaymentStatus.
  apply keeps_try_catch; [apply flowSteps_keeps | intros e].
  repeat flow_step.
Qed.

Lemma detachedFlow_keeps :
  keeps I (PaymentService.detachedFlow F rnd paymentId).
Proof.
  unfold PaymentService.detachedFlow.
  apply keeps_try_catch; [apply processPaymentFlow_keeps | intros e].
  intros w Hw. unfold call.
  destruct (F HandlerSetFailed); [exact Hw |].
  exact (fc_payment_update closed paymentId
           (set_status_identity PaymentStatus.FAILED) w Hw).
Qed.

End FlowKeeps.

Lemma paymentById_update (i j : Id) (g : Payment.t -> Payment.t)
    (w : World) :
  (forall p, (g p).(Payment.id) = p.(Payment.id)) ->
  paymentById i
    (with_payments
       (prisma.update_where (prisma.payment.by_id j) g w.(payments)) w)
  = option_map (fun p => if prisma.payment.by_id j p then g p else p)
               (paymentById i w).
Proof.
  intros Hg. unfold paymentById. cbn [payments with_payments].
  apply find_update_where. intros p. unfold prisma.payment.by_id.
  rewrite Hg. reflexivity.
Qed.

Lemma paymentExists_closed (paymentId : Id) :
  FlowClosed (paymentExists paymentId).
Proof.
  split.
  - intros i f Hf w [p Hp]. unfold paymentExists.
    unfold prisma.payment.update, bind, prisma.payment.find, now, gets,
      modify, throw.
    destruct (List.find (prisma.payment.by_id i) (payments w));
      cbn [snd]; [| eauto].
    rewrite paymentById_update.
    + rewrite Hp. cbn [option_map]. eauto.
    + intros q. destruct (Hf q) as (Hid & _). exact Hid.
  - intros ? ? ? ? ? ? ? ? w Hw. exact Hw.
  - intros ? ? ? w Hw. exact Hw.
  - intros ? ? w Hw. exact Hw.
Qed.

Lemma grown_frame (paymentId : Id) (types : list TransactionType.t)
    (w w1 w2 : World) :
  grown paymentId types w w1 ->
  transactions w2 = transactions w1 -> clock w2 = clock w1 ->
  grown paymentId types w w2.
Proof.
  intros (old & extra & H) Htx Hclock.
  exists old, extra. rewrite Htx, Hclock. exact H.
Qed.

(** Marking an existing payment gives it the status asked for. *)
Lemma updatePaymentStatus_effect (paymentId : Id) (s : PaymentStatus.t)
    (w : World) :
  paymentExists paymentId w ->
  exists w',
    PaymentService.updatePaymentStatus paymentId s w = (Return tt, w')
    /\ statusOf paymentId w' = Some s
    /\ transactions w' = transactions w
    /\ clock w' = clock w.
Proof.
  intros [p Hp]. unfold PaymentService.updatePaymentStatus.
  erewrite payment_update_effect by exact Hp.
  eexists. split; [reflexivity |]. split; [| split; reflexivity].
  unfold statusOf. rewrite paymentById_update by (intros []; reflexivity).
  rewrite Hp. cbn [option_map].
  unfold paymentById in Hp. apply find_some in Hp. destruct Hp as [_ Hp].
  rewrite Hp. reflexivity.
Qed.

(* ================================================================== *)
(** * The invariant is kept by every operation                          *)
(* ================================================================== *)

Lemma samePayment_refl (p : Payment.t) : samePayment p p.
Proof. repeat split. Qed.

Lemma samePayments_refl (l : list Payment.t) : Forall2 samePayment l l.
Proof. induction l; constructor; auto using samePayment_refl. Qed.

Lemma samePayments_update (sel : Payment.t -> bool)
    (g : Payment.t -> Payment.t) (l : list Payment.t) :
  (forall p, samePayment p (g p)) ->
  Forall2 samePayment l (prisma.update_where sel g l).
Proof.
  intros Hg. induction l as [| p l IH]; [constructor |].
  cbn [prisma.update_where map]. constructor; [| exact IH].
  destruct (sel p); [apply Hg | apply samePayment_refl].
Qed.

Lemma touch_cosmetic_same (d : Timestamp) (f : Payment.t -> Payment.t) :
  paymentCosmetic f -> forall p, samePayment p (Payment.touch d (f p)).
Proof.
  intros [Hid Husd] p.
  destruct (Hid p) as (H1 & _ & H3 & H4 & _).
  unfold samePayment. cbn. rewrite H1, H3, H4, Husd. repeat split.
Qed.

Lemma samePayments_ids (l l' : list Payment.t) :
  Forall2 samePayment l l' -> map Payment.id l' = map Payment.id l.
Proof.
  induction 1 as [| p p' l l' Hp _ IH]; [reflexivity |].
  cbn [map]. destruct Hp as (-> & _). rewrite IH. reflexivity.
Qed.

Lemma samePayments_find (i : Id) (l l' : list Payment.t) :
  Forall2 samePayment l l' ->
  match List.find (prisma.payment.by_id i) l,
        List.find (prisma.payment.by_id i) l' with
  | Some p, Some p' => samePayment p p'
  | None, None => True
  | _, _ => False
  end.
Proof.
  induction 1 as [| p p' l l' Hp _ IH]; [exact Logic.I |].
  cbn [List.find]. destruct Hp as (Hid & Hrest).
  assert (Hsel : prisma.payment.by_id i p' = prisma.payment.by_id i p)
    by (unfold prisma.payment.by_id; rewrite Hid; reflexivity).
  rewrite Hsel.
  destruct (prisma.payment.by_id i p); [split; assumption | exact IH].
Qed.

Lemma samePayments_sgdOf (i : Id) (w w' : World) :
  Forall2 samePayment (payments w) (payments w') ->
  sgdOf i w' = sgdOf i w.
Proof.
  intros H. unfold sgdOf, paymentById.
  pose proof (samePayments_find i _ _ H) as Hf.
  destruct (List.find _ (payments w)), (List.find _ (payments w'));
    try contradiction; [| reflexivity].
  destruct Hf as (_ & _ & Hsgd & _). cbn [option_map]. rewrite Hsgd.
  reflexivity.
Qed.

Lemma samePayments_Forall (P : Payment.t -> Prop) (l l' : list Payment.t) :
  (forall p p', samePayment p p' -> P p -> P p') ->
  Forall2 samePayment l l' -> Forall P l -> Forall P l'.
Proof.
  intros HP. induction 1 as [| p p' l l' Hp _ IH]; intros H;
    [constructor |].
  inversion H; subst. constructor; eauto.
Qed.

Lemma usdIsConverted_same (p p' : Payment.t) :
  samePayment p p' -> usdIsConverted p -> usdIsConverted p'.
Proof.
  intros (_ & _ & Hsgd & Husd) [u [Hu Heq]].
  exists u. rewrite Husd, Hsgd. split; assumption.
Qed.

(** The invariant does not look at statuses, proof hashes, timestamps,
    events or the clock, and tolerates more vendors and a larger id
    counter. *)
Lemma invariant_cosmetic (w w' : World) :
  Invariant w ->
  Forall2 samePayment (payments w) (payments w') ->
  Forall2 sameTransaction (transactions w) (transactions w') ->
  incl (vendorIds w) (vendorIds w') ->
  nextId w <= nextId w' ->
  detached w' = detached w ->
  Invariant w'.
Proof.
  intros [H1 H2 H3 H4 H5 H6 H7 H8] Hp Ht Hv Hn Hd.
  assert (Hids : paymentIds w' = paymentIds w)
    by (apply samePayments_ids; exact Hp).
  assert (Hown : transactionOwners w' = transactionOwners w)
    by (apply (same_table_types _ _ Ht)).
  split.
  - rewrite Hids. eapply Forall_impl; [| exact H1]. cbv beta. lia.
  - rewrite Hids. exact H2.
  - rewrite Hown. eapply Forall_impl; [| exact H3]. cbv beta. lia.
  - rewrite Hd, Hids, Hown. exact H4.
  - rewrite Hd. exact H5.
  - apply (samePayments_Forall
             (fun p => In p.(Payment.vendorId) (vendorIds w'))
             (payments w) (payments w')); [| exact Hp |].
    + intros p p' (_ & Hvid & _) Hin. rewrite Hvid. exact Hin.
    + eapply Forall_impl; [| exact H6]. cbv beta. intros p Hin.
      apply Hv. exact Hin.
  - apply (samePayments_Forall usdIsConverted _ _ usdIsConverted_same Hp H7).
  - clear - Hp Ht H8.
    induction Ht as [| x y l l' Hxy _ IH]; [constructor |].
    inversion H8; subst. constructor; [| auto].
    destruct Hxy as (_ & Hpid & Hty & Hamt & _).
    unfold usdcIsConverted in *. rewrite Hpid, Hty, Hamt.
    rewrite (samePayments_sgdOf _ _ _ Hp). assumption.
Qed.

Ltac frame_world :=
  first [ apply samePayments_refl | apply same_table_refl
        | apply incl_refl | reflexivity | cbn; lia ].

Lemma invariant_event_update (i : Id)
    (f : WebhookEvent.t -> WebhookEvent.t) :
  keeps Invariant (prisma.webhookEvent.update i f).
Proof.
  intros w H.
  unfold prisma.webhookEvent.update, bind, prisma.webhookEvent.find, gets,
    modify, throw.
  destruct (List.find _ (webhookEvents w)); cbn [snd]; [| exact H].
  apply (invariant_cosmetic w); try frame_world. exact H.
Qed.

Lemma invariant_handlers : HandlerClosed Invariant.
Proof.
  split.
  - intros i f Hf w H.
    unfold prisma.payment.update, bind, prisma.payment.find, now, gets,
      modify, throw.
    destruct (List.find _ (payments w)); cbn [snd]; [| exact H].
    apply (invariant_cosmetic w); try frame_world; [exact H |].
    apply samePayments_update. apply touch_cosmetic_same. exact Hf.
  - intros i f Hf w H.
    unfold prisma.transaction.update, bind, prisma.transaction.find, gets,
      modify, throw.
    destruct (List.find _ (transactions w)); cbn [snd]; [| exact H].
    apply (invariant_cosmetic w); try frame_world; [exact H |].
    apply same_table_update. exact Hf.
  - intros sel f Hf w H. cbn.
    apply (invariant_cosmetic w); try frame_world; [exact H |].
    apply same_table_update. exact Hf.
  - intros i f _. apply invariant_event_update.
Qed.

Lemma invariant_upsert (eventId eventType : string)
    (body : Json.t) :
  keeps Invariant (prisma.webhookEvent.upsert eventId eventType body).
Proof.
  intros w H.
  unfold prisma.webhookEvent.upsert, bind, prisma.webhookEvent.find, gets,
    modify, freshId, ret.
  destruct (List.find _ (webhookEvents w)); cbn [snd];
    apply (invariant_cosmetic w); try frame_world; exact H.
Qed.

(** The route keeps whatever the handlers and the upsert keep. *)
Lemma route_keeps (I : World -> Prop) :
  HandlerClosed I ->
  (forall eventId eventType body,
      keeps I (prisma.webhookEvent.upsert eventId eventType body)) ->
  (forall i d,
      keeps I (prisma.webhookEvent.update i (WebhookEvent.set_processed d))) ->
  forall webhookSecret req w,
    I w -> I (snd (webhooks_post_circle webhookSecret req w)).
Proof.
  intros Hh Hu Hp webhookSecret req w Hw.
  unfold webhooks_post_circle.
  match goal with
  | |- I (snd (match ?c w with _ => _ end)) =>
      assert (Hk : keeps I c)
  end.
  { unfold signatureRejected.
    repeat first
      [ keeps_step
      | apply Hu
      | apply processWebhookEvent_keeps; exact Hh
      | apply Hp ]. }
  specialize (Hk w Hw).
  match goal with
  | |- I (snd (match ?c w with _ => _ end)) =>
      destruct (c w) as [[r | e] w']
  end; exact Hk.
Qed.

(** So does the route on any JSON body. *)
Lemma untyped_route_keeps (I : World -> Prop) :
  HandlerClosed I ->
  (forall eventId eventType body,
      keeps I (prisma.webhookEvent.upsert eventId eventType body)) ->
  (forall i d,
      keeps I (prisma.webhookEvent.update i (WebhookEvent.set_processed d))) ->
  forall client webhookSecret req w,
    I w -> I (snd (Untyped.webhooks_post_circle client webhookSecret req w)).
Proof.
  intros Hh Hu Hp client webhookSecret req w Hw.
  unfold Untyped.webhooks_post_circle.
  match goal with
  | |- I (snd (match ?c w with _ => _ end)) =>
      assert (Hk : keeps I c)
  end.
  { unfold signatureRejected, Untyped.read, Untyped.validated.
    repeat first
      [ keeps_step
      | apply Hu
      | apply untyped_processWebhookEvent_keeps; exact Hh
      | apply Hp ]. }
  specialize (Hk w Hw).
  match goal with
  | |- I (snd (match ?c w with _ => _ end)) =>
      destruct (c w) as [[r | e] w']
  end; exact Hk.
Qed.

Lemma update_where_ids (sel : Payment.t -> bool) (g : Payment.t -> Payment.t)
    (l : list Payment.t) :
  (forall p, (g p).(Payment.id) = p.(Payment.id)) ->
  map Payment.id (prisma.update_where sel g l) = map Payment.id l.
Proof.
  intros Hg. induction l as [| p l IH]; [reflexivity |].
  cbn [prisma.update_where map]. fold (prisma.update_where sel g l).
  rewrite IH. destruct (sel p); [rewrite Hg |]; reflexivity.
Qed.

Lemma find_unique (i : Id) (l : list Payment.t) (p : Payment.t) :
  NoDup (map Payment.id l) -> In p l -> p.(Payment.id) = i ->
  List.find (prisma.payment.by_id i) l = Some p.
Proof.
  induction l as [| q l IH]; intros Hnd Hin Hid; [contradiction |].
  cbn [map] in Hnd. inversion Hnd as [| ? ? Hq Hnd']; subst.
  cbn [List.find]. unfold prisma.payment.by_id at 1.
  destruct Hin as [-> | Hin].
  - rewrite Nat.eqb_refl. reflexivity.
  - destruct (Nat.eqb (Payment.id q) (Payment.id p)) eqn:E.
    + apply Nat.eqb_eq in E. exfalso. apply Hq. rewrite E.
      apply in_map. exact Hin.
    + apply IH; auto.
Qed.

Lemma in_ids_found (i : Id) (w : World) :
  In i (paymentIds w) -> paymentExists i w.
Proof.
  intros H. apply in_map_iff in H. destruct H as (p & Hid & Hin).
  apply (find_In_some (prisma.payment.by_id i) _ p Hin).
  unfold prisma.payment.by_id. rewrite Hid. apply Nat.eqb_refl.
Qed.

Lemma found_in_ids (i : Id) (w : World) (p : Payment.t) :
  paymentById i w = Some p -> In i (paymentIds w) /\ In p (payments w)
                              /\ p.(Payment.id) = i.
Proof.
  intros H. apply find_some in H. destruct H as [Hin Hid].
  apply Nat.eqb_eq in Hid. repeat split; auto.
  rewrite <- Hid. apply in_map. exact Hin.
Qed.

Lemma inflight_cosmetic (paymentId : Id) (w w' : World) :
  InFlight paymentId w ->
  Forall2 samePayment (payments w) (payments w') ->
  Forall2 sameTransaction (transactions w) (transactions w') ->
  incl (vendorIds w) (vendorIds w') ->
  nextId w <= nextId w' ->
  detached w' = detached w ->
  InFlight paymentId w'.
Proof.
  intros (Hinv & Hin & Hout) Hp Ht Hv Hn Hd.
  split; [eapply invariant_cosmetic; eassumption |].
  unfold paymentIds. rewrite (samePayments_ids _ _ Hp), Hd.
  split; assumption.
Qed.

Lemma inflight_update (paymentId i : Id) (f : Payment.t -> Payment.t) :
  paymentCosmetic f ->
  keeps (InFlight paymentId) (prisma.payment.update i f).
Proof.
  intros Hf w H.
  unfold prisma.payment.update, bind, prisma.payment.find, now, gets,
    modify, throw.
  destruct (List.find _ (payments w)); cbn [snd]; [| exact H].
  apply (inflight_cosmetic paymentId w); try frame_world; [exact H |].
  apply samePayments_update. apply touch_cosmetic_same. exact Hf.
Qed.

Lemma inflight_updateMany (paymentId : Id) (sel : Transaction.t -> bool)
    (f : Transaction.t -> Transaction.t) :
  txCosmetic f ->
  keeps (InFlight paymentId) (prisma.transaction.updateMany sel f).
Proof.
  intros Hf w H. cbn.
  apply (inflight_cosmetic paymentId w); try frame_world; [exact H |].
  apply same_table_update. exact Hf.
Qed.

Lemma inflight_sleep (paymentId : Id) (ms : Z) :
  keeps (InFlight paymentId) (sleep ms).
Proof.
  intros w H. cbn.
  apply (inflight_cosmetic paymentId w); try frame_world. exact H.
Qed.

(** A transaction recorded for the payment in flight keeps the invariant,
    provided a first-exchange amount is the converted source amount. *)
Lemma inflight_create (paymentId : Id) (type : TransactionType.t)
    (status : TransactionStatus.t) (amount : Q) (currency circleId : string)
    (fees : option Q) (feeCurrency : option string) (w : World) :
  InFlight paymentId w ->
  (type = TransactionType.EXCHANGE_SGD_TO_USDC ->
   exists a, sgdOf paymentId w = Some a
             /\ amount = Double.mul a sgdToUsdc) ->
  InFlight paymentId
    (snd (prisma.transaction.create paymentId type status amount currency
            circleId fees feeCurrency w)).
Proof.
  intros ([H1 H2 H3 H4 H5 H6 H7 H8] & Hin & Hout) Hamount.
  unfold prisma.transaction.create, bind, freshId, now, gets, modify, ret.
  cbn [snd].
  assert (Hlt : paymentId < nextId w)
    by (rewrite Forall_forall in H1; apply H1; exact Hin).
  split; [| split; assumption].
  split; unfold paymentIds, transactionOwners, vendorIds in *;
    cbn [payments transactions vendors nextId detached with_transactions
         with_nextId] in *.
  - eapply Forall_impl; [| exact H1]. cbv beta. lia.
  - exact H2.
  - rewrite map_app. apply Forall_app. split.
    + eapply Forall_impl; [| exact H3]. cbv beta. lia.
    + constructor; [cbn; lia | constructor].
  - rewrite Forall_forall in H4 |- *. intros i Hi.
    destruct (H4 i Hi) as [Ha Hb]. split; [exact Ha |].
    rewrite map_app. intros Hc. apply in_app_or in Hc.
    destruct Hc as [Hc | [Hc | []]]; [contradiction |].
    cbn in Hc. subst i. contradiction.
  - exact H5.
  - exact H6.
  - exact H7.
  - apply Forall_app. split.
    + eapply Forall_impl; [| exact H8]. intros x Hx. exact Hx.
    + constructor; [| constructor]. intros Hty. cbn in Hty.
      apply Hamount. exact Hty.
Qed.

(** The realized amount written by the second exchange keeps the invariant
    when it is the source amount times both rates. *)
Lemma inflight_set_amountUsd (paymentId : Id) (u a : Q) (w : World) :
  InFlight paymentId w ->
  sgdOf paymentId w = Some a ->
  u = Double.mul (Double.mul a sgdToUsdc) usdcToUsd ->
  InFlight paymentId
    (snd (prisma.payment.update paymentId (Payment.set_amountUsd u) w)).
Proof.
  intros ([H1 H2 H3 H4 H5 H6 H7 H8] & Hin & Hout) Hsgd Hu.
  unfold prisma.payment.update, bind, prisma.payment.find, now, gets,
    modify, throw.
  destruct (List.find _ (payments w)) as [p0 |] eqn:Hfind; cbn [snd];
    [| split; [split | split]; assumption].
  set (g := fun p => Payment.touch (clock w) (Payment.set_amountUsd u p)).
  assert (Hg : forall p, (g p).(Payment.id) = p.(Payment.id))
    by (intros []; reflexivity).
  assert (Hids : map Payment.id
                   (prisma.update_where (prisma.payment.by_id paymentId) g
                      (payments w)) = map Payment.id (payments w))
    by (apply update_where_ids; exact Hg).
  assert (Hsgd' : forall i,
             sgdOf i (with_payments
                        (prisma.update_where
                           (prisma.payment.by_id paymentId) g (payments w))
                        w) = sgdOf i w).
  { intros i. unfold sgdOf. rewrite paymentById_update by exact Hg.
    destruct (paymentById i w) as [p |]; [| reflexivity].
    cbn [option_map]. destruct (prisma.payment.by_id paymentId p);
      reflexivity. }
  split; [| unfold paymentIds; cbn [payments with_payments detached];
            rewrite Hids; split; assumption].
  split; unfold paymentIds, transactionOwners, vendorIds in *;
    cbn [payments transactions vendors nextId detached with_payments] in *;
    rewrite ?Hids; try assumption.
  - rewrite Forall_forall in H6 |- *. intros p Hp.
    apply in_map_iff in Hp. destruct Hp as (q & <- & Hq).
    specialize (H6 q Hq).
    destruct (prisma.payment.by_id paymentId q); [| exact H6].
    exact H6.
  - rewrite Forall_forall in H7 |- *. intros p Hp.
    apply in_map_iff in Hp. destruct Hp as (q & <- & Hq).
    destruct (prisma.payment.by_id paymentId q) eqn:Hsel;
      [| apply H7; exact Hq].
    apply Nat.eqb_eq in Hsel.
    pose proof (find_unique paymentId _ q H2 Hq Hsel) as Hq0.
    unfold sgdOf, paymentById in Hsgd. rewrite Hq0 in Hsgd.
    cbn [option_map] in Hsgd. injection Hsgd as Ha.
    exists u. split; [reflexivity |].
    cbn [g Payment.amountSgd Payment.touch Payment.set_amountUsd].
    rewrite Ha. right. exact Hu.
  - eapply Forall_impl; [| exact H8]. intros x Hx Hty.
    destruct (Hx Hty) as (b & Hb & Heq). exists b.
    rewrite Hsgd'. split; assumption.
Qed.

Lemma findWithTransactions_pure (paymentId : Id) (ty : TransactionType.t)
    (w : World) :
  snd (PaymentService.findWithTransactions paymentId ty w) = w.
Proof.
  unfold PaymentService.findWithTransactions, bind, prisma.payment.find,
    prisma.transaction.findMany, gets, ret.
  destruct (List.find _ (payments w)); reflexivity.
Qed.

Lemma findWithTransactions_keeps_any (I : World -> Prop) (paymentId : Id)
    (ty : TransactionType.t) :
  keeps I (PaymentService.findWithTransactions paymentId ty).
Proof. intros w H. rewrite findWithTransactions_pure. exact H. Qed.

Section InFlightFlow.

Variables (F : Faults) (rnd : Entropy) (paymentId : Id).

Lemma inflight_create_other (type : TransactionType.t)
    (status : TransactionStatus.t) (amount : Q) (currency circleId : string)
    (fees : option Q) (feeCurrency : option string) :
  type <> TransactionType.EXCHANGE_SGD_TO_USDC ->
  keeps (InFlight paymentId)
    (prisma.transaction.create paymentId type status amount currency
       circleId fees feeCurrency).
Proof.
  intros Hty w H. apply inflight_create; [exact H |].
  intros Heq. contradiction.
Qed.

Ltac inflight_step :=
  first
    [ keeps_step
    | apply findWithTransactions_keeps_any
    | apply inflight_update; auto with cosmetic
    | apply inflight_updateMany; auto with cosmetic
    | apply inflight_sleep
    | apply inflight_create_other; discriminate ].

Lemma createCirclePaymentIntent_inflight :
  keeps (InFlight paymentId)
    (PaymentService.createCirclePaymentIntent F rnd paymentId).
Proof.
  unfold PaymentService.createCirclePaymentIntent. repeat inflight_step.
Qed.

Lemma simulatePaymentConfirmation_inflight (circlePaymentId : string) :
  keeps (InFlight paymentId)
    (PaymentService.simulatePaymentConfirmation F rnd paymentId
       circlePaymentId).
Proof.
  unfold PaymentService.simulatePaymentConfirmation. repeat inflight_step.
Qed.

Lemma payoutToVendor_inflight :
  keeps (InFlight paymentId) (PaymentService.payoutToVendor F paymentId).
Proof.
  unfold PaymentService.payoutToVendor. repeat inflight_step.
Qed.

(** The first exchange records the source amount times the first rate. *)
Lemma exchangeSgdToUsdc_inflight :
  keeps (InFlight paymentId) (PaymentService.exchangeSgdToUsdc F paymentId).
Proof.
  intros w H. unfold PaymentService.exchangeSgdToUsdc.
  unfold bind at 1. unfold call at 1.
  destruct (F SgdUsdcFindPayment); [exact H |].
  unfold prisma.payment.find, gets.
  destruct (List.find _ (payments w)) as [p0 |] eqn:Hfind; [| exact H].
  unfold bind at 1. unfold now, gets.
  unfold bind at 1. unfold call at 1.
  destruct (F SgdUsdcCreateTransaction); [exact H |].
  match goal with
  | |- InFlight _ (snd (let (o, w1) := ?c w in _)) =>
      pose proof (inflight_create paymentId
                    TransactionType.EXCHANGE_SGD_TO_USDC
                    TransactionStatus.CONFIRMED
                    (Double.mul (Payment.amountSgd p0) sgdToUsdc) "USDC"
                    ("exchange-sgd-usdc-" +++ showZ (clock w))
                    (Some (Double.mul
                             (Double.mul (Payment.amountSgd p0) sgdToUsdc)
                             PaymentService.feeRate))
                    (Some "USDC") w H) as Hk
  end.
  assert (Hamount :
            TransactionType.EXCHANGE_SGD_TO_USDC
            = TransactionType.EXCHANGE_SGD_TO_USDC ->
            exists a, sgdOf paymentId w = Some a
                      /\ Double.mul (Payment.amountSgd p0) sgdToUsdc
                         = Double.mul a sgdToUsdc).
  { intros _. exists (Payment.amountSgd p0). split; [| reflexivity].
    unfold sgdOf, paymentById. rewrite Hfind. reflexivity. }
  specialize (Hk Hamount).
  unfold sgdToUsdc in Hk.
  destruct (prisma.transaction.create _ _ _ _ _ _ _ _ w) as [[row | e] w1];
    exact Hk.
Qed.

(** The second exchange reads the first-exchange transaction of the payment
    and writes its amount times the second rate onto the payment. *)
Lemma exchangeUsdcToUsd_inflight :
  keeps (InFlight paymentId) (PaymentService.exchangeUsdcToUsd F paymentId).
Proof.
  intros w H. unfold PaymentService.exchangeUsdcToUsd.
  unfold bind at 1. unfold call at 1.
  destruct (F UsdcUsdFindPayment); [exact H |].
  unfold PaymentService.findWithTransactions.
  unfold bind at 1. unfold prisma.payment.find at 1. unfold gets at 1.
  destruct (List.find _ (payments w)) as [p0 |] eqn:Hfind; [| exact H].
  unfold bind at 1. unfold prisma.transaction.findMany, gets, ret.
  destruct (filter _ (transactions w)) as [| usdc rest] eqn:Hfilter;
    [exact H |].
  assert (Husdc : In usdc (filter
                     (fun x => prisma.transaction.by_paymentId paymentId x
                               && prisma.transaction.by_type
                                    TransactionType.EXCHANGE_SGD_TO_USDC x)
                     (transactions w)))
    by (rewrite Hfilter; left; reflexivity).
  apply filter_In in Husdc. destruct Husdc as [Hin Hsel].
  apply andb_true_iff in Hsel. destruct Hsel as [Hpid Hty].
  apply Nat.eqb_eq in Hpid.
  assert (Hty' : Transaction.type usdc = TransactionType.EXCHANGE_SGD_TO_USDC).
  { unfold prisma.transaction.by_type in Hty.
    destruct (Transaction.type usdc); try discriminate Hty. reflexivity. }
  destruct H as (Hinv & Hflight).
  pose proof (inv_usdc Hinv) as Hconv. rewrite Forall_forall in Hconv.
  destruct (Hconv usdc Hin Hty') as (a & Ha & Heq). rewrite Hpid in Ha.
  assert (H : InFlight paymentId w) by (split; assumption).
  unfold bind at 1. unfold now, gets.
  unfold bind at 1. unfold call at 1.
  destruct (F UsdcUsdCreateTransaction); [exact H |].
  pose proof (inflight_create_other
                TransactionType.EXCHANGE_USDC_TO_USD
                TransactionStatus.CONFIRMED
                (Double.mul (Transaction.amount usdc) usdcToUsd) "USD"
                ("exchange-usdc-usd-" +++ showZ (clock w))
                (Some (Double.mul
                         (Double.mul (Transaction.amount usdc) usdcToUsd)
                         PaymentService.feeRate))
                (Some "USD")
                ltac:(discriminate) w H) as Hk.
  assert (Hpay : payments
                   (snd (prisma.transaction.create paymentId
                           TransactionType.EXCHANGE_USDC_TO_USD
                           TransactionStatus.CONFIRMED
                           (Double.mul (Transaction.amount usdc) usdcToUsd)
                           "USD"
                           ("exchange-usdc-usd-" +++ showZ (clock w))
                           (Some (Double.mul
                                    (Double.mul (Transaction.amount usdc)
                                                usdcToUsd)
                                    PaymentService.feeRate))
                           (Some "USD") w)) = payments w) by reflexivity.
  unfold usdcToUsd in Hk, Hpay.
  destruct (prisma.transaction.create _ _ _ _ _ _ _ _ w) as [[row | e] w1];
    cbn [snd] in Hk, Hpay; [| exact Hk].
  unfold call.
  destruct (F UsdcUsdUpdatePayment); [exact Hk |].
  apply (inflight_set_amountUsd paymentId _ a w1 Hk).
  - unfold sgdOf, paymentById in *. rewrite Hpay. exact Ha.
  - fold usdcToUsd. rewrite Heq. reflexivity.
Qed.

Lemma flowSteps_inflight :
  keeps (InFlight paymentId) (flowSteps F rnd paymentId).
Proof.
  unfold flowSteps, PaymentService.updatePaymentStatus.
  repeat first
    [ apply createCirclePaymentIntent_inflight
    | apply simulatePaymentConfirmation_inflight
    | apply exchangeSgdToUsdc_inflight
    | apply exchangeUsdcToUsd_inflight
    | apply payoutToVendor_inflight
    | inflight_step ].
Qed.

Lemma detachedFlow_inflight :
  keeps (InFlight paymentId) (PaymentService.detachedFlow F rnd paymentId).
Proof.
  unfold PaymentService.detachedFlow.
  apply keeps_try_catch.
  - change (keeps (InFlight paymentId)
              (try_catch (flowSteps F rnd paymentId)
                 (fun error =>
                    call F CatchSetFailed
                      (PaymentService.updatePaymentStatus paymentId
                         PaymentStatus.FAILED) ;;
                    throw error))).
    unfold PaymentService.updatePaymentStatus.
    apply keeps_try_catch; [apply flowSteps_inflight | intros e].
    repeat inflight_step.
  - intros e w H. unfold call.
    destruct (F HandlerSetFailed); [exact H |]. cbn [snd].
    apply (inflight_update paymentId paymentId
             (Payment.set_status PaymentStatus.FAILED)
             (set_status_paymentCosmetic PaymentStatus.FAILED) w H).
Qed.

End InFlightFlow.

Lemma remove_first_incl (i j : Id) (l : list Id) :
  In j (remove_first i l) -> In j l.
Proof.
  induction l as [| k l IH]; [contradiction |].
  cbn [remove_first]. destruct (Nat.eqb k i).
  - intros H. right. exact H.
  - intros [-> | H]; [left; reflexivity | right; auto].
Qed.

Lemma remove_first_unique (i : Id) (l : list Id) :
  NoDup l -> NoDup (remove_first i l) /\ ~ In i (remove_first i l).
Proof.
  induction 1 as [| k l Hk Hnd [IH1 IH2]]; [split; [constructor | auto] |].
  cbn [remove_first]. destruct (Nat.eqb k i) eqn:E.
  - apply Nat.eqb_eq in E. subst k. split; assumption.
  - apply Nat.eqb_neq in E. split.
    + constructor; [| exact IH1]. intros H. apply Hk.
      eapply remove_first_incl. exact H.
    + intros [H | H]; [contradiction | auto].
Qed.

Lemma existsb_eqb_In (i : Id) (l : list Id) :
  existsb (Nat.eqb i) l = true -> In i l.
Proof.
  intros H. apply existsb_exists in H. destruct H as (j & Hj & Heq).
  apply Nat.eqb_eq in Heq. subst j. exact Hj.
Qed.

(** Taking a waiting flow off the list puts its payment in flight. *)
Lemma start_flow (paymentId : Id) (w : World) :
  Invariant w -> In paymentId w.(detached) ->
  InFlight paymentId
    (with_detached (remove_first paymentId w.(detached)) w).
Proof.
  intros [H1 H2 H3 H4 H5 H6 H7 H8] Hin.
  destruct (remove_first_unique paymentId _ H5) as [Hnd Hout].
  rewrite Forall_forall in H4.
  split; [| split; [apply (H4 paymentId Hin) | exact Hout]].
  split; try assumption.
  apply Forall_forall. intros i Hi. apply H4.
  eapply remove_first_incl. exact Hi.
Qed.

Lemma exec_flow_invariant (F : Faults) (rnd : Entropy) (paymentId : Id)
    (w : World) :
  Invariant w -> Invariant (exec (OpFlow F rnd paymentId) w).
Proof.
  intros H. cbn [exec].
  destruct (existsb (Nat.eqb paymentId) (detached w)) eqn:E; [| exact H].
  apply existsb_eqb_In in E.
  apply (detachedFlow_inflight F rnd paymentId _
           (start_flow paymentId w H E)).
Qed.

(** With a fresh key, an active vendor without a bank account is turned
    down. *)
Lemma initiatePayment_without_bank (uuid : string)
    (request : CreatePaymentRequest.t) (header : option string) (w : World)
    (v : Vendor.t) :
  keyIsFresh (PaymentService.effectiveKey header uuid) w ->
  activeVendor request w = Some v ->
  v.(Vendor.bankAccount) = None ->
  exists e,
    PaymentService.initiatePayment uuid request header w = (Throw e, w).
Proof.
  unfold keyIsFresh, activeVendor. intros Hkey Hvendor Hbank.
  unfold PaymentService.initiatePayment, try_catch.
  unfold bind at 1. unfold prisma.payment.find at 1. unfold gets at 1.
  rewrite Hkey.
  unfold bind at 1. unfold prisma.vendor.find at 1. unfold gets at 1.
  rewrite Hvendor, Hbank. eexists. reflexivity.
Qed.


(** With a fresh key, a vendor id with no ACTIVE row is turned down. *)
Lemma initiatePayment_without_vendor (uuid : string)
    (request : CreatePaymentRequest.t) (header : option string) (w : World) :
  keyIsFresh (PaymentService.effectiveKey header uuid) w ->
  activeVendor request w = None ->
  exists e,
    PaymentService.initiatePayment uuid request header w = (Throw e, w).
Proof.
  unfold keyIsFresh, activeVendor. intros Hkey Hvendor.
  unfold PaymentService.initiatePayment, try_catch.
  unfold bind at 1. unfold prisma.payment.find at 1. unfold gets at 1.
  rewrite Hkey.
  unfold bind at 1. unfold prisma.vendor.find at 1. unfold gets at 1.
  rewrite Hvendor. eexists. reflexivity.
Qed.

(** What [initiatePayment] does in each of its cases. *)
Lemma initiatePayment_existing (uuid : string)
    (request : CreatePaymentRequest.t) (header : option string) (w : World)
    (existing : Payment.t) :
  List.find (prisma.payment.by_key (PaymentService.effectiveKey header uuid))
            w.(payments) = Some existing ->
  PaymentService.initiatePayment uuid request header w
  = (Return (PaymentService.respond existing), w).
Proof.
  intros Hkey.
  unfold PaymentService.initiatePayment, try_catch.
  unfold bind at 1. unfold prisma.payment.find at 1. unfold gets at 1.
  rewrite Hkey. reflexivity.
Qed.

Lemma initiatePayment_creates (uuid : string)
    (request : CreatePaymentRequest.t) (header : option string) (w : World)
    (v : Vendor.t) (bank : BankAccount.t) :
  keyIsFresh (PaymentService.effectiveKey header uuid) w ->
  activeVendor request w = Some v ->
  v.(Vendor.bankAccount) = Some bank ->
  PaymentService.initiatePayment uuid request header w
  = (Return (PaymentService.respond
               (newPayment (PaymentService.effectiveKey header uuid)
                           request w)),
     initiated (PaymentService.effectiveKey header uuid) request w).
Proof.
  unfold keyIsFresh, activeVendor. intros Hkey Hvendor Hbank.
  unfold PaymentService.initiatePayment, try_catch.
  unfold bind at 1. unfold prisma.payment.find at 1. unfold gets at 1.
  rewrite Hkey.
  unfold bind at 1. unfold prisma.vendor.find at 1. unfold gets at 1.
  rewrite Hvendor, Hbank.
  unfold bind at 1. unfold now at 1. unfold gets at 1.
  unfold bind at 1. unfold prisma.payment.create.
  unfold bind at 1. unfold prisma.payment.find at 1. unfold gets at 1.
  rewrite Hkey. reflexivity.
Qed.

Lemma initiatePayment_rejects (uuid : string)
    (request : CreatePaymentRequest.t) (header : option string) (w : World) :
  keyIsFresh (PaymentService.effectiveKey header uuid) w ->
  (activeVendor request w = None
   \/ exists v, activeVendor request w = Some v
                /\ v.(Vendor.bankAccount) = None) ->
  snd (PaymentService.initiatePayment uuid request header w) = w.
Proof.
  unfold keyIsFresh, activeVendor. intros Hkey Hvendor.
  unfold PaymentService.initiatePayment, try_catch.
  unfold bind at 1. unfold prisma.payment.find at 1. unfold gets at 1.
  rewrite Hkey.
  unfold bind at 1. unfold prisma.vendor.find at 1. unfold gets at 1.
  destruct Hvendor as [-> | (v & -> & ->)]; reflexivity.
Qed.

(** The cases of [initiatePayment], told apart. *)
Lemma initiatePayment_cases (uuid : string)
    (request : CreatePaymentRequest.t) (header : option string) (w : World) :
  let key := PaymentService.effectiveKey header uuid in
  (exists existing,
      List.find (prisma.payment.by_key key) w.(payments) = Some existing
      /\ PaymentService.initiatePayment uuid request header w
         = (Return (PaymentService.respond existing), w))
  \/ (keyIsFresh key w
      /\ snd (PaymentService.initiatePayment uuid request header w) = w
      /\ exists e,
           fst (PaymentService.initiatePayment uuid request header w)
           = Throw e)
  \/ (keyIsFresh key w
      /\ (exists v, activeVendor request w = Some v)
      /\ PaymentService.initiatePayment uuid request header w
         = (Return (PaymentService.respond (newPayment key request w)),
            initiated key request w)).
Proof.
  intros key.
  destruct (List.find (prisma.payment.by_key key) (payments w))
    as [existing |] eqn:Hkey.
  { left. exists existing. split; [reflexivity |].
    apply initiatePayment_existing. exact Hkey. }
  right.
  destruct (activeVendor request w) as [v |] eqn:Hvendor.
  - destruct (Vendor.bankAccount v) as [bank |] eqn:Hbank.
    + right. split; [exact Hkey |]. split; [eauto |].
      eapply initiatePayment_creates; eassumption.
    + left. split; [exact Hkey |].
      destruct (initiatePayment_without_bank uuid request header w v
                  Hkey Hvendor Hbank) as (e & He).
      rewrite He. split; [reflexivity | exists e; reflexivity].
  - left. split; [exact Hkey |].
    destruct (initiatePayment_without_vendor uuid request header w
                Hkey Hvendor) as (e & He).
    rewrite He. split; [reflexivity | exists e; reflexivity].
Qed.

(** A new payment row for an existing vendor, with the estimate as its USD
    amount, followed by the start of its flow. *)
Lemma initiated_invariant (key : string) (request : CreatePaymentRequest.t)
    (w : World) :
  Invariant w ->
  In request.(CreatePaymentRequest.vendorId) (vendorIds w) ->
  Invariant (initiated key request w).
Proof.
  intros [H1 H2 H3 H4 H5 H6 H7 H8] Hvendor.
  assert (Hfresh : ~ In (nextId w) (paymentIds w)).
  { intros Hin. rewrite Forall_forall in H1. specialize (H1 _ Hin). lia. }
  assert (Hsgd : forall j a, sgdOf j w = Some a ->
                             sgdOf j (initiated key request w) = Some a).
  { intros j a. unfold sgdOf, paymentById, initiated.
    cbn [payments with_payments with_detached].
    destruct (List.find (prisma.payment.by_id j) (payments w))
      as [p |] eqn:Hp;
      [| intros Ha; cbn [option_map] in Ha; discriminate Ha].
    intros Ha. rewrite (find_app_some _ _ _ _ Hp). exact Ha. }
  split; unfold paymentIds, transactionOwners, vendorIds, initiated in *;
    cbn [payments transactions vendors nextId detached with_payments
         with_nextId with_detached] in *.
  - rewrite map_app. apply Forall_app. split.
    + eapply Forall_impl; [| exact H1]. cbv beta. lia.
    + constructor; [cbn; lia | constructor].
  - rewrite map_app. apply NoDup_app; [exact H2 | | ].
    + repeat constructor. intros [].
    + intros i Hi [Hj | []]. cbn in Hj. subst i. contradiction.
  - eapply Forall_impl; [| exact H3]. cbv beta. lia.
  - apply Forall_app. split.
    + eapply Forall_impl; [| exact H4]. cbv beta. intros i [Ha Hb].
      split; [| exact Hb]. rewrite map_app. apply in_or_app. left. exact Ha.
    + constructor; [| constructor]. split.
      * rewrite map_app. apply in_or_app. right. left. reflexivity.
      * intros Hin. rewrite Forall_forall in H3. specialize (H3 _ Hin). lia.
  - apply NoDup_app; [exact H5 | | ].
    + repeat constructor. intros [].
    + intros i Hi [Hj | []]. subst i.
      rewrite Forall_forall in H4. destruct (H4 _ Hi) as [Ha _].
      contradiction.
  - apply Forall_app. split; [exact H6 |].
    constructor; [| constructor]. exact Hvendor.
  - apply Forall_app. split; [exact H7 |].
    constructor; [| constructor]. eexists. split; [reflexivity |].
    left. reflexivity.
  - eapply Forall_impl; [| exact H8]. intros x Hx Hty.
    destruct (Hx Hty) as (a & Ha & Heq). exists a.
    split; [| exact Heq].
    apply (Hsgd _ _ Ha).
Qed.

Lemma activeVendor_known (request : CreatePaymentRequest.t) (w : World)
    (v : Vendor.t) :
  activeVendor request w = Some v ->
  In request.(CreatePaymentRequest.vendorId) (vendorIds w).
Proof.
  intros H. apply find_some in H. destruct H as [Hin Hsel].
  apply andb_true_iff in Hsel. destruct Hsel as [Hid _].
  apply Nat.eqb_eq in Hid. rewrite <- Hid. apply in_map. exact Hin.
Qed.

Lemma initiatePayment_invariant (uuid : string)
    (request : CreatePaymentRequest.t) (header : option string) :
  keeps Invariant (PaymentService.initiatePayment uuid request header).
Proof.
  intros w H.
  destruct (initiatePayment_cases uuid request header w)
    as [(existing & _ & ->) | [(_ & -> & _) | (_ & (v & Hv) & ->)]];
    try exact H.
  cbn [snd]. apply initiated_invariant; [exact H |].
  eapply activeVendor_known. exact Hv.
Qed.

Lemma payments_post_invariant (uuid : string) (req : PaymentsRequest.t)
    (w : World) :
  Invariant w -> Invariant (snd (payments_post uuid req w)).
Proof.
  intros H. unfold payments_post.
  destruct (PaymentsRequest.vendorId req); [| exact H].
  destruct (negb _ || negb _); [exact H |].
  destruct (provided _ && negb _); [exact H |].
  pose proof (initiatePayment_invariant uuid
                (CreatePaymentRequest.mk i
                   (parseFloat (PaymentsRequest.amountSgd req))
                   (PaymentsRequest.customerReference req)
                   (PaymentsRequest.description req))
                (PaymentsRequest.idempotencyKeyHeader req) w H) as Hk.
  destruct (PaymentService.initiatePayment _ _ _ w) as [[r | e] w'];
    exact Hk.
Qed.

Lemma update_vendor_ids (i : Id) (s : VendorStatus.t) (l : list Vendor.t) :
  map Vendor.id (prisma.update_where (prisma.vendor.by_id i)
                   (set_vendor_status s) l) = map Vendor.id l.
Proof.
  induction l as [| v l IH]; [reflexivity |].
  cbn [prisma.update_where map]. fold (prisma.update_where
    (prisma.vendor.by_id i) (set_vendor_status s) l).
  rewrite IH. destruct (prisma.vendor.by_id i v); reflexivity.
Qed.

(** Every operation keeps the invariant. *)
Lemma exec_invariant (op : Op) (w : World) :
  Invariant w -> Invariant (exec op w).
Proof.
  intros H. destruct op as [name email bank | vid s | uuid req | F rnd pid
                            | secret req | client secret req | ms].
  - cbn [exec]. unfold createVendor, bind, freshId, modify. cbn [snd].
    apply (invariant_cosmetic w); try frame_world; [exact H |].
    unfold vendorIds. cbn [vendors with_vendors with_nextId].
    rewrite map_app. apply incl_appl, incl_refl.
  - cbn [exec]. unfold updateVendorStatus, modify. cbn [snd].
    apply (invariant_cosmetic w); try frame_world; [exact H |].
    unfold vendorIds. cbn [vendors with_vendors].
    rewrite update_vendor_ids. apply incl_refl.
  - apply payments_post_invariant. exact H.
  - apply exec_flow_invariant. exact H.
  - cbn [exec].
    apply (route_keeps Invariant invariant_handlers invariant_upsert
             (fun i d => invariant_event_update i _)). exact H.
  - cbn [exec].
    apply (untyped_route_keeps Invariant invariant_handlers
             invariant_upsert (fun i d => invariant_event_update i _)).
    exact H.
  - cbn. apply (invariant_cosmetic w); try frame_world. exact H.
Qed.

Lemma run_invariant (ops : list Op) (w : World) :
  Invariant w -> Invariant (run ops w).
Proof.
  revert w. induction ops as [| op ops IH]; intros w H; [exact H |].
  cbn [run fold_left]. apply IH. apply exec_invariant. exact H.
Qed.

Lemma reachable_invariant (w : World) : reachable w -> Invariant w.
Proof.
  intros (start & ops & ->). apply run_invariant.
  split; cbn; constructor.
Qed.

(* ================================================================== *)
(** * Numbers                                                           *)
(* ================================================================== *)

Lemma pow2_pos (e : Z) : (0 < Double.pow2 e)%Q.
Proof.
  unfold Double.pow2. destruct (Z.leb_spec 0 e) as [H | H].
  - change 0%Q with (inject_Z 0). rewrite <- Zlt_Qlt. apply Z.pow_pos_nonneg; lia.
  - apply Qinv_lt_0_compat. change 0%Q with (inject_Z 0). rewrite <- Zlt_Qlt.
    apply Z.pow_pos_nonneg; lia.
Qed.

Lemma pow2_succ (e : Z) : (Double.pow2 (e + 1) == 2 * Double.pow2 e)%Q.
Proof.
  unfold Double.pow2.
  destruct (Z.leb_spec 0 e) as [H | H], (Z.leb_spec 0 (e + 1)) as [H' | H'];
    try lia.
  - rewrite Z.pow_add_r by lia. rewrite inject_Z_mult. change (inject_Z (2 ^ 1)) with 2%Q. ring.
  - assert (e = -1)%Z by lia. subst e. reflexivity.
  - replace (- e)%Z with (- (e + 1) + 1)%Z by lia.
    rewrite Z.pow_add_r by lia. rewrite inject_Z_mult.
    change (inject_Z (2 ^ 1)) with 2%Q.
    assert (Hp : (0 < inject_Z (2 ^ (- (e + 1))))%Q).
    { change 0%Q with (inject_Z 0). rewrite <- Zlt_Qlt. apply Z.pow_pos_nonneg; lia. }
    field. intros E. rewrite E in Hp. apply (Qlt_irrefl 0 Hp).
Qed.


Lemma pow2_add (a b : Z) : (Double.pow2 (a + b) == Double.pow2 a * Double.pow2 b)%Q.
Proof.
  revert b. apply Z.bi_induction.
  - intros x y ->. reflexivity.
  - rewrite Z.add_0_r. change (Double.pow2 0) with 1%Q. ring.
  - intros b. fold (Z.succ b). rewrite <- !Z.add_1_r, Z.add_assoc, !pow2_succ.
    split; intros H.
    + rewrite H. ring.
    + pose proof (pow2_pos (a + b)). pose proof (pow2_pos a).
      pose proof (pow2_pos b).
      apply (Qmult_inj_l _ _ 2); [discriminate |]. rewrite H. ring.
Qed.

Lemma pow2_nonneg (e : Z) : (0 <= e)%Z -> Double.pow2 e = inject_Z (2 ^ e).
Proof.
  intros H. unfold Double.pow2. destruct (Z.leb_spec 0 e); [reflexivity | lia].
Qed.

Lemma binade_le (q : Q) :
  ~ (q == 0)%Q -> (Double.pow2 (Double.binade q) <= Qabs q)%Q.
Proof.
  intros Hq. unfold Double.binade.
  set (a := Z.log2 (Z.abs (Qnum q))). set (b := Z.log2 (Zpos (Qden q))).
  destruct (Qle_bool (Double.pow2 (a - b)) (Qabs q)) eqn:E;
    [apply Qle_bool_iff; exact E |].
  destruct q as [n d]. cbn [Qnum Qden] in *.
  assert (Hn : (0 < Z.abs n)%Z).
  { destruct (Z.eq_dec n 0) as [-> | Hn]; [exfalso; apply Hq; reflexivity | lia]. }
  pose proof (Z.log2_spec _ Hn) as [Ha _]. fold a in Ha.
  pose proof (Z.log2_spec (Zpos d) eq_refl) as [_ Hb]. fold b in Hb.
  assert (Ha0 : (0 <= a)%Z) by apply Z.log2_nonneg.
  assert (Hb0 : (0 <= b)%Z) by apply Z.log2_nonneg.
  assert (Hd : (inject_Z (Zpos d) <= Double.pow2 (b + 1))%Q).
  { rewrite pow2_nonneg by lia. rewrite <- Zle_Qle.
    replace (Z.succ b) with (b + 1)%Z in Hb by lia. lia. }
  assert (Hna : (Double.pow2 a <= inject_Z (Z.abs n))%Q).
  { rewrite pow2_nonneg by lia. rewrite <- Zle_Qle. exact Ha. }
  assert (Hsplit : (Double.pow2 a == Double.pow2 (a - b - 1) * Double.pow2 (b + 1))%Q).
  { rewrite <- pow2_add. replace (a - b - 1 + (b + 1))%Z with a by lia. reflexivity. }
  pose proof (pow2_pos (a - b - 1)) as Hk.
  assert (Habs : (Qabs (n # d) == inject_Z (Z.abs n) / inject_Z (Zpos d))%Q).
  { cbn [Qabs]. apply Qmake_Qdiv. }
  rewrite Habs.
  assert (Hdpos : (0 < inject_Z (Zpos d))%Q) by reflexivity.
  apply Qle_shift_div_l; [exact Hdpos |].
  apply Qle_trans with (Double.pow2 (a - b - 1) * Double.pow2 (b + 1))%Q.
  - apply Qmult_le_l; [exact Hk | exact Hd].
  - rewrite <- Hsplit. exact Hna.
Qed.

Lemma round_zero (q : Q) : (q == 0)%Q -> Double.round q = 0%Q.
Proof.
  intros H. unfold Double.round.
  assert (E : Qeq_bool (Qred q) 0 = true).
  { apply Qeq_bool_iff. rewrite Qred_correct. exact H. }
  rewrite E. reflexivity.
Qed.

Lemma round_proper (q q' : Q) : (q == q')%Q -> Double.round q = Double.round q'.
Proof.
  intros H. unfold Double.round. rewrite (Qred_complete _ _ H). reflexivity.
Qed.



Lemma Qabs_bound (x b : Q) : (Qabs x <= b)%Q -> (- b <= x /\ x <= b)%Q.
Proof. apply Qabs_Qle_condition. Qed.


Lemma Qmult_le_left (x y z : Q) : (0 <= z)%Q -> (x <= y)%Q -> (z * x <= z * y)%Q.
Proof.
  intros Hz H. rewrite (Qmult_comm z x), (Qmult_comm z y).
  apply Qmult_le_compat_r; assumption.
Qed.



Lemma pow2_ge_1 (k : Z) : (0 <= k)%Z -> (1 <= Double.pow2 k)%Q.
Proof.
  intros Hk. rewrite pow2_nonneg by exact Hk.
  change 1%Q with (inject_Z 1). rewrite <- Zle_Qle.
  pose proof (Z.pow_pos_nonneg 2 k ltac:(lia) Hk). lia.
Qed.

Lemma pow2_le_mono (a b : Z) :
  (a <= b)%Z -> (Double.pow2 a <= Double.pow2 b)%Q.
Proof.
  intros H. replace b with (a + (b - a))%Z by lia. rewrite pow2_add.
  pose proof (pow2_pos a). pose proof (pow2_ge_1 (b - a) ltac:(lia)).
  setoid_replace (Double.pow2 a) with (Double.pow2 a * 1)%Q at 1 by ring.
  apply Qmult_le_left; [apply Qlt_le_weak; assumption | assumption].
Qed.

Lemma binade_lt (q : Q) :
  ~ (q == 0)%Q -> (Qabs q < Double.pow2 (Double.binade q + 1))%Q.
Proof.
  intros Hq. unfold Double.binade.
  set (a := Z.log2 (Z.abs (Qnum q))). set (b := Z.log2 (Zpos (Qden q))).
  destruct (Qle_bool (Double.pow2 (a - b)) (Qabs q)) eqn:E.
  - destruct q as [n d]. cbn [Qnum Qden] in *.
    assert (Hn : (0 < Z.abs n)%Z).
    { destruct (Z.eq_dec n 0) as [-> | Hn];
        [exfalso; apply Hq; reflexivity | lia]. }
    pose proof (Z.log2_spec _ Hn) as [_ Ha]. fold a in Ha.
    pose proof (Z.log2_spec (Zpos d) eq_refl) as [Hb _]. fold b in Hb.
    assert (Ha0 : (0 <= a)%Z) by apply Z.log2_nonneg.
    assert (Hb0 : (0 <= b)%Z) by apply Z.log2_nonneg.
    assert (Hd : (Double.pow2 b <= inject_Z (Zpos d))%Q).
    { rewrite pow2_nonneg by lia. rewrite <- Zle_Qle. exact Hb. }
    assert (Hna : (inject_Z (Z.abs n) < Double.pow2 (a + 1))%Q).
    { rewrite pow2_nonneg by lia. rewrite <- Zlt_Qlt.
      replace (Z.succ a) with (a + 1)%Z in Ha by lia. exact Ha. }
    assert (Hsplit : (Double.pow2 (a + 1)
                      == Double.pow2 (a - b + 1) * Double.pow2 b)%Q).
    { rewrite <- pow2_add. replace (a - b + 1 + b)%Z with (a + 1)%Z by lia.
      reflexivity. }
    pose proof (pow2_pos (a - b + 1)) as Hk.
    assert (Habs : (Qabs (n # d) == inject_Z (Z.abs n) / inject_Z (Zpos d))%Q).
    { cbn [Qabs]. apply Qmake_Qdiv. }
    rewrite Habs.
    assert (Hdpos : (0 < inject_Z (Zpos d))%Q) by reflexivity.
    apply Qlt_shift_div_r; [exact Hdpos |].
    eapply Qlt_le_trans; [exact Hna |].
    rewrite Hsplit. apply Qmult_le_left; [apply Qlt_le_weak; exact Hk | exact Hd].
  - replace (a - b - 1 + 1)%Z with (a - b)%Z by lia.
    apply Qnot_le_lt. intros H. apply Qle_bool_iff in H. congruence.
Qed.

Lemma binade_unique (q : Q) (b : Z) :
  (Double.pow2 b <= Qabs q)%Q -> (Qabs q < Double.pow2 (b + 1))%Q ->
  Double.binade q = b.
Proof.
  intros Hle Hlt.
  assert (Hq : ~ (q == 0)%Q).
  { intros E. rewrite E in Hle. pose proof (pow2_pos b) as Hb.
    cbn in Hle. apply (Qlt_irrefl 0). eapply Qlt_le_trans; eassumption. }
  pose proof (binade_le q Hq) as H1. pose proof (binade_lt q Hq) as H2.
  set (c := Double.binade q) in *.
  destruct (Z.lt_trichotomy c b) as [H | [H | H]]; [| exact H |].
  - exfalso. pose proof (pow2_le_mono (c + 1) b ltac:(lia)) as Hm.
    apply (Qlt_irrefl (Qabs q)).
    eapply Qlt_le_trans; [exact H2 |]. eapply Qle_trans; eassumption.
  - exfalso. pose proof (pow2_le_mono (b + 1) c ltac:(lia)) as Hm.
    apply (Qlt_irrefl (Qabs q)).
    eapply Qlt_le_trans; [exact Hlt |]. eapply Qle_trans; eassumption.
Qed.

Lemma nearestEven_proper (q q' : Q) :
  (q == q')%Q -> Double.nearestEven q = Double.nearestEven q'.
Proof.
  intros H. unfold Double.nearestEven. rewrite (Qfloor_comp _ _ H).
  assert (E : (q - inject_Z (Qfloor q') == q' - inject_Z (Qfloor q'))%Q)
    by (rewrite H; reflexivity).
  rewrite (Qcompare_comp _ _ E _ _ (Qeq_refl (1 # 2))). reflexivity.
Qed.

Lemma nearestEven_integer (k : Z) : Double.nearestEven (inject_Z k) = k.
Proof.
  unfold Double.nearestEven. rewrite Qfloor_Z.
  assert (E : (inject_Z k - inject_Z k ?= 1 # 2)%Q = Lt).
  { apply (proj1 (Qlt_alt _ _)). generalize (inject_Z k). intros x. lra. }
  rewrite E. reflexivity.
Qed.

Lemma nearestEven_ge (q : Q) (k : Z) :
  (inject_Z k <= q)%Q -> (k <= Double.nearestEven q)%Z.
Proof.
  intros H. apply Qfloor_resp_le in H. rewrite Qfloor_Z in H.
  unfold Double.nearestEven.
  destruct (q - inject_Z (Qfloor q) ?= 1 # 2)%Q;
    [destruct (Z.even (Qfloor q)) | |]; lia.
Qed.

Lemma nearestEven_le (q : Q) (k : Z) :
  (q <= inject_Z k)%Q -> (Double.nearestEven q <= k)%Z.
Proof.
  intros H. pose proof (Qfloor_le q) as Hf.
  assert (Hfk : (Qfloor q <= k)%Z).
  { rewrite Zle_Qle. eapply Qle_trans; eassumption. }
  unfold Double.nearestEven.
  destruct (Z.eq_dec (Qfloor q) k) as [E | E].
  - assert (Hlt : (q - inject_Z (Qfloor q) ?= 1 # 2)%Q = Lt).
    { apply (proj1 (Qlt_alt _ _)). rewrite E in *. revert H Hf.
      generalize (inject_Z k). intros x H Hf. lra. }
    rewrite Hlt. lia.
  - destruct (q - inject_Z (Qfloor q) ?= 1 # 2)%Q;
      [destruct (Z.even (Qfloor q)) | |]; lia.
Qed.

Lemma pow2_neq_0 (e : Z) : ~ (Double.pow2 e == 0)%Q.
Proof.
  intros E. pose proof (pow2_pos e) as H. rewrite E in H.
  exact (Qlt_irrefl 0 H).
Qed.

Lemma Qabs_scaled (m e : Z) :
  (Qabs (inject_Z m * Double.pow2 e)
   == inject_Z (Z.abs m) * Double.pow2 e)%Q.
Proof.
  rewrite Qabs_Qmult.
  rewrite (Qabs_pos (Double.pow2 e))
    by (apply Qlt_le_weak, pow2_pos).
  reflexivity.
Qed.

(** A double is left as it is. *)
Lemma round_fixed (m e : Z) :
  (-1074 <= e)%Z -> (Z.abs m < 2 ^ 53)%Z ->
  (Double.round (inject_Z m * Double.pow2 e)
   == inject_Z m * Double.pow2 e)%Q.
Proof.
  intros He Hm.
  set (x := (inject_Z m * Double.pow2 e)%Q).
  destruct (Z.eq_dec m 0) as [-> | Hm0].
  - rewrite round_zero; unfold x; ring.
  - assert (Hx : ~ (x == 0)%Q).
    { unfold x. intros E. apply Qmult_integral in E.
      destruct E as [E | E]; [| exact (pow2_neq_0 e E)].
      apply Hm0. apply inject_Z_injective. exact E. }
    unfold Double.round.
    assert (E0 : Qeq_bool (Qred x) 0 = false).
    { destruct (Qeq_bool (Qred x) 0) eqn:E; [| reflexivity].
      apply Qeq_bool_iff in E. rewrite Qred_correct in E. contradiction. }
    rewrite E0.
    set (c := Z.log2 (Z.abs m)).
    assert (Hpos : (0 < Z.abs m)%Z) by lia.
    pose proof (Z.log2_spec _ Hpos) as [Hc1 Hc2]. fold c in Hc1, Hc2.
    assert (Hc0 : (0 <= c)%Z) by apply Z.log2_nonneg.
    assert (Hc : (c < 53)%Z) by (apply Z.log2_lt_pow2; assumption).
    assert (Habs : (Qabs (Qred x) == inject_Z (Z.abs m) * Double.pow2 e)%Q).
    { rewrite (Qabs_wd _ _ (Qred_correct x)). apply Qabs_scaled. }
    assert (Hb : Double.binade (Qred x) = (c + e)%Z).
    { apply binade_unique; rewrite Habs.
      - rewrite pow2_add. apply Qmult_le_compat_r;
          [| apply Qlt_le_weak, pow2_pos].
        rewrite pow2_nonneg by lia. rewrite <- Zle_Qle. exact Hc1.
      - replace (c + e + 1)%Z with (c + 1 + e)%Z by lia. rewrite pow2_add.
        apply Qmult_lt_r; [apply pow2_pos |].
        rewrite pow2_nonneg by lia. rewrite <- Zlt_Qlt.
        replace (Z.succ c) with (c + 1)%Z in Hc2 by lia. exact Hc2. }
    unfold Double.lastPlace. rewrite Hb.
    set (e' := Z.max (c + e - 52) (-1074)).
    assert (He' : (e' <= e)%Z) by (unfold e'; lia).
    assert (Hsplit : (Double.pow2 e
                      == inject_Z (2 ^ (e - e')) * Double.pow2 e')%Q).
    { rewrite <- pow2_nonneg by lia. rewrite <- pow2_add.
      replace (e - e' + e')%Z with e by lia. reflexivity. }
    assert (Hint : (Qred x / Double.pow2 e'
                    == inject_Z (m * 2 ^ (e - e')))%Q).
    { rewrite Qred_correct. unfold x. rewrite Hsplit, inject_Z_mult.
      field. apply pow2_neq_0. }
    rewrite (nearestEven_proper _ _ Hint), nearestEven_integer.
    unfold x. rewrite Hsplit, inject_Z_mult. ring.
Qed.

(** What [round] returns is a double. *)
Lemma round_representable (q : Q) :
  exists m e,
    (-1074 <= e)%Z /\ (Z.abs m <= 2 ^ 53)%Z
    /\ Double.round q = (inject_Z m * Double.pow2 e)%Q.
Proof.
  unfold Double.round.
  destruct (Qeq_bool (Qred q) 0) eqn:E0.
  - exists 0%Z, 0%Z. split; [lia |]. split; [lia | reflexivity].
  - assert (Hq : ~ (Qred q == 0)%Q).
    { intros E. apply Qeq_bool_iff in E. congruence. }
    set (q0 := Qred q) in *.
    set (e := Double.lastPlace q0).
    exists (Double.nearestEven (q0 / Double.pow2 e)), e.
    split; [unfold e, Double.lastPlace; lia |].
    split; [| reflexivity].
    pose proof (binade_lt q0 Hq) as Hlt.
    set (b := Double.binade q0) in *.
    assert (Hbe : (b + 1 <= 53 + e)%Z)
      by (unfold e, Double.lastPlace; fold b; lia).
    pose proof (pow2_le_mono _ _ Hbe) as Hmono.
    rewrite (pow2_add 53 e) in Hmono.
    pose proof (pow2_pos e) as Hpe.
    assert (Hy : (Qabs (q0 / Double.pow2 e) <= inject_Z (2 ^ 53))%Q).
    { rewrite <- (pow2_nonneg 53) by lia.
      unfold Qdiv. rewrite Qabs_Qmult.
      rewrite (Qabs_pos (/ Double.pow2 e))
        by (apply Qlt_le_weak, Qinv_lt_0_compat; exact Hpe).
      apply Qle_shift_div_r; [exact Hpe |].
      apply Qlt_le_weak. eapply Qlt_le_trans; eassumption. }
    apply Qabs_Qle_condition in Hy. destruct Hy as [Hlo Hhi].
    apply nearestEven_le in Hhi.
    rewrite <- inject_Z_opp in Hlo. apply nearestEven_ge in Hlo. lia.
Qed.

(** Rounding twice is rounding once. *)
Lemma round_idempotent (q : Q) :
  (Double.round (Double.round q) == Double.round q)%Q.
Proof.
  destruct (round_representable q) as (m & e & He & Hm & ->).
  destruct (Z.eq_dec (Z.abs m) (2 ^ 53)) as [Htop | Hlow].
  - assert (Hhalf : (inject_Z m * Double.pow2 e
                     == inject_Z (m / 2) * Double.pow2 (e + 1))%Q).
    { rewrite pow2_succ.
      assert (Hm2 : m = (2 * (m / 2))%Z).
      { assert (m = 2 ^ 53 \/ m = - 2 ^ 53)%Z as [-> | ->] by lia;
          reflexivity. }
      rewrite Hm2 at 1. rewrite inject_Z_mult. change (inject_Z 2) with 2%Q.
      ring. }
    rewrite (round_proper _ _ Hhalf), Hhalf.
    apply round_fixed; [lia |].
    assert (m = 2 ^ 53 \/ m = - 2 ^ 53)%Z as [-> | ->] by lia;
      vm_compute; reflexivity.
  - apply round_fixed; [exact He | lia].
Qed.

(** The products of the code on an amount of 3 SGD: the
    USD amount is the double written 2.2199999999999998, not 2.22, and the
    payout fee on it is the double written 0.0044399999999999995. *)
Lemma three_sgd_in_usd :
  Double.mul 3 sgdToUsdc
  = Double.round (22199999999999998 # 10000000000000000)
  /\ Double.mul 3 sgdToUsdc <> Double.round (222 # 100)
  /\ Double.mul (Double.mul 3 sgdToUsdc) PaymentService.payoutFeeRate
     = Double.round (44399999999999995 # 10000000000000000000).
Proof.
  split; [vm_compute; reflexivity |].
  split; [vm_compute; discriminate | vm_compute; reflexivity].
Qed.

Lemma usdcToUsd_one : usdcToUsd = 1%Q.
Proof. vm_compute. reflexivity. Qed.

Lemma combined_rate : Double.mul sgdToUsdc usdcToUsd = sgdToUsdc.
Proof. vm_compute. reflexivity. Qed.

Lemma mul_one (a : Q) : Double.mul a 1 = Double.round a.
Proof. unfold Double.mul. apply round_proper. ring. Qed.

(** The estimate of [initiatePayment] and the amount the flow writes are
    the same number. *)
Lemma usd_forms_agree (a : Q) :
  (Double.mul (Double.mul a sgdToUsdc) usdcToUsd
   == Double.mul a (Double.mul sgdToUsdc usdcToUsd))%Q.
Proof.
  rewrite combined_rate, usdcToUsd_one, mul_one.
  unfold Double.mul. apply round_idempotent.
Qed.


(* ================================================================== *)
(** * Conservation                                                      *)
(* ================================================================== *)

Lemma run_app (ops1 ops2 : list Op) (w : World) :
  run (ops1 ++ ops2) w = run ops2 (run ops1 w).
Proof. unfold run. apply fold_left_app. Qed.

Lemma reachable_run (ops : list Op) (w : World) :
  reachable w -> reachable (run ops w).
Proof.
  intros (start & ops0 & ->). exists start, (ops0 ++ ops).
  symmetry. apply run_app.
Qed.

Lemma exampleWorld_reachable : reachable exampleWorld.
Proof. eexists. eexists. reflexivity. Qed.

Lemma completedWorld_reachable : reachable completedWorld.
Proof.
  unfold completedWorld, initiatedWorld.
  do 2 apply reachable_run. exact exampleWorld_reachable.
Qed.




(* ================================================================== *)
(** * Order of the transactions                                         *)
(* ================================================================== *)

Lemma insertByCreatedAt_sorted (x : Transaction.t) (l : list Transaction.t) :
  StronglySorted Z.le (createdAts l) ->
  StronglySorted Z.le (createdAts (PaymentService.insertByCreatedAt x l)).
Proof.
  unfold createdAts.
  induction l as [| y l IH]; intros Hs; cbn [PaymentService.insertByCreatedAt].
  - repeat constructor.
  - cbn [map] in Hs. inversion Hs as [| ? ? Hs' Hy]; subst.
    destruct (Z.leb_spec (Transaction.createdAt x) (Transaction.createdAt y))
      as [Hle | Hgt]; cbn [map].
    + constructor; [exact Hs |].
      constructor; [exact Hle |].
      eapply Forall_impl; [| exact Hy]. cbv beta. intros z Hz. lia.
    + constructor; [apply IH; exact Hs' |].
      apply Forall_forall. intros z Hz.
      apply in_map_iff in Hz. destruct Hz as (t & <- & Ht).
      assert (Hcases : t = x \/ In t l).
      { clear - Ht. induction l as [| a l IHl];
          cbn [PaymentService.insertByCreatedAt] in Ht.
        - destruct Ht as [<- | []]. left. reflexivity.
        - destruct (Transaction.createdAt x <=? Transaction.createdAt a)%Z.
          + destruct Ht as [<- | Ht]; [left; reflexivity | right; exact Ht].
          + destruct Ht as [<- | Ht]; [right; left; reflexivity |].
            destruct (IHl Ht) as [-> | Hin];
              [left; reflexivity | right; right; exact Hin]. }
      destruct Hcases as [-> | Hin]; [lia |].
      rewrite Forall_forall in Hy. apply Hy. apply in_map. exact Hin.
Qed.

(** [orderBy: { createdAt: 'asc' }] returns rows in non-decreasing order of
    creation time. *)
Lemma orderByCreatedAt_sorted (l : list Transaction.t) :
  StronglySorted Z.le (createdAts (PaymentService.orderByCreatedAt l)).
Proof.
  unfold PaymentService.orderByCreatedAt.
  induction l as [| x l IH]; cbn [fold_right]; [constructor |].
  apply insertByCreatedAt_sorted. exact IH.
Qed.

(** Rows already in order come back as they are. *)
Lemma orderByCreatedAt_of_sorted (l : list Transaction.t) :
  StronglySorted Z.le (createdAts l) ->
  PaymentService.orderByCreatedAt l = l.
Proof.
  unfold PaymentService.orderByCreatedAt, createdAts.
  induction l as [| x l IH]; intros Hs; [reflexivity |].
  cbn [map] in Hs. inversion Hs as [| ? ? Hs' Hx]; subst.
  cbn [fold_right]. rewrite (IH Hs').
  destruct l as [| y l]; [reflexivity |].
  cbn [PaymentService.insertByCreatedAt].
  cbn [map] in Hx. inversion Hx as [| ? ? Hxy _]; subst.
  apply Z.leb_le in Hxy. rewrite Hxy. reflexivity.
Qed.

Lemma summary_createdAts (l : list Transaction.t) :
  map TransactionSummary.createdAt (map PaymentService.summary l)
  = createdAts l.
Proof. unfold createdAts. rewrite map_map. reflexivity. Qed.

Lemma summary_types (l : list Transaction.t) :
  map TransactionSummary.type (map PaymentService.summary l)
  = map Transaction.type l.
Proof. rewrite map_map. reflexivity. Qed.

(** What [getPaymentStatus] answers for a payment whose vendor exists. *)
Lemma getPaymentStatus_effect (paymentId : Id) (w : World) (p : Payment.t)
    (v : Vendor.t) :
  paymentById paymentId w = Some p ->
  List.find (prisma.vendor.by_id p.(Payment.vendorId)) w.(vendors) = Some v ->
  exists r,
    PaymentService.getPaymentStatus paymentId w = (Return r, w)
    /\ r.(PaymentStatusResponse.transactions)
       = map PaymentService.summary
           (PaymentService.orderByCreatedAt (ownedBy paymentId w))
    /\ r.(PaymentStatusResponse.status) = p.(Payment.status).
Proof.
  intros Hp Hv.
  unfold PaymentService.getPaymentStatus, bind, prisma.payment.find,
    prisma.vendor.find, prisma.transaction.findMany, gets, ret.
  unfold paymentById in Hp. rewrite Hp, Hv.
  eexists. split; [reflexivity |]. split; reflexivity.
Qed.

Lemma getPaymentStatus_sorted (paymentId : Id) (w w' : World)
    (r : PaymentStatusResponse.t) :
  PaymentService.getPaymentStatus paymentId w = (Return r, w') ->
  StronglySorted Z.le
    (map TransactionSummary.createdAt r.(PaymentStatusResponse.transactions)).
Proof.
  unfold PaymentService.getPaymentStatus, bind, prisma.payment.find,
    prisma.vendor.find, prisma.transaction.findMany, gets, ret, throw.
  destruct (List.find _ (payments w)) as [p |]; [| discriminate].
  destruct (List.find _ (vendors w)) as [v |]; [| discriminate].
  intros H. injection H as <- _.
  cbn [PaymentStatusResponse.transactions].
  rewrite summary_createdAts. apply orderByCreatedAt_sorted.
Qed.

Lemma bind_returns {A B} (c : M A) (k : A -> M B) (w w2 : World) (b : B) :
  bind c k w = (Return b, w2) ->
  exists a w1, c w = (Return a, w1) /\ k a w1 = (Return b, w2).
Proof.
  unfold bind. destruct (c w) as [[a | e] w1]; [eauto | discriminate].
Qed.

(** A flow that returns has just marked the payment COMPLETED. *)
Lemma flowSteps_completed (F : Faults) (rnd : Entropy) (paymentId : Id)
    (w w2 : World) :
  flowSteps F rnd paymentId w = (Return tt, w2) ->
  statusOf paymentId w2 = Some PaymentStatus.COMPLETED.
Proof.
  unfold flowSteps. intros H.
  do 6 (apply bind_returns in H; destruct H as (? & ? & _ & H)).
  match type of H with
  | call _ _ _ ?w1 = _ =>
      unfold call in H; destruct (F SetCompleted); [discriminate H |];
      destruct (paymentById paymentId w1) as [p |] eqn:Hp;
      [ destruct (updatePaymentStatus_effect paymentId
                    PaymentStatus.COMPLETED w1 (ex_intro _ p Hp))
          as (w' & Hupd & Hstatus & _);
        rewrite Hupd in H; injection H as <-; exact Hstatus
      | unfold PaymentService.updatePaymentStatus in H;
        rewrite (payment_update_missing _ _ _ Hp) in H; discriminate H ]
  end.
Qed.

Lemma processPaymentFlow_returns (F : Faults) (rnd : Entropy)
    (paymentId : Id) (w w2 : World) :
  PaymentService.processPaymentFlow F rnd paymentId w = (Return tt, w2) ->
  flowSteps F rnd paymentId w = (Return tt, w2).
Proof.
  change (PaymentService.processPaymentFlow F rnd paymentId w)
    with (try_catch (flowSteps F rnd paymentId)
            (fun error =>
               call F CatchSetFailed
                 (PaymentService.updatePaymentStatus paymentId
                    PaymentStatus.FAILED) ;;
               throw error) w).
  unfold try_catch.
  destruct (flowSteps F rnd paymentId w) as [[[] | e] w1];
    [intros H; exact H |].
  unfold bind, throw.
  destruct (call F CatchSetFailed _ w1) as [[[] | e'] w'];
    discriminate.
Qed.

(** ** Every operation only adds transactions through a waiting flow *)

Lemma records_liftOutcome (paymentId : Id) {A} (o : Outcome A) :
  records paymentId [] (liftOutcome o).
Proof.
  apply records_idle. intros w. cbn. split; [reflexivity | lia].
Qed.

Lemma records_transaction_update (paymentId i : Id)
    (f : Transaction.t -> Transaction.t) :
  txCosmetic f -> records paymentId [] (prisma.transaction.update i f).
Proof.
  intros Hf. unfold prisma.transaction.update.
  apply (records_bind _ [] []); [apply records_gets | intros found].
  destruct found; [| apply records_throw].
  intros w. cbn.
  exists (prisma.update_where (prisma.transaction.by_id i) f
            (transactions w)), [].
  rewrite app_nil_r. repeat split; try (cbn; lia).
  - apply same_table_update. exact Hf.
  - constructor.
  - constructor.
Qed.

Lemma records_event_update (paymentId i : Id)
    (f : WebhookEvent.t -> WebhookEvent.t) :
  records paymentId [] (prisma.webhookEvent.update i f).
Proof.
  apply records_idle. intros w.
  unfold prisma.webhookEvent.update, bind, prisma.webhookEvent.find, gets,
    modify, throw.
  destruct (List.find _ (webhookEvents w)); cbn; split;
    try reflexivity; lia.
Qed.

Lemma records_event_upsert (paymentId : Id) (eventId eventType : string)
    (body : Json.t) :
  records paymentId [] (prisma.webhookEvent.upsert eventId eventType body).
Proof.
  apply records_idle. intros w.
  unfold prisma.webhookEvent.upsert, bind, prisma.webhookEvent.find, gets,
    modify, freshId, ret.
  destruct (List.find _ (webhookEvents w)); cbn; split;
    try reflexivity; lia.
Qed.

Ltac route_records_step :=
  first
    [ records_step
    | apply records_liftOutcome
    | apply records_gets
    | apply records_transaction_update; auto with cosmetic
    | apply records_event_update
    | apply records_event_upsert ].

Lemma processWebhookEvent_records (paymentId : Id) (eventType : string)
    (d : EventData.t) (i : Id) :
  records paymentId [] (processWebhookEvent eventType d i).
Proof.
  unfold processWebhookEvent, handlePaymentIntentSucceeded,
    handlePaymentIntentFailed, handleTransferCompleted, handleTransferFailed,
    handlePayoutCompleted, handlePayoutFailed.
  repeat route_records_step.
Qed.

Lemma records_nothing_grown (paymentId : Id) {A} (c : M A) (w : World) :
  records paymentId [] c -> grown paymentId [] w (snd (c w)).
Proof.
  intros H. specialize (H w). destruct (c w) as [[a | e] w']; [exact H |].
  destruct H as (done & rest & Hsplit & Hg).
  symmetry in Hsplit. apply app_eq_nil in Hsplit.
  destruct Hsplit as [-> _]. exact Hg.
Qed.

(** The webhook route adds no transaction and removes none. *)
Lemma route_grown (paymentId : Id) (webhookSecret : option string)
    (req : WebhookRequest.t) (w : World) :
  grown paymentId [] w (snd (webhooks_post_circle webhookSecret req w)).
Proof.
  unfold webhooks_post_circle.
  match goal with
  | |- grown _ _ _ (snd (match ?c w with _ => _ end)) =>
      assert (Hk : records paymentId [] c)
  end.
  { unfold signatureRejected.
    repeat first
      [ apply processWebhookEvent_records | route_records_step ]. }
  apply (records_nothing_grown paymentId _ w) in Hk.
  match goal with
  | |- grown _ _ _ (snd (match ?c w with _ => _ end)) =>
      destruct (c w) as [[r | e] w']
  end; exact Hk.
Qed.

Lemma untyped_processWebhookEvent_records (paymentId : Id)
    (client : Untyped.Client) (eventType : string) (d : option Json.t)
    (i : Id) :
  records paymentId [] (Untyped.processWebhookEvent client eventType d i).
Proof.
  unfold Untyped.processWebhookEvent, Untyped.handlePaymentIntentSucceeded,
    Untyped.handlePaymentIntentFailed, Untyped.handleTransferCompleted,
    Untyped.handleTransferFailed, Untyped.handlePayoutCompleted,
    Untyped.handlePayoutFailed, Untyped.read, Untyped.validated.
  repeat route_records_step.
Qed.

Lemma untyped_route_grown (paymentId : Id) (client : Untyped.Client)
    (webhookSecret : option string) (req : Untyped.Request.t) (w : World) :
  grown paymentId [] w
        (snd (Untyped.webhooks_post_circle client webhookSecret req w)).
Proof.
  unfold Untyped.webhooks_post_circle.
  match goal with
  | |- grown _ _ _ (snd (match ?c w with _ => _ end)) =>
      assert (Hk : records paymentId [] c)
  end.
  { unfold signatureRejected, Untyped.read, Untyped.validated.
    repeat first
      [ apply untyped_processWebhookEvent_records | route_records_step ]. }
  apply (records_nothing_grown paymentId _ w) in Hk.
  match goal with
  | |- grown _ _ _ (snd (match ?c w with _ => _ end)) =>
      destruct (c w) as [[r | e] w']
  end; exact Hk.
Qed.

(** Marking a payment FAILED, rejected or not, leaves transactions and
    clock alone. *)
Lemma set_failed_frame (F : Faults) (site : CallSite) (paymentId : Id)
    (w : World) :
  transactions
    (snd (call F site
            (PaymentService.updatePaymentStatus paymentId
               PaymentStatus.FAILED) w))
  = transactions w
  /\ clock
       (snd (call F site
               (PaymentService.updatePaymentStatus paymentId
                  PaymentStatus.FAILED) w))
     = clock w.
Proof.
  unfold call. destruct (F site); [split; reflexivity |].
  unfold PaymentService.updatePaymentStatus.
  destruct (payment_update_frame paymentId
              (Payment.set_status PaymentStatus.FAILED) w)
    as (Htx & _ & _ & Hc & _).
  split; assumption.
Qed.

(** Whatever becomes of a detached flow, it has recorded transactions of
    its own payment only. *)
Lemma detachedFlow_grown (F : Faults) (rnd : Entropy) (paymentId : Id)
    (w : World) :
  exists types,
    grown paymentId types w
          (snd (PaymentService.detachedFlow F rnd paymentId w)).
Proof.
  unfold PaymentService.detachedFlow.
  change (PaymentService.processPaymentFlow F rnd paymentId)
    with (try_catch (flowSteps F rnd paymentId)
            (fun error =>
               call F CatchSetFailed
                 (PaymentService.updatePaymentStatus paymentId
                    PaymentStatus.FAILED) ;;
               throw error)).
  unfold try_catch.
  pose proof (flowSteps_records F rnd paymentId w) as Hrec.
  destruct (flowSteps F rnd paymentId w) as [[[] | e] w1].
  - exists pipelineTypes. exact Hrec.
  - destruct Hrec as (done & rest & _ & Hg). exists done.
    unfold bind, throw.
    destruct (set_failed_frame F CatchSetFailed paymentId w1)
      as [Htx1 Hc1].
    destruct (call F CatchSetFailed
                (PaymentService.updatePaymentStatus paymentId
                   PaymentStatus.FAILED) w1)
      as [[[] | e1] w2]; cbn [snd] in Htx1, Hc1 |- *;
      destruct (set_failed_frame F HandlerSetFailed paymentId w2)
        as [Htx2 Hc2];
      (apply (grown_frame paymentId done w w1); [exact Hg | |];
       congruence).
Qed.

Lemma payments_post_cases (uuid : string) (req : PaymentsRequest.t)
    (w : World) :
  snd (payments_post uuid req w) = w
  \/ exists key request v,
       activeVendor request w = Some v
       /\ snd (payments_post uuid req w) = initiated key request w.
Proof.
  unfold payments_post.
  destruct (PaymentsRequest.vendorId req); [| left; reflexivity].
  destruct (negb _ || negb _); [left; reflexivity |].
  destruct (provided _ && negb _); [left; reflexivity |].
  set (request := CreatePaymentRequest.mk i
                    (parseFloat (PaymentsRequest.amountSgd req))
                    (PaymentsRequest.customerReference req)
                    (PaymentsRequest.description req)).
  set (header := PaymentsRequest.idempotencyKeyHeader req).
  destruct (initiatePayment_cases uuid request header w)
    as [(existing & _ & H) | [(_ & H & _) | (_ & (v & Hv) & H)]].
  - rewrite H. left. reflexivity.
  - left.
    destruct (PaymentService.initiatePayment uuid request header w)
      as [[r | e] w']; exact H.
  - rewrite H. right. exists (PaymentService.effectiveKey header uuid),
      request, v. split; [exact Hv | reflexivity].
Qed.

(** An operation keeps every transaction and adds some only when it runs a
    flow that was waiting. *)
Lemma exec_grown (op : Op) (w : World) :
  exists paymentId types,
    grown paymentId types w (exec op w)
    /\ (types = [] \/ In paymentId w.(detached)).
Proof.
  destruct op as [name email bank | vid s | uuid req | F rnd pid
                  | secret req | client secret req | ms].
  - exists 0, []. split; [| left; reflexivity].
    apply grown_idle; [reflexivity | cbn; lia].
  - exists 0, []. split; [| left; reflexivity].
    apply grown_idle; [reflexivity | cbn; lia].
  - exists 0, []. split; [| left; reflexivity].
    cbn [exec].
    destruct (payments_post_cases uuid req w)
      as [-> | (key & request & v & _ & ->)];
      apply grown_idle; try reflexivity; cbn; lia.
  - cbn [exec].
    destruct (existsb (Nat.eqb pid) (detached w)) eqn:E.
    + apply existsb_eqb_In in E.
      destruct (detachedFlow_grown F rnd pid
                  (with_detached (remove_first pid (detached w)) w))
        as (types & Hg).
      exists pid, types. split; [exact Hg | right; exact E].
    + exists 0, []. split; [| left; reflexivity].
      apply grown_idle; [reflexivity | lia].
  - exists 0, []. split; [| left; reflexivity].
    cbn [exec]. apply route_grown.
  - exists 0, []. split; [| left; reflexivity].
    cbn [exec]. apply untyped_route_grown.
  - exists 0, []. split; [| left; reflexivity].
    apply grown_idle; [reflexivity | cbn; lia].
Qed.

(** ** Payment ids and waiting flows *)

Lemma staticIds_payment_update (ids waiting : list Id) (i : Id)
    (f : Payment.t -> Payment.t) :
  paymentIdentity f ->
  keeps (staticIds ids waiting) (prisma.payment.update i f).
Proof.
  intros Hf w [Hids Hdet]. unfold staticIds, paymentIds.
  unfold prisma.payment.update, bind, prisma.payment.find, now, gets,
    modify, throw.
  destruct (List.find _ (payments w)); cbn [snd]; [| split; assumption].
  cbn [payments detached with_payments].
  rewrite update_where_ids; [split; assumption |].
  intros p. destruct (Hf p) as (Hid & _). exact Hid.
Qed.

Lemma staticIds_unchanged (ids waiting : list Id) {A} (c : M A) :
  (forall w, payments (snd (c w)) = payments w
             /\ detached (snd (c w)) = detached w) ->
  keeps (staticIds ids waiting) c.
Proof.
  intros Hc w [Hids Hdet]. destruct (Hc w) as [Hp Hd].
  unfold staticIds, paymentIds. rewrite Hp, Hd. split; assumption.
Qed.

Lemma staticIds_transaction_update (ids waiting : list Id) (i : Id)
    (f : Transaction.t -> Transaction.t) :
  keeps (staticIds ids waiting) (prisma.transaction.update i f).
Proof.
  apply staticIds_unchanged. intros w.
  destruct (transaction_update_frame i f w) as (-> & _ & _ & _ & _ & ->).
  split; reflexivity.
Qed.

Lemma staticIds_event_update (ids waiting : list Id) (i : Id)
    (f : WebhookEvent.t -> WebhookEvent.t) :
  keeps (staticIds ids waiting) (prisma.webhookEvent.update i f).
Proof.
  apply staticIds_unchanged. intros w.
  unfold prisma.webhookEvent.update, bind, prisma.webhookEvent.find, gets,
    modify, throw.
  destruct (List.find _ (webhookEvents w)); split; reflexivity.
Qed.

Lemma staticIds_event_upsert (ids waiting : list Id)
    (eventId eventType : string) (body : Json.t) :
  keeps (staticIds ids waiting)
        (prisma.webhookEvent.upsert eventId eventType body).
Proof.
  apply staticIds_unchanged. intros w.
  unfold prisma.webhookEvent.upsert, bind, prisma.webhookEvent.find, gets,
    modify, freshId, ret.
  destruct (List.find _ (webhookEvents w)); split; reflexivity.
Qed.

Lemma staticIds_handlers (ids waiting : list Id) :
  HandlerClosed (staticIds ids waiting).
Proof.
  split.
  - intros i f Hf. apply staticIds_payment_update.
    apply paymentCosmetic_identity. exact Hf.
  - intros i f _. apply staticIds_transaction_update.
  - intros sel f _. apply staticIds_unchanged. intros w. split; reflexivity.
  - intros i f _. apply staticIds_event_update.
Qed.

Lemma staticIds_flow (ids waiting : list Id) :
  FlowClosed (staticIds ids waiting).
Proof.
  split.
  - intros i f Hf. apply staticIds_payment_update. exact Hf.
  - intros. apply staticIds_unchanged. intros w. split; reflexivity.
  - intros sel f _. apply staticIds_unchanged. intros w. split; reflexivity.
  - intros ms _. apply staticIds_unchanged. intros w. split; reflexivity.
Qed.

(** Payment ids are never lost, and a flow joins the waiting list only for
    the id the store hands out next. *)
Lemma exec_ids (op : Op) (w : World) :
  incl (paymentIds w) (paymentIds (exec op w))
  /\ (forall i, In i (detached (exec op w)) ->
                In i (detached w) \/ i = nextId w).
Proof.
  destruct op as [name email bank | vid s | uuid req | F rnd pid
                  | secret req | client secret req | ms].
  - cbn. split; [apply incl_refl | auto].
  - cbn. split; [apply incl_refl | auto].
  - cbn [exec].
    destruct (payments_post_cases uuid req w)
      as [-> | (key & request & v & _ & ->)];
      [split; [apply incl_refl | auto] |].
    unfold initiated, paymentIds.
    cbn [payments detached with_payments with_detached with_nextId].
    split.
    + rewrite map_app. apply incl_appl, incl_refl.
    + intros i Hi. apply in_app_or in Hi.
      destruct Hi as [Hi | [Hi | []]]; [left; exact Hi | right; auto].
  - cbn [exec].
    destruct (existsb (Nat.eqb pid) (detached w)) eqn:E;
      [| split; [apply incl_refl | auto]].
    destruct (detachedFlow_keeps _
                (staticIds_flow (paymentIds w)
                   (remove_first pid (detached w)))
                F rnd pid
                (with_detached (remove_first pid (detached w)) w))
      as [Hids Hdet]; [split; reflexivity |].
    rewrite Hids, Hdet. split; [apply incl_refl |].
    intros i Hi. left. eapply remove_first_incl. exact Hi.
  - cbn [exec].
    destruct (route_keeps (staticIds (paymentIds w) (detached w))
                (staticIds_handlers _ _)
                (staticIds_event_upsert _ _)
                (fun i d => staticIds_event_update _ _ i _)
                secret req w) as [Hids Hdet]; [split; reflexivity |].
    rewrite Hids, Hdet. split; [apply incl_refl | auto].
  - cbn [exec].
    destruct (untyped_route_keeps (staticIds (paymentIds w) (detached w))
                (staticIds_handlers _ _)
                (staticIds_event_upsert _ _)
                (fun i d => staticIds_event_update _ _ i _)
                client secret req w) as [Hids Hdet]; [split; reflexivity |].
    rewrite Hids, Hdet. split; [apply incl_refl | auto].
  - cbn. split; [apply incl_refl | auto].
Qed.

(** ** A settled payment keeps its transactions *)

Lemma same_table_filter (paymentId : Id) (l l' : list Transaction.t) :
  Forall2 sameTransaction l l' ->
  Forall2 sameTransaction
    (filter (prisma.transaction.by_paymentId paymentId) l)
    (filter (prisma.transaction.by_paymentId paymentId) l').
Proof.
  induction 1 as [| x y l l' Hxy _ IH]; [constructor |].
  assert (Hsame : prisma.transaction.by_paymentId paymentId y
                  = prisma.transaction.by_paymentId paymentId x).
  { unfold prisma.transaction.by_paymentId.
    destruct Hxy as (_ & -> & _). reflexivity. }
  cbn [filter]. rewrite Hsame.
  destruct (prisma.transaction.by_paymentId paymentId x); [| exact IH].
  constructor; [exact Hxy | exact IH].
Qed.

Lemma filter_other_owner (paymentId q : Id) (l : list Transaction.t) :
  q <> paymentId ->
  Forall (fun x => x.(Transaction.paymentId) = q) l ->
  filter (prisma.transaction.by_paymentId paymentId) l = [].
Proof.
  intros Hne. induction 1 as [| x l Hx _ IH]; [reflexivity |].
  assert (Hno : prisma.transaction.by_paymentId paymentId x = false).
  { unfold prisma.transaction.by_paymentId. rewrite Hx.
    apply Nat.eqb_neq. exact Hne. }
  cbn [filter]. rewrite Hno. exact IH.
Qed.

Lemma filter_own (paymentId : Id) (l : list Transaction.t) :
  Forall (fun x => x.(Transaction.paymentId) = paymentId) l ->
  filter (prisma.transaction.by_paymentId paymentId) l = l.
Proof.
  induction 1 as [| x l Hx _ IH]; [reflexivity |].
  assert (Hyes : prisma.transaction.by_paymentId paymentId x = true).
  { unfold prisma.transaction.by_paymentId. rewrite Hx.
    apply Nat.eqb_refl. }
  cbn [filter]. rewrite Hyes, IH. reflexivity.
Qed.

Lemma filter_no_owner (paymentId : Id) (l : list Transaction.t) :
  ~ In paymentId (map Transaction.paymentId l) ->
  filter (prisma.transaction.by_paymentId paymentId) l = [].
Proof.
  induction l as [| x l IH]; intros H; [reflexivity |].
  cbn [filter].
  destruct (prisma.transaction.by_paymentId paymentId x) eqn:E.
  - unfold prisma.transaction.by_paymentId in E. apply Nat.eqb_eq in E.
    exfalso. apply H. left. exact E.
  - apply IH. intros Hin. apply H. right. exact Hin.
Qed.

Lemma grown_owners (q : Id) (types : list TransactionType.t) (w w' : World) :
  grown q types w w' ->
  exists old extra,
    transactions w' = old ++ extra
    /\ Forall2 sameTransaction (transactions w) old
    /\ map Transaction.type extra = types
    /\ Forall (fun x => x.(Transaction.paymentId) = q) extra
    /\ StronglySorted Z.le (createdAts extra).
Proof.
  intros (old & extra & H1 & H2 & H3 & H4 & H5 & _).
  exists old, extra. repeat split; try assumption.
  eapply Forall_impl; [| exact H4]. cbv beta. intros x [Hx _]. exact Hx.
Qed.

(** Transactions added for another payment, or none added at all, leave the
    transactions of this payment as they were. *)
Lemma grown_ownedBy (paymentId q : Id) (types : list TransactionType.t)
    (w w' : World) :
  grown q types w w' ->
  types = [] \/ q <> paymentId ->
  Forall2 sameTransaction (ownedBy paymentId w) (ownedBy paymentId w').
Proof.
  intros Hg Hwhy.
  destruct (grown_owners q types w w' Hg)
    as (old & extra & Htx & Hsame & Hty & Hown & _).
  unfold ownedBy. rewrite Htx, filter_app.
  assert (Hnone : filter (prisma.transaction.by_paymentId paymentId) extra
                  = []).
  { destruct Hwhy as [-> | Hne].
    - destruct extra; [reflexivity | discriminate Hty].
    - eapply filter_other_owner; eassumption. }
  rewrite Hnone, app_nil_r. apply same_table_filter. exact Hsame.
Qed.

Lemma exec_settled (paymentId : Id) (rows : list Transaction.t) (op : Op)
    (w : World) :
  settled paymentId rows w -> settled paymentId rows (exec op w).
Proof.
  intros (Hinv & Hin & Hout & Hrows).
  destruct (exec_ids op w) as [Hids Hdet].
  split; [apply exec_invariant; exact Hinv |].
  split; [apply Hids; exact Hin |].
  split.
  - intros Hd. destruct (Hdet _ Hd) as [Hd' | Hd']; [contradiction |].
    pose proof (inv_payment_ids Hinv) as Hlt.
    rewrite Forall_forall in Hlt. specialize (Hlt _ Hin). lia.
  - destruct (exec_grown op w) as (q & types & Hg & Hwhy).
    eapply same_table_trans; [exact Hrows |].
    apply (grown_ownedBy paymentId q types w _ Hg).
    destruct Hwhy as [-> | Hq]; [left; reflexivity | right].
    intros ->. contradiction.
Qed.

Lemma run_settled (paymentId : Id) (rows : list Transaction.t)
    (ops : list Op) (w : World) :
  settled paymentId rows w -> settled paymentId rows (run ops w).
Proof.
  revert w. induction ops as [| op ops IH]; intros w H; [exact H |].
  cbn [run fold_left]. apply IH. apply exec_settled. exact H.
Qed.

Lemma vendor_found (i : Id) (w : World) :
  In i (vendorIds w) ->
  exists v, List.find (prisma.vendor.by_id i) w.(vendors) = Some v.
Proof.
  intros H. apply in_map_iff in H. destruct H as (v & Hid & Hin).
  apply (find_In_some (prisma.vendor.by_id i) _ v Hin).
  unfold prisma.vendor.by_id. rewrite Hid. apply Nat.eqb_refl.
Qed.

(** Reading a settled payment returns its transactions as they were
    recorded, when those were recorded in order of time. *)
Lemma getPaymentStatus_settled (paymentId : Id) (rows : list Transaction.t)
    (w : World) :
  settled paymentId rows w ->
  StronglySorted Z.le (createdAts rows) ->
  exists r,
    PaymentService.getPaymentStatus paymentId w = (Return r, w)
    /\ map TransactionSummary.type r.(PaymentStatusResponse.transactions)
       = map Transaction.type rows.
Proof.
  intros (Hinv & Hin & _ & Hrows) Hsorted.
  destruct (in_ids_found paymentId w Hin) as (p & Hp).
  destruct (found_in_ids paymentId w p Hp) as (_ & Hpin & _).
  pose proof (inv_vendors Hinv) as Hv. rewrite Forall_forall in Hv.
  destruct (vendor_found _ w (Hv p Hpin)) as (v & Hfound).
  destruct (getPaymentStatus_effect paymentId w p v Hp Hfound)
    as (r & Hrun & Htxs & _).
  exists r. split; [exact Hrun |].
  destruct (same_table_types _ _ Hrows) as (Hty & Hat & _).
  rewrite Htxs, orderByCreatedAt_of_sorted, summary_types; [exact Hty |].
  rewrite Hat. exact Hsorted.
Qed.

(** A flow that runs to its end leaves the payment settled on exactly the
    transactions it has appended: one of each pipeline type, in pipeline
    order and in order of time. *)
Lemma flow_settles (F : Faults) (rnd : Entropy) (paymentId : Id)
    (w w2 : World) :
  Invariant w -> In paymentId w.(detached) ->
  PaymentService.processPaymentFlow F rnd paymentId
    (with_detached (remove_first paymentId w.(detached)) w)
  = (Return tt, w2) ->
  ownedBy paymentId w = []
  /\ settled paymentId (ownedBy paymentId w2) w2
  /\ map Transaction.type (ownedBy paymentId w2) = pipelineTypes
  /\ StronglySorted Z.le (createdAts (ownedBy paymentId w2))
  /\ statusOf paymentId w2 = Some PaymentStatus.COMPLETED.
Proof.
  intros Hinv Hwait Hflow.
  apply processPaymentFlow_returns in Hflow.
  set (w0 := with_detached (remove_first paymentId (detached w)) w) in *.
  assert (Hnone : ownedBy paymentId w = []).
  { apply filter_no_owner.
    pose proof (inv_detached Hinv) as Hd. rewrite Forall_forall in Hd.
    destruct (Hd _ Hwait) as [_ Hno]. exact Hno. }
  pose proof (flowSteps_inflight F rnd paymentId w0
                (start_flow paymentId w Hinv Hwait)) as Hfl.
  pose proof (flowSteps_records F rnd paymentId w0) as Hrec.
  rewrite Hflow in Hfl, Hrec. cbn [snd] in Hfl.
  destruct (grown_owners _ _ _ _ Hrec)
    as (old & extra & Htx & Hsame & Hty & Hown & Hsorted).
  assert (Hold : filter (prisma.transaction.by_paymentId paymentId) old = []).
  { pose proof (same_table_filter paymentId _ _ Hsame) as Hf.
    change (transactions w0) with (transactions w) in Hf.
    fold (ownedBy paymentId w) in Hf. rewrite Hnone in Hf.
    inversion Hf. reflexivity. }
  assert (Hnew : ownedBy paymentId w2 = extra).
  { unfold ownedBy. rewrite Htx, filter_app, Hold. cbn [app].
    apply filter_own. exact Hown. }
  split; [exact Hnone |]. rewrite Hnew.
  split.
  { destruct Hfl as (Hinv2 & Hin2 & Hout2).
    split; [exact Hinv2 |]. split; [exact Hin2 |]. split; [exact Hout2 |].
    rewrite Hnew. apply same_table_refl. }
  split; [exact Hty |]. split; [exact Hsorted |].
  eapply flowSteps_completed. exact Hflow.
Qed.

(** C3. (1) The transactions [getPaymentStatus] returns are in
    non-decreasing order of creation time, for every payment and every
    state of the store. (2) When the pipeline of a payment that was waiting
    to be started runs to its end, the payment is COMPLETED, it had no
    transaction before, and its transactions now have the types PAYMENT_IN,
    EXCHANGE_SGD_TO_USDC, EXCHANGE_USDC_TO_USD, PAYOUT in that order of
    insertion; whatever requests, webhooks and other flows follow, these
    rows stay (only status and hash of a row may change) and
    [getPaymentStatus] returns exactly that type sequence. Rows created
    at the same clock reading are returned in order of insertion, as
    [orderByCreatedAt] has it. *)
Theorem C3_transaction_order :
  (forall (paymentId : Id) (w w' : World) (r : PaymentStatusResponse.t),
      PaymentService.getPaymentStatus paymentId w = (Return r, w') ->
      StronglySorted Z.le
        (map TransactionSummary.createdAt
             r.(PaymentStatusResponse.transactions)))
  /\ (forall (w : World) (paymentId : Id) (F : Faults) (rnd : Entropy)
             (w2 : World),
         reachable w ->
         In paymentId w.(detached) ->
         PaymentService.processPaymentFlow F rnd paymentId
           (with_detached (remove_first paymentId w.(detached)) w)
         = (Return tt, w2) ->
         statusOf paymentId w2 = Some PaymentStatus.COMPLETED
         /\ ownedBy paymentId w = []
         /\ map Transaction.type (ownedBy paymentId w2) = pipelineTypes
         /\ forall ops : list Op,
              Forall2 sameTransaction (ownedBy paymentId w2)
                      (ownedBy paymentId (run ops w2))
              /\ exists r,
                   PaymentService.getPaymentStatus paymentId (run ops w2)
                   = (Return r, run ops w2)
                   /\ map TransactionSummary.type
                          r.(PaymentStatusResponse.transactions)
                      = pipelineTypes).
Proof.
  split; [exact getPaymentStatus_sorted |].
  intros w paymentId F rnd w2 Hreach Hwait Hflow.
  destruct (flow_settles F rnd paymentId w w2
              (reachable_invariant w Hreach) Hwait Hflow)
    as (Hnone & Hsettled & Hty & Hsorted & Hstatus).
  split; [exact Hstatus |]. split; [exact Hnone |]. split; [exact Hty |].
  intros ops.
  pose proof (run_settled paymentId _ ops w2 Hsettled) as Hlater.
  split; [destruct Hlater as (_ & _ & _ & Hrows); exact Hrows |].
  destruct (getPaymentStatus_settled paymentId _ _ Hlater Hsorted)
    as (r & Hrun & Htypes).
  exists r. split; [exact Hrun |]. rewrite Htypes. exact Hty.
Qed.

Lemma initiatedWorld_reachable : reachable initiatedWorld.
Proof.
  unfold initiatedWorld. apply reachable_run. exact exampleWorld_reachable.
Qed.

Lemma C3_transaction_order_witness :
  exists w2 r,
    PaymentService.processPaymentFlow noFaults exampleEntropy 1
      (with_detached (remove_first 1 initiatedWorld.(detached))
                     initiatedWorld)
    = (Return tt, w2)
    /\ PaymentService.getPaymentStatus 1 w2 = (Return r, w2)
    /\ map TransactionSummary.type r.(PaymentStatusResponse.transactions)
       = pipelineTypes
    /\ StronglySorted Z.le
         (map TransactionSummary.createdAt
              r.(PaymentStatusResponse.transactions)).
Proof.
  assert (Hflow : exists w2,
             PaymentService.processPaymentFlow noFaults exampleEntropy 1
               (with_detached (remove_first 1 initiatedWorld.(detached))
                              initiatedWorld)
             = (Return tt, w2)).
  { eexists. compute_lhs. }
  destruct Hflow as (w2 & Hflow).
  assert (Hwaiting : detached initiatedWorld = [1]) by compute_lhs.
  assert (Hwait : In 1 (detached initiatedWorld)).
  { rewrite Hwaiting. left. reflexivity. }
  destruct C3_transaction_order as [Hordered Hsequence].
  destruct (Hsequence initiatedWorld 1 noFaults exampleEntropy w2
              initiatedWorld_reachable Hwait Hflow)
    as (_ & _ & _ & Hlater).
  destruct (Hlater []) as (_ & r & Hrun & Htypes).
  cbn [run fold_left] in Hrun.
  exists w2, r. split; [exact Hflow |]. split; [exact Hrun |].
  split; [exact Htypes |].
  exact (Hordered 1 w2 w2 r Hrun).
Defined.

(* ================================================================== *)
(** * Idempotent initiation                                             *)
(* ================================================================== *)

Lemma remembers_payment_update (r : CreatePaymentResponse.t) (i : Id)
    (f : Payment.t -> Payment.t) :
  paymentIdentity f -> keeps (remembers r) (prisma.payment.update i f).
Proof.
  intros Hf w (p & Hp & Hid & Hsgd & Htime & Hkey).
  unfold remembers, paymentByKey in *.
  unfold prisma.payment.update, bind, prisma.payment.find, now, gets,
    modify, throw.
  destruct (List.find (prisma.payment.by_id i) (payments w)); cbn [snd];
    [| exists p; repeat split; assumption].
  cbn [payments with_payments].
  rewrite find_update_where.
  - rewrite Hp. cbn [option_map].
    destruct (prisma.payment.by_id i p);
      [| exists p; repeat split; assumption].
    destruct (Hf p) as (G1 & G2 & _ & G4 & _ & G6 & _).
    eexists. split; [reflexivity |].
    cbn. rewrite G1, G2, G4, G6. repeat split; assumption.
  - intros x. unfold prisma.payment.by_key. cbn.
    destruct (Hf x) as (_ & -> & _). reflexivity.
Qed.

Lemma remembers_unchanged (r : CreatePaymentResponse.t) {A} (c : M A) :
  (forall w, payments (snd (c w)) = payments w) ->
  keeps (remembers r) c.
Proof.
  intros Hc w H. unfold remembers, paymentByKey in *. rewrite Hc. exact H.
Qed.

Lemma remembers_event_update (r : CreatePaymentResponse.t) (i : Id)
    (f : WebhookEvent.t -> WebhookEvent.t) :
  keeps (remembers r) (prisma.webhookEvent.update i f).
Proof.
  apply remembers_unchanged. intros w.
  unfold prisma.webhookEvent.update, bind, prisma.webhookEvent.find, gets,
    modify, throw.
  destruct (List.find _ (webhookEvents w)); reflexivity.
Qed.

Lemma remembers_handlers (r : CreatePaymentResponse.t) :
  HandlerClosed (remembers r).
Proof.
  split.
  - intros i f Hf. apply remembers_payment_update.
    apply paymentCosmetic_identity. exact Hf.
  - intros i f _. apply remembers_unchanged. intros w.
    destruct (transaction_update_frame i f w) as (-> & _). reflexivity.
  - intros sel f _. apply remembers_unchanged. intros w. reflexivity.
  - intros i f _. apply remembers_event_update.
Qed.

Lemma remembers_flow (r : CreatePaymentResponse.t) :
  FlowClosed (remembers r).
Proof.
  split.
  - intros i f Hf. apply remembers_payment_update. exact Hf.
  - intros. apply remembers_unchanged. intros w. reflexivity.
  - intros sel f _. apply remembers_unchanged. intros w. reflexivity.
  - intros ms _. apply remembers_unchanged. intros w. reflexivity.
Qed.

Lemma remembers_event_upsert (r : CreatePaymentResponse.t)
    (eventId eventType : string) (body : Json.t) :
  keeps (remembers r) (prisma.webhookEvent.upsert eventId eventType body).
Proof.
  apply remembers_unchanged. intros w.
  unfold prisma.webhookEvent.upsert, bind, prisma.webhookEvent.find, gets,
    modify, freshId, ret.
  destruct (List.find _ (webhookEvents w)); reflexivity.
Qed.

(** No operation of the system makes the store forget a payment. *)
Lemma exec_remembers (r : CreatePaymentResponse.t) (op : Op) (w : World) :
  remembers r w -> remembers r (exec op w).
Proof.
  intros H.
  destruct op as [name email bank | vid s | uuid req | F rnd pid
                  | secret req | client secret req | ms].
  - exact H.
  - exact H.
  - cbn [exec].
    destruct (payments_post_cases uuid req w)
      as [-> | (key & request & v & _ & ->)]; [exact H |].
    destruct H as (p & Hp & Hrest). exists p. split; [| exact Hrest].
    unfold paymentByKey, initiated in *.
    cbn [payments with_payments with_detached with_nextId].
    apply find_app_some. exact Hp.
  - cbn [exec].
    destruct (existsb (Nat.eqb pid) (detached w)); [| exact H].
    apply (detachedFlow_keeps _ (remembers_flow r)). exact H.
  - cbn [exec].
    apply (route_keeps (remembers r) (remembers_handlers r)
             (remembers_event_upsert r)); [| exact H].
    intros i d. apply remembers_event_update.
  - cbn [exec].
    apply (untyped_route_keeps (remembers r) (remembers_handlers r)
             (remembers_event_upsert r)); [| exact H].
    intros i d. apply remembers_event_update.
  - exact H.
Qed.

Lemma run_remembers (r : CreatePaymentResponse.t) (ops : list Op)
    (w : World) :
  remembers r w -> remembers r (run ops w).
Proof.
  revert w. induction ops as [| op ops IH]; intros w H; [exact H |].
  cbn [run fold_left]. apply IH. apply exec_remembers. exact H.
Qed.

(** A call that answers leaves, under the key of its answer, the payment it
    has answered with. *)
Lemma initiatePayment_stores (uuid : string)
    (request : CreatePaymentRequest.t) (header : option string)
    (w w1 : World) (r : CreatePaymentResponse.t) :
  PaymentService.initiatePayment uuid request header w = (Return r, w1) ->
  exists p,
    paymentByKey r.(CreatePaymentResponse.idempotencyKey) w1 = Some p
    /\ PaymentService.respond p = r
    /\ In p (payments w1).
Proof.
  intros Hcall.
  destruct (initiatePayment_cases uuid request header w)
    as [(existing & Hfound & Hrun) | [(_ & _ & e & He) | (Hfresh & _ & Hrun)]].
  - rewrite Hrun in Hcall. injection Hcall as <- <-.
    exists existing.
    pose proof (find_some _ _ Hfound) as [Hin Hkey].
    apply String.eqb_eq in Hkey.
    cbn [PaymentService.respond CreatePaymentResponse.idempotencyKey].
    unfold paymentByKey. rewrite Hkey. repeat split; assumption.
  - rewrite Hcall in He. discriminate He.
  - rewrite Hrun in Hcall. injection Hcall as <- <-.
    eexists.
    cbn [PaymentService.respond CreatePaymentResponse.idempotencyKey].
    unfold paymentByKey, initiated.
    cbn [payments with_payments with_detached with_nextId].
    split; [| split; [reflexivity | apply in_or_app; right; left;
                                    reflexivity]].
    rewrite find_app_none by exact Hfresh.
    cbn [List.find newPayment Payment.idempotencyKey].
    unfold prisma.payment.by_key.
    cbn [newPayment Payment.idempotencyKey].
    rewrite String.eqb_refl. reflexivity.
Qed.

(** C1. Let a first call of [initiatePayment] answer with [r1]. A later
    call whose idempotency key is the key of [r1] -- whatever its request
    says, and whatever requests, flows and webhooks the system has served in
    between -- answers with the payment stored under that key and leaves
    the store as it is: no payment row, no waiting flow and no transaction
    is added. The answer [r2] shows the stored row field by field: its
    payment id, its current status, its SGD amount, its USD amount, its
    expected settlement time and its key; nothing in it comes from the
    second request or from the rates. Payment id, SGD amount, expected
    settlement time and key are those of [r1]; the USD amount equals that
    of [r1] as a number (in a reachable store). Called right after the
    first call, the second call answers [r1] itself. *)
Theorem C1_idempotent_initiate
    (uuid1 uuid2 : string) (request1 request2 : CreatePaymentRequest.t)
    (header1 header2 : option string) (w w1 : World)
    (r1 : CreatePaymentResponse.t) (ops : list Op) :
  PaymentService.initiatePayment uuid1 request1 header1 w = (Return r1, w1) ->
  PaymentService.effectiveKey header2 uuid2
  = r1.(CreatePaymentResponse.idempotencyKey) ->
  let w2 := run ops w1 in
  exists existing r2,
    paymentByKey r1.(CreatePaymentResponse.idempotencyKey) w2 = Some existing
    /\ PaymentService.initiatePayment uuid2 request2 header2 w2
       = (Return r2, w2)
    /\ r2.(CreatePaymentResponse.paymentId) = existing.(Payment.id)
    /\ r2.(CreatePaymentResponse.status) = existing.(Payment.status)
    /\ r2.(CreatePaymentResponse.amountSgd) = existing.(Payment.amountSgd)
    /\ r2.(CreatePaymentResponse.estimatedAmountUsd)
       = existing.(Payment.amountUsd)
    /\ r2.(CreatePaymentResponse.expectedSettlementTime)
       = existing.(Payment.expectedSettlementTime)
    /\ r2.(CreatePaymentResponse.idempotencyKey)
       = existing.(Payment.idempotencyKey)
    /\ r2.(CreatePaymentResponse.paymentId)
       = r1.(CreatePaymentResponse.paymentId)
    /\ r2.(CreatePaymentResponse.amountSgd)
       = r1.(CreatePaymentResponse.amountSgd)
    /\ r2.(CreatePaymentResponse.expectedSettlementTime)
       = r1.(CreatePaymentResponse.expectedSettlementTime)
    /\ r2.(CreatePaymentResponse.idempotencyKey)
       = r1.(CreatePaymentResponse.idempotencyKey)
    /\ (ops = [] -> r2 = r1)
    /\ (reachable w ->
        exists u1 u2,
          r1.(CreatePaymentResponse.estimatedAmountUsd) = Some u1
          /\ r2.(CreatePaymentResponse.estimatedAmountUsd) = Some u2
          /\ (u1 == u2)%Q).
Proof.
  intros Hcall Hkey w2.
  destruct (initiatePayment_stores _ _ _ _ _ _ Hcall)
    as (p1 & Hp1 & Hresp & Hin1).
  assert (Hmem : remembers r1 w1).
  { exists p1. split; [exact Hp1 |]. rewrite <- Hresp. repeat split. }
  destruct (run_remembers r1 ops w1 Hmem)
    as (existing & Hfound & Hid & Hsgd & Htime & Hsame).
  exists existing, (PaymentService.respond existing).
  split; [exact Hfound |].
  split.
  { apply initiatePayment_existing. rewrite Hkey. exact Hfound. }
  do 6 (split; [reflexivity |]).
  cbn [PaymentService.respond CreatePaymentResponse.paymentId
       CreatePaymentResponse.amountSgd
       CreatePaymentResponse.expectedSettlementTime
       CreatePaymentResponse.idempotencyKey
       CreatePaymentResponse.estimatedAmountUsd].
  repeat (split; [assumption |]).
  split.
  - intros ->. subst w2. cbn [run fold_left] in Hfound.
    rewrite Hp1 in Hfound. injection Hfound as <-. exact Hresp.
  - intros Hreach.
    pose proof (reachable_invariant w Hreach) as Hinv.
    pose proof (initiatePayment_invariant uuid1 request1 header1 w Hinv)
      as Hinv1.
    rewrite Hcall in Hinv1. cbn [snd] in Hinv1.
    pose proof (run_invariant ops w1 Hinv1) as Hinv2.
    pose proof (inv_usd Hinv1) as Husd1. rewrite Forall_forall in Husd1.
    pose proof (inv_usd Hinv2) as Husd2. rewrite Forall_forall in Husd2.
    destruct (Husd1 p1 Hin1) as (u1 & Hu1 & Heq1).
    destruct (find_some _ _ Hfound) as [Hin2 _].
    destruct (Husd2 existing Hin2) as (u2 & Hu2 & Heq2).
    assert (Hsgd' : existing.(Payment.amountSgd) = p1.(Payment.amountSgd)).
    { rewrite Hsgd, <- Hresp. reflexivity. }
    exists u1, u2. rewrite <- Hresp.
    cbn [PaymentService.respond CreatePaymentResponse.estimatedAmountUsd].
    split; [exact Hu1 |]. split; [exact Hu2 |].
    rewrite Hsgd' in Heq2.
    destruct Heq1 as [-> | ->]; destruct Heq2 as [-> | ->];
      first [ apply Qeq_refl
            | apply usd_forms_agree
            | apply Qeq_sym, usd_forms_agree ].
Qed.

Lemma C1_idempotent_initiate_witness :
  let first := CreatePaymentRequest.mk 0 1000 (Some "INV-2024-001") None in
  let second := CreatePaymentRequest.mk 0 5 None (Some "retry") in
  let between := [OpFlow noFaults exampleEntropy 1; OpTick 60000] in
  exists r1 w1 r2,
    PaymentService.initiatePayment "7d444840-9dc0-41d3-b6f1-7b1f1d4c6c1a"
      first (Some exampleKey) exampleWorld = (Return r1, w1)
    /\ PaymentService.initiatePayment "0b5a4c2e-1f7d-4e0a-9c3b-5d2e8f6a1b47"
         second (Some exampleKey) (run between w1)
       = (Return r2, run between w1)
    /\ r2.(CreatePaymentResponse.paymentId)
       = r1.(CreatePaymentResponse.paymentId)
    /\ r2.(CreatePaymentResponse.amountSgd) = 1000%Q
    /\ r1.(CreatePaymentResponse.status) = PaymentStatus.PENDING
    /\ r2.(CreatePaymentResponse.status) = PaymentStatus.COMPLETED.
Proof.
  intros first second between.
  assert (Hcall : exists r1 w1,
             PaymentService.initiatePayment
               "7d444840-9dc0-41d3-b6f1-7b1f1d4c6c1a" first (Some exampleKey)
               exampleWorld = (Return r1, w1)
             /\ r1.(CreatePaymentResponse.idempotencyKey) = exampleKey
             /\ r1.(CreatePaymentResponse.amountSgd) = 1000%Q
             /\ r1.(CreatePaymentResponse.status) = PaymentStatus.PENDING
             /\ option_map Payment.status
                  (paymentByKey exampleKey (run between w1))
                = Some PaymentStatus.COMPLETED).
  { eexists. eexists. split; [compute_lhs |].
    split; [compute_lhs |]. split; [compute_lhs |]. split; compute_lhs. }
  destruct Hcall as (r1 & w1 & Hcall & Hkey & Hamount & Hpending & Hstatus).
  assert (Hsame : PaymentService.effectiveKey (Some exampleKey)
                    "0b5a4c2e-1f7d-4e0a-9c3b-5d2e8f6a1b47"
                  = r1.(CreatePaymentResponse.idempotencyKey)).
  { rewrite Hkey. compute_lhs. }
  destruct (C1_idempotent_initiate
              "7d444840-9dc0-41d3-b6f1-7b1f1d4c6c1a"
              "0b5a4c2e-1f7d-4e0a-9c3b-5d2e8f6a1b47"
              first second (Some exampleKey) (Some exampleKey)
              exampleWorld w1 r1 between Hcall Hsame)
    as (existing & r2 & Hfound & Hrun & _ & Hst & _ & _ & _ & _ & Hid
        & Hsgd & _).
  exists r1, w1, r2. split; [exact Hcall |]. split; [exact Hrun |].
  split; [exact Hid |]. split; [rewrite Hsgd; exact Hamount |].
  split; [exact Hpending |].
  rewrite Hkey in Hfound. rewrite Hfound in Hstatus.
  cbn [option_map] in Hstatus. injection Hstatus as Hstatus.
  rewrite Hst. exact Hstatus.
Defined.

(* ================================================================== *)
(** * utils/validation.ts: what the patterns accept                     *)
(* ================================================================== *)

Section QuantifiedClasses.

Lemma append_nil_inv (a b : string) : a +++ b = "" -> a = "" /\ b = "".
Proof. destruct a; [intros H; split; [reflexivity | exact H] |]. discriminate. Qed.

Lemma append_length (a b : string) :
  String.length (a +++ b) = String.length a + String.length b.
Proof. induction a as [| c a IH]; cbn; [reflexivity | rewrite IH; reflexivity]. Qed.

Lemma append_empty_r (a : string) : a +++ "" = a.
Proof. induction a as [| c a IH]; cbn; [reflexivity | rewrite IH; reflexivity]. Qed.

Lemma append_assoc (a b c : string) : (a +++ b) +++ c = a +++ (b +++ c).
Proof. induction a as [| x a IH]; cbn; [reflexivity | rewrite IH; reflexivity]. Qed.

(** A quantified class accepts a string exactly when the string splits into
    a run of the class, of an allowed length, and a rest the remaining
    pattern accepts. *)
Lemma repeat_spec (class : ascii -> bool) (k : string -> bool) (s : string) :
  forall least most,
    RegExp.repeat class least most k s = true
    <-> exists pre post,
          s = pre +++ post
          /\ allOf class pre = true
          /\ least <= String.length pre
          /\ within most (String.length pre)
          /\ k post = true.
Proof.
  induction s as [| c rest IH]; intros least most.
  - cbn [RegExp.repeat]. rewrite andb_true_iff, Nat.eqb_eq. split.
    + intros [-> Hk]. exists "", "". cbn.
      repeat split; [lia | destruct most; cbn; [lia | exact I] | exact Hk].
    + intros (pre & post & Hs & _ & Hleast & _ & Hk).
      symmetry in Hs. apply append_nil_inv in Hs. destruct Hs as [-> ->].
      cbn in Hleast. split; [lia | exact Hk].
  - cbn [RegExp.repeat]. split.
    + intros H.
      assert (Hcases :
                (exists most', RegExp.spend most = Some most'
                               /\ class c = true
                               /\ RegExp.repeat class (pred least) most' k
                                                rest = true)
                \/ (least = 0 /\ k (String c rest) = true)).
      { destruct (RegExp.spend most) as [most' |].
        - apply orb_true_iff in H. destruct H as [H | H].
          + apply andb_true_iff in H. left. exists most'. tauto.
          + apply andb_true_iff in H. rewrite Nat.eqb_eq in H. right. exact H.
        - apply andb_true_iff in H. rewrite Nat.eqb_eq in H. right. exact H. }
      destruct Hcases as [(most' & Hspend & Hc & Hrun) | [-> Hk]].
      * apply IH in Hrun.
        destruct Hrun as (pre & post & -> & Hall & Hleast & Hmost & Hk).
        exists (String c pre), post. cbn [String.append allOf String.length].
        rewrite Hc, Hall. repeat split; [lia | | exact Hk].
        destruct most as [[| m] |]; cbn in Hspend; try discriminate;
          injection Hspend as <-; cbn in *; [lia | exact I].
      * exists "", (String c rest). cbn.
        repeat split; [lia | destruct most; cbn; [lia | exact I] | exact Hk].
    + intros (pre & post & Hs & Hall & Hleast & Hmost & Hk).
      destruct pre as [| c' pre].
      * cbn in Hs, Hleast. subst post.
        assert (Hstop : (least =? 0) && k (String c rest) = true).
        { apply andb_true_iff. rewrite Nat.eqb_eq. split; [lia | exact Hk]. }
        destruct (RegExp.spend most); [| exact Hstop].
        rewrite Hstop. apply orb_true_r.
      * cbn [String.append] in Hs. injection Hs as <- ->.
        cbn [allOf] in Hall. apply andb_true_iff in Hall.
        destruct Hall as [Hc Hall]. cbn [String.length] in Hleast, Hmost.
        assert (Hspend : exists most',
                   RegExp.spend most = Some most'
                   /\ within most' (String.length pre)).
        { destruct most as [[| m] |]; cbn in Hmost |- *;
            [lia | exists (Some m); split; [reflexivity | cbn; lia]
            | exists None; split; [reflexivity | exact I]]. }
        destruct Hspend as (most' & -> & Hmost').
        rewrite Hc. cbn [andb].
        apply orb_true_iff. left. apply IH.
        exists pre, post. repeat split; [exact Hall | lia | exact Hmost'
                                         | exact Hk].
Qed.

Lemma allOf_append (class : ascii -> bool) (a b : string) :
  allOf class (a +++ b) = allOf class a && allOf class b.
Proof.
  induction a as [| c a IH]; cbn; [reflexivity |].
  rewrite IH, andb_assoc. reflexivity.
Qed.

(** A run of exactly one character of the class [c] is the string [c]. *)
Lemma single_char (c : ascii) (s : string) :
  allOf (Ascii.eqb c) s = true -> 1 <= String.length s ->
  String.length s <= 1 -> s = String c "".
Proof.
  destruct s as [| d [| e s]]; cbn; intros Hall H1 H2; try lia.
  rewrite andb_true_r in Hall. apply Ascii.eqb_eq in Hall. subst d.
  reflexivity.
Qed.

Lemma nonempty_length (s : string) : s <> "" <-> 1 <= String.length s.
Proof.
  destruct s; cbn; split; intros H; try congruence; lia.
Qed.

End QuantifiedClasses.

(** X1. [validateEmail] accepts exactly the strings of the form
    [local@domain.tail] in which the three parts are not empty and hold
    neither white space nor a further [@] (dots are allowed in each part). *)
Theorem validateEmail_accepts (email : string) :
  validateEmail email = true
  <-> exists local domain tail,
        email = local +++ "@" +++ domain +++ "." +++ tail
        /\ local <> "" /\ domain <> "" /\ tail <> ""
        /\ allOf notSpaceOrAt local = true
        /\ allOf notSpaceOrAt domain = true
        /\ allOf notSpaceOrAt tail = true.
Proof.
  unfold validateEmail, emailRegex.
  cbn [RegExp.test RegExp.oneOrMore RegExp.one RegExp.class RegExp.least
       RegExp.most].
  split.
  - intros H.
    apply repeat_spec in H.
    destruct H as (local & r1 & -> & Hl & Hl1 & _ & H).
    apply repeat_spec in H.
    destruct H as (at_ & r2 & -> & Ha & Ha1 & Ha2 & H).
    apply repeat_spec in H.
    destruct H as (domain & r3 & -> & Hd & Hd1 & _ & H).
    apply repeat_spec in H.
    destruct H as (dot & r4 & -> & Ho & Ho1 & Ho2 & H).
    apply repeat_spec in H.
    destruct H as (tail & r5 & -> & Ht & Ht1 & _ & H).
    apply String.eqb_eq in H. subst r5.
    rewrite (single_char _ _ Ha Ha1 Ha2), (single_char _ _ Ho Ho1 Ho2).
    rewrite append_empty_r.
    exists local, domain, tail.
    rewrite !nonempty_length. cbn [String.append].
    repeat split; assumption.
  - intros (local & domain & tail & -> & Hl1 & Hd1 & Ht1 & Hl & Hd & Ht).
    rewrite nonempty_length in Hl1, Hd1, Ht1.
    apply repeat_spec. exists local, ("@" +++ domain +++ "." +++ tail).
    repeat split; [exact Hl | exact Hl1 |].
    apply repeat_spec. exists "@", (domain +++ "." +++ tail).
    repeat split; [cbn; lia | cbn; lia |].
    apply repeat_spec. exists domain, ("." +++ tail).
    repeat split; [exact Hd | exact Hd1 |].
    apply repeat_spec. exists ".", tail.
    repeat split; [cbn; lia | cbn; lia |].
    apply repeat_spec. exists tail, "".
    rewrite append_empty_r. repeat split; [exact Ht | exact Ht1].
Qed.

(** X2. [validateBankAccount] accepts exactly an account number of 8 to 17
    decimal digits together with a routing number of 9 decimal digits. *)
Theorem validateBankAccount_accepts (accountNumber routingNumber : string) :
  validateBankAccount accountNumber routingNumber = true
  <-> (allOf isDigit accountNumber = true
       /\ 8 <= String.length accountNumber <= 17)
      /\ (allOf isDigit routingNumber = true
          /\ String.length routingNumber = 9).
Proof.
  unfold validateBankAccount, accountRegex, routingRegex.
  cbn [RegExp.test RegExp.between RegExp.class RegExp.least RegExp.most].
  rewrite andb_true_iff, !repeat_spec.
  split.
  - intros [(a & r & -> & Ha & Ha1 & Ha2 & H)
            (b & r' & -> & Hb & Hb1 & Hb2 & H')].
    apply String.eqb_eq in H, H'. subst r r'. rewrite !append_empty_r.
    cbn [within] in Ha2, Hb2. repeat split; try assumption; lia.
  - intros [(Ha & Ha1 & Ha2) (Hb & Hb1)]. split.
    + exists accountNumber, "". rewrite append_empty_r.
      repeat split; assumption.
    + exists routingNumber, "". rewrite append_empty_r.
      repeat split; try assumption; cbn; lia.
Qed.

Section Sanitizing.

Lemma removeAll_allOf (class : ascii -> bool) (s : string) :
  allOf (fun c => negb (class c)) (removeAll class s) = true.
Proof.
  induction s as [| c s IH]; [reflexivity |].
  cbn [removeAll]. destruct (class c) eqn:E; [exact IH |].
  cbn [allOf]. rewrite E, IH. reflexivity.
Qed.

Lemma removeAll_length (class : ascii -> bool) (s : string) :
  String.length (removeAll class s) <= String.length s.
Proof.
  induction s as [| c s IH]; [cbn; lia |].
  cbn [removeAll]. destruct (class c); cbn [String.length]; lia.
Qed.

Lemma removeAll_same_length (class : ascii -> bool) (s : string) :
  String.length (removeAll class s) = String.length s ->
  removeAll class s = s.
Proof.
  induction s as [| c s IH]; [reflexivity |].
  cbn [removeAll]. pose proof (removeAll_length class s) as Hle.
  destruct (class c); cbn [String.length]; intros H; [lia |].
  rewrite IH by lia. reflexivity.
Qed.

Lemma removeAll_none (class : ascii -> bool) (s : string) :
  allOf (fun c => negb (class c)) s = true -> removeAll class s = s.
Proof.
  induction s as [| c s IH]; [reflexivity |].
  cbn [allOf removeAll]. intros H. apply andb_true_iff in H.
  destruct H as [Hc Hs]. apply negb_true_iff in Hc. rewrite Hc, (IH Hs).
  reflexivity.
Qed.

Lemma trimStart_length (s : string) :
  String.length (trimStart s) <= String.length s.
Proof.
  induction s as [| c s IH]; [cbn; lia |].
  cbn [trimStart]. destruct (isWhiteSpace c); cbn [String.length]; lia.
Qed.

Lemma trimStart_same_length (s : string) :
  String.length (trimStart s) = String.length s -> trimStart s = s.
Proof.
  destruct s as [| c s]; [reflexivity |].
  cbn [trimStart]. pose proof (trimStart_length s) as Hle.
  destruct (isWhiteSpace c); cbn [String.length]; intros H; [lia |].
  reflexivity.
Qed.

Lemma trimStart_first (s : string) (c : ascii) :
  firstChar (trimStart s) = Some c -> isWhiteSpace c = false.
Proof.
  induction s as [| d s IH]; [discriminate |].
  cbn [trimStart]. destruct (isWhiteSpace d) eqn:E; [exact IH |].
  unfold firstChar. cbn. intros H. injection H as <-. exact E.
Qed.

Lemma trimEnd_length (s : string) :
  String.length (trimEnd s) <= String.length s.
Proof.
  induction s as [| c s IH]; [cbn; lia |].
  cbn [trimEnd]. destruct (trimEnd s);
    [destruct (isWhiteSpace c) |]; cbn [String.length] in *; lia.
Qed.

Lemma trimEnd_same_length (s : string) :
  String.length (trimEnd s) = String.length s -> trimEnd s = s.
Proof.
  induction s as [| c s IH]; [reflexivity |].
  cbn [trimEnd]. pose proof (trimEnd_length s) as Hle.
  destruct (trimEnd s) as [| d kept] eqn:E.
  - destruct (isWhiteSpace c); cbn [String.length] in *; intros H; [lia |].
    destruct s; [reflexivity | cbn [String.length] in H; lia].
  - cbn [String.length] in *. intros H. rewrite IH by lia. reflexivity.
Qed.

Lemma lastChar_cons (c d : ascii) (s : string) :
  lastChar (String c (String d s)) = lastChar (String d s).
Proof. reflexivity. Qed.

Lemma trimEnd_last (s : string) (c : ascii) :
  lastChar (trimEnd s) = Some c -> isWhiteSpace c = false.
Proof.
  induction s as [| d s IH]; [discriminate |].
  cbn [trimEnd]. destruct (trimEnd s) as [| e kept] eqn:E.
  - destruct (isWhiteSpace d) eqn:Hd; [discriminate |].
    unfold lastChar. cbn. intros H. injection H as <-. exact Hd.
  - rewrite lastChar_cons. exact IH.
Qed.

Lemma trimEnd_first (s : string) (c : ascii) :
  firstChar (trimEnd s) = Some c -> firstChar s = Some c.
Proof.
  destruct s as [| d s]; [discriminate |].
  cbn [trimEnd]. destruct (trimEnd s);
    [destruct (isWhiteSpace d); [discriminate |] |]; exact (fun H => H).
Qed.

(** What [trim] returns neither begins nor ends with white space. *)
Lemma trim_trimmed (s : string) : trimmed (trim s).
Proof.
  unfold trim. split; intros c H.
  - apply trimEnd_first in H. eapply trimStart_first. exact H.
  - eapply trimEnd_last. exact H.
Qed.

Lemma trim_length (s : string) : String.length (trim s) <= String.length s.
Proof.
  unfold trim. pose proof (trimEnd_length (trimStart s)).
  pose proof (trimStart_length s). lia.
Qed.

Lemma trim_same_length (s : string) :
  String.length (trim s) = String.length s -> trim s = s.
Proof.
  unfold trim. intros H.
  pose proof (trimEnd_length (trimStart s)) as H1.
  pose proof (trimStart_length s) as H2.
  rewrite trimEnd_same_length by lia. apply trimStart_same_length. lia.
Qed.

Lemma trim_of_trimmed (s : string) : trimmed s -> trim s = s.
Proof.
  intros [Hfirst Hlast]. unfold trim.
  assert (Hstart : trimStart s = s).
  { destruct s as [| c s]; [reflexivity |]. cbn [trimStart].
    rewrite (Hfirst c); reflexivity. }
  rewrite Hstart. clear Hstart Hfirst.
  induction s as [| c s IH]; [reflexivity |].
  cbn [trimEnd]. destruct s as [| d s].
  - cbn [trimEnd]. rewrite (Hlast c); reflexivity.
  - rewrite IH; [reflexivity |].
    intros e He. apply Hlast. rewrite lastChar_cons. exact He.
Qed.

End Sanitizing.

(** X3. What [sanitizeString] returns holds neither [<] nor [>], and is no
    longer than its argument. *)
Theorem sanitizeString_strips (input : string) :
  allOf (fun c => negb (isAngleBracket c)) (sanitizeString input) = true
  /\ String.length (sanitizeString input) <= String.length input.
Proof.
  unfold sanitizeString. split; [apply removeAll_allOf |].
  pose proof (removeAll_length isAngleBracket (trim input)).
  pose proof (trim_length input). lia.
Qed.

(** X4. [sanitizeString] leaves a string as it is exactly when the string
    holds no angle bracket and neither begins nor ends with white space. *)
Theorem sanitizeString_fixed_points (input : string) :
  sanitizeString input = input
  <-> trimmed input
      /\ allOf (fun c => negb (isAngleBracket c)) input = true.
Proof.
  split.
  - intros H.
    assert (Htrim : trim input = input).
    { apply trim_same_length.
      pose proof (removeAll_length isAngleBracket (trim input)) as H1.
      pose proof (trim_length input) as H2.
      unfold sanitizeString in H. rewrite H in H1. lia. }
    split.
    + rewrite <- Htrim. apply trim_trimmed.
    + rewrite <- H at 1. apply removeAll_allOf.
  - intros [Ht Hclean]. unfold sanitizeString.
    rewrite (trim_of_trimmed _ Ht). apply removeAll_none. exact Hclean.
Qed.

(** X5. A second pass of [sanitizeString] does nothing but trim the result
    of the first, and there are inputs on which it does: removing the
    brackets can bring white space to the ends of the string. *)
Theorem sanitizeString_twice :
  (forall input,
      sanitizeString (sanitizeString input) = trim (sanitizeString input))
  /\ exists input,
       sanitizeString (sanitizeString input) <> sanitizeString input.
Proof.
  split.
  - intros input. unfold sanitizeString at 1.
    apply removeAll_none.
    assert (H : forall s,
               allOf (fun c => negb (isAngleBracket c)) s = true ->
               allOf (fun c => negb (isAngleBracket c)) (trim s) = true).
    { intros s Hs. rewrite <- (removeAll_none isAngleBracket s Hs) at 1.
      clear Hs. unfold trim.
      assert (Hstart : forall t,
                 allOf (fun c => negb (isAngleBracket c)) t = true ->
                 allOf (fun c => negb (isAngleBracket c)) (trimStart t)
                 = true).
      { induction t as [| c t IH]; [reflexivity |].
        cbn [trimStart]. destruct (isWhiteSpace c); [| exact (fun H => H)].
        cbn [allOf]. intros H. apply andb_true_iff in H. apply IH, H. }
      assert (Hend : forall t,
                 allOf (fun c => negb (isAngleBracket c)) t = true ->
                 allOf (fun c => negb (isAngleBracket c)) (trimEnd t)
                 = true).
      { induction t as [| c t IH]; [reflexivity |].
        cbn [trimEnd allOf]. intros H. apply andb_true_iff in H.
        destruct H as [Hc Ht]. specialize (IH Ht).
        destruct (trimEnd t).
        - destruct (isWhiteSpace c); [reflexivity |].
          cbn [allOf]. rewrite Hc. reflexivity.
        - cbn [allOf] in *. rewrite Hc, IH. reflexivity. }
      apply Hend, Hstart, removeAll_allOf. }
    apply H. unfold sanitizeString. apply removeAll_allOf.
  - exists "< a". vm_compute. discriminate.
Qed.

(* ================================================================== *)
(** * utils/idempotency.ts: the keys that are accepted                  *)
(* ================================================================== *)

Section Keys.

Lemma takeHex_spec (n : nat) (s rest : string) :
  takeHex n s = Some rest
  <-> exists pre, s = pre +++ rest /\ String.length pre = n
                  /\ allOf isHexDigit pre = true.
Proof.
  revert s. induction n as [| n IH]; intros s.
  - cbn [takeHex]. split.
    + intros H. injection H as ->. exists "". repeat split.
    + intros (pre & -> & Hlen & _). destruct pre; [reflexivity |].
      discriminate Hlen.
  - rewrite takeHex_succ. destruct s as [| c s].
    + split; [discriminate |]. intros (pre & Hs & Hlen & _).
      destruct pre; [discriminate Hlen | discriminate Hs].
    + destruct (isHexDigit c) eqn:Hc.
      * rewrite IH. split.
        -- intros (pre & -> & Hlen & Hall). exists (String c pre).
           cbn. rewrite Hc, Hall, Hlen. repeat split.
        -- intros (pre & Hs & Hlen & Hall).
           destruct pre as [| d pre]; [discriminate Hlen |].
           cbn in Hs, Hlen, Hall. injection Hs as <- ->.
           injection Hlen as Hlen. apply andb_true_iff in Hall.
           exists pre. repeat split; tauto.
      * split; [discriminate |]. intros (pre & Hs & Hlen & Hall).
        destruct pre as [| d pre]; [discriminate Hlen |].
        cbn in Hs, Hall. injection Hs as <- ->. rewrite Hc in Hall.
        discriminate Hall.
Qed.

Lemma lowerChar_hex (c : ascii) : isHexDigit (lowerChar c) = isHexDigit c.
Proof.
  destruct c as [[] [] [] [] [] [] [] []]; vm_compute; reflexivity.
Qed.

Lemma lowerChar_dash (c : ascii) :
  Ascii.eqb (lowerChar c) "-" = Ascii.eqb c "-".
Proof.
  destruct c as [[] [] [] [] [] [] [] []]; vm_compute; reflexivity.
Qed.

Lemma lowerChar_version (c : ascii) : member (lowerChar c) "4" = member c "4".
Proof.
  destruct c as [[] [] [] [] [] [] [] []]; vm_compute; reflexivity.
Qed.

Lemma lowerChar_variant (c : ascii) :
  member (lowerChar c) "89abAB" = member c "89abAB".
Proof.
  destruct c as [[] [] [] [] [] [] [] []]; vm_compute; reflexivity.
Qed.

Lemma takeHex_lower (n : nat) (s : string) :
  takeHex n (toLowerCase s) = option_map toLowerCase (takeHex n s).
Proof.
  revert s. induction n as [| n IH]; intros s; [reflexivity |].
  destruct s as [| c s]; [reflexivity |].
  cbn [toLowerCase]. rewrite !takeHex_succ, lowerChar_hex.
  destruct (isHexDigit c); [apply IH | reflexivity].
Qed.

End Keys.

(** X6. The idempotency keys the route accepts are exactly the UUID-shaped
    strings whose version digit (position 14) is [4] and whose variant
    digit (position 19) is one of [8], [9], [a], [b], [A], [B]; each has 36
    characters. *)
Theorem validateIdempotencyKey_accepts (key : string) :
  validateIdempotencyKey key = true
  <-> uuidShaped key = true
      /\ String.get 14 key = Some "4"%char
      /\ (exists v, String.get 19 key = Some v /\ member v "89abAB" = true)
      /\ String.length key = 36.
Proof.
  unfold validateIdempotencyKey, uuidShaped, uuidRegex, uuidShape.
  split.
  - intros H. split; [exact (validateIdempotencyKey_shaped key H) |].
    revert H. cbn [matches].
    destruct (takeHex 8 key) as [r1 |] eqn:E1; [| discriminate].
    apply takeHex_spec in E1. destruct E1 as (g1 & -> & L1 & _).
    destruct r1 as [| c1 r1]; [discriminate |].
    intros H. apply andb_true_iff in H. destruct H as [_ H].
    destruct (takeHex 4 r1) as [r2 |] eqn:E2; [| discriminate].
    apply takeHex_spec in E2. destruct E2 as (g2 & -> & L2 & _).
    destruct r2 as [| c2 r2]; [discriminate |].
    apply andb_true_iff in H. destruct H as [_ H].
    destruct r2 as [| ver r2]; [discriminate |].
    apply andb_true_iff in H. destruct H as [Hver H].
    destruct (takeHex 3 r2) as [r3 |] eqn:E3; [| discriminate].
    apply takeHex_spec in E3. destruct E3 as (g3 & -> & L3 & _).
    destruct r3 as [| c3 r3]; [discriminate |].
    apply andb_true_iff in H. destruct H as [_ H].
    destruct r3 as [| var r3]; [discriminate |].
    apply andb_true_iff in H. destruct H as [Hvar H].
    destruct (takeHex 3 r3) as [r4 |] eqn:E4; [| discriminate].
    apply takeHex_spec in E4. destruct E4 as (g4 & -> & L4 & _).
    destruct r4 as [| c4 r4]; [discriminate |].
    apply andb_true_iff in H. destruct H as [_ H].
    destruct (takeHex 12 r4) as [r5 |] eqn:E5; [| discriminate].
    apply takeHex_spec in E5. destruct E5 as (g5 & -> & L5 & _).
    apply String.eqb_eq in H. subst r5.
    cbn [member] in Hver. rewrite orb_false_r in Hver.
    apply Ascii.eqb_eq in Hver. subst ver.
    repeat match goal with
           | L : String.length ?s = S _ |- _ =>
               destruct s; [discriminate L |]; cbn [String.length] in L;
               injection L as L
           | L : String.length ?s = 0 |- _ =>
               destruct s; [clear L | discriminate L]
           end.
    cbn. split; [reflexivity |]. split; [| reflexivity].
    exists var. split; [reflexivity | exact Hvar].
  - intros (Hshape & Hver & (v & Hv & Hvar) & _).
    revert Hshape. cbn [matches].
    destruct (takeHex 8 key) as [r1 |] eqn:E1; [| discriminate].
    apply takeHex_spec in E1. destruct E1 as (g1 & -> & L1 & _).
    destruct r1 as [| c1 r1]; [discriminate |].
    intros H. apply andb_true_iff in H. destruct H as [D1 H]. rewrite D1.
    destruct (takeHex 4 r1) as [r2 |] eqn:E2; [| discriminate].
    apply takeHex_spec in E2. destruct E2 as (g2 & -> & L2 & _).
    destruct r2 as [| c2 r2]; [discriminate |].
    apply andb_true_iff in H. destruct H as [D2 H]. rewrite D2.
    cbn [andb].
    destruct (takeHex 4 r2) as [r3 |] eqn:E3; [| discriminate].
    rewrite takeHex_succ in E3.
    destruct r2 as [| ver r2]; [discriminate |].
    destruct (isHexDigit ver); [| discriminate].
    rewrite E3.
    apply takeHex_spec in E3. destruct E3 as (g3 & -> & L3 & _).
    destruct r3 as [| c3 r3]; [discriminate |].
    apply andb_true_iff in H. destruct H as [D3 H]. rewrite D3.
    cbn [andb].
    destruct (takeHex 4 r3) as [r4 |] eqn:E4; [| discriminate].
    rewrite takeHex_succ in E4.
    destruct r3 as [| var r3]; [discriminate |].
    destruct (isHexDigit var); [| discriminate].
    rewrite E4, H.
    repeat match goal with
           | L : String.length ?s = S _ |- _ =>
               destruct s; [discriminate L |]; cbn [String.length] in L;
               injection L as L
           | L : String.length ?s = 0 |- _ =>
               destruct s; [clear L | discriminate L]
           end.
    cbn in Hver, Hv. injection Hver as ->. injection Hv as ->.
    rewrite Hvar. reflexivity.
Qed.

(** X7. Validation of an idempotency key does not depend on the case of its
    letters. *)
Theorem validateIdempotencyKey_ignores_case (key : string) :
  validateIdempotencyKey (toLowerCase key) = validateIdempotencyKey key.
Proof.
  unfold validateIdempotencyKey, uuidRegex.
  assert (Hhex : forall n more,
             (forall s, matches more (toLowerCase s) = matches more s) ->
             forall s, matches (Hex n :: more) (toLowerCase s)
                       = matches (Hex n :: more) s).
  { intros n more IH s. cbn [matches]. rewrite takeHex_lower.
    destruct (takeHex n s); [apply IH | reflexivity]. }
  assert (Hdash : forall more,
             (forall s, matches more (toLowerCase s) = matches more s) ->
             forall s, matches (Dash :: more) (toLowerCase s)
                       = matches (Dash :: more) s).
  { intros more IH [| c s]; [reflexivity |].
    cbn [matches toLowerCase]. rewrite lowerChar_dash, IH. reflexivity. }
  assert (Hver : forall more,
             (forall s, matches more (toLowerCase s) = matches more s) ->
             forall s, matches (OneOf "4" :: more) (toLowerCase s)
                       = matches (OneOf "4" :: more) s).
  { intros more IH [| c s]; [reflexivity |].
    cbn [matches toLowerCase]. rewrite lowerChar_version, IH. reflexivity. }
  assert (Hvar : forall more,
             (forall s, matches more (toLowerCase s) = matches more s) ->
             forall s, matches (OneOf "89abAB" :: more) (toLowerCase s)
                       = matches (OneOf "89abAB" :: more) s).
  { intros more IH [| c s]; [reflexivity |].
    cbn [matches toLowerCase]. rewrite lowerChar_variant, IH. reflexivity. }
  revert key.
  apply Hhex, Hdash, Hhex, Hdash, Hver, Hhex, Hdash, Hvar, Hhex, Hdash, Hhex.
  intros [| c s]; reflexivity.
Qed.

(* ================================================================== *)
(** * The payment table over time                                       *)
(* ================================================================== *)

Lemma sameIdentity_refl (p : Payment.t) : sameIdentity p p.
Proof. repeat split. Qed.

Lemma sameIdentity_trans (p q r : Payment.t) :
  sameIdentity p q -> sameIdentity q r -> sameIdentity p r.
Proof.
  unfold sameIdentity.
  intros (? & ? & ? & ? & ? & ? & ?) (? & ? & ? & ? & ? & ? & ?).
  repeat split; congruence.
Qed.

Lemma evolved_refl (w : World) : evolved (payments w) w.
Proof.
  unfold evolved. induction (payments w); constructor;
    auto using sameIdentity_refl.
Qed.

Lemma evolved_trans (l l1 l2 : list Payment.t) :
  Forall2 sameIdentity l l1 -> Forall2 sameIdentity l1 l2 ->
  Forall2 sameIdentity l l2.
Proof.
  intros H. revert l2. induction H; intros l2 H2; inversion H2; subst;
    constructor; eauto using sameIdentity_trans.
Qed.

Lemma evolved_keys (l l' : list Payment.t) :
  Forall2 sameIdentity l l' ->
  map Payment.idempotencyKey l' = map Payment.idempotencyKey l
  /\ map Payment.id l' = map Payment.id l.
Proof.
  induction 1 as [| p p' l l' Hp _ [IH1 IH2]]; [split; reflexivity |].
  destruct Hp as (Hid & Hkey & _). cbn [map].
  rewrite Hid, Hkey, IH1, IH2. split; reflexivity.
Qed.

Lemma evolved_payment_update (rows : list Payment.t) (i : Id)
    (f : Payment.t -> Payment.t) :
  paymentIdentity f -> keeps (evolved rows) (prisma.payment.update i f).
Proof.
  intros Hf w H. unfold evolved in *.
  unfold prisma.payment.update, bind, prisma.payment.find, now, gets,
    modify, throw.
  destruct (List.find _ (payments w)); cbn [snd]; [| exact H].
  cbn [payments with_payments].
  eapply evolved_trans; [exact H |].
  clear H. induction (payments w) as [| p l IH]; [constructor |].
  cbn [prisma.update_where map]. constructor; [| exact IH].
  destruct (prisma.payment.by_id i p); [| apply sameIdentity_refl].
  destruct (Hf p) as (H1 & H2 & H3 & H4 & H5 & H6 & H7).
  unfold sameIdentity. cbn. rewrite H1, H2, H3, H4, H5, H6, H7.
  repeat split.
Qed.

Lemma evolved_unchanged (rows : list Payment.t) {A} (c : M A) :
  (forall w, payments (snd (c w)) = payments w) ->
  keeps (evolved rows) c.
Proof. intros Hc w H. unfold evolved in *. rewrite Hc. exact H. Qed.

Lemma evolved_event_update (rows : list Payment.t) (i : Id)
    (f : WebhookEvent.t -> WebhookEvent.t) :
  keeps (evolved rows) (prisma.webhookEvent.update i f).
Proof.
  apply evolved_unchanged. intros w.
  unfold prisma.webhookEvent.update, bind, prisma.webhookEvent.find, gets,
    modify, throw.
  destruct (List.find _ (webhookEvents w)); reflexivity.
Qed.

Lemma evolved_event_upsert (rows : list Payment.t)
    (eventId eventType : string) (body : Json.t) :
  keeps (evolved rows) (prisma.webhookEvent.upsert eventId eventType body).
Proof.
  apply evolved_unchanged. intros w.
  unfold prisma.webhookEvent.upsert, bind, prisma.webhookEvent.find, gets,
    modify, freshId, ret.
  destruct (List.find _ (webhookEvents w)); reflexivity.
Qed.

Lemma evolved_handlers (rows : list Payment.t) : HandlerClosed (evolved rows).
Proof.
  split.
  - intros i f Hf. apply evolved_payment_update.
    apply paymentCosmetic_identity. exact Hf.
  - intros i f _. apply evolved_unchanged. intros w.
    destruct (transaction_update_frame i f w) as (-> & _). reflexivity.
  - intros sel f _. apply evolved_unchanged. intros w. reflexivity.
  - intros i f _. apply evolved_event_update.
Qed.

Lemma evolved_flow (rows : list Payment.t) : FlowClosed (evolved rows).
Proof.
  split.
  - intros i f Hf. apply evolved_payment_update. exact Hf.
  - intros. apply evolved_unchanged. intros w. reflexivity.
  - intros sel f _. apply evolved_unchanged. intros w. reflexivity.
  - intros ms _. apply evolved_unchanged. intros w. reflexivity.
Qed.

(** What [router.post('/')] can do: answer 400 and change nothing, answer
    201 with a stored payment and change nothing, or answer 201 with a new
    payment whose key was not in the table. *)
Lemma payments_post_outcomes (uuid : string) (req : PaymentsRequest.t)
    (w : World) :
  (statusCode (fst (payments_post uuid req w)) = 400
   /\ snd (payments_post uuid req w) = w)
  \/ (exists existing,
         In existing (payments w)
         /\ payments_post uuid req w
            = (mkResponse 201 (PaymentBody (PaymentService.respond existing)),
               w))
  \/ (exists key request v,
         keyIsFresh key w
         /\ activeVendor request w = Some v
         /\ payments_post uuid req w
            = (mkResponse 201
                 (PaymentBody
                    (PaymentService.respond (newPayment key request w))),
               initiated key request w)).
Proof.
  unfold payments_post.
  destruct (PaymentsRequest.vendorId req); [| left; split; reflexivity].
  destruct (negb _ || negb _); [left; split; reflexivity |].
  destruct (provided _ && negb _); [left; split; reflexivity |].
  set (request := CreatePaymentRequest.mk i
                    (parseFloat (PaymentsRequest.amountSgd req))
                    (PaymentsRequest.customerReference req)
                    (PaymentsRequest.description req)).
  set (header := PaymentsRequest.idempotencyKeyHeader req).
  destruct (initiatePayment_cases uuid request header w)
    as [(existing & Hfound & H) | [(_ & H & e & He) | (Hfresh & (v & Hv) & H)]].
  - rewrite H. right. left. exists existing. split; [| reflexivity].
    apply find_some in Hfound. apply Hfound.
  - left.
    destruct (PaymentService.initiatePayment uuid request header w)
      as [[r | e'] w']; cbn [fst snd] in *; [discriminate He |].
    split; [reflexivity | exact H].
  - rewrite H. right. right.
    exists (PaymentService.effectiveKey header uuid), request, v.
    repeat split; assumption.
Qed.

(** One operation keeps every payment row, up to the columns that may
    change, and adds at most one, under a key that was not in use. *)
Lemma exec_payments (op : Op) (w : World) :
  exists old extra,
    payments (exec op w) = old ++ extra
    /\ Forall2 sameIdentity (payments w) old
    /\ (extra = []
        \/ exists key request,
             keyIsFresh key w /\ extra = [newPayment key request w]).
Proof.
  assert (Hsame : forall w', evolved (payments w) w' ->
            exists old extra,
              payments w' = old ++ extra
              /\ Forall2 sameIdentity (payments w) old
              /\ (extra = []
                  \/ exists key request,
                       keyIsFresh key w
                       /\ extra = [newPayment key request w])).
  { intros w' H. exists (payments w'), []. rewrite app_nil_r.
    split; [reflexivity |]. split; [exact H | left; reflexivity]. }
  destruct op as [name email bank | vid s | uuid req | F rnd pid
                  | secret req | client secret req | ms].
  - apply Hsame. exact (evolved_refl w).
  - apply Hsame. exact (evolved_refl w).
  - cbn [exec].
    destruct (payments_post_outcomes uuid req w)
      as [[_ ->] | [(existing & _ & ->) | (key & request & v & Hfresh & _ & ->)]];
      try (apply Hsame; apply evolved_refl).
    cbn [snd]. exists (payments w), [newPayment key request w].
    split; [reflexivity |]. split; [apply evolved_refl |].
    right. exists key, request. split; [exact Hfresh | reflexivity].
  - cbn [exec]. apply Hsame.
    destruct (existsb (Nat.eqb pid) (detached w)); [| apply evolved_refl].
    apply (detachedFlow_keeps _ (evolved_flow (payments w))).
    exact (evolved_refl w).
  - cbn [exec]. apply Hsame.
    apply (route_keeps _ (evolved_handlers (payments w))
             (evolved_event_upsert _)
             (fun i d => evolved_event_update _ i _)).
    apply evolved_refl.
  - cbn [exec]. apply Hsame.
    apply (untyped_route_keeps _ (evolved_handlers (payments w))
             (evolved_event_upsert _)
             (fun i d => evolved_event_update _ i _)).
    apply evolved_refl.
  - apply Hsame. exact (evolved_refl w).
Qed.

Lemma fresh_not_in (key : string) (w : World) :
  keyIsFresh key w -> ~ In key (keysOf w).
Proof.
  unfold keyIsFresh, keysOf. intros Hfresh Hin.
  apply in_map_iff in Hin. destruct Hin as (p & Hkey & Hin).
  pose proof (find_none _ _ Hfresh p Hin) as H.
  unfold prisma.payment.by_key in H. rewrite Hkey, String.eqb_refl in H.
  discriminate H.
Qed.

Lemma exec_keys_unique (op : Op) (w : World) :
  NoDup (keysOf w) -> NoDup (keysOf (exec op w)).
Proof.
  intros H. unfold keysOf in *.
  destruct (exec_payments op w) as (old & extra & -> & Hold & Hextra).
  destruct (evolved_keys _ _ Hold) as [Hkeys _].
  rewrite map_app, Hkeys.
  destruct Hextra as [-> | (key & request & Hfresh & ->)].
  - cbn [map]. rewrite app_nil_r. exact H.
  - cbn [map newPayment Payment.idempotencyKey].
    apply NoDup_app; [exact H | repeat constructor; intros [] |].
    intros k Hk [<- | []]. exact (fresh_not_in _ _ Hfresh Hk).
Qed.

(** X8. In every store the system can reach, no two payments carry the same
    idempotency key. *)
Theorem idempotency_keys_unique (w : World) :
  reachable w -> NoDup (keysOf w).
Proof.
  intros (start & ops & ->).
  assert (H : forall w0, NoDup (keysOf w0) -> NoDup (keysOf (run ops w0))).
  { induction ops as [| op ops IH]; intros w0 H0; [exact H0 |].
    cbn [run fold_left]. apply IH. apply exec_keys_unique. exact H0. }
  apply H. constructor.
Qed.

Lemma idempotency_keys_unique_witness : NoDup (keysOf completedWorld).
Proof.
  apply idempotency_keys_unique. exact completedWorld_reachable.
Defined.

(** X9. Payments are never deleted or reordered, and no operation changes
    the id, idempotency key, vendor, SGD amount, rate, expected settlement
    time or creation time of a payment: after any operations the table
    consists of later versions of the rows it had, followed by the rows
    added since. *)
Theorem payments_are_kept (ops : list Op) (w : World) :
  exists old extra,
    payments (run ops w) = old ++ extra
    /\ Forall2 sameIdentity (payments w) old.
Proof.
  revert w. induction ops as [| op ops IH]; intros w.
  - exists (payments w), []. rewrite app_nil_r.
    split; [reflexivity | exact (evolved_refl w)].
  - cbn [run fold_left]. fold (run ops (exec op w)).
    destruct (IH (exec op w)) as (old' & extra' & Hrun & Hold').
    destruct (exec_payments op w) as (old & extra & Hexec & Hold & _).
    rewrite Hexec in Hold'.
    apply Forall2_app_inv_l in Hold'.
    destruct Hold' as (o1 & o2 & H1 & _ & ->).
    exists o1, (o2 ++ extra'). rewrite Hrun, app_assoc.
    split; [reflexivity |].
    eapply evolved_trans; eassumption.
Qed.

(** X10. [POST /payments] answers 201 or 400 and nothing else.  A request
    answered 400 leaves the store as it was.  A request answered 201
    carries a payment that is in the store: either one that was there
    before, and then the store is unchanged, or a new PENDING payment at
    the end of the table, with its flow waiting to be started and no
    transaction yet. *)
Theorem payments_post_answers (uuid : string) (req : PaymentsRequest.t)
    (w : World) :
  let res := fst (payments_post uuid req w) in
  let w' := snd (payments_post uuid req w) in
  (statusCode res = 400 /\ w' = w)
  \/ (statusCode res = 201
      /\ exists p,
           json res = PaymentBody (PaymentService.respond p)
           /\ In p (payments w')
           /\ (w' = w
               \/ (p.(Payment.status) = PaymentStatus.PENDING
                   /\ payments w' = payments w ++ [p]
                   /\ detached w' = detached w ++ [p.(Payment.id)]
                   /\ transactions w' = transactions w
                   /\ ~ In p.(Payment.idempotencyKey) (keysOf w)))).
Proof.
  cbv zeta.
  destruct (payments_post_outcomes uuid req w)
    as [H | [(existing & Hin & ->) | (key & request & v & Hfresh & _ & ->)]].
  - left. exact H.
  - right. cbn [fst snd statusCode json]. split; [reflexivity |].
    exists existing. repeat split; [exact Hin | left; reflexivity].
  - right. cbn [fst snd statusCode json]. split; [reflexivity |].
    exists (newPayment key request w). split; [reflexivity |].
    unfold initiated.
    cbn [payments detached transactions with_payments with_detached
         with_nextId].
    split; [apply in_or_app; right; left; reflexivity |].
    right. repeat split. exact (fresh_not_in _ _ Hfresh).
Qed.

(* ================================================================== *)
(** * What a webhook cannot change                                      *)
(* ================================================================== *)

Lemma samePayment_trans (p q r : Payment.t) :
  samePayment p q -> samePayment q r -> samePayment p r.
Proof.
  unfold samePayment. intros (? & ? & ? & ?) (? & ? & ? & ?).
  repeat split; congruence.
Qed.

Lemma samePayments_trans (l l1 l2 : list Payment.t) :
  Forall2 samePayment l l1 -> Forall2 samePayment l1 l2 ->
  Forall2 samePayment l l2.
Proof.
  intros H. revert l2. induction H; intros l2 H2; inversion H2; subst;
    constructor; eauto using samePayment_trans.
Qed.

Lemma sameAccounts_refl (w : World) : sameAccounts w w.
Proof. split; [apply samePayments_refl | repeat split]. Qed.

Lemma sameAccounts_unchanged (w0 : World) {A} (c : M A) :
  (forall w, payments (snd (c w)) = payments w
             /\ vendors (snd (c w)) = vendors w
             /\ detached (snd (c w)) = detached w
             /\ clock (snd (c w)) = clock w) ->
  keeps (sameAccounts w0) c.
Proof.
  intros Hc w (H1 & H2 & H3 & H4).
  destruct (Hc w) as (E1 & E2 & E3 & E4).
  unfold sameAccounts. rewrite E1, E2, E3, E4. repeat split; assumption.
Qed.

Lemma sameAccounts_event_update (w0 : World) (i : Id)
    (f : WebhookEvent.t -> WebhookEvent.t) :
  keeps (sameAccounts w0) (prisma.webhookEvent.update i f).
Proof.
  apply sameAccounts_unchanged. intros w.
  unfold prisma.webhookEvent.update, bind, prisma.webhookEvent.find, gets,
    modify, throw.
  destruct (List.find _ (webhookEvents w)); repeat split.
Qed.

Lemma sameAccounts_event_upsert (w0 : World) (eventId eventType : string)
    (body : Json.t) :
  keeps (sameAccounts w0) (prisma.webhookEvent.upsert eventId eventType body).
Proof.
  apply sameAccounts_unchanged. intros w.
  unfold prisma.webhookEvent.upsert, bind, prisma.webhookEvent.find, gets,
    modify, freshId, ret.
  destruct (List.find _ (webhookEvents w)); repeat split.
Qed.

Lemma sameAccounts_handlers (w0 : World) : HandlerClosed (sameAccounts w0).
Proof.
  split.
  - intros i f Hf w (H1 & H2 & H3 & H4).
    destruct (payment_update_frame i f w) as (_ & _ & E2 & E4 & _ & E3).
    unfold sameAccounts. rewrite E2, E3, E4.
    split; [| repeat split; assumption].
    eapply samePayments_trans; [exact H1 |].
    unfold prisma.payment.update, bind, prisma.payment.find, now, gets,
      modify, throw.
    destruct (List.find _ (payments w)); cbn [snd];
      [| apply samePayments_refl].
    cbn [payments with_payments].
    apply samePayments_update. apply touch_cosmetic_same. exact Hf.
  - intros i f _. apply sameAccounts_unchanged. intros w.
    destruct (transaction_update_frame i f w) as (-> & _ & -> & -> & _ & ->).
    repeat split.
  - intros sel f _. apply sameAccounts_unchanged. intros w. repeat split.
  - intros i f _. apply sameAccounts_event_update.
Qed.

Lemma webhook_keeps_vendors (webhookSecret : option string)
    (req : WebhookRequest.t) (w : World) :
  vendors (snd (webhooks_post_circle webhookSecret req w)) = vendors w.
Proof.
  pose proof (route_keeps _ (sameAccounts_handlers w)
                (sameAccounts_event_upsert w)
                (fun i d => sameAccounts_event_update w i _)
                webhookSecret req w (sameAccounts_refl w))
    as (_ & Hven & _). exact Hven.
Qed.

Lemma untyped_keeps_vendors (client : Untyped.Client)
    (webhookSecret : option string) (req : Untyped.Request.t) (w : World) :
  vendors (snd (Untyped.webhooks_post_circle client webhookSecret req w))
  = vendors w.
Proof.
  pose proof (untyped_route_keeps _ (sameAccounts_handlers w)
                (sameAccounts_event_upsert w)
                (fun i d => sameAccounts_event_update w i _)
                client webhookSecret req w (sameAccounts_refl w))
    as (_ & Hven & _). exact Hven.
Qed.

(** X11. Whatever is posted to the webhook route, with or without a valid
    signature, the route creates and deletes no payment and no
    transaction, and changes no SGD or USD amount, idempotency key, vendor,
    rate or expected settlement time of a payment, and no payment, type,
    amount, fee or creation time of a transaction; vendors, waiting flows
    and the clock stay as they are. *)
Theorem webhook_keeps_the_ledger (webhookSecret : option string)
    (req : WebhookRequest.t) (w : World) :
  sameLedger w (snd (webhooks_post_circle webhookSecret req w)).
Proof.
  pose proof (route_keeps _ (sameAccounts_handlers w)
                (sameAccounts_event_upsert w)
                (fun i d => sameAccounts_event_update w i _)
                webhookSecret req w (sameAccounts_refl w))
    as (Hpay & Hven & Hdet & Hclock).
  pose proof (route_keeps _ (evolved_handlers (payments w))
                (evolved_event_upsert _)
                (fun i d => evolved_event_update _ i _)
                webhookSecret req w (evolved_refl w)) as Hev.
  destruct (grown_owners _ _ _ _ (route_grown 0 webhookSecret req w))
    as (old & extra & Htx & Hsame & Hty & _).
  destruct extra; [| discriminate Hty]. rewrite app_nil_r in Htx.
  unfold sameLedger. rewrite Htx. repeat split; assumption.
Qed.

(* ================================================================== *)
(** * One row per provider event                                        *)
(* ================================================================== *)

Lemma uniqueEvents_unchanged {A} (c : M A) :
  (forall w, webhookEvents (snd (c w)) = webhookEvents w) ->
  keeps uniqueEvents c.
Proof.
  intros Hc w H. unfold uniqueEvents, eventIdsOf in *. rewrite Hc. exact H.
Qed.

Lemma update_where_eventIds (sel : WebhookEvent.t -> bool)
    (f : WebhookEvent.t -> WebhookEvent.t) (l : list WebhookEvent.t) :
  (forall e, (f e).(WebhookEvent.circleEventId)
             = e.(WebhookEvent.circleEventId)) ->
  map WebhookEvent.circleEventId (prisma.update_where sel f l)
  = map WebhookEvent.circleEventId l.
Proof.
  intros Hf. induction l as [| e l IH]; [reflexivity |].
  cbn [prisma.update_where map]. fold (prisma.update_where sel f l).
  rewrite IH. destruct (sel e); [rewrite Hf |]; reflexivity.
Qed.

Lemma uniqueEvents_update (i : Id) (f : WebhookEvent.t -> WebhookEvent.t) :
  (forall e, (f e).(WebhookEvent.circleEventId)
             = e.(WebhookEvent.circleEventId)) ->
  keeps uniqueEvents (prisma.webhookEvent.update i f).
Proof.
  intros Hf w H. unfold uniqueEvents, eventIdsOf in *.
  unfold prisma.webhookEvent.update, bind, prisma.webhookEvent.find, gets,
    modify, throw.
  destruct (List.find _ (webhookEvents w)); cbn [snd]; [| exact H].
  cbn [webhookEvents with_webhookEvents].
  rewrite update_where_eventIds by exact Hf. exact H.
Qed.

Lemma uniqueEvents_upsert (eventId eventType : string)
    (body : Json.t) :
  keeps uniqueEvents (prisma.webhookEvent.upsert eventId eventType body).
Proof.
  intros w H. unfold uniqueEvents, eventIdsOf in *.
  unfold prisma.webhookEvent.upsert, bind, prisma.webhookEvent.find, gets,
    modify, freshId, ret.
  destruct (List.find _ (webhookEvents w)) as [e |] eqn:Hfind; cbn [snd].
  - cbn [webhookEvents with_webhookEvents].
    rewrite update_where_eventIds; [exact H | intros []; reflexivity].
  - cbn [webhookEvents with_webhookEvents with_nextId].
    rewrite map_app. cbn [map WebhookEvent.circleEventId].
    apply NoDup_app; [exact H | repeat constructor; intros [] |].
    intros k Hk [<- | []].
    apply in_map_iff in Hk. destruct Hk as (e & Hid & Hin).
    pose proof (find_none _ _ Hfind e Hin) as Hsel.
    unfold prisma.webhookEvent.by_circleEventId in Hsel.
    rewrite Hid, String.eqb_refl in Hsel. discriminate Hsel.
Qed.

Lemma uniqueEvents_handlers : HandlerClosed uniqueEvents.
Proof.
  split.
  - intros i f _. apply uniqueEvents_unchanged. intros w.
    destruct (payment_update_frame i f w) as (_ & -> & _). reflexivity.
  - intros i f _. apply uniqueEvents_unchanged. intros w.
    destruct (transaction_update_frame i f w) as (_ & -> & _). reflexivity.
  - intros sel f _. apply uniqueEvents_unchanged. intros w. reflexivity.
  - intros i f Hf. apply uniqueEvents_update. intros e.
    destruct (Hf e) as (_ & Hid & _). exact Hid.
Qed.

Lemma uniqueEvents_flow : FlowClosed uniqueEvents.
Proof.
  split.
  - intros i f _. apply uniqueEvents_unchanged. intros w.
    destruct (payment_update_frame i f w) as (_ & -> & _). reflexivity.
  - intros. apply uniqueEvents_unchanged. intros w. reflexivity.
  - intros sel f _. apply uniqueEvents_unchanged. intros w. reflexivity.
  - intros ms _. apply uniqueEvents_unchanged. intros w. reflexivity.
Qed.

Lemma exec_uniqueEvents (op : Op) (w : World) :
  uniqueEvents w -> uniqueEvents (exec op w).
Proof.
  intros H.
  destruct op as [name email bank | vid s | uuid req | F rnd pid
                  | secret req | client secret req | ms].
  - exact H.
  - exact H.
  - cbn [exec].
    destruct (payments_post_outcomes uuid req w)
      as [[_ ->] | [(existing & _ & ->) | (key & request & v & _ & _ & ->)]];
      exact H.
  - cbn [exec].
    destruct (existsb (Nat.eqb pid) (detached w)); [| exact H].
    apply (detachedFlow_keeps _ uniqueEvents_flow). exact H.
  - cbn [exec].
    apply (route_keeps _ uniqueEvents_handlers uniqueEvents_upsert);
      [| exact H].
    intros i d. apply uniqueEvents_update. intros []. reflexivity.
  - cbn [exec].
    apply (untyped_route_keeps _ uniqueEvents_handlers uniqueEvents_upsert);
      [| exact H].
    intros i d. apply uniqueEvents_update. intros []. reflexivity.
  - exact H.
Qed.

(** X12. In every store the system can reach, the webhook event table
    holds at most one row for each provider event id. *)
Theorem webhook_events_unique (w : World) :
  reachable w -> uniqueEvents w.
Proof.
  intros (start & ops & ->).
  assert (H : forall w0, uniqueEvents w0 -> uniqueEvents (run ops w0)).
  { induction ops as [| op ops IH]; intros w0 H0; [exact H0 |].
    cbn [run fold_left]. apply IH. apply exec_uniqueEvents. exact H0. }
  apply H. constructor.
Qed.

Lemma webhook_events_unique_witness :
  let delivery := OpWebhook None (webhook "transfer.completed" "evt-1" "tr-1") in
  eventIdsOf (run [delivery; delivery] exampleWorld) = ["evt-1"]
  /\ uniqueEvents (run [delivery; delivery] exampleWorld).
Proof.
  intros delivery. split; [compute_lhs |].
  apply webhook_events_unique.
  apply reachable_run. exact exampleWorld_reachable.
Defined.

(* ================================================================== *)
(** * What the flow of one payment writes                               *)
(* ================================================================== *)

Section FlowKeepsFor.

Variables (paymentId : Id) (I : World -> Prop).
Hypothesis closed : FlowClosedFor paymentId I.

Variables (F : Faults) (rnd : Entropy).

Ltac own_step :=
  first
    [ keeps_step
    | apply findWithTransactions_keeps_any
    | apply (ff_payment_update closed); auto with cosmetic
    | apply (ff_transaction_create closed); cbn; repeat split; reflexivity
    | apply (ff_transaction_updateMany closed); auto with cosmetic
    | apply (ff_sleep closed); lia ].

Lemma flowSteps_keeps_for : keeps I (flowSteps F rnd paymentId).
Proof.
  unfold flowSteps, PaymentService.updatePaymentStatus,
    PaymentService.createCirclePaymentIntent,
    PaymentService.simulatePaymentConfirmation,
    PaymentService.exchangeSgdToUsdc, PaymentService.exchangeUsdcToUsd,
    PaymentService.payoutToVendor.
  repeat own_step.
Qed.

Lemma detachedFlow_keeps_for :
  keeps I (PaymentService.detachedFlow F rnd paymentId).
Proof.
  unfold PaymentService.detachedFlow.
  apply keeps_try_catch; [| intros e].
  - change (keeps I
              (try_catch (flowSteps F rnd paymentId)
                 (fun error =>
                    call F CatchSetFailed
                      (PaymentService.updatePaymentStatus paymentId
                         PaymentStatus.FAILED) ;;
                    throw error))).
    unfold PaymentService.updatePaymentStatus.
    apply keeps_try_catch; [apply flowSteps_keeps_for | intros e].
    repeat own_step.
  - intros w Hw. unfold call.
    destruct (F HandlerSetFailed); [exact Hw |].
    exact (ff_payment_update closed
             (set_status_identity PaymentStatus.FAILED) w Hw).
Qed.

End FlowKeepsFor.

Lemma onSchedule_same (x y : Transaction.t) :
  sameTransaction x y -> onSchedule x -> onSchedule y.
Proof.
  unfold sameTransaction, onSchedule.
  intros (_ & _ & -> & -> & -> & -> & -> & _). exact (fun H => H).
Qed.

Lemma allOnSchedule_unchanged {A} (c : M A) :
  (forall w, transactions (snd (c w)) = transactions w) ->
  keeps allOnSchedule c.
Proof. intros Hc w H. unfold allOnSchedule in *. rewrite Hc. exact H. Qed.

Lemma allOnSchedule_update_where (sel : Transaction.t -> bool)
    (f : Transaction.t -> Transaction.t) (l : list Transaction.t) :
  txCosmetic f -> Forall onSchedule l ->
  Forall onSchedule (prisma.update_where sel f l).
Proof.
  intros Hf H. induction H as [| x l Hx _ IH]; [constructor |].
  cbn [prisma.update_where map]. constructor; [| exact IH].
  destruct (sel x); [| exact Hx]. exact (onSchedule_same _ _ (Hf x) Hx).
Qed.

Lemma allOnSchedule_payment_update (i : Id) (f : Payment.t -> Payment.t) :
  keeps allOnSchedule (prisma.payment.update i f).
Proof.
  apply allOnSchedule_unchanged. intros w.
  destruct (payment_update_frame i f w) as (-> & _). reflexivity.
Qed.

Lemma allOnSchedule_event_update (i : Id)
    (f : WebhookEvent.t -> WebhookEvent.t) :
  keeps allOnSchedule (prisma.webhookEvent.update i f).
Proof.
  apply allOnSchedule_unchanged. intros w.
  unfold prisma.webhookEvent.update, bind, prisma.webhookEvent.find, gets,
    modify, throw.
  destruct (List.find _ (webhookEvents w)); reflexivity.
Qed.

Lemma allOnSchedule_event_upsert (eventId eventType : string)
    (body : Json.t) :
  keeps allOnSchedule (prisma.webhookEvent.upsert eventId eventType body).
Proof.
  apply allOnSchedule_unchanged. intros w.
  unfold prisma.webhookEvent.upsert, bind, prisma.webhookEvent.find, gets,
    modify, freshId, ret.
  destruct (List.find _ (webhookEvents w)); reflexivity.
Qed.

Lemma allOnSchedule_updateMany (sel : Transaction.t -> bool)
    (f : Transaction.t -> Transaction.t) :
  txCosmetic f -> keeps allOnSchedule (prisma.transaction.updateMany sel f).
Proof.
  intros Hf w H. unfold allOnSchedule in *. cbn.
  apply allOnSchedule_update_where; assumption.
Qed.

Lemma allOnSchedule_handlers : HandlerClosed allOnSchedule.
Proof.
  split.
  - intros i f _. apply allOnSchedule_payment_update.
  - intros i f Hf w H. unfold allOnSchedule in *.
    unfold prisma.transaction.update, bind, prisma.transaction.find, gets,
      modify, throw.
    destruct (List.find _ (transactions w)); cbn [snd]; [| exact H].
    cbn [transactions with_transactions].
    apply allOnSchedule_update_where; assumption.
  - intros sel f Hf. apply allOnSchedule_updateMany. exact Hf.
  - intros i f _. apply allOnSchedule_event_update.
Qed.

Lemma allOnSchedule_flow (paymentId : Id) :
  FlowClosedFor paymentId allOnSchedule.
Proof.
  split.
  - intros f _. apply allOnSchedule_payment_update.
  - intros type status amount currency circleId fees feeCurrency Hs w H.
    unfold allOnSchedule in *.
    unfold prisma.transaction.create, bind, freshId, now, gets, modify, ret.
    cbn [snd transactions with_transactions with_nextId].
    apply Forall_app. split; [exact H |].
    constructor; [exact Hs | constructor].
  - intros sel f Hf. apply allOnSchedule_updateMany. exact Hf.
  - intros ms _. apply allOnSchedule_unchanged. intros w. reflexivity.
Qed.

Lemma exec_allOnSchedule (op : Op) (w : World) :
  allOnSchedule w -> allOnSchedule (exec op w).
Proof.
  intros H.
  destruct op as [name email bank | vid s | uuid req | F rnd pid
                  | secret req | client secret req | ms].
  - exact H.
  - exact H.
  - cbn [exec].
    destruct (payments_post_outcomes uuid req w)
      as [[_ ->] | [(existing & _ & ->) | (key & request & v & _ & _ & ->)]];
      exact H.
  - cbn [exec].
    destruct (existsb (Nat.eqb pid) (detached w)); [| exact H].
    apply (detachedFlow_keeps_for _ _ (allOnSchedule_flow pid)). exact H.
  - cbn [exec].
    apply (route_keeps _ allOnSchedule_handlers allOnSchedule_event_upsert);
      [| exact H].
    intros i d. apply allOnSchedule_event_update.
  - cbn [exec].
    apply (untyped_route_keeps _ allOnSchedule_handlers
             allOnSchedule_event_upsert); [| exact H].
    intros i d. apply allOnSchedule_event_update.
  - exact H.
Qed.

(** X13. Every transaction of every store the system can reach is on the
    schedule of its type: a PAYMENT_IN is in SGD and carries no fee; an
    EXCHANGE_SGD_TO_USDC is in USDC with a fee of 0.1% of its amount, in
    USDC; an EXCHANGE_USDC_TO_USD is in USD with a fee of 0.1% of its
    amount, in USD; a PAYOUT is in USD with a fee of 0.2% of its amount, in
    USD. *)
Theorem fees_follow_the_schedule (w : World) (x : Transaction.t) :
  reachable w -> In x w.(transactions) -> onSchedule x.
Proof.
  intros (start & ops & ->).
  assert (H : forall w0, allOnSchedule w0 -> allOnSchedule (run ops w0)).
  { induction ops as [| op ops IH]; intros w0 H0; [exact H0 |].
    cbn [run fold_left]. apply IH. apply exec_allOnSchedule. exact H0. }
  intros Hin.
  assert (Hall : allOnSchedule (run ops (with_clock start emptyWorld))).
  { apply H. constructor. }
  unfold allOnSchedule in Hall. rewrite Forall_forall in Hall.
  exact (Hall x Hin).
Qed.

Lemma fees_follow_the_schedule_witness :
  exists x,
    In x completedWorld.(transactions)
    /\ x.(Transaction.type) = TransactionType.PAYOUT
    /\ (x.(Transaction.amount) == 740)%Q
    /\ onSchedule x.
Proof.
  assert (Hlast : exists x,
             nth_error completedWorld.(transactions) 3 = Some x
             /\ x.(Transaction.type) = TransactionType.PAYOUT
             /\ Qeq_bool x.(Transaction.amount) 740 = true).
  { eexists. split; [compute_lhs |]. split; compute_lhs. }
  destruct Hlast as (x & Hnth & Hty & Hamount).
  exists x. apply nth_error_In in Hnth.
  split; [exact Hnth |]. split; [exact Hty |].
  split; [apply Qeq_bool_iff; exact Hamount |].
  exact (fees_follow_the_schedule completedWorld x
           completedWorld_reachable Hnth).
Defined.

(* ================================================================== *)
(** * Computations that return                                          *)
(* ================================================================== *)

Section Returns.

Lemma returns_ret (P : World -> Prop) {A} (a : A) (Q : A -> World -> Prop) :
  (forall w, P w -> Q a w) -> returns P (ret a) Q.
Proof. intros H w Hw. exists a, w. split; [reflexivity | auto]. Qed.

Lemma returns_gets (P : World -> Prop) {A} (f : World -> A)
    (Q : A -> World -> Prop) :
  (forall w, P w -> Q (f w) w) -> returns P (gets f) Q.
Proof. intros H w Hw. exists (f w), w. split; [reflexivity | auto]. Qed.

Lemma returns_bind (P : World -> Prop) {A B} (c : M A) (k : A -> M B)
    (R : A -> World -> Prop) (Q : B -> World -> Prop) :
  returns P c R -> (forall a, returns (R a) (k a) Q) ->
  returns P (bind c k) Q.
Proof.
  intros Hc Hk w Hw. destruct (Hc w Hw) as (a & w1 & Hrun & Ha).
  destruct (Hk a w1 Ha) as (b & w2 & Hrun2 & Hb).
  exists b, w2. unfold bind. rewrite Hrun. split; assumption.
Qed.

Lemma returns_try_catch (P : World -> Prop) {A} (c : M A)
    (h : Error -> M A) (Q : A -> World -> Prop) :
  returns P c Q -> returns P (try_catch c h) Q.
Proof.
  intros Hc w Hw. destruct (Hc w Hw) as (a & w1 & Hrun & Ha).
  exists a, w1. unfold try_catch. rewrite Hrun. split; [reflexivity | exact Ha].
Qed.

Lemma returns_call (P : World -> Prop) {A} (site : CallSite) (c : M A)
    (Q : A -> World -> Prop) :
  returns P c Q -> returns P (call noFaults site c) Q.
Proof. intros Hc w Hw. exact (Hc w Hw). Qed.


Lemma returns_weaken (P P' : World -> Prop) {A} (c : M A)
    (Q : A -> World -> Prop) :
  (forall w, P' w -> P w) -> returns P c Q -> returns P' c Q.
Proof. intros HP Hc w Hw. exact (Hc w (HP w Hw)). Qed.

(** A computation that keeps [Q] and does not throw from [P] returns in
    [Q]. *)
Lemma returns_kept (P Q : World -> Prop) {A} (c : M A) :
  keeps Q c ->
  (forall w, P w -> Q w /\ exists a w', c w = (Return a, w')) ->
  returns P c (fun _ => Q).
Proof.
  intros Hk Hc w Hw. destruct (Hc w Hw) as (HQ & a & w1 & Hrun).
  exists a, w1. split; [exact Hrun |].
  pose proof (Hk w HQ) as H. rewrite Hrun in H. exact H.
Qed.

End Returns.

(* ================================================================== *)
(** * Webhook handlers on a consistent store                            *)
(* ================================================================== *)





Section ReadyHandlers.

Variables (events owners rows : list Id).








End ReadyHandlers.


Section HandlersReturn.

Variables (eventData : EventData.t) (webhookEventId : Id).

Let start := ready [webhookEventId] [] [].


End HandlersReturn.





Lemma processWebhookEvent_idle (req : WebhookRequest.t) (i : Id)
    (w : World) :
  matchesNothing req w ->
  processWebhookEvent (eventTypeOf req)
    req.(WebhookRequest.body).(CircleWebhookPayload.Data) i w
  = (Return tt, w).
Proof.
  intros Hidle. unfold processWebhookEvent. rewrite try_catch_rethrow.
  assert (Hno : forall ty, In ty handledTypes ->
                           String.eqb (eventTypeOf req) ty = true ->
                           matchedTransaction req w = None
                           /\ matchedPayment req w = None).
  { intros ty Hin Heq. apply String.eqb_eq in Heq.
    destruct Hidle as [Hun | Hnone]; [| exact Hnone].
    exfalso. apply Hun. rewrite Heq. exact Hin. }
  unfold handledTypes in Hno.
  unfold matchedTransaction, matchedPayment, eventCorrelationId in Hno.
  repeat match goal with
         | |- (if String.eqb (eventTypeOf req) ?ty then _ else _) w = _ =>
             let E := fresh "E" in
             destruct (String.eqb (eventTypeOf req) ty) eqn:E;
             [ destruct (Hno ty) as [Htx Hpay];
               [cbn; tauto | exact E |]
             | ]
         end;
    try reflexivity;
    unfold handlePaymentIntentSucceeded, handlePaymentIntentFailed,
      handleTransferCompleted, handleTransferFailed,
      handlePayoutCompleted, handlePayoutFailed,
      bind, prisma.transaction.find, prisma.payment.find, gets;
    rewrite ?Htx, ?Hpay; reflexivity.
Qed.

(** X15. An event that passes the signature gate and has not been
    processed, but is of a type without a case or carries a correlation id
    that matches no payment and no transaction, is answered 200
    [processed] all the same: payments and transactions are left exactly
    as they are, and the event is marked processed, so that a later
    delivery of it is not looked at again. *)
Theorem unmatched_event_is_consumed (webhookSecret : option string)
    (req : WebhookRequest.t) (w : World) :
  signaturePasses webhookSecret req ->
  notYetProcessed req w ->
  matchesNothing req w ->
  let out := webhooks_post_circle webhookSecret req w in
  fst out = processedResponse
  /\ payments (snd out) = payments w
  /\ transactions (snd out) = transactions w
  /\ markedProcessed req (snd out)
  /\ webhooks_post_circle webhookSecret req (snd out)
     = (alreadyProcessedResponse, snd out).
Proof.
  intros Hsig Hnew Hidle out. subst out.
  assert (Hrun : fst (webhooks_post_circle webhookSecret req w)
                 = processedResponse
                 /\ payments (snd (webhooks_post_circle webhookSecret req w))
                    = payments w
                 /\ transactions
                      (snd (webhooks_post_circle webhookSecret req w))
                    = transactions w).
  { destruct (route_dispatches webhookSecret req w Hsig Hnew)
      as (ev & w1 & -> & Hp & Ht & _ & _ & _ & (e & He) & _).
    unfold finishEvent.
    rewrite processWebhookEvent_idle.
    - rewrite (webhookEvent_update_effect _ _ w1 e He).
      cbn [fst snd payments transactions with_webhookEvents].
      repeat split; assumption.
    - unfold matchesNothing, matchedTransaction, matchedPayment in *.
      rewrite Hp, Ht. exact Hidle. }
  destruct Hrun as (Hans & Hp & Ht).
  destruct (processed_answer_marks_row webhookSecret req w Hans)
    as [_ Hmarked].
  repeat (split; [assumption |]).
  destruct (processed_event_is_skipped webhookSecret req _ Hmarked)
    as [Hsame Hresp].
  rewrite (surjective_pairing (webhooks_post_circle webhookSecret req _)).
  rewrite Hsame, (Hresp Hsig). reflexivity.
Qed.

Lemma unmatched_event_is_consumed_witness :
  let req := webhook "payout.completed" "evt_early" "payout-not-yet-known" in
  let out := webhooks_post_circle None req initiatedWorld in
  fst out = processedResponse
  /\ payments (snd out) = payments initiatedWorld
  /\ webhooks_post_circle None req (snd out)
     = (alreadyProcessedResponse, snd out).
Proof.
  intros req.
  assert (Hnew : notYetProcessed req initiatedWorld)
    by (unfold notYetProcessed; compute_lhs).
  assert (Hidle : matchesNothing req initiatedWorld).
  { right. split; [unfold matchedTransaction | unfold matchedPayment];
      compute_lhs. }
  pose proof (unmatched_event_is_consumed None req initiatedWorld
                (no_secret_passes req) Hnew Hidle) as H.
  cbv zeta in H. destruct H as (H1 & H2 & _ & _ & H5).
  repeat split; assumption.
Defined.

(* ================================================================== *)
(** * A flow that meets no failure                                      *)
(* ================================================================== *)

Lemma vendorsAre_flow (rows : list Vendor.t) : FlowClosed (vendorsAre rows).
Proof.
  split.
  - intros i f _ w H. unfold vendorsAre in *.
    destruct (payment_update_frame i f w) as (_ & _ & -> & _). exact H.
  - intros ? ? ? ? ? ? ? ? w H. exact H.
  - intros ? ? ? w H. exact H.
  - intros ? ? w H. exact H.
Qed.

Lemma exec_allBanked (op : Op) (w : World) :
  allBanked w -> allBanked (exec op w).
Proof.
  intros H. unfold allBanked in *.
  destruct op as [name email bank | vid s | uuid req | F rnd pid
                  | secret req | client secret req | ms].
  - cbn. apply Forall_app. split; [exact H |].
    constructor; [discriminate | constructor].
  - cbn. induction H as [| v l Hv _ IH]; [constructor |].
    cbn [prisma.update_where map]. constructor; [| exact IH].
    destruct (prisma.vendor.by_id vid v); exact Hv.
  - cbn [exec].
    destruct (payments_post_outcomes uuid req w)
      as [[_ ->] | [(existing & _ & ->) | (key & request & v & _ & _ & ->)]];
      exact H.
  - cbn [exec].
    destruct (existsb (Nat.eqb pid) (detached w)); [| exact H].
    rewrite (detachedFlow_keeps _ (vendorsAre_flow (vendors w)) F rnd pid
               (with_detached (remove_first pid (detached w)) w) eq_refl).
    exact H.
  - cbn [exec].
    rewrite webhook_keeps_vendors. exact H.
  - cbn [exec].
    rewrite untyped_keeps_vendors. exact H.
  - exact H.
Qed.

Lemma reachable_allBanked (w : World) : reachable w -> allBanked w.
Proof.
  intros (start & ops & ->).
  assert (H : forall w0, allBanked w0 -> allBanked (run ops w0)).
  { induction ops as [| op ops IH]; intros w0 H0; [exact H0 |].
    cbn [run fold_left]. apply IH. apply exec_allBanked. exact H0. }
  apply H. constructor.
Qed.

Lemma reachable_banked (w : World) : reachable w -> banked w.
Proof.
  intros Hreach. unfold banked. rewrite Forall_forall. intros p Hp.
  pose proof (inv_vendors (reachable_invariant w Hreach)) as Hv.
  rewrite Forall_forall in Hv.
  destruct (vendor_found _ w (Hv p Hp)) as (v & Hfound).
  pose proof (reachable_allBanked w Hreach) as Hb.
  unfold allBanked in Hb. rewrite Forall_forall in Hb.
  pose proof (find_some _ _ Hfound) as [Hin _].
  specialize (Hb v Hin).
  destruct (Vendor.bankAccount v) as [bank |] eqn:E; [| contradiction].
  exists v, bank. split; assumption.
Qed.

Lemma recorded_update_where (paymentId : Id) (type : TransactionType.t)
    (sel : Transaction.t -> bool) (f : Transaction.t -> Transaction.t)
    (w : World) :
  txCosmetic f -> recorded paymentId type w ->
  recorded paymentId type
    (with_transactions (prisma.update_where sel f w.(transactions)) w).
Proof.
  intros Hf (x & Hin & Hp & Ht). unfold recorded.
  cbn [transactions with_transactions].
  exists (if sel x then f x else x). split.
  - unfold prisma.update_where.
    apply (in_map (fun y => if sel y then f y else y)). exact Hin.
  - destruct (sel x); [| split; assumption].
    destruct (Hf x) as (_ & -> & -> & _). split; assumption.
Qed.

Lemma banked_update (sel : Payment.t -> bool) (g : Payment.t -> Payment.t)
    (w : World) :
  (forall p, (g p).(Payment.vendorId) = p.(Payment.vendorId)) ->
  banked w ->
  banked (with_payments (prisma.update_where sel g w.(payments)) w).
Proof.
  intros Hg H. unfold banked in *. cbn [payments vendors with_payments].
  induction H as [| p l Hp _ IH]; [constructor |].
  cbn [prisma.update_where map]. constructor; [| exact IH].
  destruct (sel p); [rewrite Hg |]; exact Hp.
Qed.

Lemma underway_flow (paymentId : Id) (types : list TransactionType.t) :
  FlowClosed (underway paymentId types).
Proof.
  split.
  - intros i f Hf w (H1 & H2 & H3).
    unfold prisma.payment.update, bind, prisma.payment.find, now, gets,
      modify, throw.
    destruct (List.find _ (payments w)); cbn [snd];
      [| repeat split; assumption].
    split; [| split].
    + unfold paymentIds. cbn [payments with_payments].
      rewrite update_where_ids; [exact H1 |].
      intros p. cbn. destruct (Hf p) as (Hid & _). exact Hid.
    + apply banked_update; [| exact H2].
      intros p. cbn. destruct (Hf p) as (_ & _ & Hv & _). exact Hv.
    + exact H3.
  - intros ? ? ? ? ? ? ? ? w (H1 & H2 & H3).
    unfold prisma.transaction.create, bind, freshId, now, gets, modify, ret.
    cbn [snd]. split; [exact H1 |]. split; [exact H2 |].
    eapply Forall_impl; [| exact H3]. cbv beta.
    intros ty (x & Hin & Hx). exists x. split; [| exact Hx].
    cbn [transactions with_transactions with_nextId].
    apply in_or_app. left. exact Hin.
  - intros sel f Hf w (H1 & H2 & H3).
    cbn. split; [exact H1 |]. split; [exact H2 |].
    eapply Forall_impl; [| exact H3]. cbv beta.
    intros ty Hty. exact (recorded_update_where _ _ sel f w Hf Hty).
  - intros ms _ w H. exact H.
Qed.

Section FlowReturns.

Variables (rnd : Entropy) (paymentId : Id).

Lemma underway_payment_update (types : list TransactionType.t)
    (f : Payment.t -> Payment.t) :
  paymentIdentity f ->
  returns (underway paymentId types) (prisma.payment.update paymentId f)
          (fun _ => underway paymentId types).
Proof.
  intros Hf.
  apply returns_kept;
    [apply (fc_payment_update (underway_flow paymentId types)); exact Hf |].
  intros w Hw. split; [exact Hw |].
  destruct Hw as (Hin & _).
  destruct (in_ids_found paymentId w Hin) as [p Hp].
  rewrite (payment_update_effect paymentId f w p Hp). eauto.
Qed.

Lemma underway_create (types : list TransactionType.t)
    (type : TransactionType.t) (status : TransactionStatus.t) (amount : Q)
    (currency circleId : string) (fees : option Q)
    (feeCurrency : option string) :
  returns (underway paymentId types)
    (prisma.transaction.create paymentId type status amount currency
       circleId fees feeCurrency)
    (fun _ => underway paymentId (type :: types)).
Proof.
  intros w Hw.
  pose proof (fc_transaction_create (underway_flow paymentId types)
                paymentId type status amount currency circleId fees
                feeCurrency w Hw) as Hkept.
  unfold prisma.transaction.create, bind, freshId, now, gets, modify, ret
    in *.
  cbn [snd] in Hkept. eexists. eexists. split; [reflexivity |].
  destruct Hkept as (H1 & H2 & H3).
  split; [exact H1 |]. split; [exact H2 |]. constructor; [| exact H3].
  unfold recorded. cbn [transactions with_transactions with_nextId].
  eexists. split; [apply in_or_app; right; left; reflexivity |].
  split; reflexivity.
Qed.

Lemma underway_find (types : list TransactionType.t) :
  returns (underway paymentId types)
    (prisma.payment.find (prisma.payment.by_id paymentId))
    (fun found w => underway paymentId types w /\ found <> None).
Proof.
  apply returns_gets. intros w Hw. split; [exact Hw |].
  destruct Hw as (Hin & _).
  destruct (in_ids_found paymentId w Hin) as [p Hp].
  unfold paymentById in Hp. rewrite Hp. discriminate.
Qed.

Lemma underway_findWithTransactions (types : list TransactionType.t)
    (type : TransactionType.t) :
  In type types ->
  returns (underway paymentId types)
    (PaymentService.findWithTransactions paymentId type)
    (fun found w =>
       underway paymentId types w
       /\ exists p x rest,
            found = Some (p, x :: rest) /\ In p (payments w)).
Proof.
  intros Hty w Hw. rewrite (surjective_pairing (_ w)).
  rewrite findWithTransactions_pure.
  destruct Hw as (Hin & Hb & Hrec).
  destruct (in_ids_found paymentId w Hin) as [p Hp].
  pose proof (find_some _ _ Hp) as [Hpin _].
  rewrite Forall_forall in Hrec.
  destruct (Hrec type Hty) as (x & Hx & Hown & Hxty).
  unfold PaymentService.findWithTransactions, bind, prisma.payment.find,
    prisma.transaction.findMany, gets, ret.
  unfold paymentById in Hp. rewrite Hp. cbn [fst].
  assert (Hsel : In x (filter
                         (fun y => prisma.transaction.by_paymentId
                                     paymentId y
                                   && prisma.transaction.by_type type y)
                         (transactions w))).
  { apply filter_In. split; [exact Hx |].
    unfold prisma.transaction.by_paymentId, prisma.transaction.by_type.
    rewrite Hown, Hxty, Nat.eqb_refl. destruct type; reflexivity. }
  destruct (filter _ (transactions w)) as [| y rest]; [contradiction |].
  eexists. eexists. split; [reflexivity |].
  split; [repeat split; try assumption; apply Forall_forall; exact Hrec |].
  exists p, y, rest. split; [reflexivity | exact Hpin].
Qed.

Lemma returns_given (P : World -> Prop) (fact : Prop) {A} (c : M A)
    (Q : A -> World -> Prop) :
  (forall w, P w -> fact) -> (fact -> returns P c Q) -> returns P c Q.
Proof. intros H1 H2 w Hw. exact (H2 (H1 w Hw) w Hw). Qed.

End FlowReturns.

Section FlowStagesReturn.

Variables (rnd : Entropy) (paymentId : Id) (types : list TransactionType.t).

Lemma returns_never (P : World -> Prop) {A} (c : M A)
    (Q : A -> World -> Prop) :
  (forall w, ~ P w) -> returns P c Q.
Proof. intros H w Hw. destruct (H w Hw). Qed.

Ltac found_payment :=
  eapply returns_bind;
  [ apply returns_call, underway_find
  | intros [?payment |];
    [ apply (returns_weaken (underway paymentId types));
      [ intros ? [? _]; assumption | ]
    | apply returns_never; intros ? [_ H]; apply H; reflexivity ] ].

Lemma createCirclePaymentIntent_returns :
  returns (underway paymentId types)
    (PaymentService.createCirclePaymentIntent noFaults rnd paymentId)
    (fun _ => underway paymentId (TransactionType.PAYMENT_IN :: types)).
Proof.
  unfold PaymentService.createCirclePaymentIntent.
  found_payment.
  apply returns_try_catch.
  apply (returns_bind _ now _ (fun _ => underway paymentId types));
    [apply returns_gets; intros ? H; exact H | intros d].
  eapply returns_bind;
    [apply returns_call, underway_payment_update, paymentCosmetic_identity;
     auto with cosmetic
    | intros ?].
  eapply returns_bind; [apply returns_call, underway_create | intros ?].
  apply returns_ret. intros w H. exact H.
Qed.

Lemma simulatePaymentConfirmation_returns (circlePaymentId : string) :
  returns (underway paymentId types)
    (PaymentService.simulatePaymentConfirmation noFaults rnd paymentId
       circlePaymentId)
    (fun _ => underway paymentId types).
Proof.
  apply returns_kept.
  - unfold PaymentService.simulatePaymentConfirmation.
    apply keeps_bind;
      [apply (fc_sleep (underway_flow paymentId types)); lia | intros ?].
    apply keeps_call.
    apply (fc_transaction_updateMany (underway_flow paymentId types)).
    auto with cosmetic.
  - intros w Hw. split; [exact Hw |]. eexists. eexists. reflexivity.
Qed.

Lemma exchangeSgdToUsdc_returns :
  returns (underway paymentId types)
    (PaymentService.exchangeSgdToUsdc noFaults paymentId)
    (fun _ => underway paymentId
                (TransactionType.EXCHANGE_SGD_TO_USDC :: types)).
Proof.
  unfold PaymentService.exchangeSgdToUsdc.
  found_payment.
  apply (returns_bind _ now _ (fun _ => underway paymentId types));
    [apply returns_gets; intros ? H; exact H | intros d].
  eapply returns_bind; [apply returns_call, underway_create | intros ?].
  apply returns_ret. intros w H. exact H.
Qed.

Lemma exchangeUsdcToUsd_returns :
  In TransactionType.EXCHANGE_SGD_TO_USDC types ->
  returns (underway paymentId types)
    (PaymentService.exchangeUsdcToUsd noFaults paymentId)
    (fun _ => underway paymentId
                (TransactionType.EXCHANGE_USDC_TO_USD :: types)).
Proof.
  intros Hty. unfold PaymentService.exchangeUsdcToUsd.
  eapply returns_bind;
    [apply returns_call, underway_findWithTransactions; exact Hty
    | intros found].
  apply (returns_given _ (exists p x rest, found = Some (p, x :: rest)));
    [intros w (_ & p & x & rest & H & _); eauto |].
  intros (p & x & rest & ->).
  apply (returns_weaken (underway paymentId types));
    [intros ? [? _]; assumption |].
  apply (returns_bind _ now _ (fun _ => underway paymentId types));
    [apply returns_gets; intros ? H; exact H | intros d].
  eapply returns_bind; [apply returns_call, underway_create | intros ?].
  apply returns_call, underway_payment_update.
  apply set_amountUsd_identity.
Qed.

Lemma payoutToVendor_returns :
  In TransactionType.EXCHANGE_USDC_TO_USD types ->
  returns (underway paymentId types)
    (PaymentService.payoutToVendor noFaults paymentId)
    (fun _ => underway paymentId (TransactionType.PAYOUT :: types)).
Proof.
  intros Hty. unfold PaymentService.payoutToVendor.
  eapply returns_bind;
    [apply returns_call, underway_findWithTransactions; exact Hty
    | intros found].
  apply (returns_given _ (exists p x rest, found = Some (p, x :: rest)));
    [intros w (_ & p & x & rest & H & _); eauto |].
  intros (p & x & rest & ->).
  apply (returns_bind _ _ _
           (fun vendor w =>
              underway paymentId types w
              /\ exists v bank,
                   vendor = Some v /\ v.(Vendor.bankAccount) = Some bank)).
  { apply returns_gets. intros w (Hw & p' & x' & rest' & Heq & Hin).
    injection Heq as <- <- <-. split; [exact Hw |].
    destruct Hw as (_ & Hb & _). unfold banked in Hb.
    rewrite Forall_forall in Hb.
    destruct (Hb p Hin) as (v & bank & Hv & Hbank).
    exists v, bank. split; assumption. }
  intros vendor.
  apply (returns_given _ (exists v bank,
                             vendor = Some v
                             /\ v.(Vendor.bankAccount) = Some bank));
    [intros w (_ & H); exact H |].
  intros (v & bank & -> & Hbank). rewrite Hbank.
  apply (returns_weaken (underway paymentId types));
    [intros ? [? _]; assumption |].
  apply returns_try_catch.
  apply (returns_bind _ now _ (fun _ => underway paymentId types));
    [apply returns_gets; intros ? H; exact H | intros d].
  eapply returns_bind; [apply returns_call, underway_create | intros ?].
  apply (returns_bind _ now _
           (fun _ => underway paymentId (TransactionType.PAYOUT :: types)));
    [apply returns_gets; intros ? H; exact H | intros d'].
  apply returns_call, underway_payment_update.
  apply paymentCosmetic_identity. auto with cosmetic.
Qed.

End FlowStagesReturn.

Lemma flowSteps_returns (rnd : Entropy) (paymentId : Id) :
  returns (underway paymentId [])
          (flowSteps noFaults rnd paymentId)
          (fun _ => underway paymentId
                      [ TransactionType.PAYOUT;
                        TransactionType.EXCHANGE_USDC_TO_USD;
                        TransactionType.EXCHANGE_SGD_TO_USDC;
                        TransactionType.PAYMENT_IN ]).
Proof.
  unfold flowSteps, PaymentService.updatePaymentStatus.
  eapply returns_bind;
    [apply returns_call, underway_payment_update, set_status_identity
    | intros ?].
  eapply returns_bind;
    [apply createCirclePaymentIntent_returns | intros intent].
  eapply returns_bind;
    [apply simulatePaymentConfirmation_returns | intros ?].
  eapply returns_bind; [apply exchangeSgdToUsdc_returns | intros ?].
  eapply returns_bind;
    [apply exchangeUsdcToUsd_returns; left; reflexivity | intros ?].
  eapply returns_bind;
    [apply payoutToVendor_returns; left; reflexivity | intros ?].
  apply returns_call, underway_payment_update, set_status_identity.
Qed.

(** X16. In a store the system can reach, the flow of a payment that is
    waiting to be started runs to its end when none of its awaited calls
    is rejected: it returns normally, the payment is COMPLETED, and its
    transactions are the four of the pipeline, in pipeline order.  The
    status of the vendor is not looked at again: the flow completes as
    well when the vendor has been set INACTIVE since the payment was
    initiated. *)
Theorem flow_completes (rnd : Entropy) (paymentId : Id) (w : World) :
  reachable w ->
  In paymentId w.(detached) ->
  exists w2,
    PaymentService.processPaymentFlow noFaults rnd paymentId
      (with_detached (remove_first paymentId w.(detached)) w)
    = (Return tt, w2)
    /\ exec (OpFlow noFaults rnd paymentId) w = w2
    /\ statusOf paymentId w2 = Some PaymentStatus.COMPLETED
    /\ map Transaction.type (ownedBy paymentId w2) = pipelineTypes.
Proof.
  intros Hreach Hwait.
  pose proof (reachable_invariant w Hreach) as Hinv.
  set (w0 := with_detached (remove_first paymentId (detached w)) w).
  assert (Hstart : underway paymentId [] w0).
  { split; [| split; [exact (reachable_banked w Hreach) | constructor]].
    pose proof (inv_detached Hinv) as Hd. rewrite Forall_forall in Hd.
    destruct (Hd paymentId Hwait) as [Hin _]. exact Hin. }
  destruct (flowSteps_returns rnd paymentId w0 Hstart)
    as ([] & w2 & Hsteps & _).
  assert (Hflow : PaymentService.processPaymentFlow noFaults rnd paymentId w0
                  = (Return tt, w2)).
  { change (try_catch (flowSteps noFaults rnd paymentId)
              (fun error =>
                 call noFaults CatchSetFailed
                   (PaymentService.updatePaymentStatus paymentId
                      PaymentStatus.FAILED) ;;
                 throw error) w0 = (Return tt, w2)).
    unfold try_catch. rewrite Hsteps. reflexivity. }
  exists w2. split; [exact Hflow |].
  destruct (flow_settles noFaults rnd paymentId w w2 Hinv Hwait Hflow)
    as (_ & _ & Hty & _ & Hstatus).
  split; [| split; assumption].
  cbn [exec].
  assert (Hex : existsb (Nat.eqb paymentId) (detached w) = true).
  { apply existsb_exists. exists paymentId. split; [exact Hwait |].
    apply Nat.eqb_refl. }
  rewrite Hex. unfold PaymentService.detachedFlow, try_catch.
  fold w0. rewrite Hflow. reflexivity.
Qed.

Lemma deactivatedWorld_reachable : reachable deactivatedWorld.
Proof.
  unfold deactivatedWorld. apply reachable_run.
  exact initiatedWorld_reachable.
Qed.

Lemma flow_completes_witness :
  (exists v,
      List.find (prisma.vendor.by_id 0) deactivatedWorld.(vendors) = Some v
      /\ v.(Vendor.status) = VendorStatus.INACTIVE)
  /\ exists w2,
       exec (OpFlow noFaults exampleEntropy 1) deactivatedWorld = w2
       /\ statusOf 1 w2 = Some PaymentStatus.COMPLETED.
Proof.
  split.
  - eexists. split; [compute_lhs | reflexivity].
  - assert (Hwaiting : detached deactivatedWorld = [1]) by compute_lhs.
    assert (Hwait : In 1 (detached deactivatedWorld)).
    { rewrite Hwaiting. left. reflexivity. }
    destruct (flow_completes exampleEntropy 1 deactivatedWorld
                deactivatedWorld_reachable Hwait)
      as (w2 & _ & Hexec & Hstatus & _).
    exists w2. split; assumption.
Defined.

(* ================================================================== *)
(** * Where a run of the flow stops                                     *)
(* ================================================================== *)


Section Ends.

Context {A B : Type}.






End Ends.




Section Track.

Variables (F : Faults) (rnd : Entropy) (paymentId : Id) (w0 : World).



End Track.







Section TrackSteps.

Variables (F : Faults) (rnd : Entropy) (paymentId : Id) (w0 : World).








End TrackSteps.

Section FlowEnds.

Variables (F : Faults) (rnd : Entropy) (paymentId : Id) (w0 : World).











End FlowEnds.




(** When the store stops answering in the middle of the flow, the step
    that waits for the confirmation raises an error, and both updates to
    FAILED are rejected with it: the detached flow returns, and the
    payment is left PROCESSING with its one transaction. *)
Lemma C5_failed_mark_can_be_lost :
  exists e w',
    PaymentService.processPaymentFlow outageFaults exampleEntropy 1
      initiatedWorld = (Throw e, w')
    /\ PaymentService.detachedFlow outageFaults exampleEntropy 1
         initiatedWorld = (Return tt, w')
    /\ statusOf 1 w' = Some PaymentStatus.PROCESSING
    /\ statusOf 1 w' <> Some PaymentStatus.FAILED
    /\ map Transaction.type (transactions w')
       = [ TransactionType.PAYMENT_IN ].
Proof.
  eexists. eexists. split; [compute_lhs |].
  split; [compute_lhs |]. split; [compute_lhs |].
  split; [| compute_lhs].
  intros H.
  assert (H' : statusOf 1
                 (snd (PaymentService.detachedFlow outageFaults
                         exampleEntropy 1 initiatedWorld))
               = Some PaymentStatus.PROCESSING) by compute_lhs.
  cbn [snd] in H'.
  match type of H with
  | statusOf 1 ?w = _ =>
      assert (Hw : snd (PaymentService.detachedFlow outageFaults
                          exampleEntropy 1 initiatedWorld) = w)
        by compute_lhs;
      rewrite Hw in H'; rewrite H' in H; discriminate H
  end.
Qed.


(* ================================================================== *)
(** * The remaining webhook handlers                                    *)
(* ================================================================== *)

(** The route around a handler that returns: the answer is [processed],
    and payments and transactions are as the handler leaves them. *)
Lemma route_finishes (webhookSecret : option string) (req : WebhookRequest.t)
    (w : World) (P : list Payment.t) (T : list Transaction.t) :
  signaturePasses webhookSecret req ->
  notYetProcessed req w ->
  (forall i w1,
      payments w1 = payments w ->
      transactions w1 = transactions w ->
      clock w1 = clock w ->
      (exists e, List.find (prisma.webhookEvent.by_id i) w1.(webhookEvents)
                 = Some e) ->
      exists w2,
        processWebhookEvent (eventTypeOf req)
          req.(WebhookRequest.body).(CircleWebhookPayload.Data) i w1
        = (Return tt, w2)
        /\ payments w2 = P
        /\ transactions w2 = T
        /\ exists e', List.find (prisma.webhookEvent.by_id i)
                                w2.(webhookEvents) = Some e') ->
  fst (webhooks_post_circle webhookSecret req w) = processedResponse
  /\ payments (snd (webhooks_post_circle webhookSecret req w)) = P
  /\ transactions (snd (webhooks_post_circle webhookSecret req w)) = T.
Proof.
  intros Hsig Hnew Hhandler.
  destruct (route_dispatches webhookSecret req w Hsig Hnew)
    as (ev & w1 & -> & Hpay & Htxs & _ & Hclock & _ & He & _).
  destruct (Hhandler ev.(WebhookEvent.id) w1 Hpay Htxs Hclock He)
    as (w2 & Hrun & HP & HT & [e2 He2]).
  unfold finishEvent. rewrite Hrun.
  erewrite webhookEvent_update_effect by exact He2.
  cbn [fst snd payments transactions with_webhookEvents].
  repeat split; assumption.
Qed.

Lemma event_after_update (i j : Id) (f : WebhookEvent.t -> WebhookEvent.t)
    (l : list WebhookEvent.t) (e : WebhookEvent.t) :
  (forall x, (f x).(WebhookEvent.id) = x.(WebhookEvent.id)) ->
  List.find (prisma.webhookEvent.by_id i) l = Some e ->
  exists e',
    List.find (prisma.webhookEvent.by_id i)
              (prisma.update_where (prisma.webhookEvent.by_id j) f l)
    = Some e'.
Proof.
  intros Hf He. rewrite find_update_where.
  - rewrite He. cbn [option_map]. eauto.
  - intros x. unfold prisma.webhookEvent.by_id. rewrite Hf. reflexivity.
Qed.

Lemma handlePayoutFailed_effect (d : EventData.t) (evId : Id) (w : World)
    (tx : Transaction.t) (p : Payment.t) (e : WebhookEvent.t) :
  List.find (prisma.transaction.by_circleTransactionId d.(EventData.id))
            w.(transactions) = Some tx ->
  paymentById tx.(Transaction.paymentId) w = Some p ->
  List.find (prisma.webhookEvent.by_id evId) w.(webhookEvents) = Some e ->
  exists w2,
    handlePayoutFailed d evId w = (Return tt, w2)
    /\ payments w2
       = prisma.update_where
           (prisma.payment.by_id tx.(Transaction.paymentId))
           (fun p => Payment.touch w.(clock)
                       (Payment.set_status PaymentStatus.FAILED p))
           w.(payments)
    /\ transactions w2
       = prisma.update_where
           (prisma.transaction.by_id tx.(Transaction.id))
           (Transaction.set_status TransactionStatus.FAILED)
           w.(transactions)
    /\ (exists e', List.find (prisma.webhookEvent.by_id evId)
                             w2.(webhookEvents) = Some e').
Proof.
  intros Htx Hp He.
  destruct (found_transaction_has_id _ _ _ Htx) as [y Hy].
  unfold handlePayoutFailed.
  unfold bind at 1. unfold prisma.transaction.find at 1. unfold gets at 1.
  rewrite Htx.
  unfold bind at 1. erewrite transaction_update_effect by exact Hy.
  unfold bind at 1.
  erewrite payment_update_effect by exact Hp.
  erewrite webhookEvent_update_effect by exact He.
  eexists. split; [reflexivity |].
  cbn [transactions payments clock webhookEvents with_webhookEvents
       with_payments with_transactions].
  repeat split.
  apply (event_after_update _ _ _ _ e); [intros []; reflexivity | exact He].
Qed.

Lemma dispatch_payout_failed (ty : string) (d : EventData.t) (i : Id)
    (w : World) :
  ty = "payout.failed" ->
  processWebhookEvent ty d i w = handlePayoutFailed d i w.
Proof.
  intros ->. unfold processWebhookEvent. rewrite try_catch_rethrow.
  reflexivity.
Qed.

Lemma status_after_update (i : Id) (g : Payment.t -> Payment.t)
    (l : list Payment.t) (p : Payment.t) :
  (forall q, (g q).(Payment.id) = q.(Payment.id)) ->
  List.find (prisma.payment.by_id i) l = Some p ->
  List.find (prisma.payment.by_id i)
            (prisma.update_where (prisma.payment.by_id i) g l)
  = Some (g p).
Proof.
  intros Hg Hp. rewrite find_update_where.
  - rewrite Hp. cbn [option_map].
    apply find_some in Hp. destruct Hp as [_ Hp]. rewrite Hp. reflexivity.
  - intros q. unfold prisma.payment.by_id. rewrite Hg. reflexivity.
Qed.

Lemma row_after_update (i : Id) (f : Transaction.t -> Transaction.t)
    (l : list Transaction.t) (x : Transaction.t) :
  (forall y, (f y).(Transaction.id) = y.(Transaction.id)) ->
  List.find (prisma.transaction.by_id i) l = Some x ->
  List.find (prisma.transaction.by_id i)
            (prisma.update_where (prisma.transaction.by_id i) f l)
  = Some (f x).
Proof.
  intros Hf Hx. rewrite find_update_where.
  - rewrite Hx. cbn [option_map].
    apply find_some in Hx. destruct Hx as [_ Hx]. rewrite Hx. reflexivity.
  - intros y. unfold prisma.transaction.by_id. rewrite Hf. reflexivity.
Qed.

(** X17. An authentic, unprocessed [payout.failed] event whose correlation
    id matches a transaction marks that transaction FAILED and its payment
    FAILED -- whatever the type of the transaction (the handler does not
    test for PAYOUT, as the one for [transfer.failed] does) and whatever
    the status of the payment was; the payment keeps its amounts, and its
    settlement time if it had one. *)
Theorem payout_failed_fails_the_payment
    (webhookSecret : option string) (req : WebhookRequest.t) (w : World)
    (tx : Transaction.t) (p : Payment.t) :
  signaturePasses webhookSecret req ->
  notYetProcessed req w ->
  eventTypeOf req = "payout.failed" ->
  matchedTransaction req w = Some tx ->
  paymentById tx.(Transaction.paymentId) w = Some p ->
  let out := webhooks_post_circle webhookSecret req w in
  fst out = processedResponse
  /\ (exists tx',
         transactionById tx.(Transaction.id) (snd out) = Some tx'
         /\ tx'.(Transaction.status) = TransactionStatus.FAILED)
  /\ (exists p',
         paymentById tx.(Transaction.paymentId) (snd out) = Some p'
         /\ p'.(Payment.status) = PaymentStatus.FAILED
         /\ p'.(Payment.amountUsd) = p.(Payment.amountUsd)
         /\ p'.(Payment.actualSettlementTime)
            = p.(Payment.actualSettlementTime)).
Proof.
  intros Hsig Hnew Hty Htx Hp out. subst out.
  destruct (route_finishes webhookSecret req w
              (prisma.update_where
                 (prisma.payment.by_id tx.(Transaction.paymentId))
                 (fun p => Payment.touch w.(clock)
                             (Payment.set_status PaymentStatus.FAILED p))
                 w.(payments))
              (prisma.update_where
                 (prisma.transaction.by_id tx.(Transaction.id))
                 (Transaction.set_status TransactionStatus.FAILED)
                 w.(transactions))
              Hsig Hnew) as (Hans & HP & HT).
  { intros i w1 Hpay Htxs Hclock [e He].
    rewrite (dispatch_payout_failed _ _ _ _ Hty).
    rewrite <- Hpay, <- Htxs, <- Hclock.
    apply (handlePayoutFailed_effect _ _ _ tx p e); [| | exact He].
    - unfold matchedTransaction, eventCorrelationId in Htx.
      rewrite Htxs. exact Htx.
    - unfold paymentById in *. rewrite Hpay. exact Hp. }
  split; [exact Hans |].
  unfold transactionById, paymentById. rewrite HP, HT.
  split.
  - destruct (found_transaction_has_id _ _ _ Htx) as [y Hy].
    rewrite (row_after_update _ _ _ y) by (try exact Hy; intros []; reflexivity).
    eexists. split; reflexivity.
  - rewrite (status_after_update _ _ _ p)
      by (try exact Hp; intros []; reflexivity).
    eexists. repeat split.
Qed.

Lemma payout_failed_fails_the_payment_witness :
  let req :=
    webhook "payout.failed" "evt_3" "exchange-sgd-usdc-1700000002000" in
  exists tx p p',
    matchedTransaction req completedWorld = Some tx
    /\ tx.(Transaction.type) = TransactionType.EXCHANGE_SGD_TO_USDC
    /\ paymentById tx.(Transaction.paymentId) completedWorld = Some p
    /\ p.(Payment.status) = PaymentStatus.COMPLETED
    /\ paymentById tx.(Transaction.paymentId)
                   (snd (webhooks_post_circle None req completedWorld))
       = Some p'
    /\ p'.(Payment.status) = PaymentStatus.FAILED.
Proof.
  intros req.
  assert (Hfacts : exists tx p,
             matchedTransaction req completedWorld = Some tx
             /\ tx.(Transaction.type) = TransactionType.EXCHANGE_SGD_TO_USDC
             /\ paymentById tx.(Transaction.paymentId) completedWorld = Some p
             /\ p.(Payment.status) = PaymentStatus.COMPLETED).
  { eexists. eexists. split; [compute_lhs |]. split; [reflexivity |].
    split; [compute_lhs | reflexivity]. }
  destruct Hfacts as (tx & p & Htx & Hty & Hp & Hst).
  assert (Hnew : notYetProcessed req completedWorld)
    by (unfold notYetProcessed; compute_lhs).
  pose proof (payout_failed_fails_the_payment None req completedWorld tx p
                (no_secret_passes req) Hnew eq_refl Htx Hp) as H.
  cbv zeta in H. destruct H as (_ & _ & p' & Hp' & Hst' & _).
  exists tx, p, p'. repeat (split; [assumption |]). exact Hst'.
Defined.

Lemma dispatch_payment_intent_failed (ty : string) (d : EventData.t) (i : Id)
    (w : World) :
  ty = "payment_intent.failed" ->
  processWebhookEvent ty d i w = handlePaymentIntentFailed d i w.
Proof.
  intros ->. unfold processWebhookEvent. rewrite try_catch_rethrow.
  reflexivity.
Qed.

Lemma dispatch_payment_intent_succeeded (ty : string) (d : EventData.t)
    (i : Id) (w : World) :
  ty = "payment_intent.succeeded" ->
  processWebhookEvent ty d i w = handlePaymentIntentSucceeded d i w.
Proof.
  intros ->. unfold processWebhookEvent. rewrite try_catch_rethrow.
  reflexivity.
Qed.


Lemma handlePaymentIntentFailed_effect (d : EventData.t) (evId : Id)
    (w : World) (p q : Payment.t) (e : WebhookEvent.t) :
  List.find (prisma.payment.by_circlePaymentId d.(EventData.id))
            w.(payments) = Some p ->
  paymentById p.(Payment.id) w = Some q ->
  List.find (prisma.webhookEvent.by_id evId) w.(webhookEvents) = Some e ->
  exists w2,
    handlePaymentIntentFailed d evId w = (Return tt, w2)
    /\ payments w2
       = prisma.update_where
           (prisma.payment.by_id p.(Payment.id))
           (fun p => Payment.touch w.(clock)
                       (Payment.set_status PaymentStatus.FAILED p))
           w.(payments)
    /\ transactions w2
       = prisma.update_where
           (fun x => prisma.transaction.by_paymentId p.(Payment.id) x
                     && prisma.transaction.by_circleTransactionId
                          d.(EventData.id) x)
           (Transaction.set_status TransactionStatus.FAILED)
           w.(transactions)
    /\ (exists e', List.find (prisma.webhookEvent.by_id evId)
                             w2.(webhookEvents) = Some e').
Proof.
  intros Hp Hq He.
  unfold handlePaymentIntentFailed.
  unfold bind at 1. unfold prisma.payment.find at 1. unfold gets at 1.
  rewrite Hp.
  unfold bind at 1. unfold prisma.transaction.updateMany at 1.
  unfold modify at 1.
  unfold bind at 1.
  erewrite payment_update_effect by exact Hq.
  erewrite webhookEvent_update_effect by exact He.
  eexists. split; [reflexivity |].
  cbn [transactions payments clock webhookEvents with_webhookEvents
       with_payments with_transactions].
  repeat split.
  apply (event_after_update _ _ _ _ e); [intros []; reflexivity | exact He].
Qed.

Lemma handlePaymentIntentSucceeded_effect (d : EventData.t) (evId : Id)
    (w : World) (p : Payment.t) (e : WebhookEvent.t) :
  List.find (prisma.payment.by_circlePaymentId d.(EventData.id))
            w.(payments) = Some p ->
  List.find (prisma.webhookEvent.by_id evId) w.(webhookEvents) = Some e ->
  exists w2,
    handlePaymentIntentSucceeded d evId w = (Return tt, w2)
    /\ payments w2 = payments w
    /\ transactions w2
       = prisma.update_where
           (fun x => prisma.transaction.by_paymentId p.(Payment.id) x
                     && prisma.transaction.by_circleTransactionId
                          d.(EventData.id) x)
           (fun x => Transaction.set_blockchainTxHash
                       d.(EventData.transactionHash)
                       (Transaction.set_status TransactionStatus.CONFIRMED x))
           w.(transactions)
    /\ (exists e', List.find (prisma.webhookEvent.by_id evId)
                             w2.(webhookEvents) = Some e').
Proof.
  intros Hp He.
  unfold handlePaymentIntentSucceeded.
  unfold bind at 1. unfold prisma.payment.find at 1. unfold gets at 1.
  rewrite Hp.
  unfold bind at 1. unfold prisma.transaction.updateMany at 1.
  unfold modify at 1.
  erewrite webhookEvent_update_effect by exact He.
  eexists. split; [reflexivity |].
  cbn [transactions payments clock webhookEvents with_webhookEvents
       with_payments with_transactions].
  repeat split.
  apply (event_after_update _ _ _ _ e); [intros []; reflexivity | exact He].
Qed.


(** X18. An authentic, unprocessed [payment_intent.failed] event whose
    correlation id is the provider id of a payment marks that payment
    FAILED, whatever its status was, and marks FAILED exactly those of its
    transactions that carry the same provider id; every other transaction
    is left as it is. *)
Theorem payment_intent_failed_fails_the_payment
    (webhookSecret : option string) (req : WebhookRequest.t) (w : World)
    (p : Payment.t) :
  signaturePasses webhookSecret req ->
  notYetProcessed req w ->
  eventTypeOf req = "payment_intent.failed" ->
  matchedPayment req w = Some p ->
  let out := webhooks_post_circle webhookSecret req w in
  fst out = processedResponse
  /\ (exists p',
         paymentById p.(Payment.id) (snd out) = Some p'
         /\ p'.(Payment.status) = PaymentStatus.FAILED)
  /\ transactions (snd out)
     = prisma.update_where
         (intentTransactions p.(Payment.id) (eventCorrelationId req))
         (Transaction.set_status TransactionStatus.FAILED)
         w.(transactions).
Proof.
  intros Hsig Hnew Hty Hp out. subst out.
  unfold matchedPayment in Hp.
  assert (Hq : exists q, paymentById p.(Payment.id) w = Some q).
  { apply find_some in Hp. destruct Hp as [Hin _].
    apply (find_In_some _ _ p Hin). apply Nat.eqb_refl. }
  destruct Hq as [q Hq].
  destruct (route_finishes webhookSecret req w
              (prisma.update_where
                 (prisma.payment.by_id p.(Payment.id))
                 (fun p => Payment.touch w.(clock)
                             (Payment.set_status PaymentStatus.FAILED p))
                 w.(payments))
              (prisma.update_where
                 (intentTransactions p.(Payment.id) (eventCorrelationId req))
                 (Transaction.set_status TransactionStatus.FAILED)
                 w.(transactions))
              Hsig Hnew) as (Hans & HP & HT).
  { intros i w1 Hpay Htxs Hclock [e He].
    rewrite (dispatch_payment_intent_failed _ _ _ _ Hty).
    rewrite <- Hpay, <- Htxs, <- Hclock.
    apply (handlePaymentIntentFailed_effect _ _ _ p q e); [| | exact He].
    - rewrite Hpay. exact Hp.
    - unfold paymentById in *. rewrite Hpay. exact Hq. }
  split; [exact Hans |]. split; [| exact HT].
  unfold paymentById. rewrite HP.
  rewrite (status_after_update _ _ _ q)
    by (try exact Hq; intros []; reflexivity).
  eexists. split; reflexivity.
Qed.

(** X19. An authentic, unprocessed [payment_intent.succeeded] event whose
    correlation id is the provider id of a payment marks CONFIRMED exactly
    those transactions of the payment that carry the same provider id,
    storing the transaction hash of the event if it has one; the payment
    table is left exactly as it is: the status of the payment does not
    move. *)
Theorem payment_intent_succeeded_confirms
    (webhookSecret : option string) (req : WebhookRequest.t) (w : World)
    (p : Payment.t) :
  signaturePasses webhookSecret req ->
  notYetProcessed req w ->
  eventTypeOf req = "payment_intent.succeeded" ->
  matchedPayment req w = Some p ->
  let out := webhooks_post_circle webhookSecret req w in
  fst out = processedResponse
  /\ payments (snd out) = payments w
  /\ transactions (snd out)
     = prisma.update_where
         (intentTransactions p.(Payment.id) (eventCorrelationId req))
         (fun x =>
            Transaction.set_blockchainTxHash
              req.(WebhookRequest.body).(CircleWebhookPayload.Data)
                 .(EventData.transactionHash)
              (Transaction.set_status TransactionStatus.CONFIRMED x))
         w.(transactions).
Proof.
  intros Hsig Hnew Hty Hp out. subst out.
  unfold matchedPayment in Hp.
  apply (route_finishes webhookSecret req w _ _ Hsig Hnew).
  intros i w1 Hpay Htxs Hclock [e He].
  rewrite (dispatch_payment_intent_succeeded _ _ _ _ Hty).
  rewrite <- Hpay, <- Htxs.
  apply (handlePaymentIntentSucceeded_effect _ _ _ p e); [| exact He].
  rewrite Hpay. exact Hp.
Qed.


Lemma payment_intent_failed_fails_the_payment_witness :
  let req :=
    webhook "payment_intent.failed" "evt_4" "pi_1700000000000_k3j9x0a1b" in
  exists p p',
    matchedPayment req completedWorld = Some p
    /\ p.(Payment.status) = PaymentStatus.COMPLETED
    /\ paymentById p.(Payment.id)
                   (snd (webhooks_post_circle None req completedWorld))
       = Some p'
    /\ p'.(Payment.status) = PaymentStatus.FAILED.
Proof.
  intros req.
  assert (Hfacts : exists p,
             matchedPayment req completedWorld = Some p
             /\ p.(Payment.status) = PaymentStatus.COMPLETED).
  { eexists. split; [unfold matchedPayment; compute_lhs | reflexivity]. }
  destruct Hfacts as (p & Hp & Hst).
  assert (Hnew : notYetProcessed req completedWorld)
    by (unfold notYetProcessed; compute_lhs).
  pose proof (payment_intent_failed_fails_the_payment None req
                completedWorld p (no_secret_passes req) Hnew eq_refl Hp)
    as H.
  cbv zeta in H. destruct H as (_ & (p' & Hp' & Hst') & _).
  exists p, p'. repeat (split; [assumption |]). exact Hst'.
Defined.

Lemma payment_intent_succeeded_confirms_witness :
  let req :=
    webhook "payment_intent.succeeded" "evt_5" "pi_1700000000000_k3j9x0a1b" in
  let out := webhooks_post_circle None req intentWorld in
  statusOf 1 intentWorld = Some PaymentStatus.FAILED
  /\ map Transaction.status intentWorld.(transactions)
     = [TransactionStatus.PENDING]
  /\ fst out = processedResponse
  /\ payments (snd out) = payments intentWorld
  /\ map Transaction.status (transactions (snd out))
     = [TransactionStatus.CONFIRMED].
Proof.
  intros req.
  assert (Hfacts : exists p,
             matchedPayment req intentWorld = Some p
             /\ p.(Payment.id) = 1).
  { eexists. split; [unfold matchedPayment; compute_lhs | reflexivity]. }
  destruct Hfacts as (p & Hp & Hid).
  assert (Hnew : notYetProcessed req intentWorld)
    by (unfold notYetProcessed; compute_lhs).
  pose proof (payment_intent_succeeded_confirms None req intentWorld p
                (no_secret_passes req) Hnew eq_refl Hp) as H.
  cbv zeta in H. destruct H as (Hans & Hpay & Htx).
  split; [compute_lhs |]. split; [compute_lhs |].
  split; [exact Hans |]. split; [exact Hpay |].
  rewrite Htx, Hid. compute_lhs.
Defined.


(* ================================================================== *)
(** * Reading a payment                                                 *)
(* ================================================================== *)

Lemma not_in_ids_missing (i : Id) (w : World) :
  ~ In i (paymentIds w) -> paymentById i w = None.
Proof.
  intros H. destruct (paymentById i w) as [p |] eqn:E; [| reflexivity].
  exfalso. apply H. exact (proj1 (found_in_ids i w p E)).
Qed.

Lemma insertByCreatedAt_length (x : Transaction.t) (l : list Transaction.t) :
  List.length (PaymentService.insertByCreatedAt x l) = S (List.length l).
Proof.
  induction l as [| y l IH]; [reflexivity |].
  cbn [PaymentService.insertByCreatedAt].
  destruct (Transaction.createdAt x <=? Transaction.createdAt y)%Z;
    cbn [List.length]; [reflexivity | rewrite IH; reflexivity].
Qed.

Lemma orderByCreatedAt_length (l : list Transaction.t) :
  List.length (PaymentService.orderByCreatedAt l) = List.length l.
Proof.
  induction l as [| x l IH]; [reflexivity |].
  unfold PaymentService.orderByCreatedAt in *. cbn [fold_right].
  rewrite insertByCreatedAt_length, IH. reflexivity.
Qed.

(** X21. In a store the system can reach, [GET /payments/:paymentId]
    answers 200 exactly for the ids of stored payments and 404 for every
    other id, never 500, and changes nothing.  The 200 answer shows the
    stored status and amounts of the payment and one entry for each of its
    transactions, the earliest first. *)
Theorem payments_get_answers (paymentId : Id) (w : World) :
  reachable w ->
  snd (payments_get paymentId w) = w
  /\ (~ In paymentId (paymentIds w) ->
      fst (payments_get paymentId w)
      = (404, StatusFailure "Payment not found"))
  /\ (In paymentId (paymentIds w) ->
      exists r p,
        fst (payments_get paymentId w) = (200, StatusData r)
        /\ paymentById paymentId w = Some p
        /\ r.(PaymentStatusResponse.status) = p.(Payment.status)
        /\ r.(PaymentStatusResponse.amountSgd) = p.(Payment.amountSgd)
        /\ r.(PaymentStatusResponse.amountUsd) = p.(Payment.amountUsd)
        /\ List.length r.(PaymentStatusResponse.transactions)
           = List.length (ownedBy paymentId w)
        /\ StronglySorted Z.le
             (map TransactionSummary.createdAt
                  r.(PaymentStatusResponse.transactions))).
Proof.
  intros Hreach.
  pose proof (reachable_invariant w Hreach) as Hinv.
  assert (Hcases : ~ In paymentId (paymentIds w)
                   \/ In paymentId (paymentIds w)).
  { destruct (in_dec Nat.eq_dec paymentId (paymentIds w)); tauto. }
  unfold payments_get.
  destruct Hcases as [Hout | Hin].
  - pose proof (not_in_ids_missing paymentId w Hout) as Hnone.
    unfold PaymentService.getPaymentStatus, bind, prisma.payment.find, gets,
      throw.
    unfold paymentById in Hnone. rewrite Hnone. cbn.
    split; [reflexivity |]. split; [reflexivity | contradiction].
  - destruct (in_ids_found paymentId w Hin) as (p & Hp).
    destruct (found_in_ids paymentId w p Hp) as (_ & Hpin & _).
    pose proof (inv_vendors Hinv) as Hv. rewrite Forall_forall in Hv.
    destruct (vendor_found _ w (Hv p Hpin)) as (v & Hfound).
    assert (Hrun : exists r,
               PaymentService.getPaymentStatus paymentId w = (Return r, w)
               /\ r.(PaymentStatusResponse.transactions)
                  = map PaymentService.summary
                      (PaymentService.orderByCreatedAt (ownedBy paymentId w))
               /\ r.(PaymentStatusResponse.status) = p.(Payment.status)
               /\ r.(PaymentStatusResponse.amountSgd) = p.(Payment.amountSgd)
               /\ r.(PaymentStatusResponse.amountUsd)
                  = p.(Payment.amountUsd)).
    { unfold PaymentService.getPaymentStatus, bind, prisma.payment.find,
        prisma.vendor.find, prisma.transaction.findMany, gets, ret.
      unfold paymentById in Hp. rewrite Hp, Hfound.
      eexists. split; [reflexivity |]. repeat split. }
    destruct Hrun as (r & Hrun & Htxs & Hst & Hsgd & Husd).
    rewrite Hrun. cbn [fst snd].
    split; [reflexivity |]. split; [contradiction |].
    intros _. exists r, p. repeat (split; [assumption || reflexivity |]).
    split.
    + rewrite Htxs, length_map. apply orderByCreatedAt_length.
    + exact (getPaymentStatus_sorted paymentId w w r Hrun).
Qed.

Lemma payments_get_answers_witness :
  snd (payments_get 1 completedWorld) = completedWorld
  /\ fst (payments_get 7 completedWorld)
     = (404, StatusFailure "Payment not found")
  /\ exists r,
       fst (payments_get 1 completedWorld) = (200, StatusData r)
       /\ r.(PaymentStatusResponse.status) = PaymentStatus.COMPLETED
       /\ List.length r.(PaymentStatusResponse.transactions) = 4.
Proof.
  destruct (payments_get_answers 1 completedWorld completedWorld_reachable)
    as (Hsame & _ & Hfound).
  destruct (payments_get_answers 7 completedWorld completedWorld_reachable)
    as (_ & Hmissing & _).
  assert (Hids : paymentIds completedWorld = [1]) by compute_lhs.
  split; [exact Hsame |]. split.
  - apply Hmissing. rewrite Hids. intros [H | []]. discriminate H.
  - destruct Hfound as (r & p & Hans & Hp & Hst & _ & _ & Hlen & _).
    { rewrite Hids. left. reflexivity. }
    exists r. split; [exact Hans |].
    assert (Hstored : exists q,
               paymentById 1 completedWorld = Some q
               /\ q.(Payment.status) = PaymentStatus.COMPLETED).
    { eexists. split; [compute_lhs | reflexivity]. }
    destruct Hstored as (q & Hq & Hstatus).
    rewrite Hp in Hq. injection Hq as <-.
    split; [rewrite Hst; exact Hstatus |].
    rewrite Hlen. compute_lhs.
Defined.

(* ================================================================== *)
(** * The vendor service and its routes                                 *)
(* ================================================================== *)

(** The row [createVendor] writes for a request, in a given directory. *)
Lemma vendors_post_outcomes (body : VendorBody.t) (d : Directory.t) :
  (exists e, vendors_post body d = ((400, ReplyError e), d))
  \/ (exists name email bank accountNumber routingNumber bankName
             accountHolder,
        body.(VendorBody.name) = Some name
        /\ body.(VendorBody.email) = Some email
        /\ body.(VendorBody.bankAccount) = Some bank
        /\ bank.(VendorBody.accountNumber) = Some accountNumber
        /\ bank.(VendorBody.routingNumber) = Some routingNumber
        /\ bank.(VendorBody.bankName) = Some bankName
        /\ bank.(VendorBody.accountHolder) = Some accountHolder
        /\ validateEmail email = true
        /\ validateBankAccount accountNumber routingNumber = true
        /\ List.find (vendorStore.by_email email) d.(Directory.vendors)
           = None
        /\ List.find (vendorStore.by_email (toLowerCase email))
                     d.(Directory.vendors) = None
        /\ let account :=
             BankAccountRow.mk (S d.(Directory.nextId)) accountNumber
               routingNumber (sanitizeString bankName)
               (sanitizeString accountHolder) "US" "USD" in
           let row :=
             VendorRow.mk d.(Directory.nextId) (sanitizeString name)
               (toLowerCase email)
               (sanitizeOptional body.(VendorBody.phone))
               (sanitizeOptional body.(VendorBody.address))
               VendorStatus.ACTIVE (Some account)
               d.(Directory.clock) d.(Directory.clock) in
           vendors_post body d
           = ((201,
               ReplyData
                 (VendorCreated.mk row.(VendorRow.id) row.(VendorRow.name)
                    row.(VendorRow.email) row.(VendorRow.phone)
                    row.(VendorRow.address) VendorStatus.ACTIVE
                    (Some (maskAccount account)) d.(Directory.clock))),
              Directory.mk (d.(Directory.vendors) ++ [row])
                d.(Directory.payments) d.(Directory.clock)
                (S (S d.(Directory.nextId))))).
Proof.
  unfold vendors_post.
  destruct body as [name email phone address bankAccount]; cbn.
  destruct bankAccount as [[an rn bn ah] |]; [| left; eexists; reflexivity].
  destruct name as [[| n0 name] |]; cbn; try (left; eexists; reflexivity).
  destruct email as [[| e0 email] |]; cbn; try (left; eexists; reflexivity).
  destruct an as [[| a0 an] |]; cbn; try (left; eexists; reflexivity).
  destruct rn as [[| r0 rn] |]; cbn; try (left; eexists; reflexivity).
  destruct bn as [[| b0 bn] |]; cbn; try (left; eexists; reflexivity).
  destruct ah as [[| h0 ah] |]; cbn; try (left; eexists; reflexivity).
  unfold VendorService.createVendor, Dir.try_catch, vendorStore.create,
    vendorStore.findUnique, Dir.bind, Dir.gets, Dir.throw, Dir.ret,
    Dir.freshId, Dir.now, Dir.modify.
  cbn [CreateVendorRequest.email CreateVendorRequest.bankAccount
       BankDetails.accountNumber BankDetails.routingNumber
       CreateVendorRequest.name CreateVendorRequest.phone
       CreateVendorRequest.address BankDetails.bankName
       BankDetails.accountHolder].
  cbv beta.
  destruct (validateEmail (String e0 email)) eqn:Hemail; cbn [negb];
    [| left; eexists; reflexivity].
  destruct (validateBankAccount (String a0 an) (String r0 rn)) eqn:Hbank;
    cbn [negb]; [| left; eexists; reflexivity].
  destruct (find (vendorStore.by_email (String e0 email))
                 (Directory.vendors d)) eqn:Hfound;
    [left; eexists; reflexivity |].
  destruct (find (vendorStore.by_email (toLowerCase (String e0 email)))
                 (Directory.vendors d)) eqn:Hstored;
    [left; eexists; reflexivity |].
  right.
  exists (String n0 name), (String e0 email), (VendorBody.mkBank
    (Some (String a0 an)) (Some (String r0 rn)) (Some (String b0 bn))
    (Some (String h0 ah))).
  exists (String a0 an), (String r0 rn), (String b0 bn), (String h0 ah).
  repeat (split; [reflexivity || assumption |]).
  reflexivity.
Qed.

Lemma lowerChar_twice (c : ascii) : lowerChar (lowerChar c) = lowerChar c.
Proof.
  destruct c as [[] [] [] [] [] [] [] []]; vm_compute; reflexivity.
Qed.

Lemma toLowerCase_twice (s : string) :
  toLowerCase (toLowerCase s) = toLowerCase s.
Proof.
  induction s as [| c s IH]; [reflexivity |].
  cbn [toLowerCase]. rewrite lowerChar_twice, IH. reflexivity.
Qed.

Lemma lowerChar_notSpaceOrAt (c : ascii) :
  notSpaceOrAt (lowerChar c) = notSpaceOrAt c.
Proof.
  destruct c as [[] [] [] [] [] [] [] []]; vm_compute; reflexivity.
Qed.

Lemma lowerChar_at (c : ascii) :
  Ascii.eqb "@" (lowerChar c) = Ascii.eqb "@" c.
Proof.
  destruct c as [[] [] [] [] [] [] [] []]; vm_compute; reflexivity.
Qed.

Lemma lowerChar_dot (c : ascii) :
  Ascii.eqb "." (lowerChar c) = Ascii.eqb "." c.
Proof.
  destruct c as [[] [] [] [] [] [] [] []]; vm_compute; reflexivity.
Qed.

(** Lower-casing is invisible to a pattern whose classes do not tell a
    letter from its lower case. *)
Lemma repeat_lower (class : ascii -> bool) (k k' : string -> bool) :
  (forall c, class (lowerChar c) = class c) ->
  (forall s, k (toLowerCase s) = k' s) ->
  forall s least most,
    RegExp.repeat class least most k (toLowerCase s)
    = RegExp.repeat class least most k' s.
Proof.
  intros Hclass Hk. induction s as [| c rest IH]; intros least most.
  - cbn [toLowerCase RegExp.repeat]. rewrite <- (Hk ""). reflexivity.
  - pose proof (Hk (String c rest)) as E. cbn [toLowerCase] in E.
    cbn [toLowerCase RegExp.repeat]. rewrite E, Hclass.
    destruct (RegExp.spend most); [rewrite IH |]; reflexivity.
Qed.

Lemma test_lower (pattern : list RegExp.Atom) :
  Forall (fun a => forall c,
            a.(RegExp.class) (lowerChar c) = a.(RegExp.class) c) pattern ->
  forall s, RegExp.test pattern (toLowerCase s) = RegExp.test pattern s.
Proof.
  induction 1 as [| a more Ha _ IH]; intros s.
  - destruct s; reflexivity.
  - cbn [RegExp.test]. apply repeat_lower; [exact Ha | exact IH].
Qed.

Lemma validateEmail_lower (email : string) :
  validateEmail (toLowerCase email) = validateEmail email.
Proof.
  unfold validateEmail, emailRegex. apply test_lower.
  repeat constructor; cbn [RegExp.class RegExp.oneOrMore RegExp.one];
    auto using lowerChar_notSpaceOrAt, lowerChar_at, lowerChar_dot.
Qed.

Lemma update_where_map {A B} (proj : A -> B) (sel : A -> bool) (f : A -> A)
    (l : list A) :
  (forall x, proj (f x) = proj x) ->
  map proj (prisma.update_where sel f l) = map proj l.
Proof.
  intros Hf. unfold prisma.update_where. rewrite map_map.
  apply map_ext. intros x. destruct (sel x); [apply Hf | reflexivity].
Qed.

Lemma NoDup_snoc {A} (l : list A) (x : A) :
  NoDup l -> ~ In x l -> NoDup (l ++ [x]).
Proof.
  intros Hl Hx. induction Hl as [| y l Hy Hl IH]; cbn.
  - constructor; [intros [] | constructor].
  - constructor.
    + rewrite in_app_iff. intros [H | [H | []]]; [exact (Hy H) |].
      apply Hx. left. symmetry. exact H.
    + apply IH. intros H. apply Hx. right. exact H.
Qed.

Lemma find_email_none (email : string) (l : list VendorRow.t) :
  List.find (vendorStore.by_email email) l = None ->
  ~ In email (map VendorRow.email l).
Proof.
  intros Hnone Hin. apply in_map_iff in Hin.
  destruct Hin as (v & Hv & Hin).
  pose proof (find_none _ _ Hnone v Hin) as H.
  unfold vendorStore.by_email in H. rewrite Hv, String.eqb_refl in H.
  discriminate.
Qed.

Lemma find_id_none (i : Id) (l : list VendorRow.t) :
  List.find (vendorStore.by_id i) l = None
  <-> ~ In i (map VendorRow.id l).
Proof.
  split.
  - intros Hnone Hin. apply in_map_iff in Hin.
    destruct Hin as (v & Hv & Hin).
    pose proof (find_none _ _ Hnone v Hin) as H.
    unfold vendorStore.by_id in H. rewrite Hv, Nat.eqb_refl in H.
    discriminate.
  - intros Hnot. destruct (find (vendorStore.by_id i) l) eqn:E;
      [| reflexivity].
    apply find_some in E. destruct E as [Hin Hid].
    unfold vendorStore.by_id in Hid. apply Nat.eqb_eq in Hid.
    exfalso. apply Hnot. rewrite <- Hid. apply in_map. exact Hin.
Qed.

(** What PATCH /vendors/:vendorId/status does, in a given directory. *)
Lemma vendors_patch_outcomes (vendorId : Id) (status : VendorStatus.t)
    (d : Directory.t) :
  (List.find (vendorStore.by_id vendorId) d.(Directory.vendors) = None
   /\ vendors_patch_status vendorId status d
      = ((404, ReplyError "Vendor not found"), d))
  \/ (exists v,
        List.find (vendorStore.by_id vendorId) d.(Directory.vendors)
        = Some v
        /\ vendors_patch_status vendorId status d
           = ((200,
               ReplyData
                 (VendorStatusChanged.mk v.(VendorRow.id) v.(VendorRow.name)
                    v.(VendorRow.email) status d.(Directory.clock))),
              Directory.with_vendors
                (prisma.update_where (vendorStore.by_id vendorId)
                   (VendorRow.set_status status d.(Directory.clock))
                   d.(Directory.vendors)) d)).
Proof.
  unfold vendors_patch_status, VendorService.updateVendorStatus,
    vendorStore.update, vendorStore.findUnique, Dir.bind, Dir.gets,
    Dir.throw, Dir.ret, Dir.now, Dir.modify.
  cbv beta.
  destruct (find (vendorStore.by_id vendorId) (Directory.vendors d))
    as [v |] eqn:Hfound.
  - right. exists v. split; [reflexivity |]. rewrite Hfound. reflexivity.
  - left. split; reflexivity.
Qed.

Lemma asWritten_set_status (s : VendorStatus.t) (t : Timestamp)
    (v : VendorRow.t) :
  asWritten v -> asWritten (VendorRow.set_status s t v).
Proof. intros H. exact H. Qed.

Lemma update_where_in {A} (sel : A -> bool) (f : A -> A) (l : list A)
    (y : A) :
  In y (prisma.update_where sel f l) ->
  exists x, In x l
            /\ ((sel x = false /\ y = x) \/ (sel x = true /\ y = f x)).
Proof.
  unfold prisma.update_where. intros H. apply in_map_iff in H.
  destruct H as (x & Hy & Hx). exists x. split; [exact Hx |].
  destruct (sel x); [right | left];
    (split; [reflexivity | symmetry; exact Hy]).
Qed.

Lemma dirExec_wellKept (op : DirOp) (d : Directory.t) :
  wellKept d -> wellKept (dirExec op d).
Proof.
  intros (Hids & Hemails & Hrows & Hfresh).
  destruct op as [body | vendorId status | payments | ms];
    cbn [dirExec].
  - destruct (vendors_post_outcomes body d) as [[e He] | H].
    { rewrite He. cbn [snd]. repeat split; assumption. }
    destruct H as (name & email & bank & an & rn & bn & ah & _ & _ & _ & _
                   & _ & _ & _ & Hemail & Hbank & _ & Hstored & Hpost).
    cbv zeta in Hpost. rewrite Hpost. cbn [snd].
    unfold wellKept, dirFresh.
    cbn [Directory.vendors Directory.nextId].
    rewrite !map_app. cbn [map VendorRow.id VendorRow.email].
    split; [| split; [| split]].
    + apply NoDup_snoc; [exact Hids |].
      intros Hin. apply in_map_iff in Hin. destruct Hin as (v & Hv & Hin).
      apply Hfresh in Hin. lia.
    + apply NoDup_snoc; [exact Hemails |].
      apply find_email_none. exact Hstored.
    + apply Forall_app. split; [exact Hrows |].
      constructor; [| constructor].
      unfold asWritten. cbn [VendorRow.email VendorRow.name
                             VendorRow.bankAccount].
      split; [apply toLowerCase_twice |].
      split; [rewrite validateEmail_lower; exact Hemail |].
      split; [unfold sanitizeString; apply removeAll_allOf |].
      eexists. split; [reflexivity |]. cbn. repeat split. exact Hbank.
    + intros v Hin. apply in_app_iff in Hin.
      destruct Hin as [Hin | [<- | []]];
        [apply Hfresh in Hin; lia | cbn; lia].
  - destruct (vendors_patch_outcomes vendorId status d)
      as [[_ ->] | (v & _ & ->)]; cbn [snd];
      [repeat split; assumption |].
    unfold wellKept, dirFresh, Directory.with_vendors.
    cbn [Directory.vendors Directory.nextId].
    rewrite !update_where_map by reflexivity.
    split; [exact Hids | split; [exact Hemails | split]].
    + apply Forall_forall. intros y Hy.
      apply update_where_in in Hy.
      destruct Hy as (x & Hx & [[_ ->] | [_ ->]]);
        [| apply asWritten_set_status];
        exact (proj1 (Forall_forall _ _) Hrows x Hx).
    + intros y Hy. apply update_where_in in Hy.
      destruct Hy as (x & Hx & [[_ ->] | [_ ->]]); exact (Hfresh x Hx).
  - repeat split; assumption.
  - repeat split; assumption.
Qed.

Lemma dirRun_wellKept (ops : list DirOp) (d : Directory.t) :
  wellKept d -> wellKept (dirRun ops d).
Proof.
  revert d. induction ops as [| op ops IH]; intros d H; [exact H |].
  apply IH, dirExec_wellKept, H.
Qed.

Lemma dirReachable_wellKept (d : Directory.t) :
  dirReachable d -> wellKept d.
Proof.
  intros (clock & ops & ->). apply dirRun_wellKept.
  repeat split; cbn; try constructor. intros v [].
Qed.

Lemma sampleDirectory_reachable : dirReachable sampleDirectory.
Proof. exists 1000%Z. eexists. reflexivity. Qed.

Lemma NoDup_map_same {A B} (f : A -> B) (l : list A) (x y : A) :
  NoDup (map f l) -> In x l -> In y l -> f x = f y -> x = y.
Proof.
  induction l as [| a l IH]; intros Hnd Hx Hy Hxy; [destruct Hx |].
  cbn [map] in Hnd. inversion Hnd as [| ? ? Ha Hl]; subst.
  destruct Hx as [-> | Hx], Hy as [-> | Hy].
  - reflexivity.
  - exfalso. apply Ha. rewrite Hxy. apply in_map. exact Hy.
  - exfalso. apply Ha. rewrite <- Hxy. apply in_map. exact Hx.
  - apply IH; assumption.
Qed.

(** X22. POST /vendors answers 201 or 400.  With 400 nothing is written.
    With 201 the body held a name, an email [validateEmail] accepts and
    bank numbers [validateBankAccount] accepts; one vendor row has been
    appended and nothing else changed; the row holds the sanitised name,
    the email in lower case, the status ACTIVE and a US account in USD with
    the numbers as given; the answer shows that row, its account number
    masked. *)
Theorem vendors_post_answers (body : VendorBody.t) (d : Directory.t) :
  let '(status, reply, d') := vendors_post body d in
  (status = 400 /\ (exists e, reply = ReplyError e) /\ d' = d)
  \/ (status = 201
      /\ exists name email bank row account vendor,
           body.(VendorBody.name) = Some name
           /\ body.(VendorBody.email) = Some email
           /\ body.(VendorBody.bankAccount) = Some bank
           /\ validateEmail email = true
           /\ bank.(VendorBody.accountNumber)
              = Some account.(BankAccountRow.accountNumber)
           /\ bank.(VendorBody.routingNumber)
              = Some account.(BankAccountRow.routingNumber)
           /\ validateBankAccount account.(BankAccountRow.accountNumber)
                                  account.(BankAccountRow.routingNumber)
              = true
           /\ d'.(Directory.vendors) = d.(Directory.vendors) ++ [row]
           /\ d'.(Directory.payments) = d.(Directory.payments)
           /\ d'.(Directory.clock) = d.(Directory.clock)
           /\ row.(VendorRow.name) = sanitizeString name
           /\ row.(VendorRow.email) = toLowerCase email
           /\ row.(VendorRow.status) = VendorStatus.ACTIVE
           /\ row.(VendorRow.bankAccount) = Some account
           /\ account.(BankAccountRow.country) = "US"
           /\ account.(BankAccountRow.currency) = "USD"
           /\ reply = ReplyData vendor
           /\ vendor.(VendorCreated.id) = row.(VendorRow.id)
           /\ vendor.(VendorCreated.name) = row.(VendorRow.name)
           /\ vendor.(VendorCreated.email) = row.(VendorRow.email)
           /\ vendor.(VendorCreated.status) = VendorStatus.ACTIVE
           /\ vendor.(VendorCreated.bankAccount)
              = Some (maskAccount account)).
Proof.
  destruct (vendors_post_outcomes body d) as [[e He] | H].
  - rewrite He. left. repeat split. exists e. reflexivity.
  - destruct H as (name & email & bank & an & rn & bn & ah & Hname & Hmail
                   & Hbody & Han & Hrn & _ & _ & Hemail & Hbank & _ & _
                   & Hpost).
    cbv zeta in Hpost. rewrite Hpost. right. split; [reflexivity |].
    exists name, email, bank. do 3 eexists.
    split; [exact Hname |]. split; [exact Hmail |]. split; [exact Hbody |].
    split; [exact Hemail |].
    cbn [Directory.vendors Directory.payments Directory.clock].
    split; [| split; [| split; [| split; [reflexivity |]]]].
    4: repeat split.
    + exact Han.
    + exact Hrn.
    + exact Hbank.
Qed.

(** X23. In every directory the vendor routes can build, no two vendors
    share an id or an email, not even up to letter case; every stored
    email is in lower case and passes [validateEmail]; every name is free
    of angle brackets; every vendor has a US bank account in USD whose
    numbers pass [validateBankAccount]. *)
Theorem vendor_directory_is_well_kept (d : Directory.t) :
  dirReachable d ->
  NoDup (map VendorRow.id d.(Directory.vendors))
  /\ NoDup (map VendorRow.email d.(Directory.vendors))
  /\ (forall v v', In v d.(Directory.vendors) ->
                   In v' d.(Directory.vendors) ->
                   toLowerCase v.(VendorRow.email)
                   = toLowerCase v'.(VendorRow.email) ->
                   v = v')
  /\ Forall asWritten d.(Directory.vendors).
Proof.
  intros Hd. apply dirReachable_wellKept in Hd.
  destruct Hd as (Hids & Hemails & Hrows & _).
  repeat split; try assumption.
  intros v v' Hv Hv' Hsame.
  apply (NoDup_map_same VendorRow.email _ _ _ Hemails Hv Hv').
  pose proof (proj1 (Forall_forall _ _) Hrows v Hv) as (Hl & _).
  pose proof (proj1 (Forall_forall _ _) Hrows v' Hv') as (Hl' & _).
  rewrite <- Hl, <- Hl'. exact Hsame.
Qed.

Lemma vendor_directory_is_well_kept_witness :
  NoDup (map VendorRow.id sampleDirectory.(Directory.vendors))
  /\ NoDup (map VendorRow.email sampleDirectory.(Directory.vendors))
  /\ (forall v v', In v sampleDirectory.(Directory.vendors) ->
                   In v' sampleDirectory.(Directory.vendors) ->
                   toLowerCase v.(VendorRow.email)
                   = toLowerCase v'.(VendorRow.email) ->
                   v = v')
  /\ Forall asWritten sampleDirectory.(Directory.vendors).
Proof.
  apply (vendor_directory_is_well_kept sampleDirectory).
  exists 1000%Z. eexists. reflexivity.
Defined.

(** X24. PATCH /vendors/:vendorId/status answers 404 and writes nothing
    when no vendor has the id; otherwise it answers 200 with the new
    status, and in the directory the vendors of that id have the new status
    and the current time as time of update, while every other vendor row,
    every other column of the vendor, the order of the rows and the
    payments are as before. *)
Theorem vendors_patch_status_answers (vendorId : Id)
    (status : VendorStatus.t) (d : Directory.t) :
  let '(code, reply, d') := vendors_patch_status vendorId status d in
  d'.(Directory.payments) = d.(Directory.payments)
  /\ Forall2 sameVendor d.(Directory.vendors) d'.(Directory.vendors)
  /\ ((code = 404 /\ reply = ReplyError "Vendor not found" /\ d' = d
       /\ ~ In vendorId (map VendorRow.id d.(Directory.vendors)))
      \/ (code = 200
          /\ In vendorId (map VendorRow.id d.(Directory.vendors))
          /\ (forall v', In v' d'.(Directory.vendors) ->
                         v'.(VendorRow.id) = vendorId ->
                         v'.(VendorRow.status) = status
                         /\ v'.(VendorRow.updatedAt) = d.(Directory.clock))
          /\ (forall v', In v' d'.(Directory.vendors) ->
                         v'.(VendorRow.id) <> vendorId ->
                         In v' d.(Directory.vendors))
          /\ exists vendor,
               reply = ReplyData vendor
               /\ vendor.(VendorStatusChanged.id) = vendorId
               /\ vendor.(VendorStatusChanged.status) = status)).
Proof.
  assert (Hsame : forall f l,
             (forall v, sameVendor v (f v)) ->
             Forall2 sameVendor l
               (prisma.update_where (vendorStore.by_id vendorId) f l)).
  { intros f l Hf. induction l as [| v l IH]; [constructor |].
    cbn [prisma.update_where map]. constructor; [| exact IH].
    destruct (vendorStore.by_id vendorId v);
      [apply Hf | repeat split]. }
  destruct (vendors_patch_outcomes vendorId status d)
    as [[Hnone ->] | (v & Hfound & ->)].
  - split; [reflexivity |]. split.
    + clear. induction (Directory.vendors d); constructor;
        [repeat split | assumption].
    + left. repeat split. apply find_id_none. exact Hnone.
  - cbn [Directory.with_vendors Directory.payments Directory.vendors].
    split; [reflexivity |]. split.
    + apply Hsame. intros x. repeat split.
    + right. split; [reflexivity |].
      pose proof (find_some _ _ Hfound) as [Hin Hid].
      unfold vendorStore.by_id in Hid. apply Nat.eqb_eq in Hid.
      split; [rewrite <- Hid; apply in_map; exact Hin |].
      split; [| split].
      * intros v' Hv' Hid'. apply update_where_in in Hv'.
        destruct Hv' as (x & Hx & [[Hsel ->] | [_ ->]]);
          [| split; reflexivity].
        unfold vendorStore.by_id in Hsel. apply Nat.eqb_neq in Hsel.
        contradiction.
      * intros v' Hv' Hid'. apply update_where_in in Hv'.
        destruct Hv' as (x & Hx & [[_ ->] | [Hsel ->]]); [exact Hx |].
        exfalso. apply Hid'. cbn. apply Nat.eqb_eq. exact Hsel.
      * eexists. split; [reflexivity |]. split; [exact Hid | reflexivity].
Qed.

Lemma substring_all (s : string) : String.substring 0 (String.length s) s = s.
Proof.
  induction s as [| c s IH]; [reflexivity |].
  cbn [String.length String.substring]. rewrite IH. reflexivity.
Qed.

(** A string is its first [k] characters followed by the rest. *)
Lemma substring_split (k : nat) (s : string) :
  k <= String.length s ->
  s = String.substring 0 k s +++ String.substring k (String.length s - k) s
  /\ String.length (String.substring 0 k s) = k.
Proof.
  revert s. induction k as [| k IH]; intros s Hk.
  - rewrite Nat.sub_0_r, substring_all.
    destruct s; split; reflexivity.
  - destruct s as [| c s]; [cbn in Hk; lia |].
    cbn [String.length] in Hk |- *.
    destruct (IH s) as [Hs Hlen]; [lia |].
    cbn [String.substring String.append String.length Nat.sub].
    split; [f_equal; exact Hs | rewrite Hlen; reflexivity].
Qed.

(** Of four characters or more, [slice(-4)] keeps the last four. *)
Lemma sliceLast_suffix (s : string) :
  4 <= String.length s ->
  exists hidden,
    s = hidden +++ sliceLast 4 s
    /\ String.length hidden = String.length s - 4
    /\ String.length (sliceLast 4 s) = 4.
Proof.
  intros Hlen. unfold sliceLast.
  destruct (substring_split (String.length s - 4) s) as [Hs Hk]; [lia |].
  replace (String.length s - (String.length s - 4)) with 4 in Hs by lia.
  exists (String.substring 0 (String.length s - 4) s).
  split; [exact Hs |]. split; [exact Hk |].
  apply (f_equal String.length) in Hs. rewrite append_length, Hk in Hs.
  lia.
Qed.

Lemma validateBankAccount_digits (accountNumber routingNumber : string) :
  validateBankAccount accountNumber routingNumber = true ->
  allOf isDigit accountNumber = true
  /\ 8 <= String.length accountNumber <= 17.
Proof.
  unfold validateBankAccount, accountRegex.
  cbn [RegExp.test RegExp.between RegExp.class RegExp.least RegExp.most].
  rewrite andb_true_iff, repeat_spec.
  intros [(a & r & -> & Ha & Ha1 & Ha2 & H) _].
  apply String.eqb_eq in H. subst r. rewrite append_empty_r.
  cbn [within] in Ha2. repeat split; try assumption; lia.
Qed.

Lemma find_id_in (l : list VendorRow.t) (v : VendorRow.t) :
  NoDup (map VendorRow.id l) -> In v l ->
  List.find (vendorStore.by_id v.(VendorRow.id)) l = Some v.
Proof.
  intros Hnd Hin.
  destruct (find (vendorStore.by_id (VendorRow.id v)) l) as [x |] eqn:E.
  - apply find_some in E. destruct E as [Hx Hid].
    unfold vendorStore.by_id in Hid. apply Nat.eqb_eq in Hid.
    f_equal. exact (NoDup_map_same VendorRow.id l x v Hnd Hx Hin Hid).
  - exfalso. apply find_id_none in E. apply E, in_map, Hin.
Qed.

(** What GET /vendors/:vendorId answers, in a given directory. *)
Lemma vendors_get_outcomes (vendorId : Id) (d : Directory.t) :
  (List.find (vendorStore.by_id vendorId) d.(Directory.vendors) = None
   /\ vendors_get vendorId d = ((404, ReplyError "Vendor not found"), d))
  \/ (exists v,
        List.find (vendorStore.by_id vendorId) d.(Directory.vendors)
        = Some v
        /\ vendors_get vendorId d
           = ((200,
               ReplyData
                 (VendorDetails.mk
                    v.(VendorRow.id) v.(VendorRow.name) v.(VendorRow.email)
                    v.(VendorRow.phone) v.(VendorRow.address)
                    v.(VendorRow.status)
                    (option_map maskAccount v.(VendorRow.bankAccount))
                    (map digest
                         (VendorService.includedPayments vendorId d))
                    v.(VendorRow.createdAt) v.(VendorRow.updatedAt))),
              d)).
Proof.
  unfold vendors_get, VendorService.getVendor, vendorStore.findUnique,
    Dir.bind, Dir.gets, Dir.throw, Dir.ret.
  cbv beta.
  destruct (find (vendorStore.by_id vendorId) (Directory.vendors d))
    as [v |] eqn:Hfound.
  - right. exists v. split; reflexivity.
  - left. split; reflexivity.
Qed.

(** X25. Of a vendor in a directory the routes can build,
    GET /vendors/:vendorId shows the bank account with only the last four
    digits of its number: the stored number is some hidden digits, four or
    more, followed by four shown ones, and the answer holds four stars and
    the shown ones. *)
Theorem account_number_is_masked (d : Directory.t) (v : VendorRow.t) :
  dirReachable d -> In v d.(Directory.vendors) ->
  exists details account shown hidden,
    vendors_get v.(VendorRow.id) d = ((200, ReplyData details), d)
    /\ v.(VendorRow.bankAccount) = Some account
    /\ account.(BankAccountRow.accountNumber) = hidden +++ shown
    /\ allOf isDigit account.(BankAccountRow.accountNumber) = true
    /\ String.length shown = 4
    /\ 4 <= String.length hidden
    /\ option_map MaskedAccount.accountNumber
                  details.(VendorDetails.bankAccount)
       = Some ("****" +++ shown).
Proof.
  intros Hd Hin. apply dirReachable_wellKept in Hd.
  destruct Hd as (Hids & _ & Hrows & _).
  pose proof (find_id_in _ _ Hids Hin) as Hfound.
  destruct (vendors_get_outcomes v.(VendorRow.id) d)
    as [[Hnone _] | (x & Hx & Hget)]; [congruence |].
  rewrite Hfound in Hx. injection Hx as <-.
  pose proof (proj1 (Forall_forall _ _) Hrows v Hin)
    as (_ & _ & _ & account & Haccount & Hvalid & _).
  apply validateBankAccount_digits in Hvalid.
  destruct Hvalid as [Hdigits Hlen].
  destruct (sliceLast_suffix account.(BankAccountRow.accountNumber))
    as (hidden & Hsplit & Hhidden & Hshown); [lia |].
  eexists. exists account.
  exists (sliceLast 4 account.(BankAccountRow.accountNumber)), hidden.
  split; [exact Hget |]. split; [exact Haccount |].
  split; [exact Hsplit |]. split; [exact Hdigits |].
  split; [exact Hshown |]. split; [lia |].
  cbn [VendorDetails.bankAccount]. rewrite Haccount. reflexivity.
Qed.

Lemma account_number_is_masked_witness :
  exists v,
    In v sampleDirectory.(Directory.vendors)
    /\ exists details account shown hidden,
         vendors_get v.(VendorRow.id) sampleDirectory
         = ((200, ReplyData details), sampleDirectory)
         /\ v.(VendorRow.bankAccount) = Some account
         /\ account.(BankAccountRow.accountNumber) = hidden +++ shown
         /\ allOf isDigit account.(BankAccountRow.accountNumber) = true
         /\ String.length shown = 4
         /\ 4 <= String.length hidden
         /\ option_map MaskedAccount.accountNumber
                       details.(VendorDetails.bankAccount)
            = Some ("****" +++ shown).
Proof.
  eexists. split; [left; reflexivity |].
  apply account_number_is_masked; [| left; reflexivity].
  exists 1000%Z. eexists. reflexivity.
Defined.

Section NewestFirst.

Context {A : Type} (createdAt : A -> Timestamp).

Lemma insertDesc_in (x y : A) (l : list A) :
  In y (insertDesc createdAt x l) <-> y = x \/ In y l.
Proof.
  induction l as [| a l IH]; cbn [insertDesc].
  - cbn. intuition congruence.
  - destruct (createdAt a <=? createdAt x)%Z; cbn [In].
    + intuition congruence.
    + rewrite IH. intuition congruence.
Qed.

Lemma orderByDesc_in (y : A) (l : list A) :
  In y (orderByDesc createdAt l) <-> In y l.
Proof.
  unfold orderByDesc. induction l as [| a l IH]; [reflexivity |].
  cbn [fold_right In]. rewrite insertDesc_in, IH. intuition congruence.
Qed.

Lemma insertDesc_length (x : A) (l : list A) :
  List.length (insertDesc createdAt x l) = S (List.length l).
Proof.
  induction l as [| a l IH]; [reflexivity |].
  cbn [insertDesc]. destruct (createdAt a <=? createdAt x)%Z;
    cbn [List.length]; [| rewrite IH]; reflexivity.
Qed.

Lemma orderByDesc_length (l : list A) :
  List.length (orderByDesc createdAt l) = List.length l.
Proof.
  unfold orderByDesc. induction l as [| a l IH]; [reflexivity |].
  cbn [fold_right]. rewrite insertDesc_length, IH. reflexivity.
Qed.

Lemma insertDesc_newestFirst (x : A) (l : list A) :
  newestFirst createdAt l -> newestFirst createdAt (insertDesc createdAt x l).
Proof.
  unfold newestFirst. induction 1 as [| a l Hl IH Ha].
  - cbn. constructor; constructor.
  - cbn [insertDesc].
    destruct (createdAt a <=? createdAt x)%Z eqn:E.
    + apply Z.leb_le in E. constructor.
      * constructor; assumption.
      * constructor; [exact E |].
        apply Forall_forall. intros b Hb.
        pose proof (proj1 (Forall_forall _ _) Ha b Hb) as Hba.
        cbv beta in Hba. exact (Z.le_trans _ _ _ Hba E).
    + apply Z.leb_gt in E. constructor; [exact IH |].
      apply Forall_forall. intros b Hb. apply insertDesc_in in Hb.
      destruct Hb as [-> | Hb]; [apply Z.lt_le_incl; exact E |].
      exact (proj1 (Forall_forall _ _) Ha b Hb).
Qed.

Lemma orderByDesc_newestFirst (l : list A) :
  newestFirst createdAt (orderByDesc createdAt l).
Proof.
  unfold orderByDesc. induction l as [| a l IH]; [constructor |].
  cbn [fold_right]. apply insertDesc_newestFirst, IH.
Qed.

(** The front of a list that runs newest first is newest first, and
    nothing behind it is newer than anything in it. *)
Lemma newestFirst_front (n : nat) (l : list A) :
  newestFirst createdAt l ->
  newestFirst createdAt (firstn n l)
  /\ forall a b, In a (firstn n l) -> In b (skipn n l) ->
                 (createdAt b <= createdAt a)%Z.
Proof.
  unfold newestFirst. intros Hl. revert n.
  induction Hl as [| x l Hl IH Hx]; intros n.
  - destruct n; cbn; split; try constructor; intros a b [].
  - destruct n as [| n]; cbn [firstn skipn].
    + split; [constructor | intros a b []].
    + destruct (IH n) as [Hfront Hback]. split.
      * constructor; [exact Hfront |].
        apply Forall_forall. intros b Hb.
        apply (proj1 (Forall_forall _ _) Hx).
        rewrite <- (firstn_skipn n l). apply in_or_app. left. exact Hb.
      * intros a b [<- | Ha] Hb; [| exact (Hback a b Ha Hb)].
        apply (proj1 (Forall_forall _ _) Hx).
        rewrite <- (firstn_skipn n l). apply in_or_app. right. exact Hb.
Qed.

End NewestFirst.

(** X26. GET /vendors/:vendorId writes nothing.  It answers 404 when no
    vendor has the id.  Otherwise it answers 200, and the recent payments
    it lists are payments of that vendor, ten at most and all of them when
    the vendor has ten or fewer, from the newest to the oldest; a payment
    of the vendor that is left out is no newer than any that is listed. *)
Theorem recent_payments_are_the_newest (vendorId : Id) (d : Directory.t) :
  let '(code, reply, d') := vendors_get vendorId d in
  d' = d
  /\ ((code = 404 /\ reply = ReplyError "Vendor not found"
       /\ ~ In vendorId (map VendorRow.id d.(Directory.vendors)))
      \/ (code = 200
          /\ In vendorId (map VendorRow.id d.(Directory.vendors))
          /\ exists details recent,
               reply = ReplyData details
               /\ details.(VendorDetails.id) = vendorId
               /\ details.(VendorDetails.recentPayments) = map digest recent
               /\ List.length recent
                  = Nat.min 10
                      (List.length
                         (filter (fun p => Nat.eqb p.(Payment.vendorId)
                                                    vendorId)
                                 d.(Directory.payments)))
               /\ (forall p, In p recent ->
                     In p d.(Directory.payments)
                     /\ p.(Payment.vendorId) = vendorId)
               /\ newestFirst Payment.createdAt recent
               /\ (forall p q,
                     In p d.(Directory.payments) ->
                     p.(Payment.vendorId) = vendorId ->
                     ~ In p recent -> In q recent ->
                     (p.(Payment.createdAt) <= q.(Payment.createdAt))%Z))).
Proof.
  destruct (vendors_get_outcomes vendorId d)
    as [[Hnone ->] | (v & Hfound & ->)].
  - split; [reflexivity |]. left. repeat split.
    apply find_id_none. exact Hnone.
  - split; [reflexivity |]. right. split; [reflexivity |].
    pose proof (find_some _ _ Hfound) as [Hin Hid].
    unfold vendorStore.by_id in Hid. apply Nat.eqb_eq in Hid.
    split; [rewrite <- Hid; apply in_map; exact Hin |].
    eexists. exists (VendorService.includedPayments vendorId d).
    split; [reflexivity |]. split; [exact Hid |].
    split; [reflexivity |].
    unfold VendorService.includedPayments.
    set (own := filter _ _).
    pose proof (newestFirst_front Payment.createdAt 10 _
                  (orderByDesc_newestFirst Payment.createdAt own))
      as [Hfront Hback].
    split; [rewrite length_firstn, orderByDesc_length; reflexivity |].
    split; [| split; [exact Hfront |]].
    + intros p Hp.
      assert (Hown : In p own).
      { apply (orderByDesc_in Payment.createdAt).
        rewrite <- (firstn_skipn 10 (orderByDesc _ own)).
        apply in_or_app. left. exact Hp. }
      apply filter_In in Hown. destruct Hown as [Hp' Hv].
      split; [exact Hp' | apply Nat.eqb_eq; exact Hv].
    + intros p q Hp Hv Hout Hq. apply (Hback q p Hq).
      assert (Hown : In p (orderByDesc Payment.createdAt own)).
      { apply orderByDesc_in. apply filter_In.
        split; [exact Hp | apply Nat.eqb_eq; exact Hv]. }
      rewrite <- (firstn_skipn 10 (orderByDesc _ own)) in Hown.
      apply in_app_or in Hown. destruct Hown as [Hown | Hown];
        [contradiction | exact Hown].
Qed.







Section ReadingNumerals.












End ReadingNumerals.




